(* ===== verification/_CoqProject ===== *)
-Q . S2P
Prelude.v
CInt.v
CMem.v
Footprint.v
Common.v
CircularBuffer.v
Ring.v
CircularFacts.v
CircularSearch.v
TemporaryBuffer.v
Concrete.v
CharDevice.v
DeviceFacts.v
WriteFacts.v
SeekFacts.v
ModuleFacts.v
DeviceSpec.v
Scenario.v
CircularProps.v
DeviceProps.v
TempProps.v
Systemcalls.v
Threading.v
Writer.v
CString.v
SeekCommand.v
DeviceInterface.v
DriverDevice.v
Process.v
SocketServer.v
SocketFacts.v
HandlerFacts.v
SocketProps.v
AcceptProps.v
Timestamp.v
FileDevice.v
Concurrency.v
ConcurrencyFacts.v
ServeSpec.v
ServerThreads.v
ThreadFacts.v
ConcurrentProps.v
ExitUnderLock.v
LineOrder.v
ServerProcess.v
ProcessFacts.v
ShutdownProps.v
BufferPacket.v
IoctlTest.v
DriverSteps.v
DriverAlone.v
RelyGuarantee.v
DriverRaces.v
DriverReaders.v
DriverWriter.v
DriverTurns.v
DriverFull.v
Validate.v
