(* ===== verification/Prelude.v ===== *)
(** * Verification of the aesd assignments repository

    The repository holds a Linux character device that keeps the last ten
    lines written to it ([src/aesd-char-driver]), a TCP server that appends
    the lines its clients send to that device and answers with its contents
    ([src/server]), and some smaller programs: [ioctl_test.c] beside the
    driver, [src/examples/systemcalls], [src/examples/threading],
    [src/examples/autotest-validate] and
    [src/finder-app/writer.c].  This library translates the C code into
    executable definitions over an explicit heap and proves what each part
    promises; it also proves where the code breaks its promise.

    ** How C is modelled

    [CInt]: an integer of the sources is a [Z]; [u8], [u32], [u64], [s32],
    [s64] are the wrap-arounds of the LP64 targets, written at each operation
    that can leave the range of its type.
    [CMem]: a heap maps block numbers to arrays of optional bytes ([None] for
    a byte never written).  A computation [M A] on the heap returns ([Done])
    or is [Stuck] with the undefined behaviour it ran into: an access outside
    a block, through [NULL] or a dangling pointer (which a double free is
    too), a read of an unwritten byte.  Whether an allocation succeeds is the class
    [Allocator]: any function of the size and of the history, so theorems
    that do not mention it hold for every pattern of failures.
    [Footprint]: [holds h L] says that the allocated blocks of [h] are exactly
    the chunks [L], up to permutation; [wp] rules for the heap operations
    carry a frame, so absence of leaks and of double frees is a consequence
    of the footprint a theorem ends with.

    ** The driver

    - [Common]: [common.c].
    - [CircularBuffer]: [aesd_circular_buffer.c/.h], one definition per
      function, the loops with their counters.  [Ring] is the same structure
      with pointers replaced by byte strings, its invariant [ring_wf] and the
      queue it stands for; [CircularFacts] and [CircularSearch] show that
      each C function implements its operation on rings ([circ_models]);
      [CircularProps] states the properties.
    - [TemporaryBuffer]: [aesd_temperaty_buffer.c] in its two copies, modules
      [Driver] and [Server]; [TempProps] states the properties.
    - [CharDevice]: [main.c] and [aesd_ioctl.h]: read, write, llseek, ioctl,
      loading and unloading.  User memory is a parameter: how many bytes of a
      copy cannot be transferred.  [DeviceFacts], [WriteFacts], [SeekFacts]
      and [ModuleFacts] specify the handlers against rings; [ModuleFacts]
      also has the step function of a system with any number of open files
      and its invariant.
    - [DeviceSpec]: the abstract device, a list of at most ten lines and a
      partial line, without rings or heaps; [DeviceProps] has the refinement
      of that device and the properties that user programs see.

    In these files a call is one operation.  The handlers take no lock, so
    calls of several processes can overlap, and a second group of files has
    the same code access by access:

    - [DriverSteps]: the handlers and what they call as programs whose steps
      are loads and stores of the fields of the two structures, calls of the
      allocator and copies; the processes on one device and their schedules.
      [DriverAlone]: run without interference, a program is the operation.
    - [RelyGuarantee]: processes that observe next to one that changes, the
      state going through phases; bounds of steps.
    - [DriverRaces]: what overlapping calls do to each other.
      [DriverReaders] and [DriverWriter]: one writer and any number of calls
      that change nothing, on a device that is not full or with a write that
      completes no line.  [DriverFull]: the other case.  [DriverTurns]: calls
      in turn against the abstract device.

    ** The server

    - [CString]: [strncmp], [strstr] and [strtoul] on the heap; they read
      past the end of a block when the C functions would.  [number_at] and
      [find_char] are their answers on lists.
    - [SeekCommand]: the three string checks of [aesdsocket.c];
      [command_of], the parser of seek commands on lists.
    - [DeviceInterface]: what a server needs of a device: [CharDevice], the
      operations; [DeviceModel], an abstract device; [CharDeviceLaws], the
      contract that a state implements it; [line_store], an abstract device
      of lines, with the slot of the oldest one, on which the answer to a seek
      depends.  [DriverDevice] shows that the driver keeps the contract,
      [FileDevice] that the file in [/var/tmp] of the other build
      ([USE_AESD_CHAR_DEVICE] set to 0) does, so the server's theorems hold of
      both.
    - [Process]: programs of a process, [SM D A], as data: sequences of calls
      on the heap, on the device and of the system.  [run] runs one alone.
    - [SocketServer]: [clientHandler] and what it calls, [main],
      [cleanupMain] and [logAndExit], as such programs, with the trace of
      their system calls.  Answers of [poll], [recv] and [accept], and the
      arrival of signals, are lists of events; the C library's
      streams are the class [Streams], with read-ahead and write-behind left
      open; [fopen] may fail at any time.  [Timestamp]: the thread of the
      build on the file.  [BufferPacket]: the array of packets, which nothing
      calls any more.
    - [SocketFacts]: a weakest precondition for [SM] and the streams against
      the device's contract.  [HandlerFacts]: [client_step], the abstract
      client, and the loop of the handler against it.  [SocketProps] and
      [AcceptProps]: the properties of one client's thread and of [main].
    - [Concurrency]: threads whose calls interleave; a state is the threads,
      the device and the owner of [fileMutex]; [step_task] makes one call of
      one thread.  [atomic_step] has whole bodies as steps.  [phased] is the
      discipline of the mutex.  [ConcurrencyFacts]: interleaved bodies that
      keep the discipline are bodies one after the other; none fails, and
      every schedule comes to an end.
    - [ServeSpec]: what the server's threads promise together, an executable
      specification with an event of a thread as a step.  [ServerThreads]: the
      bodies, an iteration of [clientHandler] and one of
      [timestampWriterHandler], and their discipline.  [ThreadFacts]: a body
      does what an event of the specification does.  [ConcurrentProps]: the
      properties.  [ExitUnderLock]: what the mutex does to a server that
      shuts down because a read failed.  [LineOrder]: clients that send lines,
      on the driver.
    - [ServerProcess]: [main], one call at a time, next to the threads it
      starts: a thread makes no step before its [pthread_create], the pipes
      of the shutdown hold bytes that the threads wait for and take, and
      [pthread_join] waits for the end of a thread.  [ProcessFacts]: an
      invariant of every execution, and a measure that every step decreases.
      [ShutdownProps]: where no step is possible, all is done.

    ** The smaller programs

    - [Systemcalls]: [systemcalls.c] with the descriptor table and the files
      of the process, over the class [Kernel] of answers of [fork], [execv],
      [waitpid], [open] and [system].
    - [Threading]: [threading.c] as a program counter per thread, interleaved
      one library call at a time; [reachable] is every interleaving.
    - [Writer]: [writer.c] over the class [Stdio].
    - [IoctlTest]: [ioctl_test.c], a process on the device interface.
    - [Validate]: [autotest-validate] and the unit test of the user name.

    [Concrete] and [Scenario] hold the concrete allocators, heaps and devices
    on which theorems with hypotheses are instantiated.

    ** What the theorems show

    - The device.  [DeviceProps]: a write refines the abstract device, what
      was written is read back, no sequence of calls and no failure corrupts
      or leaks memory, each error path leaves the state it should, the seek
      ioctl positions a reader while the buffer has not wrapped.
      [CircularProps]: additions keep the last ten entries; both searches
      compute positions in the concatenation and are inverse to each other.
    - Calls at the same time.  [DriverTurns]: calls that do not overlap, which
      is how the server's threads use the device, implement the abstract
      device from their single accesses up.  [DriverRaces]: calls that only look do not disturb each other; and with a
      writer, schedules that free an entry twice, copy freed memory, or lose
      data.  [DriverWriter]: while the device is not full, and on a full one
      while no line is completed, calls next to one write need no lock: each
      read, seek or ioctl answers for the device before the write or for the
      one after it.  [DriverFull]: on every full device a write of a line next
      to another one, or next to a read of the oldest line, does need one.
    - The server.  [SocketProps]: on the same condition the handler does what
      the abstract client does and accounts for every block, and with a
      request for memory refused it ends the process after doing so for the
      events before; it touches the device under its mutex only; a line that
      arrives in one piece is echoed, a seek command is answered; the accepting
      thread starts one thread per connection and shuts down in order at a
      signal ([AcceptProps]).  The two builds answer alike while the driver
      has forgotten no line ([FileDevice]).
    - The threads together, while no client brings an error of [recv], a
      malformed command or a seek that is refused ([ThreadFacts.serving]).
      [ConcurrentProps]: any interleaving of any number
      of clients and the clock is an order of whole events; no thread fails,
      the device is used under [fileMutex] only, every execution is finite and
      ends with all threads done, and the file holds whole packets; on the
      driver, the last ten lines in the order of service ([LineOrder]).
      A signal ends the whole process, clients being served or not: every
      thread gets its byte, ends and is joined ([ShutdownProps]).
      [Timestamp]: the clock's line fits its buffers in every year.
    - The programs.  [ioctl_test] prints what it is there to show; commands
      are run and redirected as asked, threads exclude each other and
      complete, the writer's string is in its file.
    - Defects.  The range check of the seek ioctl looks at the wrong entry;
      a write can lose its line without an error; failed allocations make a
      stored entry unreachable; the searches dereference a pointer they test
      for [NULL]; the server misses a line end that arrives in a short piece,
      runs past a buffer after an error of [recv] or on a command without
      comma, ends on a seek that is refused, overruns its thread table at
      the 129th connection and, when reading fails under its mutex, never
      shuts down while another thread waits for it; calls on the device that overlap corrupt it; the test program
      stores in front of its buffer after an error of [read]; [do_system] and
      the writer report success for failures.

    ** Bounds and fuel

    The loops over the ring run ten times, as in C.  [while] loops take a
    bound that a theorem shows to be enough: reading to the end needs more
    reads than there are bytes; [fread_loop] at most [2 * want + 2] turns,
    because a turn either delivers a byte or refills the buffer;
    [write_piece] one turn per byte; [send_file] more turns than the text has
    bytes; [strstr] and [strtoul] the length of the block; a driver call makes
    at most [call_bound] accesses. Running out is a value of its own
    ([Unfinished]) that the theorems exclude. Theorems about the server assume
    that the pending data of its clients and the partial line of the device
    stay within [dev_limit], for the driver the largest allocation of the
    kernel ([room_for], for the threads together), and that no seek is refused
    when its turn comes ([input_ok]; [manageable], for every order of the
    threads together, which [try_orders] decides and which holds of clients
    that send data only, [plain_manageable]).

    ** What is not modelled

    The accesses of [DriverSteps] are sequentially consistent, and a copy or a
    call of the allocator is one step; two processes that share an open file,
    and with it the position, are not modelled, nor is unloading the module
    while calls run.  The heap of the server is divided among its threads,
    each with its own history of allocations: no block passes between two of
    them once they run.  In [ServerProcess] seeing a byte in a pipe and taking
    it is one step, and a thread ends at its byte: shutdowns that a thread
    starts itself ([logAndExit]) are in [SocketProps] and [ExitUnderLock],
    without [main], and signals come to [main] alone.  The server and the test
    program have copies of the driver's [aesd_ioctl.h] that are the same text,
    modelled once, in [CharDevice].  [send] always sends all it is given: a
    peer that has closed the connection, for which [SIGPIPE] would end the
    process, and short sends, which the code does not look for, are left out.
    The clock's thread, started before its pipe is created, is modelled as
    polling that pipe from the beginning.  The arguments of debug messages
    are not evaluated.  Log messages and other
    output for people are left out, except where printing is all a program
    does, and so are all shell scripts. *)

From Stdlib Require Export ZArith Lia ZifyNat.
From Stdlib.Init Require Export Byte.
From Stdlib.Strings Require Import Byte.
From stdpp Require Export base tactics numbers list gmap strings.

#[global] Open Scope Z_scope.
#[global] Arguments Nat.modulo : simpl never.

(** ** Bytes *)

Abbreviation byte := Init.Byte.byte.

#[export] Instance byte_eq_dec : EqDecision byte := byte_eq_dec.

(** Character constants of the sources. *)
Definition ch_nul : byte := x00.
Definition ch_newline : byte := x0a.

(** ** Tactics *)

(** Turns boolean comparisons of [Z] in the context into propositions. *)
Ltac zbool :=
  repeat match goal with
  | H : (_ <? _) = true |- _ => apply Z.ltb_lt in H
  | H : (_ <? _) = false |- _ => apply Z.ltb_ge in H
  | H : (_ <=? _) = true |- _ => apply Z.leb_le in H
  | H : (_ <=? _) = false |- _ => apply Z.leb_gt in H
  | H : (_ =? _) = true |- _ => apply Z.eqb_eq in H
  | H : (_ =? _) = false |- _ => apply Z.eqb_neq in H
  | H : _ && _ = true |- _ => apply andb_true_iff in H; destruct H
  | H : _ || _ = false |- _ => apply orb_false_iff in H; destruct H
  end.

(** Evaluates the comparisons of the goal that [lia] decides. *)
Ltac zdec :=
  repeat match goal with
  | |- context [?x <? ?y] =>
      first [rewrite (proj2 (Z.ltb_lt x y)) by lia | rewrite (proj2 (Z.ltb_ge x y)) by lia]
  | |- context [?x <=? ?y] =>
      first [rewrite (proj2 (Z.leb_le x y)) by lia | rewrite (proj2 (Z.leb_gt x y)) by lia]
  | |- context [?x =? ?y] =>
      first [rewrite (proj2 (Z.eqb_eq x y)) by lia | rewrite (proj2 (Z.eqb_neq x y)) by lia]
  end.

(** [lia] with division and remainder by constants. *)
Ltac lia_mod := zify; try Z.to_euclidean_division_equations; lia.

(** Lengths of the list operations, and [lia] modulo them. *)
Create Rewrite HintDb lens.
#[export] Hint Rewrite @length_app @length_take @length_drop @length_replicate @length_fmap @length_insert
  @length_reverse @length_nil : lens.
Ltac lia_len := autorewrite with lens; simpl length; lia.

(** ** Lists *)

Section lists.
Context {A B : Type}.
Implicit Types (l : list A) (x : A).

(** Combining lists pointwise after an update of both at one index. *)
Lemma zip_with_insert {C} (f : A -> B -> C) l (k : list B) i x y :
  zip_with f (<[i:=x]> l) (<[i:=y]> k) = <[i:=f x y]> (zip_with f l k).
Proof.
  revert k i. induction l as [|a l IH]; intros [|b k] [|i]; try done.
  simpl. by rewrite IH.
Qed.

(** One element of a list of lists, taken out of the concatenation. *)
Lemma concat_take_out (ll : list (list A)) i c :
  ll !! i = Some c -> concat ll ≡ₚ c ++ concat (<[i:=[]]> ll).
Proof.
  revert i. induction ll as [|d ll IH]; intros [|i] Hi; simplify_eq/=.
  - done.
  - rewrite (IH i) by done. by rewrite !(assoc (++)), (comm (++) d c).
Qed.

Lemma concat_put_in (ll : list (list A)) i c :
  (i < length ll)%nat -> concat (<[i:=c]> ll) ≡ₚ c ++ concat (<[i:=[]]> ll).
Proof.
  intros Hi. rewrite (concat_take_out (<[i:=c]> ll) i c).
  - by rewrite list_insert_insert_eq.
  - by apply list_lookup_insert_eq.
Qed.
End lists.

(** ** Sums over lists *)

Lemma sum_list_with_insert {A} (f : A -> nat) (l : list A) i x y :
  l !! i = Some y -> (sum_list_with f (<[i:=x]> l) + f y = sum_list_with f l + f x)%nat.
Proof.
  revert i. induction l as [|a l IH]; intros [|i] Hi; simplify_eq/=; [lia|].
  specialize (IH i Hi). lia.
Qed.

Lemma length_concat_sum {A} (ll : list (list A)) :
  length (concat ll) = sum_list_with length ll.
Proof. induction ll as [|l ll IH]; [done|]. simpl. by rewrite length_app, IH. Qed.

Lemma sum_list_with_bound {A} (f : A -> nat) (l : list A) (m : Z) :
  (forall x, x ∈ l -> Z.of_nat (f x) <= m) ->
  Z.of_nat (sum_list_with f l) <= Z.of_nat (length l) * m.
Proof.
  induction l as [|a l IH]; intros Hl; simpl; [lia|].
  assert (Z.of_nat (f a) <= m) by (apply Hl; set_solver).
  assert (Z.of_nat (sum_list_with f l) <= Z.of_nat (length l) * m) by (apply IH; set_solver).
  lia.
Qed.
