(* ===== verification/CInt.v ===== *)
(** * Machine integers of the C sources

    [size_t], [uint8_t], [uint32_t], [unsigned long] and [loff_t] as [Z] with
    the wrap-around of the LP64 targets the repository builds for (x86-64 and
    AArch64 Linux).  Unsigned arithmetic wraps modulo the width; signed 64-bit
    arithmetic wraps in two's complement (the kernel is built with
    [-fno-strict-overflow]). *)

From S2P Require Import Prelude.

Definition u8 (x : Z) : Z := x mod 2 ^ 8.
Definition u32 (x : Z) : Z := x mod 2 ^ 32.
Definition u64 (x : Z) : Z := x mod 2 ^ 64.
Definition s32 (x : Z) : Z := (x + 2 ^ 31) mod 2 ^ 32 - 2 ^ 31.
Definition s64 (x : Z) : Z := (x + 2 ^ 63) mod 2 ^ 64 - 2 ^ 63.

Definition SIZE_MAX : Z := 2 ^ 64 - 1.
Definition ULONG_MAX : Z := 2 ^ 64 - 1.

Lemma u8_small x : 0 <= x < 256 -> u8 x = x.
Proof. intros. apply Z.mod_small. lia. Qed.
Lemma u32_small x : 0 <= x < 2 ^ 32 -> u32 x = x.
Proof. intros. by apply Z.mod_small. Qed.
Lemma u64_small x : 0 <= x < 2 ^ 64 -> u64 x = x.
Proof. intros. by apply Z.mod_small. Qed.
Lemma s32_small x : - 2 ^ 31 <= x < 2 ^ 31 -> s32 x = x.
Proof. intros. unfold s32. rewrite Z.mod_small; lia. Qed.
Lemma s64_small x : - 2 ^ 63 <= x < 2 ^ 63 -> s64 x = x.
Proof. intros. unfold s64. rewrite Z.mod_small; lia. Qed.

Lemma u32_range x : 0 <= u32 x < 2 ^ 32.
Proof. by apply Z.mod_pos_bound. Qed.
Lemma u64_range x : 0 <= u64 x < 2 ^ 64.
Proof. by apply Z.mod_pos_bound. Qed.
Lemma s64_range x : - 2 ^ 63 <= s64 x < 2 ^ 63.
Proof. unfold s64. pose proof (Z.mod_pos_bound (x + 2 ^ 63) (2 ^ 64)). lia. Qed.

(** The wrap-around is a ring morphism: an inner wrap can be dropped. *)
Lemma u64_add_l x y : u64 (u64 x + y) = u64 (x + y).
Proof. unfold u64. by rewrite Zplus_mod_idemp_l. Qed.
Lemma u64_add_r x y : u64 (x + u64 y) = u64 (x + y).
Proof. unfold u64. by rewrite Zplus_mod_idemp_r. Qed.
Lemma u64_sub_l x y : u64 (u64 x - y) = u64 (x - y).
Proof. unfold u64. by rewrite Zminus_mod_idemp_l. Qed.
Lemma u64_idemp x : u64 (u64 x) = u64 x.
Proof. unfold u64. by rewrite Zmod_mod. Qed.

Create Rewrite HintDb cint.
#[export] Hint Rewrite u64_add_l u64_add_r u64_sub_l u64_idemp : cint.

(** Signed and unsigned 64-bit views of one pattern. *)
Lemma u64_s64 x : u64 (s64 x) = u64 x.
Proof.
  unfold u64, s64. rewrite Zminus_mod_idemp_l. f_equal. lia.
Qed.
Lemma s64_u64 x : s64 (u64 x) = s64 x.
Proof. unfold u64, s64. by rewrite Zplus_mod_idemp_l. Qed.
#[export] Hint Rewrite u64_s64 s64_u64 : cint.

(** A non-negative [loff_t] keeps its value as a [size_t]. *)
Lemma u64_loff x : 0 <= x < 2 ^ 63 -> u64 x = x.
Proof. intros. apply u64_small. lia. Qed.
