(* ===== verification/CMem.v ===== *)
(** * The C heap: blocks, pointers, faults and allocation

    A heap maps block identifiers to arrays of bytes, where a byte that was
    never written is [None].  The operations are those the sources use
    ([malloc]/[kmalloc], [free]/[kfree], [memcpy], byte loads and stores);
    every undefined behaviour they can run into is a [fault], so "this code
    has no undefined behaviour" is a statement about the model.

    What an allocator does is decided outside the repository, so it is a
    parameter: the class [Allocator] says when an attempt fails and what a
    zero-sized request returns.

    Assertions about a heap are lists of owned chunks up to permutation
    ([holds]): the list is exact, so an assertion that omits a chunk says the
    chunk has been freed. *)

From S2P Require Import Prelude CInt.

(** ** Data *)

(** [ZERO_SIZE_PTR] is what [kmalloc(0)] returns: not [NULL], not a block. *)
Inductive ptr := NULL | ZERO_SIZE_PTR | Ptr (b : positive).

#[export] Instance ptr_eq_dec : EqDecision ptr.
Proof. solve_decision. Defined.

Definition is_null (p : ptr) : bool := bool_decide (p = NULL).

Abbreviation block := (list (option byte)).

Record heap := Heap { blocks : gmap positive block; next : positive }.

Definition empty_heap : heap := Heap ∅ 1.

Inductive fault := NullDeref | Dangling | OutOfBounds | Uninitialised.

(** A computation on the heap returns a value, or runs into a fault. *)
Inductive result (A : Type) :=
  | Done (a : A) (h : heap)
  | Stuck (f : fault).
Arguments Done {A} a h.
Arguments Stuck {A} f.

Definition M (A : Type) : Type := heap -> result A.

#[export] Instance M_ret : MRet M := fun A a h => Done a h.
#[export] Instance M_bind : MBind M := fun A B k m h =>
  match m h with Done a h' => k a h' | Stuck f => Stuck f end.

Definition stuck {A} (f : fault) : M A := fun _ => Stuck f.

(** ** Allocation *)

(** [alloc_fails n sz]: does the attempt numbered [n], for [sz] bytes, fail?
    [alloc_max] is the largest request that can succeed ([KMALLOC_MAX_SIZE],
    [PTRDIFF_MAX] cut to the virtual address space); [alloc_zero_shared]
    tells [kmalloc], whose zero-sized requests all return [ZERO_SIZE_PTR],
    from [malloc], which returns a block of no bytes. *)
Class Allocator := {
  alloc_fails : positive -> Z -> bool;
  alloc_max : Z;
  alloc_zero_shared : bool;
  alloc_max_pos : 0 < alloc_max;
  alloc_max_addressable : alloc_max <= 2 ^ 48;
}.

(** Is the request numbered [n], for [sz] bytes, served? *)
Definition alloc_serves `{Allocator} (n : positive) (sz : Z) : bool :=
  if alloc_zero_shared && (sz =? 0) then true
  else negb (alloc_fails n sz) && (sz <=? alloc_max).

Definition alloc `{Allocator} (sz : Z) : M ptr := fun h =>
  if alloc_zero_shared && (sz =? 0) then Done ZERO_SIZE_PTR h
  else if negb (alloc_fails (next h) sz) && (sz <=? alloc_max) then
    Done (Ptr (next h))
         (Heap (<[next h := replicate (Z.to_nat sz) None]> (blocks h)) (Pos.succ (next h)))
  else Done NULL (Heap (blocks h) (Pos.succ (next h))).

(** [kfree]/[free]: nothing for [NULL] (and [ZERO_SIZE_PTR]). *)
Definition free (p : ptr) : M () := fun h =>
  match p with
  | NULL | ZERO_SIZE_PTR => Done () h
  | Ptr b =>
      match blocks h !! b with
      | Some _ => Done () (Heap (delete b (blocks h)) (next h))
      | None => Stuck Dangling
      end
  end.

(** ** Access *)

Definition in_bounds (b : block) (off n : Z) : bool :=
  (0 <=? off) && (0 <=? n) && (off + n <=? Z.of_nat (length b)).

Definition get_block (p : ptr) : M block := fun h =>
  match p with
  | NULL => Stuck NullDeref
  | ZERO_SIZE_PTR => Done [] h
  | Ptr b => match blocks h !! b with Some bs => Done bs h | None => Stuck Dangling end
  end.

Definition set_block (p : ptr) (bs : block) : M () := fun h =>
  match p with
  | NULL => Stuck NullDeref
  | ZERO_SIZE_PTR => Done () h
  | Ptr b => Done () (Heap (<[b := bs]> (blocks h)) (next h))
  end.

(** The [n] bytes at [p + off]. *)
Definition load_bytes (p : ptr) (off n : Z) : M block :=
  b ← get_block p;
  if in_bounds b off n then mret (take (Z.to_nat n) (drop (Z.to_nat off) b))
  else stuck OutOfBounds.

Definition splice (b : block) (off : nat) (bs : block) : block :=
  take off b ++ bs ++ drop (off + length bs) b.

Definition store_bytes (p : ptr) (off : Z) (bs : block) : M () :=
  b ← get_block p;
  if in_bounds b off (Z.of_nat (length bs)) then set_block p (splice b (Z.to_nat off) bs)
  else stuck OutOfBounds.

Definition memcpy (dst : ptr) (doff : Z) (src : ptr) (soff n : Z) : M () :=
  bs ← load_bytes src soff n;
  store_bytes dst doff bs.

(** [p[i]], as a value: reading a byte that was never written is a fault. *)
Definition load_byte (p : ptr) (i : Z) : M byte :=
  bs ← load_bytes p i 1;
  match bs with [Some c] => mret c | _ => stuck Uninitialised end.

(** The initialised bytes of [p + off], for a copy out of the program. *)
Definition load_init (p : ptr) (off n : Z) : M (list byte) :=
  bs ← load_bytes p off n;
  match mapM id bs with Some cs => mret cs | None => stuck Uninitialised end.

(** A C array of structures: indexing outside it is a fault. *)
Definition arr_get {A} (l : list A) (i : Z) : M A :=
  match (if 0 <=? i then l !! Z.to_nat i else None) with
  | Some x => mret x
  | None => stuck OutOfBounds
  end.

Definition arr_set {A} (l : list A) (i : Z) (x : A) : list A := <[Z.to_nat i := x]> l.

(** ** Weakest preconditions

    [wp m Q h]: from [h], [m] runs to the end without a fault and [Q] holds of
    what it returns and of the heap it leaves. *)

Definition wp {A} (m : M A) (Q : A -> heap -> Prop) (h : heap) : Prop :=
  match m h with Done a h' => Q a h' | Stuck _ => False end.

Section wp_rules.
Context {A B : Type}.
Implicit Types (m : M A) (Q : A -> heap -> Prop) (h : heap).

Lemma wp_ret (a : A) Q h : Q a h -> wp (mret a) Q h.
Proof. done. Qed.

Lemma wp_bind m (k : A -> M B) (Q : B -> heap -> Prop) h :
  wp m (fun a => wp (k a) Q) h -> wp (mbind k m) Q h.
Proof. unfold wp, mbind, M_bind. by destruct (m h). Qed.

Lemma wp_bind_inv m (k : A -> M B) (Q : B -> heap -> Prop) h :
  wp (mbind k m) Q h -> wp m (fun a => wp (k a) Q) h.
Proof. unfold wp, mbind, M_bind. by destruct (m h). Qed.

Lemma wp_mono m Q Q' h : wp m Q h -> (forall a h', Q a h' -> Q' a h') -> wp m Q' h.
Proof. unfold wp. destruct (m h); auto. Qed.

(** A computation with a [wp] does return. *)
Lemma wp_done m Q h : wp m Q h -> exists a h', m h = Done a h' /\ Q a h'.
Proof. unfold wp. destruct (m h) as [a h'|]; [by eauto|done]. Qed.

Lemma done_wp m Q h a h' : m h = Done a h' -> wp m Q h -> Q a h'.
Proof. unfold wp. by intros ->. Qed.
End wp_rules.

(** Running a computation step by step. *)
Lemma bind_ret {A B} (a : A) (k : A -> M B) : mbind k (mret a) = k a.
Proof. done. Qed.

Lemma bind_done {A B} (m : M A) (k : A -> M B) h a h' :
  m h = Done a h' -> mbind k m h = k a h'.
Proof. unfold mbind, M_bind. by intros ->. Qed.

Lemma bind_stuck {A B} (m : M A) (k : A -> M B) h f :
  m h = Stuck f -> mbind k m h = Stuck f.
Proof. unfold mbind, M_bind. by intros ->. Qed.
