(* ===== verification/Footprint.v ===== *)
(** * Heap footprints: ownership assertions and the rules of the heap operations

    [holds h L] says that the allocated blocks of [h] are exactly the chunks
    of [L].  The rules below are the small-footprint specifications of
    [CMem]'s operations, each with a frame [L]. *)

From S2P Require Import Prelude CInt CMem.

Abbreviation chunk := (positive * block)%type.

(** The chunk a pointer owns, and which contents the pointer may have. *)
Definition own (p : ptr) (b : block) : list chunk :=
  match p with Ptr i => [(i, b)] | _ => [] end.

Definition own_ok (p : ptr) (b : block) : Prop :=
  match p with NULL => False | ZERO_SIZE_PTR => b = [] | Ptr _ => True end.

Section footprint.
Context `{Allocator}.

Definition heap_wf (h : heap) : Prop :=
  forall i b, blocks h !! i = Some b -> (i < next h)%positive /\ Z.of_nat (length b) <= alloc_max.

Definition holds (h : heap) (L : list chunk) : Prop :=
  heap_wf h /\ map_to_list (blocks h) ≡ₚ L.

#[export] Instance holds_proper h : Proper ((≡ₚ) ==> iff) (holds h).
Proof. intros L1 L2 HL. unfold holds. by rewrite HL. Qed.

Lemma holds_empty : holds empty_heap [].
Proof. split; [intros i b Hi; simplify_map_eq|]. simpl. by rewrite map_to_list_empty. Qed.

Lemma holds_lookup h i b L : holds h ((i, b) :: L) -> blocks h !! i = Some b.
Proof.
  intros [_ HL]. apply elem_of_map_to_list. rewrite HL. by apply list_elem_of_here.
Qed.

Lemma holds_wf h L : holds h L -> heap_wf h.
Proof. by intros []. Qed.

(** The size of a block that exists fits the allocator's limit. *)
Lemma holds_block_max h p b L : holds h (own p b ++ L) -> own_ok p b -> Z.of_nat (length b) <= alloc_max.
Proof.
  destruct p as [| |i]; intros Hh Hok; [done| |].
  - simpl in Hok. subst b. pose proof alloc_max_pos. simpl. lia.
  - pose proof (holds_lookup _ _ _ _ Hh) as Hi. by eapply (holds_wf _ _ Hh).
Qed.

(** One owned chunk, wherever it is in the footprint. *)
Lemma holds_split h K O : holds h K -> O ⊆+ K -> exists F, holds h (O ++ F).
Proof. intros Hh [F HF]%submseteq_Permutation. exists F. by rewrite <- HF. Qed.

(** Exactness: an empty footprint is an empty heap. *)
Lemma holds_nil_inv h : holds h [] -> blocks h = ∅.
Proof.
  intros [_ HL]. symmetry in HL. apply Permutation_nil in HL.
  by apply map_to_list_empty_iff.
Qed.

Lemma get_block_own h p b L : holds h (own p b ++ L) -> own_ok p b -> get_block p h = Done b h.
Proof.
  destruct p as [| |i]; intros Hh Hok; [done|by rewrite Hok|].
  unfold get_block. by rewrite (holds_lookup _ _ _ _ Hh).
Qed.

Lemma wp_set_block h p b b' L :
  holds h (own p b ++ L) -> own_ok p b -> length b' = length b ->
  wp (set_block p b') (fun _ h' => holds h' (own p b' ++ L) /\ next h' = next h) h.
Proof.
  destruct p as [| |i]; intros Hh Hok Hlen; [done|done|].
  pose proof (holds_lookup _ _ _ _ Hh) as Hi. destruct Hh as [Hwf HL].
  split; [split|done]; simpl.
  - intros j c. simpl. rewrite lookup_insert. case_decide; simplify_eq; intros; simplify_eq/=; [|by eauto].
    rewrite Hlen. by eauto.
  - rewrite <- insert_delete_eq. rewrite map_to_list_insert by apply lookup_delete_eq.
    rewrite <- (map_to_list_delete _ _ _ Hi) in HL. by apply Permutation_cons_inv in HL; rewrite HL.
Qed.

Lemma wp_alloc h sz L :
  holds h L -> 0 <= sz ->
  wp (alloc sz)
     (fun p h' =>
        holds h' (own p (replicate (Z.to_nat sz) None) ++ L) /\
        (if alloc_serves (next h) sz then own_ok p (replicate (Z.to_nat sz) None) else p = NULL)) h.
Proof.
  intros [Hwf HL] Hsz. unfold alloc, alloc_serves, wp.
  destruct (alloc_zero_shared && (sz =? 0)) eqn:E0.
  { apply andb_true_iff in E0 as [_ E0]. apply Z.eqb_eq in E0. by subst. }
  destruct (negb _ && _) eqn:E1; zbool; (split; [split|done]); simpl.
  - intros j c. simpl. rewrite lookup_insert. case_decide; intros; simplify_eq/=.
    + rewrite length_replicate. lia.
    + destruct (Hwf j c); [done|]. lia.
  - rewrite map_to_list_insert, HL; [done|].
    destruct (blocks h !! next h) eqn:En; [|done]. apply Hwf in En. lia.
  - intros j c Hj. destruct (Hwf j c Hj). simpl. lia.
  - done.
Qed.

Lemma wp_free h p b L :
  holds h (own p b ++ L) -> wp (free p) (fun _ h' => holds h' L /\ next h' = next h) h.
Proof.
  destruct p as [| |i]; intros Hh; [done|done|].
  unfold free, wp. rewrite (holds_lookup _ _ _ _ Hh).
  pose proof (holds_lookup _ _ _ _ Hh) as Hi. destruct Hh as [Hwf HL].
  split; [split|done]; simpl.
  - intros j c. simpl. rewrite lookup_delete_Some. intros [_ Hj]. by eauto.
  - rewrite <- (map_to_list_delete _ _ _ Hi) in HL. by apply Permutation_cons_inv in HL.
Qed.

Lemma wp_load_bytes h p b off n L :
  holds h (own p b ++ L) -> own_ok p b -> 0 <= off -> 0 <= n -> off + n <= Z.of_nat (length b) ->
  wp (load_bytes p off n)
     (fun r h' => r = take (Z.to_nat n) (drop (Z.to_nat off) b) /\ h' = h) h.
Proof.
  intros Hh Hok ???. unfold load_bytes, wp, mbind, M_bind.
  rewrite (get_block_own _ _ _ _ Hh Hok). unfold in_bounds.
  by zdec.
Qed.

Lemma length_splice (b bs : block) off :
  (off + length bs <= length b)%nat -> length (splice b off bs) = length b.
Proof. intros. unfold splice. rewrite !length_app, length_take, length_drop. lia. Qed.

Lemma wp_store_bytes h p b off bs L :
  holds h (own p b ++ L) -> own_ok p b -> 0 <= off ->
  off + Z.of_nat (length bs) <= Z.of_nat (length b) ->
  wp (store_bytes p off bs)
     (fun _ h' => holds h' (own p (splice b (Z.to_nat off) bs) ++ L) /\ next h' = next h) h.
Proof.
  intros Hh Hok ??. unfold store_bytes, wp, mbind, M_bind.
  rewrite (get_block_own _ _ _ _ Hh Hok). unfold in_bounds.
  zdec. apply (wp_set_block _ _ b); [done..|].
  rewrite length_splice; lia.
Qed.

Lemma splice_own_ok p b off bs :
  (off + length bs <= length b)%nat -> own_ok p b -> own_ok p (splice b off bs).
Proof.
  destruct p; simpl; [done| |done]. intros Hlen ->.
  simpl in Hlen. destruct bs; simpl in *; [|lia]. unfold splice. by destruct off.
Qed.

(** The blocks of two different chunks: [memcpy] between them. *)
Lemma wp_memcpy h d db doff s sb soff n L :
  holds h (own d db ++ own s sb ++ L) -> own_ok d db -> own_ok s sb ->
  0 <= doff -> 0 <= soff -> 0 <= n ->
  doff + n <= Z.of_nat (length db) -> soff + n <= Z.of_nat (length sb) ->
  wp (memcpy d doff s soff n)
     (fun _ h' =>
        holds h' (own d (splice db (Z.to_nat doff) (take (Z.to_nat n) (drop (Z.to_nat soff) sb)))
                  ++ own s sb ++ L) /\ next h' = next h) h.
Proof.
  intros Hh Hd Hs ?????. unfold memcpy. apply wp_bind.
  eapply wp_mono.
  { eapply (wp_load_bytes _ _ sb _ _ (own d db ++ L)); [|done..].
    by rewrite (Permutation_app_swap_app (own s sb)). }
  intros r ? [-> ->]. eapply wp_store_bytes; [done..|].
  rewrite length_take, length_drop. lia.
Qed.

(** Filling a fresh block from the left, and what is left of it. *)
Lemma splice_fill_left (a : block) n :
  splice (replicate (length a + n) None) 0 a = a ++ replicate n None.
Proof. unfold splice. simpl. by rewrite drop_replicate, Nat.add_comm, Nat.add_sub. Qed.

Lemma splice_fill_right (a c : block) :
  splice (a ++ replicate (length c) None) (length a) c = a ++ c.
Proof.
  unfold splice. rewrite take_app_length. f_equal.
  rewrite drop_ge, app_nil_r; [done|]. rewrite length_app, length_replicate. lia.
Qed.

Lemma wp_memcpy_prefix h q s a n L :
  holds h (own q (replicate (length a + n) None) ++ own s a ++ L) ->
  own_ok q (replicate (length a + n) None) -> own_ok s a ->
  wp (memcpy q 0 s 0 (Z.of_nat (length a)))
     (fun _ h' => holds h' (own q (a ++ replicate n None) ++ own s a ++ L) /\
                  own_ok q (a ++ replicate n None)) h.
Proof.
  intros Hh Hq Hs. rewrite <- splice_fill_left. eapply wp_mono.
  - apply (wp_memcpy _ _ _ _ _ _ _ _ _ Hh Hq Hs); lia_len.
  - intros _ h' [Hh' _]. rewrite Nat2Z.id, drop_0, take_ge in Hh' by done.
    split; [done|]. apply splice_own_ok; [|done]. rewrite length_replicate. lia.
Qed.

Lemma wp_memcpy_suffix h q d a c rest L :
  holds h (own q (a ++ replicate (length c) None) ++ own d (c ++ rest) ++ L) ->
  own_ok q (a ++ replicate (length c) None) -> own_ok d (c ++ rest) ->
  wp (memcpy q (Z.of_nat (length a)) d 0 (Z.of_nat (length c)))
     (fun _ h' => holds h' (own q (a ++ c) ++ own d (c ++ rest) ++ L) /\ own_ok q (a ++ c)) h.
Proof.
  intros Hh Hq Hd. rewrite <- splice_fill_right. eapply wp_mono.
  - apply (wp_memcpy _ _ _ _ _ _ _ _ _ Hh Hq Hd); lia_len.
  - intros _ h' [Hh' _]. rewrite !Nat2Z.id, drop_0, take_app_length in Hh'.
    split; [done|]. apply splice_own_ok; [|done]. rewrite length_app, length_replicate. lia.
Qed.

(** Copying the front of a block into a fresh one of its size. *)
Lemma wp_memcpy_fresh h q s a rest L :
  holds h (own q (replicate (length a) None) ++ own s (a ++ rest) ++ L) ->
  own_ok q (replicate (length a) None) -> own_ok s (a ++ rest) ->
  wp (memcpy q 0 s 0 (Z.of_nat (length a)))
     (fun _ h' => holds h' (own q a ++ own s (a ++ rest) ++ L) /\ own_ok q a) h.
Proof. intros Hh Hq Hs. by apply (wp_memcpy_suffix h q s [] a rest L). Qed.

(** Copying a whole block into a fresh one of its size. *)
Lemma wp_memcpy_whole h q s a L :
  holds h (own q (replicate (length a) None) ++ own s a ++ L) ->
  own_ok q (replicate (length a) None) -> own_ok s a ->
  wp (memcpy q 0 s 0 (Z.of_nat (length a)))
     (fun _ h' => holds h' (own q a ++ own s a ++ L) /\ own_ok q a) h.
Proof.
  intros Hh Hq Hs. pose proof (wp_memcpy_fresh h q s a [] L) as Hw. rewrite app_nil_r in Hw. by apply Hw.
Qed.

(** What an allocation returned, as the test for [NULL] sees it. *)
Lemma alloc_serves_not_null n sz (p : ptr) b :
  (if alloc_serves n sz then own_ok p b else p = NULL) -> is_null p = negb (alloc_serves n sz).
Proof.
  unfold is_null. destruct (alloc_serves n sz); intros Hp; [|by rewrite Hp].
  apply bool_decide_eq_false. intros E. by rewrite E in Hp.
Qed.
End footprint.

(** Closes [holds h L'] from [H : holds h L] when the lists of chunks are
    rearrangements of each other. *)
Ltac holds_perm H :=
  eapply holds_proper; [|exact H]; rewrite ?app_nil_r; solve_Permutation.
