(* ===== verification/Common.v ===== *)
(** * [aesd-char-driver/common.c]: the wrappers of the C memory functions

    [my_malloc] and [my_free] are [kmalloc]/[kfree] in the kernel build and
    [malloc]/[free] in the user-space build ([#ifdef __KERNEL__]); here the
    build is the [Allocator] instance.  The user-space tests and the driver
    share the circular buffer through these wrappers. *)

From S2P Require Import Prelude CInt CMem Footprint.

Section common.
Context `{Allocator}.

Definition my_memcpy (dest : ptr) (src : ptr) (n : Z) : M () := memcpy dest 0 src 0 n.
Definition my_malloc (size : Z) : M ptr := alloc size.
Definition my_free (p : ptr) : M () := free p.

(** [c] converted to [unsigned char]. *)
Definition my_memset (s : ptr) (c : Z) (n : Z) : M () :=
  store_bytes s 0 (replicate (Z.to_nat n) (Byte.of_N (Z.to_N (u8 c)))).
End common.
