(* ===== verification/CircularBuffer.v ===== *)
(** * [aesd-char-driver/aesd_circular_buffer.c]: the circular buffer

    The structures, and one definition per function of the file.  A structure
    argument that may be [NULL] is an [option]; an out-parameter
    [size_t *entry_offset_byte_rtn] is an [option Z], [None] when the caller
    passes [NULL] and [Some v] for a location holding [v].  The entry pointer
    the searches return is the index of the entry in the array. *)

From S2P Require Import Prelude CInt CMem Footprint Common.

Definition AESDCHAR_MAX_WRITE_OPERATIONS_SUPPORTED : Z := 10.

Record aesd_buffer_entry := Entry { buffptr : ptr; entry_size : Z }.

Record aesd_circular_buffer := Circular {
  entry : list aesd_buffer_entry;
  in_offs : Z;
  out_offs : Z;
  full : bool;
  circ_size : Z
}.

Definition null_entry : aesd_buffer_entry := Entry NULL 0.

Definition set_entry (b : aesd_circular_buffer) (i : Z) (e : aesd_buffer_entry) :=
  Circular (arr_set (entry b) i e) (in_offs b) (out_offs b) (full b) (circ_size b).

(** [*rtn = v] *)
Definition store_rtn (rtn : option Z) (v : Z) : M (option Z) :=
  match rtn with Some _ => mret (Some v) | None => stuck NullDeref end.

(** [PDEBUG("... %zu", *rtn)]: with [AESD_DEBUG] on, as in [common.h], the
    argument is evaluated. *)
Definition debug_rtn (rtn : option Z) : M () :=
  match rtn with Some _ => mret () | None => stuck NullDeref end.

(** [(i + 1) % AESDCHAR_MAX_WRITE_OPERATIONS_SUPPORTED] *)
Definition next_index (i : Z) : Z := (i + 1) mod AESDCHAR_MAX_WRITE_OPERATIONS_SUPPORTED.

(** The body of the [for] loop, [n] iterations before the end. *)
Fixpoint find_fpos_loop (n : nat) (buffer : aesd_circular_buffer)
    (char_offset current_offset buffer_index : Z) (rtn : option Z) : M (option Z * option Z) :=
  match n with
  | O => mret (None, rtn)
  | S n' =>
      e ← arr_get (entry buffer) buffer_index;
      if is_null (buffptr e) then mret (None, rtn)
      else if (current_offset <=? char_offset) &&
              (char_offset <? u64 (current_offset + entry_size e)) then
        let rtn' := match rtn with
                    | Some _ => Some (u64 (char_offset - current_offset))
                    | None => None
                    end in
        _ ← debug_rtn rtn';
        mret (Some buffer_index, rtn')
      else
        find_fpos_loop n' buffer char_offset (u64 (current_offset + entry_size e))
          (next_index buffer_index) rtn
  end.

Definition aesd_circular_buffer_find_entry_offset_for_fpos (buffer : option aesd_circular_buffer)
    (char_offset : Z) (rtn : option Z) : M (option Z * option Z) :=
  match buffer with
  | None => mret (None, rtn)
  | Some b =>
      if char_offset <? 0 then mret (None, rtn)
      else find_fpos_loop 10 b char_offset 0 (out_offs b) rtn
  end.

(** The second search; [n] iterations are left and [i] is the loop counter. *)
Fixpoint find_ioctl_loop (n : nat) (buffer : aesd_circular_buffer)
    (write_cmd write_cmd_offset i current_offset buffer_index : Z) (rtn : option Z)
    : M (option Z * option Z) :=
  match n with
  | O => rtn' ← store_rtn rtn 0; mret (None, rtn')
  | S n' =>
      e ← arr_get (entry buffer) buffer_index;
      if is_null (buffptr e) then rtn' ← store_rtn rtn 0; mret (None, rtn')
      else if i =? write_cmd then
        if entry_size e <=? write_cmd_offset then
          rtn' ← store_rtn rtn 0; mret (None, rtn')
        else
          mret (Some buffer_index,
                match rtn with
                | Some _ => Some (u64 (current_offset + write_cmd_offset))
                | None => None
                end)
      else
        find_ioctl_loop n' buffer write_cmd write_cmd_offset (i + 1)
          (u64 (current_offset + entry_size e)) (next_index buffer_index) rtn
  end.

Definition aesd_circular_buffer_find_entry_for_ioctl (buffer : option aesd_circular_buffer)
    (write_cmd write_cmd_offset : Z) (rtn : option Z) : M (option Z * option Z) :=
  match buffer with
  | None => mret (None, rtn)
  | Some b =>
      if (AESDCHAR_MAX_WRITE_OPERATIONS_SUPPORTED <=? write_cmd) || (write_cmd_offset <? 0)
      then mret (None, rtn)
      else find_ioctl_loop 10 b write_cmd write_cmd_offset 0 0 (out_offs b) rtn
  end.

Section operations.
Context `{Allocator}.

(** [if (buffer->full) { ... }]: the oldest entry is freed and skipped. *)
Definition release_oldest (b : aesd_circular_buffer) : M aesd_circular_buffer :=
  e ← arr_get (entry b) (out_offs b);
  _ ← my_free (buffptr e);
  mret (Circular (arr_set (entry b) (out_offs b) null_entry) (in_offs b)
          (u8 (next_index (out_offs b))) (full b) (u64 (circ_size b - entry_size e))).

(** The copy of the new entry, after the test of [buffer->full]. *)
Definition store_newest (b : aesd_circular_buffer) (add_entry : aesd_buffer_entry)
    : M aesd_circular_buffer :=
  slot ← arr_get (entry b) (in_offs b);
  p ← my_malloc (entry_size add_entry);
  if is_null p then mret (set_entry b (in_offs b) (Entry p (entry_size slot)))
  else
    _ ← my_memcpy p (buffptr add_entry) (entry_size add_entry);
    let in' := u8 (next_index (in_offs b)) in
    mret (Circular (arr_set (entry b) (in_offs b) (Entry p (entry_size add_entry)))
            in' (out_offs b) (in' =? out_offs b) (u64 (circ_size b + entry_size add_entry))).

Definition aesd_circular_buffer_add_entry (buffer : option aesd_circular_buffer)
    (add_entry : option aesd_buffer_entry) : M (option aesd_circular_buffer) :=
  match buffer, add_entry with
  | Some b, Some e =>
      b1 ← (if full b then release_oldest b else mret b);
      b2 ← store_newest b1 e;
      mret (Some b2)
  | _, _ => mret buffer
  end.

(** [memset(buffer, 0, sizeof)] *)
Definition aesd_circular_buffer_init (buffer : option aesd_circular_buffer)
    : option aesd_circular_buffer :=
  match buffer with
  | None => None
  | Some _ => Some (Circular (replicate 10 null_entry) 0 0 false 0)
  end.

(** The loop of [cleanup], from entry [i] on, [n] iterations before the end. *)
Fixpoint cleanup_loop (n : nat) (b : aesd_circular_buffer) (i : Z) : M () :=
  match n with
  | O => mret ()
  | S n' =>
      e ← arr_get (entry b) i;
      _ ← (if is_null (buffptr e) then mret () else my_free (buffptr e));
      cleanup_loop n' b (i + 1)
  end.

(** [buffer] is dereferenced without a test. *)
Definition aesd_circular_buffer_cleanup (buffer : option aesd_circular_buffer) : M () :=
  match buffer with
  | None => stuck NullDeref
  | Some b => cleanup_loop 10 b 0
  end.
End operations.

(** [AESD_CIRCULAR_BUFFER_FOREACH(entryptr, buffer, index)] around a body that
    uses the entry: [index] is a [uint8_t], and the pointer to [entry[index]]
    is dereferenced by the body only.  [None]: [fuel] tests of the condition
    were not enough. *)
Fixpoint AESD_CIRCULAR_BUFFER_FOREACH (fuel : nat) (buffer : aesd_circular_buffer) (index : Z)
    (body : aesd_buffer_entry -> M ()) : M (option Z) :=
  match fuel with
  | O => mret None
  | S fuel' =>
      if index <? AESDCHAR_MAX_WRITE_OPERATIONS_SUPPORTED then
        e ← arr_get (entry buffer) index;
        _ ← body e;
        AESD_CIRCULAR_BUFFER_FOREACH fuel' buffer (u8 (index + 1)) body
      else mret (Some index)
  end.
