(* ===== verification/Ring.v ===== *)
(** * The circular buffer as a ring of byte strings

    [ring] is [struct aesd_circular_buffer] with its pointers replaced by the
    byte strings they point to: the layout in the ten slots, the two offsets
    and the [full] flag, but no heap.  [ring_add] is what
    [aesd_circular_buffer_add_entry] does to that layout, for either outcome
    of its allocation.

    Two descriptions of a ring are related here.  [ring_ok] is the invariant
    every call preserves, whatever the allocator does: the slots from [in] up
    to [out] are vacant, so a store never overwrites an entry.  [layout r q]
    says the ring holds the queue [q], oldest first. *)

From S2P Require Import Prelude.

#[local] Open Scope nat_scope.

Abbreviation slot := (option (list byte)).

Record ring := Ring { slots : list slot; r_in : nat; r_out : nat; r_full : bool }.

Definition ring_empty : ring := Ring (replicate 10 None) 0 0 false.

Definition succ10 (i : nat) : nat := (i + 1) mod 10.

Definition ring_release (r : ring) : ring :=
  Ring (<[r_out r := None]> (slots r)) (r_in r) (succ10 (r_out r)) (r_full r).

Definition ring_store (ok : bool) (bs : list byte) (r : ring) : ring :=
  if ok then
    Ring (<[r_in r := Some bs]> (slots r)) (succ10 (r_in r)) (r_out r)
      (bool_decide (succ10 (r_in r) = r_out r))
  else Ring (<[r_in r := None]> (slots r)) (r_in r) (r_out r) (r_full r).

Definition ring_add (ok : bool) (bs : list byte) (r : ring) : ring :=
  ring_store ok bs (if r_full r then ring_release r else r).

(** ** The invariant of every reachable ring *)

(** How many slots from [in] on must be vacant. *)
Definition ring_gap (r : ring) : nat :=
  if decide (r_in r = r_out r) then (if r_full r then 0 else 10)
  else (r_out r + 10 - r_in r) mod 10.

Record ring_ok (r : ring) : Prop := {
  ok_slots : length (slots r) = 10;
  ok_in : r_in r < 10;
  ok_out : r_out r < 10;
  ok_gap j : j < ring_gap r -> slots r !! ((r_in r + j) mod 10) = Some None
}.

(** ** The queue a ring holds *)

Record layout (r : ring) (q : list (list byte)) : Prop := {
  lay_slots : length (slots r) = 10;
  lay_out : r_out r < 10;
  lay_len : length q <= 10;
  lay_in : r_in r = (r_out r + length q) mod 10;
  lay_full : length q = 10 -> r_full r = true;
  lay_at k : k < 10 -> slots r !! ((r_out r + k) mod 10) = Some (q !! k)
}.

(** The flag is exact: set when, and only when, ten entries are held.  A
    failed allocation on a full buffer leaves it set with nine entries. *)
Definition flag_exact (r : ring) (q : list (list byte)) : Prop :=
  r_full r = bool_decide (length q = 10).

(** ** What a search from [out] on can see

    The entries up to the first vacant slot.  For a ring that holds a queue
    this is the queue; after ten failed allocations on a full buffer it can
    miss entries that are still stored. *)
Fixpoint collect (n : nat) (r : ring) (k : nat) : list (list byte) :=
  match n with
  | O => []
  | S n' =>
      match slots r !! ((r_out r + k) mod 10) with
      | Some (Some bs) => bs :: collect n' r (S k)
      | _ => []
      end
  end.

Definition queue_of (r : ring) : list (list byte) := collect 10 r 0.

Record view (r : ring) (q : list (list byte)) : Prop := {
  view_out : r_out r < 10;
  view_len : length q <= 10;
  view_at k : k < 10 -> k <= length q -> slots r !! ((r_out r + k) mod 10) = Some (q !! k)
}.

(** The queue after [ring_add]: with the flag set the oldest entry goes. *)
Definition queue_add (was_full ok : bool) (bs : list byte) (q : list (list byte)) :=
  let q1 := if was_full then tail q else q in
  if ok then q1 ++ [bs] else q1.

Section ring_lemmas.
Implicit Types (r : ring) (q : list (list byte)).

Lemma succ10_lt i : succ10 i < 10.
Proof. unfold succ10. lia_mod. Qed.

Lemma ring_empty_ok : ring_ok ring_empty.
Proof.
  split; simpl; [done|lia|lia|]. intros j Hj.
  apply (lookup_replicate_2 10 (None : slot)). lia_mod.
Qed.

Lemma ring_empty_layout : layout ring_empty [].
Proof.
  split; simpl; [done|lia|lia|done|done|]. intros k Hk. rewrite lookup_nil.
  apply (lookup_replicate_2 10 (None : slot)). lia_mod.
Qed.

(** Every ring has exactly one view, which [queue_of] computes. *)
Lemma collect_view n r k :
  length (slots r) = 10 -> n + k = 10 ->
  length (collect n r k) <= n /\
  forall i, i < n -> i <= length (collect n r k) ->
    slots r !! ((r_out r + (k + i)) mod 10) = Some (collect n r k !! i).
Proof.
  intros Hs. revert k. induction n as [|n IH]; intros k Hn; simpl; [split; [lia|intros; lia]|].
  destruct (lookup_lt_is_Some_2 (slots r) ((r_out r + k) mod 10)) as [[bs|] Hk]; [lia_mod| |].
  - rewrite Hk. destruct (IH (S k)) as [Hl Hat]; [lia|]. simpl. split; [lia|].
    intros [|i] Hi Hle; [by rewrite Nat.add_0_r|]. simpl. rewrite <- Hat by lia. do 2 f_equal. lia.
  - rewrite Hk. simpl. split; [lia|]. intros i Hi Hle. replace i with 0 by lia.
    by rewrite Nat.add_0_r.
Qed.

Lemma queue_of_view r : length (slots r) = 10 -> r_out r < 10 -> view r (queue_of r).
Proof.
  intros Hs Ho. destruct (collect_view 10 r 0) as [Hl Hat]; [done|done|].
  split; [done|done|]. intros k Hk Hle. by apply (Hat k).
Qed.

Lemma layout_view r q : layout r q -> view r q.
Proof. intros [Hs Ho Hl Hi Hf Hat]. split; auto. Qed.

Lemma view_unique r q1 q2 : view r q1 -> view r q2 -> q1 = q2.
Proof.
  intros [_ Hl1 H1] [_ Hl2 H2].
  assert (forall k, k <= length q1 -> k <= length q2 -> take k q1 = take k q2) as Htake.
  { induction k as [|k IH]; intros Hk1 Hk2; [done|].
    destruct (lookup_lt_is_Some_2 q1 k) as [x Hx]; [lia|].
    assert (q2 !! k = Some x) as Hy by (apply (inj Some); rewrite <- H2, <- Hx by lia; apply H1; lia).
    by rewrite (take_S_r _ _ _ Hx), (take_S_r _ _ _ Hy), IH by lia. }
  destruct (decide (length q1 = length q2)) as [E|E].
  - specialize (Htake (length q1)). rewrite !take_ge in Htake by lia. apply Htake; lia.
  - exfalso. destruct (decide (length q1 < length q2)).
    + specialize (H1 (length q1)). rewrite H2 in H1 by lia.
      rewrite (lookup_ge_None_2 q1) in H1 by lia. specialize (H1 ltac:(lia) ltac:(lia)).
      simplify_eq. apply lookup_ge_None in H1. lia.
    + specialize (H2 (length q2)). rewrite H1 in H2 by lia.
      rewrite (lookup_ge_None_2 q2) in H2 by lia. specialize (H2 ltac:(lia) ltac:(lia)).
      simplify_eq. apply lookup_ge_None in H2. lia.
Qed.

Lemma layout_queue_of r q : layout r q -> queue_of r = q.
Proof.
  intros Hlay. apply (view_unique r); [|by apply layout_view].
  apply queue_of_view; by destruct Hlay.
Qed.

(** A ring that holds a queue satisfies the invariant. *)
Lemma layout_ok r q : layout r q -> ring_ok r.
Proof.
  intros [Hs Ho Hl Hi Hf Hat]. split; [done|rewrite Hi; lia_mod|done|].
  intros j Hj. assert (length q + j < 10) as Hk.
  { unfold ring_gap in Hj. case_decide; [|lia_mod].
    destruct (r_full r); [lia|]. assert (length q <> 10) by (intros E; by specialize (Hf E)).
    lia_mod. }
  replace ((r_in r + j) mod 10) with ((r_out r + (length q + j)) mod 10) by (rewrite Hi; lia_mod).
  rewrite Hat by done. f_equal. apply lookup_ge_None_2. lia.
Qed.

(** After the test of [full] and the release, [in = out] can only mean that
    all ten slots are vacant. *)
Definition wide_gap r : nat :=
  if decide (r_in r = r_out r) then 10 else (r_out r + 10 - r_in r) mod 10.

Record settled r : Prop := {
  set_slots : length (slots r) = 10;
  set_in : r_in r < 10;
  set_out : r_out r < 10;
  set_gap j : j < wide_gap r -> slots r !! ((r_in r + j) mod 10) = Some None
}.

Lemma settled_vacant r : settled r -> slots r !! r_in r = Some None.
Proof.
  intros [Hs Hi Ho Hg]. rewrite <- (Hg 0); [f_equal; lia_mod|].
  unfold wide_gap. case_decide; lia_mod.
Qed.

Lemma release_settled r :
  ring_ok r -> settled (if r_full r then ring_release r else r).
Proof.
  intros [Hs Hi Ho Hg]. unfold ring_gap in Hg. destruct (r_full r) eqn:Ef.
  - split; simpl; [by rewrite length_insert|done|apply succ10_lt|].
    intros j Hj. rewrite list_lookup_insert. destruct (decide (_ ∧ _)) as [|E]; [done|].
    apply Hg. unfold wide_gap in Hj. simpl in Hj. unfold succ10 in *.
    repeat case_decide; lia_mod.
  - by split.
Qed.

Lemma store_ok ok bs r : settled r -> ring_ok (ring_store ok bs r).
Proof.
  intros [Hs Hi Ho Hg]. destruct ok; simpl.
  - split; simpl; [by rewrite length_insert|apply succ10_lt|done|].
    intros j Hj. unfold ring_gap, wide_gap in *. simpl in Hj. unfold succ10 in *.
    case_decide; [by rewrite bool_decide_true in Hj by done; lia|].
    assert (j + 1 < 10) by lia_mod.
    rewrite list_lookup_insert_ne by lia_mod.
    replace (((r_in r + 1) mod 10 + j) mod 10) with ((r_in r + (j + 1)) mod 10) by lia_mod.
    apply Hg. case_decide; lia_mod.
  - split; simpl; [by rewrite length_insert|done|done|].
    intros j Hj. rewrite list_lookup_insert. destruct (decide (_ ∧ _)); [done|].
    apply Hg. unfold ring_gap, wide_gap in *. simpl in Hj. case_decide; [|done].
    destruct (r_full r); lia.
Qed.

(** The invariant is preserved, whatever the allocator does. *)
Lemma ring_add_ok ok bs r : ring_ok r -> ring_ok (ring_add ok bs r).
Proof. intros Hok. by apply store_ok, release_settled. Qed.

(** One step of the queue: releasing, then storing. *)
Lemma release_layout r q :
  layout r q -> r_full r = true -> q <> [] -> layout (ring_release r) (tail q).
Proof.
  intros [Hs Ho Hl Hi Hf Hat] Ef Hq. destruct q as [|x q]; [done|]. simpl in *.
  split; simpl; [by rewrite length_insert|apply succ10_lt|lia|rewrite Hi; unfold succ10; lia_mod|lia|].
  intros k Hk. unfold succ10. destruct (decide (k = 9)) as [->|].
  - rewrite (lookup_ge_None_2 q) by lia.
    replace (((r_out r + 1) mod 10 + 9) mod 10) with (r_out r) by lia_mod.
    apply list_lookup_insert_eq. lia.
  - rewrite list_lookup_insert_ne by lia_mod.
    replace (((r_out r + 1) mod 10 + k) mod 10) with ((r_out r + (k + 1)) mod 10) by lia_mod.
    rewrite Hat by lia. by replace (k + 1) with (S k) by lia.
Qed.

Lemma store_layout bs r q :
  layout r q -> length q < 10 -> layout (ring_store true bs r) (q ++ [bs]).
Proof.
  intros [Hs Ho Hl Hi Hf Hat] Hq.
  split; simpl; rewrite ?length_app, ?length_insert; simpl; try done; try lia.
  - rewrite Hi. unfold succ10. lia_mod.
  - intros. apply bool_decide_eq_true. rewrite Hi. unfold succ10. lia_mod.
  - intros k Hk. destruct (decide (k = length q)) as [->|].
    + rewrite Hi, list_lookup_insert_eq by lia_mod. by rewrite list_lookup_middle.
    + rewrite list_lookup_insert_ne by (rewrite Hi; lia_mod). rewrite Hat by done. f_equal.
      destruct (decide (k < length q)); [by rewrite lookup_app_l by lia|].
      rewrite !lookup_ge_None_2; [done|lia_len|lia].
Qed.

Lemma store_failed_layout bs r q :
  layout r q -> length q < 10 -> layout (ring_store false bs r) q.
Proof.
  intros [Hs Ho Hl Hi Hf Hat] Hq. split; simpl; try done; [by rewrite length_insert|].
  intros k Hk. rewrite list_lookup_insert. destruct (decide (_ ∧ _)) as [E|]; [|by apply Hat].
  destruct E as [E _]. rewrite <- Hat by done. rewrite <- E, Hi. rewrite Hat by done.
  f_equal. symmetry. by apply lookup_ge_None_2.
Qed.

(** [ring_add] is [queue_add], unless the flag is set on an empty ring. *)
Lemma ring_add_layout ok bs r q :
  layout r q -> (r_full r = true -> q <> []) ->
  layout (ring_add ok bs r) (queue_add (r_full r) ok bs q).
Proof.
  intros Hlay Hne. unfold ring_add, queue_add.
  assert (layout (if r_full r then ring_release r else r) (if r_full r then tail q else q) /\
          length (if r_full r then tail q else q) < 10) as [Hlay' Hlen].
  { destruct (r_full r) eqn:Ef.
    - split; [by apply release_layout; auto|].
      destruct Hlay. destruct q; [by destruct (Hne eq_refl)|]. simpl in *. lia.
    - split; [done|]. destruct Hlay as [_ _ Hl _ Hf _].
      assert (length q <> 10) by (intros E; by rewrite Hf in Ef). lia. }
  destruct ok; [by apply store_layout|by apply store_failed_layout].
Qed.

(** The slots of a layout, read from [out] on. *)
Lemma layout_slots r q :
  layout r q -> slots r ≡ₚ (Some <$> q) ++ replicate (10 - length q) None.
Proof.
  intros [Hs Ho Hl Hi Hf Hat].
  assert (forall k, k < 10 -> (drop (r_out r) (slots r) ++ take (r_out r) (slots r)) !! k =
            ((Some <$> q) ++ replicate (10 - length q) None) !! k) as Hk.
  { intros k Hk. trans (slots r !! ((r_out r + k) mod 10)).
    - destruct (decide (k < 10 - r_out r)).
      + rewrite lookup_app_l, lookup_drop by (lia_len). f_equal. lia_mod.
      + rewrite lookup_app_r, length_drop by (lia_len).
        rewrite lookup_take_lt by lia. f_equal. lia_mod.
    - rewrite Hat by done. destruct (q !! k) as [x|] eqn:Ek.
      + symmetry. apply lookup_app_l_Some. by rewrite list_lookup_fmap, Ek.
      + apply lookup_ge_None in Ek. rewrite lookup_app_r, length_fmap by (lia_len).
        symmetry. apply lookup_replicate_2. lia. }
  rewrite <- (take_drop (r_out r) (slots r)) at 1. rewrite Permutation_app_comm.
  match goal with |- ?a ≡ₚ ?c => assert (a = c) as ->; [|done] end. apply list_eq. intros k. destruct (decide (k < 10)); [auto|].
  rewrite !lookup_ge_None_2; [done|..]; rewrite length_app; [rewrite length_fmap, length_replicate|
    rewrite length_drop, length_take]; lia.
Qed.

(** A successful store makes the flag exact again. *)
Lemma ring_add_flag bs r q :
  layout r q -> (r_full r = true -> q <> []) ->
  flag_exact (ring_add true bs r) (queue_add (r_full r) true bs q).
Proof.
  intros Hlay Hne. pose proof (ring_add_layout true bs r q Hlay Hne) as [_ Ho Hl Hi _ _].
  unfold flag_exact, queue_add in *. revert Ho Hl Hi.
  set (q' := if r_full r then tail q else q). rewrite length_app. simpl.
  set (out := r_out _). intros Ho Hl Hi. apply bool_decide_ext. rewrite Hi. lia_mod.
Qed.
End ring_lemmas.
