(* ===== verification/CircularFacts.v ===== *)
(** * The circular buffer over the heap implements the ring

    [circ_models b r] relates [struct aesd_circular_buffer] to a [ring]: each
    slot's pointer owns the bytes of the ring's slot, and [size] is the total
    of the slots modulo [2^64].  [circ_chunks] is what the buffer owns.  The
    lemmas are the specifications of the file's functions against [Ring],
    with a frame, that the driver's proofs and the properties build on. *)

From S2P Require Import Prelude CInt CMem Footprint Common CircularBuffer Ring.

Definition entry_models (e : aesd_buffer_entry) (s : slot) : Prop :=
  match s with
  | None => e = null_entry
  | Some bs => entry_size e = Z.of_nat (length bs) /\ own_ok (buffptr e) (Some <$> bs)
  end.

Definition entry_chunks (e : aesd_buffer_entry) (s : slot) : list chunk :=
  match s with None => [] | Some bs => own (buffptr e) (Some <$> bs) end.

Definition slot_len (s : slot) : nat := match s with None => O | Some bs => length bs end.

Definition circ_chunks (b : aesd_circular_buffer) (r : ring) : list chunk :=
  concat (zip_with entry_chunks (entry b) (slots r)).

Record circ_models (b : aesd_circular_buffer) (r : ring) : Prop := {
  cm_entries : Forall2 entry_models (entry b) (slots r);
  cm_in : in_offs b = Z.of_nat (r_in r);
  cm_out : out_offs b = Z.of_nat (r_out r);
  cm_full : full b = r_full r;
  cm_size : circ_size b = u64 (Z.of_nat (sum_list_with slot_len (slots r)))
}.

Section entries.
Implicit Types (e : aesd_buffer_entry) (s : slot).

Lemma entry_models_size e s : entry_models e s -> entry_size e = Z.of_nat (slot_len s).
Proof. destruct s; simpl; [by intros []|by intros ->]. Qed.

Lemma entry_models_null e s : entry_models e s -> is_null (buffptr e) = bool_decide (s = None).
Proof.
  destruct s as [bs|]; simpl; [|by intros ->]. intros [_ Hok].
  unfold is_null. rewrite !bool_decide_eq_false_2; [done..|]. intros E. by rewrite E in Hok.
Qed.

Lemma arr_get_models (es : list aesd_buffer_entry) (ss : list slot) (i : nat) s :
  Forall2 entry_models es ss -> ss !! i = Some s ->
  exists e, es !! i = Some e /\ entry_models e s /\ arr_get es (Z.of_nat i) = mret e.
Proof.
  intros Hall Hi. destruct (Forall2_lookup_r _ _ _ _ _ Hall Hi) as (e & He & Hm).
  exists e. split_and!; [done..|]. unfold arr_get.
  by rewrite (proj2 (Z.leb_le _ _)), Nat2Z.id, He by lia.
Qed.
End entries.

(** Taking one slot's chunk out of the footprint, and putting one in. *)
Lemma circ_chunks_take (es : list aesd_buffer_entry) (ss : list slot) i e s :
  es !! i = Some e -> ss !! i = Some s ->
  concat (zip_with entry_chunks es ss) ≡ₚ
  entry_chunks e s ++ concat (<[i:=[]]> (zip_with entry_chunks es ss)).
Proof.
  intros He Hs. apply concat_take_out. rewrite lookup_zip_with, He. simpl. by rewrite Hs.
Qed.

Lemma circ_chunks_put (es : list aesd_buffer_entry) (ss : list slot) i e s :
  (i < length es)%nat -> (i < length ss)%nat ->
  concat (zip_with entry_chunks (<[i:=e]> es) (<[i:=s]> ss)) ≡ₚ
  entry_chunks e s ++ concat (<[i:=[]]> (zip_with entry_chunks es ss)).
Proof.
  intros ??. rewrite zip_with_insert. apply concat_put_in.
  rewrite length_zip_with. lia.
Qed.

Lemma next_index_nat (i : nat) : next_index (Z.of_nat i) = Z.of_nat (succ10 i).
Proof. unfold next_index, AESDCHAR_MAX_WRITE_OPERATIONS_SUPPORTED, succ10. lia_mod. Qed.

Lemma u8_next_index (i : nat) : u8 (next_index (Z.of_nat i)) = Z.of_nat (succ10 i).
Proof. rewrite next_index_nat. apply u8_small. pose proof (succ10_lt i). lia. Qed.

Section operations.
Context `{Allocator}.
Implicit Types (b : aesd_circular_buffer) (r : ring) (h : heap) (L : list chunk).

(** Initialisation gives the empty ring, which owns nothing. *)
Lemma init_models b :
  exists b', aesd_circular_buffer_init (Some b) = Some b' /\
             circ_models b' ring_empty /\ circ_chunks b' ring_empty = [].
Proof.
  eexists. split; [done|]. split; [|done]. split; simpl; [|done..].
  repeat constructor.
Qed.

Lemma wp_release_oldest b r h L :
  circ_models b r -> ring_ok r -> holds h (circ_chunks b r ++ L) ->
  wp (release_oldest b)
     (fun b' h' => circ_models b' (ring_release r) /\
                   holds h' (circ_chunks b' (ring_release r) ++ L) /\ next h' = next h) h.
Proof.
  intros [He Hi Ho Hf Hs] [Hlen Hin Hout _] Hh. pose proof (Forall2_length _ _ _ He) as Hle.
  destruct (lookup_lt_is_Some_2 (slots r) (r_out r)) as [s Hslot]; [lia|].
  destruct (arr_get_models _ _ _ _ He Hslot) as (e & Hent & Hm & Hget).
  unfold release_oldest. rewrite Ho, Hget, bind_ret.
  unfold circ_chunks in Hh. rewrite (circ_chunks_take _ _ _ _ _ Hent Hslot), <- app_assoc in Hh.
  assert (entry_chunks e s = own (buffptr e) (Some <$> default [] s)) as Hown.
  { destruct s; [done|]. by rewrite Hm. }
  rewrite Hown in Hh. apply wp_bind. eapply wp_mono; [by eapply wp_free|].
  intros _ h' [Hh' Hn]. apply wp_ret. split_and!; [|..]; [| |done].
  - split; simpl; try done; unfold arr_set; rewrite ?Nat2Z.id.
    + by apply Forall2_insert.
    + apply u8_next_index.
    + rewrite Hs, (entry_models_size _ _ Hm), u64_sub_l. f_equal.
      pose proof (sum_list_with_insert slot_len _ _ None _ Hslot). simpl in *. lia.
  - unfold circ_chunks, arr_set. simpl. rewrite Nat2Z.id, circ_chunks_put by lia. done.
Qed.

(** A store into a vacant slot; [bs] are the bytes the new entry names. *)
Lemma wp_store_newest b r e bs h L :
  circ_models b r -> settled r ->
  entry_size e = Z.of_nat (length bs) -> own_ok (buffptr e) (Some <$> bs) ->
  holds h (circ_chunks b r ++ own (buffptr e) (Some <$> bs) ++ L) ->
  wp (store_newest b e)
     (fun b' h' =>
        let r' := ring_store (alloc_serves (next h) (entry_size e)) bs r in
        circ_models b' r' /\
        holds h' (circ_chunks b' r' ++ own (buffptr e) (Some <$> bs) ++ L)) h.
Proof.
  intros [He Hi Ho Hf Hs] Hset Hsz Hok Hh. pose proof (settled_vacant _ Hset) as Hslot.
  destruct Hset as [Hlen Hin Hout _]. pose proof (Forall2_length _ _ _ He) as Hle.
  destruct (arr_get_models _ _ _ _ He Hslot) as (e0 & Hent & Hm & Hget).
  unfold store_newest. rewrite Hi, Hget, bind_ret. apply wp_bind. unfold my_malloc.
  eapply wp_mono; [apply (wp_alloc _ (entry_size e) _ Hh); lia|].
  intros p h1 [Hh1 Hp]. rewrite Hsz in Hh1, Hp |- *. rewrite Nat2Z.id in Hh1, Hp.
  rewrite (alloc_serves_not_null _ _ _ _ Hp). destruct (alloc_serves _ _) eqn:Eok.
  - simpl. apply wp_bind. eapply wp_mono.
    { rewrite <- (length_fmap Some bs) at 1.
      eapply (wp_memcpy_whole _ p (buffptr e) (Some <$> bs) (circ_chunks b r ++ L));
        rewrite ?length_fmap; [|done..].
      by rewrite (Permutation_app_swap_app (own (buffptr e) _)). }
    intros _ h2 (Hh2 & Hp2). apply wp_ret. unfold ring_store. split.
    + split; simpl; try done; unfold arr_set; rewrite ?Nat2Z.id.
      * by apply Forall2_insert.
      * apply u8_next_index.
      * rewrite u8_next_index, Ho. case_bool_decide; [apply Z.eqb_eq|apply Z.eqb_neq]; lia.
      * rewrite Hs, u64_add_l. f_equal.
        pose proof (sum_list_with_insert slot_len _ _ (Some bs) _ Hslot). simpl in *. lia.
    + unfold circ_chunks, arr_set in *. simpl. rewrite Nat2Z.id, circ_chunks_put by lia.
      rewrite (circ_chunks_take _ _ _ _ _ Hent Hslot) in Hh2. simpl in *.
      rewrite <- app_assoc. by rewrite (Permutation_app_swap_app (own (buffptr e) _)) in Hh2.
  - subst p. simpl. apply wp_ret. unfold ring_store, set_entry. split.
    + split; simpl; try done; unfold arr_set; rewrite ?Nat2Z.id.
      * apply Forall2_insert; [done|]. simpl. by rewrite Hm.
      * rewrite Hs. do 2 f_equal.
        pose proof (sum_list_with_insert slot_len _ _ None _ Hslot). simpl in *. lia.
    + unfold circ_chunks, arr_set in *. simpl. rewrite Nat2Z.id, circ_chunks_put by lia.
      by rewrite (circ_chunks_take _ _ _ _ _ Hent Hslot) in Hh1.
Qed.

(** The whole call, for either outcome of the allocation. *)
Lemma wp_add_entry b r e bs h L :
  circ_models b r -> ring_ok r ->
  entry_size e = Z.of_nat (length bs) -> own_ok (buffptr e) (Some <$> bs) ->
  holds h (circ_chunks b r ++ own (buffptr e) (Some <$> bs) ++ L) ->
  wp (aesd_circular_buffer_add_entry (Some b) (Some e))
     (fun ob h' => exists b',
        let r' := ring_add (alloc_serves (next h) (entry_size e)) bs r in
        ob = Some b' /\ circ_models b' r' /\ ring_ok r' /\
        holds h' (circ_chunks b' r' ++ own (buffptr e) (Some <$> bs) ++ L)) h.
Proof.
  intros Hb Hr Hsz Hok Hh. unfold aesd_circular_buffer_add_entry. apply wp_bind.
  eapply (wp_mono _ (fun b1 h1 =>
    let r1 := if r_full r then ring_release r else r in
    circ_models b1 r1 /\ holds h1 (circ_chunks b1 r1 ++ own (buffptr e) (Some <$> bs) ++ L) /\
    next h1 = next h)).
  { rewrite (cm_full _ _ Hb). destruct (r_full r); [by apply wp_release_oldest|by apply wp_ret]. }
  intros b1 h1 (Hb1 & Hh1 & Hn). apply wp_bind. rewrite <- Hn.
  eapply wp_mono; [eapply wp_store_newest; try done; by apply release_settled|].
  intros b2 h2 [Hb2 Hh2]. apply wp_ret. exists b2. split_and!; try done. by apply ring_add_ok.
Qed.
End operations.
