(* ===== verification/CircularSearch.v ===== *)
(** * The two searches of the circular buffer, and its release

    [locate q off] is the abstract search: the entry of the queue [q] in which
    position [off] of the concatenation of the entries lies, and the position
    inside that entry.  Both C loops are shown to compute it (or its inverse)
    on the physical slots.  [cleanup] is shown to free exactly what the buffer
    owns. *)

From S2P Require Import Prelude CInt CMem Footprint Common CircularBuffer Ring CircularFacts.

(** Bytes held by a queue. *)
Definition total (q : list (list byte)) : Z := Z.of_nat (length (concat q)).

Fixpoint locate (q : list (list byte)) (off : Z) : option (nat * Z) :=
  match q with
  | [] => None
  | bs :: q' =>
      if off <? Z.of_nat (length bs) then Some (O, off)
      else match locate q' (off - Z.of_nat (length bs)) with
           | Some (j, o) => Some (S j, o)
           | None => None
           end
  end.

Section locate.
Implicit Types (q : list (list byte)).

Lemma total_nonneg q : 0 <= total q.
Proof. unfold total. lia. Qed.
Lemma total_cons bs q : total (bs :: q) = Z.of_nat (length bs) + total q.
Proof. unfold total. simpl. rewrite length_app. lia. Qed.
Lemma total_app q1 q2 : total (q1 ++ q2) = total q1 + total q2.
Proof. unfold total. rewrite concat_app, length_app. lia. Qed.
Lemma total_take_S q k bs :
  q !! k = Some bs -> total (take (S k) q) = total (take k q) + Z.of_nat (length bs).
Proof. intros Hk. rewrite (take_S_r _ _ _ Hk), total_app, total_cons. unfold total. simpl. lia. Qed.
Lemma total_take_le q k : total (take k q) <= total q.
Proof. rewrite <- (take_drop k q) at 2. rewrite total_app. pose proof (total_nonneg (drop k q)). lia. Qed.

Lemma locate_Some q off j o :
  0 <= off -> locate q off = Some (j, o) ->
  exists bs, q !! j = Some bs /\ 0 <= o < Z.of_nat (length bs) /\ off = total (take j q) + o.
Proof.
  revert off j. induction q as [|bs q IH]; intros off j Hoff Hl; simpl in Hl; [done|].
  destruct (_ <? _) eqn:Elt; zbool; simplify_eq.
  - exists bs. simpl. split_and!; [done|done|done|]. unfold total. simpl. lia.
  - destruct (locate q _) as [[j' o']|] eqn:El; simplify_eq.
    apply IH in El as (bs' & Hj & Ho & Heq); [|lia]. exists bs'. simpl.
    rewrite total_cons. split_and!; [done|lia..].
Qed.

Lemma locate_None q off : 0 <= off -> locate q off = None <-> total q <= off.
Proof.
  revert off. induction q as [|bs q IH]; intros off Hoff; simpl; [by unfold total|].
  rewrite total_cons. pose proof (total_nonneg q).
  destruct (_ <? _) eqn:Elt; zbool; [split; [done|lia]|].
  specialize (IH (off - Z.of_nat (length bs)) ltac:(lia)).
  destruct (locate q _) as [[j o]|]; destruct IH as [IH1 IH2]; (split; [intros Heq|intros Hle]).
  - done.
  - specialize (IH2 ltac:(lia)). done.
  - specialize (IH1 eq_refl). lia.
  - done.
Qed.

(** The inverse direction: a position inside a given entry is located there. *)
Lemma locate_at q j o bs :
  q !! j = Some bs -> 0 <= o < Z.of_nat (length bs) -> locate q (total (take j q) + o) = Some (j, o).
Proof.
  revert j. induction q as [|c q IH]; intros [|j] Hj Ho; simplify_eq/=.
  - unfold total. simpl. by zdec.
  - rewrite total_cons. pose proof (total_nonneg (take j q)).
    zdec.
    replace (_ - _) with (total (take j q) + o) by lia. by rewrite (IH j).
Qed.

(** What is left of the contents from a located position on. *)
Lemma locate_drop q off j o bs :
  0 <= off -> locate q off = Some (j, o) -> q !! j = Some bs ->
  drop (Z.to_nat off) (concat q) = drop (Z.to_nat o) bs ++ concat (drop (S j) q).
Proof.
  intros Hoff Hl Hj. destruct (locate_Some _ _ _ _ Hoff Hl) as (bs' & Hj' & Ho & ->). simplify_eq.
  pose proof (total_nonneg (take j q)).
  rewrite <- (take_drop_middle _ _ _ Hj) at 2. rewrite concat_app. simpl.
  unfold total at 1. rewrite Z2Nat.inj_add, Nat2Z.id by lia.
  rewrite <- drop_drop, drop_app_length. by rewrite drop_app_le by lia.
Qed.
End locate.

Section search.
Context (b : aesd_circular_buffer) (r : ring) (q : list (list byte)).
Hypothesis Hb : circ_models b r.
Hypothesis Hq : view r q.
Hypothesis Hsmall : total q < 2 ^ 64.

(** The slot the loops look at in their iteration [k]. *)
Lemma search_slot k :
  (k < 10)%nat -> (k <= length q)%nat ->
  exists e, arr_get (entry b) (Z.of_nat ((r_out r + k) mod 10)) = mret e /\
            entry_models e (q !! k).
Proof.
  intros Hk Hle. destruct (arr_get_models _ _ _ _ (cm_entries _ _ Hb) (view_at _ _ Hq k Hk Hle))
    as (e & _ & Hm & Hget). by exists e.
Qed.

Lemma search_next k :
  next_index (Z.of_nat ((r_out r + k) mod 10)) = Z.of_nat ((r_out r + S k) mod 10).
Proof. rewrite next_index_nat. unfold succ10. f_equal. lia_mod. Qed.

(** What the first search returns for an abstract answer. *)
Definition fpos_answer (a : option (nat * Z)) (rtn : option Z) : M (option Z * option Z) :=
  match a, rtn with
  | Some (j, o), Some _ => mret (Some (Z.of_nat ((r_out r + j) mod 10)), Some o)
  | Some _, None => stuck NullDeref
  | None, _ => mret (None, rtn)
  end.

Lemma find_fpos_loop_spec n k off rtn :
  (n + k = 10)%nat -> (k <= length q)%nat -> total (take k q) <= off < 2 ^ 64 ->
  find_fpos_loop n b off (total (take k q)) (Z.of_nat ((r_out r + k) mod 10)) rtn =
  fpos_answer (match locate (drop k q) (off - total (take k q)) with
               | Some (j, o) => Some ((k + j)%nat, o)
               | None => None
               end) rtn.
Proof.
  revert k. induction n as [|n IH]; intros k Hn Hkq Hoff.
  { rewrite drop_ge; [done|]. pose proof (view_len _ _ Hq). lia. }
  simpl. destruct (search_slot k) as (e & -> & Hm); [lia|done|]. rewrite bind_ret.
  rewrite (entry_models_null _ _ Hm), (entry_models_size _ _ Hm).
  pose proof (total_nonneg (take k q)).
  destruct (q !! k) as [bs|] eqn:Ek.
  - rewrite bool_decide_eq_false_2 by done. simpl slot_len.
    pose proof (lookup_lt_Some _ _ _ Ek).
    rewrite (drop_S _ _ _ Ek), <- (total_take_S _ _ _ Ek). simpl.
    rewrite (u64_small (total (take (S k) q))).
    2:{ pose proof (total_nonneg (take (S k) q)). pose proof (total_take_le q (S k)). lia. }
    rewrite (total_take_S _ _ _ Ek). zdec. simpl.
    destruct (off - _ <? _) eqn:E1.
    + zbool. zdec. rewrite Nat.add_0_r, u64_small by lia.
      by destruct rtn.
    + zbool. zdec.
      rewrite search_next, <- (total_take_S _ _ _ Ek), IH by (rewrite ?(total_take_S _ _ _ Ek); lia).
      rewrite (total_take_S _ _ _ Ek), Z.sub_add_distr.
      destruct (locate _ _) as [[j o]|]; [|done]. by rewrite Nat.add_succ_r.
  - rewrite bool_decide_eq_true_2 by done. by rewrite drop_ge by (by apply lookup_ge_None).
Qed.

(** [aesd_circular_buffer_find_entry_offset_for_fpos] is [locate]. *)
Lemma find_fpos_spec off rtn :
  0 <= off < 2 ^ 64 ->
  aesd_circular_buffer_find_entry_offset_for_fpos (Some b) off rtn =
  fpos_answer (locate q off) rtn.
Proof.
  intros Hoff. unfold aesd_circular_buffer_find_entry_offset_for_fpos.
  zdec.
  pose proof (find_fpos_loop_spec 10 0 off rtn) as Hloop.
  rewrite take_0, drop_0 in Hloop. change (total []) with 0 in Hloop.
  rewrite (Nat.add_0_r (r_out r)), Nat.mod_small in Hloop by apply (view_out _ _ Hq).
  rewrite Z.sub_0_r in Hloop. rewrite (cm_out _ _ Hb), Hloop by lia. by destruct (locate q off) as [[]|].
Qed.

(** The second search: entry number [write_cmd], and its absolute position. *)
Definition ioctl_answer (write_cmd : nat) (off : Z) (rtn : option Z) : M (option Z * option Z) :=
  match q !! write_cmd with
  | Some bs =>
      if off <? Z.of_nat (length bs) then
        mret (Some (Z.of_nat ((r_out r + write_cmd) mod 10)),
              match rtn with Some _ => Some (total (take write_cmd q) + off) | None => None end)
      else rtn' ← store_rtn rtn 0; mret (None, rtn')
  | None => rtn' ← store_rtn rtn 0; mret (None, rtn')
  end.

Lemma find_ioctl_loop_spec n k (c : nat) off rtn :
  (n + k = 10)%nat -> (k <= c < 10)%nat -> (k <= length q)%nat -> 0 <= off ->
  find_ioctl_loop n b (Z.of_nat c) off (Z.of_nat k) (total (take k q))
    (Z.of_nat ((r_out r + k) mod 10)) rtn = ioctl_answer c off rtn.
Proof.
  revert k. induction n as [|n IH]; intros k Hn Hk Hkq Hoff; [lia|].
  simpl. destruct (search_slot k) as (e & -> & Hm); [lia|done|]. rewrite bind_ret.
  rewrite (entry_models_null _ _ Hm), (entry_models_size _ _ Hm).
  pose proof (total_nonneg (take k q)).
  destruct (q !! k) as [bs|] eqn:Ek.
  - rewrite bool_decide_eq_false_2 by done. simpl slot_len.
    pose proof (lookup_lt_Some _ _ _ Ek).
    assert (total (take (S k) q) < 2 ^ 64) as Hlt by (pose proof (total_take_le q (S k)); lia).
    rewrite (total_take_S _ _ _ Ek) in Hlt.
    destruct (Z.eqb_spec (Z.of_nat k) (Z.of_nat c)) as [Ec|Ec].
    + apply Nat2Z.inj in Ec as <-. unfold ioctl_answer. rewrite Ek, Z.leb_antisym.
      destruct (off <? _) eqn:E1; simpl; [|done]. zbool. by rewrite u64_small by lia.
    + rewrite u64_small by lia. rewrite search_next, <- (total_take_S _ _ _ Ek).
      replace (Z.of_nat k + 1) with (Z.of_nat (S k)) by lia. apply IH; lia.
  - rewrite bool_decide_eq_true_2 by done. unfold ioctl_answer.
    apply lookup_ge_None in Ek. by rewrite (lookup_ge_None_2 q c) by lia.
Qed.

Lemma find_ioctl_spec (c : nat) off rtn :
  (c < 10)%nat -> 0 <= off ->
  aesd_circular_buffer_find_entry_for_ioctl (Some b) (Z.of_nat c) off rtn = ioctl_answer c off rtn.
Proof.
  intros Hc Hoff. unfold aesd_circular_buffer_find_entry_for_ioctl,
    AESDCHAR_MAX_WRITE_OPERATIONS_SUPPORTED.
  zdec. simpl orb.
  rewrite <- (find_ioctl_loop_spec 10 0) by lia. rewrite take_0. change (total []) with 0.
  rewrite (Nat.add_0_r (r_out r)), Nat.mod_small by apply (view_out _ _ Hq). by rewrite (cm_out _ _ Hb).
Qed.
End search.

Section cleanup.
Context `{Allocator}.

Lemma wp_cleanup_loop n b ss i h L :
  Forall2 entry_models (entry b) ss -> (i + n = length ss)%nat ->
  holds h (concat (drop i (zip_with entry_chunks (entry b) ss)) ++ L) ->
  wp (cleanup_loop n b (Z.of_nat i)) (fun _ h' => holds h' L) h.
Proof.
  intros Hall. pose proof (Forall2_length _ _ _ Hall) as Hlen.
  revert i h. induction n as [|n IH]; intros i h Hi Hh; simpl.
  - apply wp_ret. rewrite drop_ge in Hh; [done|]. rewrite length_zip_with. lia.
  - destruct (lookup_lt_is_Some_2 ss i) as [s Hs]; [lia|].
    destruct (arr_get_models _ _ _ _ Hall Hs) as (e & He & Hm & ->). rewrite bind_ret.
    rewrite (drop_S _ (entry_chunks e s)) in Hh.
    2:{ rewrite lookup_zip_with, He. simpl. by rewrite Hs. }
    simpl in Hh. rewrite <- app_assoc in Hh. apply wp_bind.
    eapply (wp_mono _ (fun _ h' => holds h' (concat (drop (S i) (zip_with entry_chunks (entry b) ss)) ++ L))).
    + rewrite (entry_models_null _ _ Hm). destruct s as [bs|]; simpl in Hh.
      * rewrite bool_decide_eq_false_2 by done. unfold my_free.
        eapply wp_mono; [by eapply wp_free|]. by intros ? ? [].
      * by apply wp_ret.
    + intros _ h' Hh'. replace (Z.of_nat i + 1) with (Z.of_nat (S i)) by lia.
      apply IH; [lia|done].
Qed.

(** [cleanup] frees every entry once and nothing else. *)
Lemma wp_cleanup b r h L :
  circ_models b r -> ring_ok r -> holds h (circ_chunks b r ++ L) ->
  wp (aesd_circular_buffer_cleanup (Some b)) (fun _ h' => holds h' L) h.
Proof.
  intros Hb Hr Hh. apply (wp_cleanup_loop 10 b (slots r) 0); [by apply Hb| |done].
  by rewrite (ok_slots _ Hr).
Qed.

(** The macro of the header, as its comment uses it, is [cleanup]: eleven tests
    of the condition, ten bodies, and the same calls of the allocator. *)
Lemma foreach_step n b i body :
  AESD_CIRCULAR_BUFFER_FOREACH (S n) b i body =
  if i <? 10 then
    e ← arr_get (entry b) i; _ ← body e; AESD_CIRCULAR_BUFFER_FOREACH n b (u8 (i + 1)) body
  else mret (Some i).
Proof. done. Qed.

Lemma foreach_free_from n b i h :
  (i + n = 10)%nat ->
  AESD_CIRCULAR_BUFFER_FOREACH (S n) b (Z.of_nat i) (fun e => my_free (buffptr e)) h =
  (_ ← cleanup_loop n b (Z.of_nat i); mret (Some 10)) h.
Proof.
  revert i h. induction n as [|n IH]; intros i h Hi; rewrite foreach_step; cbn [cleanup_loop].
  - zdec. rewrite bind_ret. do 2 f_equal. lia.
  - zdec. rewrite u8_small by lia. replace (Z.of_nat i + 1) with (Z.of_nat (S i)) by lia.
    unfold mbind, M_bind. destruct (arr_get (entry b) (Z.of_nat i) h) as [e h1|]; [|done].
    assert (my_free (buffptr e) h1 = (if is_null (buffptr e) then mret () else my_free (buffptr e)) h1) as ->
      by by destruct (buffptr e).
    destruct (_ h1) as [[] h2|]; [|done]. by apply (IH (S i) h2 ltac:(lia)).
Qed.

Lemma foreach_free_is_cleanup b h :
  AESD_CIRCULAR_BUFFER_FOREACH 11 b 0 (fun e => my_free (buffptr e)) h =
  (_ ← aesd_circular_buffer_cleanup (Some b); mret (Some 10)) h.
Proof. by apply (foreach_free_from 10 b 0). Qed.
End cleanup.
