(* ===== verification/TemporaryBuffer.v ===== *)
(** * The accumulation buffer of unterminated writes

    [aesd-char-driver/aesd_temperaty_buffer.c] (module [Driver]) and the copy
    of it in [server/src/aesd_temperaty_buffer.c] (module [Server]).  The two
    files differ in the allocation functions only ([kmalloc]/[kfree] against
    [malloc]/[free]), so both are translations over an [Allocator], and
    [server_add_is_driver_add] and its companions say they are one program.

    The buffer is described by an [option (list byte)]: [None] when [buffptr]
    is [NULL], otherwise the accumulated bytes. *)

From S2P Require Import Prelude CInt CMem Footprint.

Record aesd_temperary_buffer := Temporary { tmp_buffptr : ptr; tmp_size : Z }.

Module Driver.
Section ops.
Context `{Allocator}.

Definition aesd_temperary_buffer_init (t : aesd_temperary_buffer) : aesd_temperary_buffer :=
  Temporary NULL 0.

Definition aesd_temperary_buffer_clean (t : aesd_temperary_buffer) : M aesd_temperary_buffer :=
  if negb (is_null (tmp_buffptr t)) then
    _ ← free (tmp_buffptr t);
    mret (Temporary NULL 0)
  else mret t.

Definition aesd_temperary_buffer_is_empty (t : aesd_temperary_buffer) : bool :=
  is_null (tmp_buffptr t) || (tmp_size t =? 0).

Definition aesd_temperary_buffer_add (t : aesd_temperary_buffer) (data : ptr) (size : Z)
    : M (bool * aesd_temperary_buffer) :=
  let buffptrLast := tmp_buffptr t in
  if is_null buffptrLast then
    p ← alloc size;
    if is_null p then mret (false, t)
    else
      _ ← memcpy p 0 data 0 size;
      mret (true, Temporary p size)
  else
    buffptrNew ← alloc (u64 (tmp_size t + size));
    if is_null buffptrNew then mret (false, t)
    else
      _ ← memcpy buffptrNew 0 buffptrLast 0 (tmp_size t);
      _ ← memcpy buffptrNew (tmp_size t) data 0 size;
      _ ← free buffptrLast;
      mret (true, Temporary buffptrNew (u64 (tmp_size t + size))).

Definition aesd_temperary_buffer_delete (t : aesd_temperary_buffer) : M aesd_temperary_buffer :=
  if negb (is_null (tmp_buffptr t)) then
    _ ← free (tmp_buffptr t);
    mret (Temporary NULL 0)
  else mret t.
End ops.
End Driver.

Module Server.
Section ops.
Context `{Allocator}.

Definition aesd_temperary_buffer_init (t : aesd_temperary_buffer) : aesd_temperary_buffer :=
  Temporary NULL 0.

Definition aesd_temperary_buffer_clean (t : aesd_temperary_buffer) : M aesd_temperary_buffer :=
  if negb (is_null (tmp_buffptr t)) then
    _ ← free (tmp_buffptr t);
    mret (Temporary NULL 0)
  else mret t.

Definition aesd_temperary_buffer_is_empty (t : aesd_temperary_buffer) : bool :=
  is_null (tmp_buffptr t) || (tmp_size t =? 0).

Definition aesd_temperary_buffer_add (t : aesd_temperary_buffer) (data : ptr) (size : Z)
    : M (bool * aesd_temperary_buffer) :=
  let buffptrLast := tmp_buffptr t in
  if is_null buffptrLast then
    p ← alloc size;
    if is_null p then mret (false, t)
    else
      _ ← memcpy p 0 data 0 size;
      mret (true, Temporary p size)
  else
    buffptrNew ← alloc (u64 (tmp_size t + size));
    if is_null buffptrNew then mret (false, t)
    else
      _ ← memcpy buffptrNew 0 buffptrLast 0 (tmp_size t);
      _ ← memcpy buffptrNew (tmp_size t) data 0 size;
      _ ← free buffptrLast;
      mret (true, Temporary buffptrNew (u64 (tmp_size t + size))).

Definition aesd_temperary_buffer_delete (t : aesd_temperary_buffer) : M aesd_temperary_buffer :=
  if negb (is_null (tmp_buffptr t)) then
    _ ← free (tmp_buffptr t);
    mret (Temporary NULL 0)
  else mret t.
End ops.
End Server.

(** ** The bytes a buffer holds *)

Definition tmp_models (t : aesd_temperary_buffer) (p : option (list byte)) : Prop :=
  match p with
  | None => t = Temporary NULL 0
  | Some bs => tmp_size t = Z.of_nat (length bs) /\ own_ok (tmp_buffptr t) (Some <$> bs)
  end.

Definition tmp_chunks (t : aesd_temperary_buffer) (p : option (list byte)) : list chunk :=
  match p with None => [] | Some bs => own (tmp_buffptr t) (Some <$> bs) end.

Section facts.
Context `{Allocator}.
Import Driver.
Implicit Types (t : aesd_temperary_buffer) (p : option (list byte)) (h : heap).

Lemma tmp_models_null t p : tmp_models t p -> is_null (tmp_buffptr t) = bool_decide (p = None).
Proof.
  destruct p as [bs|]; simpl; [|by intros ->]. intros [_ Hok].
  unfold is_null. rewrite !bool_decide_eq_false_2; [done..|]. intros E. by rewrite E in Hok.
Qed.

(** The driver's test, on the bytes. *)
Lemma is_empty_spec t p :
  tmp_models t p -> aesd_temperary_buffer_is_empty t = bool_decide (default [] p = []).
Proof.
  intros Ht. unfold aesd_temperary_buffer_is_empty. rewrite (tmp_models_null _ _ Ht).
  destruct p as [bs|]; [|done]. destruct Ht as [Hsz _]. rewrite Hsz. simpl.
  by destruct bs.
Qed.

Lemma tmp_models_pending t p : tmp_models t p -> tmp_size t = Z.of_nat (length (default [] p)).
Proof. destruct p; [by intros []|by intros ->]. Qed.

(** Live bytes fit the allocator's limit, so their sum does not wrap. *)
Lemma tmp_models_bounds t p data (blk : block) h L :
  tmp_models t p -> own_ok data blk -> holds h (tmp_chunks t p ++ own data blk ++ L) ->
  Z.of_nat (length blk) <= alloc_max /\ 0 <= tmp_size t <= alloc_max.
Proof.
  intros Ht Hd Hh. pose proof alloc_max_pos. split.
  - eapply (holds_block_max _ data); [|done]. by rewrite Permutation_app_swap_app in Hh.
  - destruct p as [old|]; [|rewrite Ht; simpl; lia]. destruct Ht as [-> Hok].
    pose proof (holds_block_max _ (tmp_buffptr t) _ _ Hh Hok). rewrite length_fmap in *. lia.
Qed.

(** The copy into a new block, with the old contents in front; [data] points
    to a block that starts with the bytes to add. *)
Lemma wp_tmp_grow t old data bs rest h L :
  tmp_models t (Some old) -> own_ok data ((Some <$> bs) ++ rest) ->
  holds h (tmp_chunks t (Some old) ++ own data ((Some <$> bs) ++ rest) ++ L) ->
  wp (aesd_temperary_buffer_add t data (Z.of_nat (length bs)))
     (fun res h' =>
        let ok := alloc_serves (next h) (tmp_size t + Z.of_nat (length bs)) in
        let p' := if ok then Some (old ++ bs) else Some old in
        fst res = ok /\ tmp_models (snd res) p' /\
        holds h' (tmp_chunks (snd res) p' ++ own data ((Some <$> bs) ++ rest) ++ L)) h.
Proof.
  intros Ht Hd Hh. destruct (tmp_models_bounds _ _ _ _ _ _ Ht Hd Hh) as [Hbs Hold].
  rewrite length_app, length_fmap in Hbs.
  pose proof alloc_max_addressable. unfold aesd_temperary_buffer_add.
  rewrite (tmp_models_null _ _ Ht), bool_decide_eq_false_2 by done. destruct Ht as [Hsz Hok].
  rewrite u64_small by lia. apply wp_bind.
  eapply wp_mono; [apply (wp_alloc _ _ _ Hh); lia|]. intros q h1 [Hh1 Hq].
  rewrite (alloc_serves_not_null _ _ _ _ Hq). rewrite Hsz in *.
  replace (Z.to_nat _) with (length (Some <$> old) + length (Some <$> bs))%nat in Hh1, Hq
    by (lia_len).
  rewrite <- (length_fmap Some old), <- (length_fmap Some bs) in *.
  destruct (alloc_serves _ _); simpl; [|by subst q; rewrite length_fmap in Hsz; apply wp_ret].
  apply wp_bind. eapply wp_mono; [by eapply wp_memcpy_prefix|]. intros _ h2 [Hh2 Hq2].
  rewrite (Permutation_app_swap_app (own (tmp_buffptr t) _)) in Hh2.
  apply wp_bind. eapply wp_mono; [by eapply wp_memcpy_suffix|]. intros _ h3 [Hh3 Hq3].
  apply wp_bind. eapply wp_mono.
  { apply (wp_free _ (tmp_buffptr t) (Some <$> old)
             (own q ((Some <$> old) ++ (Some <$> bs)) ++ own data ((Some <$> bs) ++ rest) ++ L)).
    holds_perm Hh3. }
  intros _ h4 [Hh4 _]. apply wp_ret. simpl. rewrite fmap_app, length_app, !length_fmap.
  split_and!; [done|lia|done|done].
Qed.

(** [aesd_temperary_buffer_add] appends, or leaves everything as it was. *)
Lemma wp_tmp_add_front t p data bs rest h L :
  tmp_models t p -> own_ok data ((Some <$> bs) ++ rest) ->
  holds h (tmp_chunks t p ++ own data ((Some <$> bs) ++ rest) ++ L) ->
  wp (aesd_temperary_buffer_add t data (Z.of_nat (length bs)))
     (fun res h' =>
        let ok := alloc_serves (next h) (tmp_size t + Z.of_nat (length bs)) in
        let p' := if ok then Some (default [] p ++ bs) else p in
        fst res = ok /\ tmp_models (snd res) p' /\
        holds h' (tmp_chunks (snd res) p' ++ own data ((Some <$> bs) ++ rest) ++ L)) h.
Proof.
  intros Ht Hd Hh. destruct p as [old|]; [by apply wp_tmp_grow|].
  simpl in Ht, Hh. subst t. unfold aesd_temperary_buffer_add. simpl is_null. cbn [negb].
  apply wp_bind. eapply wp_mono; [apply (wp_alloc _ _ _ Hh); lia|]. intros q h1 [Hh1 Hq].
  rewrite (alloc_serves_not_null _ _ _ _ Hq). simpl tmp_size. rewrite Z.add_0_l.
  rewrite Nat2Z.id, <- (length_fmap Some bs) in *.
  destruct (alloc_serves _ _); simpl; [|by subst q; apply wp_ret].
  apply wp_bind. eapply wp_mono; [by eapply wp_memcpy_fresh|]. intros _ h2 [Hh2 Hq2].
  apply wp_ret. simpl. by rewrite length_fmap.
Qed.

(** The same for a block of nothing but the bytes to add. *)
Lemma wp_tmp_add t p data bs h L :
  tmp_models t p -> own_ok data (Some <$> bs) ->
  holds h (tmp_chunks t p ++ own data (Some <$> bs) ++ L) ->
  wp (aesd_temperary_buffer_add t data (Z.of_nat (length bs)))
     (fun res h' =>
        let ok := alloc_serves (next h) (tmp_size t + Z.of_nat (length bs)) in
        let p' := if ok then Some (default [] p ++ bs) else p in
        fst res = ok /\ tmp_models (snd res) p' /\
        holds h' (tmp_chunks (snd res) p' ++ own data (Some <$> bs) ++ L)) h.
Proof.
  intros Ht Hd Hh. rewrite <- (app_nil_r (Some <$> bs)) in Hd, Hh |- *. by apply wp_tmp_add_front.
Qed.

(** [clean] and [delete] free the bytes and return to the initial state. *)
Lemma wp_tmp_release t p h L :
  tmp_models t p -> holds h (tmp_chunks t p ++ L) ->
  wp (aesd_temperary_buffer_clean t)
     (fun t' h' => t' = Temporary NULL 0 /\ holds h' L /\ next h' = next h) h.
Proof.
  intros Ht Hh. unfold aesd_temperary_buffer_clean. rewrite (tmp_models_null _ _ Ht).
  destruct p as [bs|]; simpl in Ht, Hh.
  - rewrite bool_decide_eq_false_2 by done. simpl. apply wp_bind.
    eapply wp_mono; [by eapply wp_free|]. intros _ h' []. by apply wp_ret.
  - rewrite bool_decide_eq_true_2 by done. by apply wp_ret.
Qed.

Lemma delete_is_clean t : aesd_temperary_buffer_delete t = aesd_temperary_buffer_clean t.
Proof. done. Qed.

(** The server's copy of the file is the same program. *)
Lemma server_add_is_driver_add : @Server.aesd_temperary_buffer_add _ = @Driver.aesd_temperary_buffer_add _.
Proof. done. Qed.
Lemma server_clean_is_driver_clean : @Server.aesd_temperary_buffer_clean = @Driver.aesd_temperary_buffer_clean.
Proof. done. Qed.
End facts.
