(* ===== verification/Concrete.v ===== *)
(** * Concrete allocators and heaps

    The allocators of the two builds, with chosen failures, and heaps written
    down as lists of chunks: what the witnesses instantiate. *)

From Stdlib.Strings Require Import String Ascii.
From S2P Require Import Prelude CInt CMem Footprint.

(** The bytes of a string; [\n] is written [nl]. *)
Definition bytes (s : string) : list byte := list_byte_of_string s.
Definition nl : list byte := [ch_newline].

(** ** Allocators *)

Lemma kmalloc_max_pos : 0 < 2 ^ 22.
Proof. done. Qed.
Lemma kmalloc_max_addressable : 2 ^ 22 <= 2 ^ 48.
Proof. done. Qed.

(** [kmalloc], with [KMALLOC_MAX_SIZE] of 4 MiB, failing at the attempts that
    [bad] names. *)
Definition kmalloc_failing (bad : positive -> bool) : Allocator := {|
  alloc_fails n _ := bad n;
  alloc_max := 2 ^ 22;
  alloc_zero_shared := true;
  alloc_max_pos := kmalloc_max_pos;
  alloc_max_addressable := kmalloc_max_addressable
|}.

Definition kmalloc : Allocator := kmalloc_failing (fun _ => false).

(** [malloc] of the user-space builds: a zero-sized request gets a block. *)
Definition malloc_failing (bad : positive -> bool) : Allocator := {|
  alloc_fails n _ := bad n;
  alloc_max := 2 ^ 22;
  alloc_zero_shared := false;
  alloc_max_pos := kmalloc_max_pos;
  alloc_max_addressable := kmalloc_max_addressable
|}.

Definition malloc : Allocator := malloc_failing (fun _ => false).

(** ** Heaps given by their chunks *)

Definition heap_of (l : list chunk) (n : positive) : heap := Heap (list_to_map l) n.

(** The check that makes [heap_of l n] hold [l]. *)
Definition heap_of_ok (max : Z) (l : list chunk) (n : positive) : bool :=
  bool_decide (NoDup l.*1) &&
  forallb (fun c => (c.1 <? n)%positive && (Z.of_nat (length c.2) <=? max)) l.

Lemma heap_of_holds (A : Allocator) l n :
  heap_of_ok alloc_max l n = true -> @holds A (heap_of l n) l.
Proof.
  intros [Hnd Hall]%andb_true_iff. apply bool_decide_eq_true in Hnd. split.
  - intros i b Hi. simpl in Hi. apply elem_of_list_to_map in Hi; [|done].
    rewrite forallb_forall in Hall. apply list_elem_of_In, Hall in Hi. simpl in Hi.
    apply andb_true_iff in Hi as [?%Pos.ltb_lt ?%Z.leb_le]. done.
  - simpl. by apply map_to_list_to_map.
Qed.
