(* ===== verification/CharDevice.v ===== *)
(** * [aesd-char-driver/main.c]: the character device

    One definition per file operation and per module entry point.  What the
    kernel does for a user buffer ([copy_from_user], [copy_to_user]) and what
    its registration functions answer are parameters.  A handler returns what
    the C function returns together with the state it leaves: the device, the
    file position, and (for [aesd_read]) the bytes that reached user memory.

    The two buffer structures are allocated by [aesd_init_module]; the device
    record keeps, for each, the pointer and the structure it points to, and a
    dereference checks that the pointer's block is allocated. *)

From S2P Require Import Prelude CInt CMem Footprint Common CircularBuffer TemporaryBuffer.
Import TemporaryBuffer.Driver.

(** ** Constants *)

Definition EFAULT : Z := 14.
Definition ENOMEM : Z := 12.
Definition EINVAL : Z := 22.

Definition SEEK_SET : Z := 0.
Definition SEEK_CUR : Z := 1.
Definition SEEK_END : Z := 2.

(** [aesd_ioctl.h] *)
Definition AESD_IOC_MAGIC : Z := 0x16.
Definition AESDCHAR_IOC_MAXNR : Z := 1.

(** The encoding of an ioctl number: [dir:2 size:14 type:8 nr:8]. *)
Definition IOC_TYPE (cmd : Z) : Z := Z.land (Z.shiftr cmd 8) 0xff.
Definition IOC_NR (cmd : Z) : Z := Z.land cmd 0xff.
Definition IOWR (type nr size : Z) : Z :=
  Z.lor (Z.lor (Z.shiftl 3 30) (Z.shiftl size 16)) (Z.lor (Z.shiftl type 8) nr).

Record aesd_seekto := Seekto { write_cmd : Z; write_cmd_offset : Z }.

Definition sizeof_seekto : Z := 8.
Definition AESDCHAR_IOCSEEKTO : Z := IOWR AESD_IOC_MAGIC 1 sizeof_seekto.

(** ** The bytes of [struct aesd_seekto], little endian *)

Definition byte_Z (c : byte) : Z := Z.of_N (Byte.to_N c).
Definition Z_byte (x : Z) : byte := default x00 (Byte.of_N (Z.to_N (u8 x))).

Definition le32_decode (bs : list byte) : Z :=
  foldr (fun c acc => byte_Z c + 2 ^ 8 * acc) 0 bs.

Definition le32_encode (x : Z) : list byte :=
  [Z_byte x; Z_byte (x / 2 ^ 8); Z_byte (x / 2 ^ 16); Z_byte (x / 2 ^ 24)].

Definition seekto_decode (bs : list byte) : aesd_seekto :=
  Seekto (le32_decode (take 4 bs)) (le32_decode (take 4 (drop 4 bs))).

Definition seekto_encode (s : aesd_seekto) : list byte :=
  le32_encode (write_cmd s) ++ le32_encode (write_cmd_offset s).

(** ** User memory *)

(** One user buffer in one call: [user_fetch n] is what [copy_from_user] of
    [n] bytes brings and how many bytes it leaves uncopied; [user_store n] is
    how many of [n] bytes [copy_to_user] leaves uncopied. *)
Record user_buffer := User { user_fetch : Z -> list byte * Z; user_store : Z -> Z }.

(** The documented contract of the two functions. *)
Record user_ok (u : user_buffer) : Prop := {
  fetch_left n : 0 <= n -> 0 <= (user_fetch u n).2 <= n;
  fetch_length n : 0 <= n -> Z.of_nat (length (user_fetch u n).1) = n - (user_fetch u n).2;
  store_left n : 0 <= n -> 0 <= user_store u n <= n
}.

(** ** The device *)

Record aesd_dev := Dev {
  bufferTemperary : ptr;
  tmp : aesd_temperary_buffer;
  bufferCircular : ptr;
  circ : aesd_circular_buffer
}.

Definition set_tmp (d : aesd_dev) (t : aesd_temperary_buffer) : aesd_dev :=
  Dev (bufferTemperary d) t (bufferCircular d) (circ d).
Definition set_circ (d : aesd_dev) (b : aesd_circular_buffer) : aesd_dev :=
  Dev (bufferTemperary d) (tmp d) (bufferCircular d) b.

(** [dev->bufferCircular->...] and [dev->bufferTemperary->...] *)
Definition deref_circ (d : aesd_dev) : M aesd_circular_buffer :=
  _ ← get_block (bufferCircular d); mret (circ d).
Definition deref_tmp (d : aesd_dev) : M aesd_temperary_buffer :=
  _ ← get_block (bufferTemperary d); mret (tmp d).

(** The pointer handed to a function that tests it for [NULL]. *)
Definition arg_circ (d : aesd_dev) : M (option aesd_circular_buffer) :=
  if is_null (bufferCircular d) then mret None else b ← deref_circ d; mret (Some b).

Definition update_circ (d : aesd_dev) (ob : option aesd_circular_buffer) : aesd_dev :=
  match ob with Some b => set_circ d b | None => d end.

(** [for (i = 0; i < count; i++) if (kbuf[i] == '\n') ...], [n] iterations
    before the end. *)
Fixpoint scan_newline (n : nat) (kbuf : ptr) (i : Z) : M bool :=
  match n with
  | O => mret false
  | S n' =>
      c ← load_byte kbuf i;
      if decide (c = ch_newline) then mret true else scan_newline n' kbuf (i + 1)
  end.

Section handlers.
Context `{Allocator}.

Definition aesd_read (d : aesd_dev) (u : user_buffer) (count f_pos : Z)
    : M (Z * Z * list byte) :=
  ob ← arg_circ d;
  found ← aesd_circular_buffer_find_entry_offset_for_fpos ob (u64 f_pos) (Some 0);
  match found with
  | (None, _) => mret (0, f_pos, [])
  | (Some idx, rtn) =>
      let entry_offset := default 0 rtn in
      b ← deref_circ d;
      e ← arr_get (entry b) idx;
      let available := u64 (entry_size e - entry_offset) in
      let to_copy := Z.min count available in
      data ← load_init (buffptr e) entry_offset to_copy;
      let left := user_store u to_copy in
      if negb (left =? 0) then mret (- EFAULT, f_pos, take (Z.to_nat (to_copy - left)) data)
      else mret (s64 to_copy, s64 (f_pos + to_copy), data)
  end.

(** The three ways a write goes on once its data is in [kbuf]. *)
Definition write_line (d : aesd_dev) (kbuf : ptr) (count : Z) : M (Z * aesd_dev) :=
  ob ← arg_circ d;
  ob' ← aesd_circular_buffer_add_entry ob (Some (Entry kbuf count));
  _ ← free kbuf;
  mret (s64 count, update_circ d ob').

Definition write_rest_of_line (d : aesd_dev) (kbuf : ptr) (count : Z) : M (Z * aesd_dev) :=
  t ← deref_tmp d;
  added ← aesd_temperary_buffer_add t kbuf count;
  let d := set_tmp d added.2 in
  if negb added.1 then _ ← free kbuf; mret (- ENOMEM, d)
  else
    t ← deref_tmp d;
    ob ← arg_circ d;
    ob' ← aesd_circular_buffer_add_entry ob (Some (Entry (tmp_buffptr t) (tmp_size t)));
    t' ← aesd_temperary_buffer_delete t;
    _ ← free kbuf;
    mret (s64 count, set_tmp (update_circ d ob') t').

Definition write_fragment (d : aesd_dev) (kbuf : ptr) (count : Z) : M (Z * aesd_dev) :=
  t ← deref_tmp d;
  added ← aesd_temperary_buffer_add t kbuf count;
  let d := set_tmp d added.2 in
  if negb added.1 then _ ← free kbuf; mret (- ENOMEM, d)
  else _ ← free kbuf; mret (s64 count, d).

Definition aesd_write (d : aesd_dev) (u : user_buffer) (count : Z) : M (Z * aesd_dev) :=
  kbuf ← alloc count;
  if is_null kbuf then mret (- ENOMEM, d)
  else
    let fetched := user_fetch u count in
    _ ← store_bytes kbuf 0 (Some <$> fetched.1);
    if negb (fetched.2 =? 0) then _ ← free kbuf; mret (- EFAULT, d)
    else
      newline ← scan_newline (Z.to_nat count) kbuf 0;
      t ← deref_tmp d;
      if newline && aesd_temperary_buffer_is_empty t then write_line d kbuf count
      else if newline && negb (aesd_temperary_buffer_is_empty t) then
        write_rest_of_line d kbuf count
      else write_fragment d kbuf count.

(** Returns the result and the new [filp->f_pos]. *)
Definition aesd_llseek (d : aesd_dev) (f_pos offset whence : Z) : M (Z * Z) :=
  if whence =? SEEK_SET then
    if offset <? 0 then mret (- EINVAL, f_pos) else mret (offset, offset)
  else if whence =? SEEK_CUR then
    if s64 (f_pos + offset) <? 0 then mret (- EINVAL, f_pos)
    else mret (s64 (f_pos + offset), s64 (f_pos + offset))
  else if whence =? SEEK_END then
    b ← deref_circ d;
    let pos := s64 (u64 (circ_size b + u64 offset)) in
    mret (pos, pos)
  else mret (f_pos, f_pos).

(** [arg] is the user's [struct aesd_seekto]. *)
Definition aesd_ioctl (d : aesd_dev) (cmd : Z) (arg : user_buffer) (f_pos : Z) : M (Z * Z) :=
  if negb (IOC_TYPE cmd =? AESD_IOC_MAGIC) then mret (- EINVAL, f_pos)
  else if AESDCHAR_IOC_MAXNR <? IOC_NR cmd then mret (- EINVAL, f_pos)
  else if cmd =? AESDCHAR_IOCSEEKTO then
    let fetched := user_fetch arg sizeof_seekto in
    if negb (fetched.2 =? 0) then mret (- EFAULT, f_pos)
    else
      let seekto := seekto_decode fetched.1 in
      if AESDCHAR_MAX_WRITE_OPERATIONS_SUPPORTED <=? write_cmd seekto then mret (- EINVAL, f_pos)
      else
        b ← deref_circ d;
        e ← arr_get (entry b) (write_cmd seekto);
        if entry_size e <=? write_cmd_offset seekto then mret (- EINVAL, f_pos)
        else
          ob ← arg_circ d;
          found ← aesd_circular_buffer_find_entry_for_ioctl ob
                    (write_cmd seekto) (write_cmd_offset seekto) (Some 0);
          mret (0, s64 (default 0 found.2))
  else mret (- EINVAL, f_pos).
End handlers.

(** ** Loading and unloading the module *)

(** [sizeof] of the two structures on an LP64 target. *)
Definition sizeof_circular_buffer : Z := 176.
Definition sizeof_temperary_buffer : Z := 16.

(** What loading leaves behind: the registrations held and the device. *)
Record module_state := Module_state {
  region_held : bool;
  cdev_live : bool;
  aesd_device : aesd_dev
}.

(** [memset(&aesd_device, 0, ...)] *)
Definition zero_dev : aesd_dev := Dev NULL (Temporary NULL 0) NULL (Circular [] 0 0 false 0).

Section module.
Context `{Allocator}.

(** A file opened: the device that its [private_data] leads to, [d] being the
    one that contains the inode's [i_cdev]. *)
Definition aesd_open (d : aesd_dev) : M (Z * aesd_dev) := mret (0, d).

Definition aesd_release (d : aesd_dev) : M Z := mret 0.

(** [aesd_setup_cdev]: [cdev_add] answers [add_result]. *)
Definition aesd_setup_cdev (add_result : Z) : Z := add_result.

(** [region_result], [add_result]: the answers of [alloc_chrdev_region]
    and of [cdev_add] (zero or a negative error). *)
Definition aesd_init_module (region_result add_result : Z) : M (Z * module_state) :=
  if region_result <? 0 then mret (region_result, Module_state false false zero_dev)
  else
    cp ← alloc sizeof_circular_buffer;
    if is_null cp then mret (- ENOMEM, Module_state true false zero_dev)
    else
      let circ0 := aesd_circular_buffer_init (Some (circ zero_dev)) in
      let d1 := update_circ (Dev NULL (tmp zero_dev) cp (circ zero_dev)) circ0 in
      tp ← alloc sizeof_temperary_buffer;
      if is_null tp then mret (- ENOMEM, Module_state true false d1)
      else
        let d2 := Dev tp (aesd_temperary_buffer_init (tmp d1)) (bufferCircular d1) (circ d1) in
        let result := aesd_setup_cdev add_result in
        if negb (result =? 0) then mret (result, Module_state false false d2)
        else mret (result, Module_state true true d2).

Definition aesd_cleanup_module (m : module_state) : M module_state :=
  let d := aesd_device m in
  ob ← arg_circ d;
  _ ← aesd_circular_buffer_cleanup ob;
  _ ← (if negb (is_null (bufferCircular d)) then free (bufferCircular d) else mret ());
  t ← deref_tmp d;
  t' ← aesd_temperary_buffer_clean t;
  _ ← (if negb (is_null (bufferTemperary d)) then free (bufferTemperary d) else mret ());
  mret (Module_state false false (set_tmp d t')).
End module.
