(* ===== verification/DeviceFacts.v ===== *)
(** * Specifications of the device's operations at the level of rings

    [dev_models d r p] relates the device to a ring [r] and to the bytes [p]
    of the accumulation buffer; [dev_chunks] is everything the device owns,
    the two structures included.  Each handler of [main.c] gets a
    specification that covers every answer of the allocator and of the user
    copies.  These lemmas assume only the ring's invariant, so they hold in
    every reachable state. *)

From S2P Require Import Prelude CInt CMem Footprint Common CircularBuffer TemporaryBuffer.
From S2P Require Import Ring CircularFacts CircularSearch CharDevice.

Definition circ_block : block := replicate 176 None.
Definition tmp_block : block := replicate 16 None.

Record dev_models (d : aesd_dev) (r : ring) (p : option (list byte)) : Prop := {
  dm_circ : circ_models (circ d) r;
  dm_ring : ring_ok r;
  dm_tmp : tmp_models (tmp d) p;
  dm_cptr : own_ok (bufferCircular d) circ_block;
  dm_tptr : own_ok (bufferTemperary d) tmp_block
}.

Definition dev_chunks (d : aesd_dev) (r : ring) (p : option (list byte)) : list chunk :=
  own (bufferCircular d) circ_block ++ own (bufferTemperary d) tmp_block ++
  circ_chunks (circ d) r ++ tmp_chunks (tmp d) p.

(** Some request of [sz] bytes can be refused. *)
Definition refusable `{Allocator} (sz : Z) : Prop := exists n, alloc_serves n sz = false.

Section device.
Context `{Allocator}.
Implicit Types (d : aesd_dev) (r : ring) (p : option (list byte)) (h : heap) (L : list chunk).

(** ** Dereferences *)

Lemma own_ok_not_null q b : own_ok q b -> is_null q = false.
Proof. intros Hq. apply bool_decide_eq_false. intros E. by rewrite E in Hq. Qed.

Lemma deref_circ_own d h K :
  own_ok (bufferCircular d) circ_block -> holds h K -> own (bufferCircular d) circ_block ⊆+ K ->
  deref_circ d h = Done (circ d) h.
Proof.
  intros Hok Hh [F HF]%(holds_split _ _ _ Hh). unfold deref_circ, mbind, M_bind. by rewrite (get_block_own _ _ _ _ HF Hok).
Qed.

Lemma deref_tmp_own d h K :
  own_ok (bufferTemperary d) tmp_block -> holds h K -> own (bufferTemperary d) tmp_block ⊆+ K ->
  deref_tmp d h = Done (tmp d) h.
Proof.
  intros Hok Hh [F HF]%(holds_split _ _ _ Hh). unfold deref_tmp, mbind, M_bind. by rewrite (get_block_own _ _ _ _ HF Hok).
Qed.

Lemma arg_circ_own d h K :
  own_ok (bufferCircular d) circ_block -> holds h K -> own (bufferCircular d) circ_block ⊆+ K ->
  arg_circ d h = Done (Some (circ d)) h.
Proof.
  intros Hok Hh Hin. unfold arg_circ. rewrite (own_ok_not_null _ _ Hok).
  unfold mbind, M_bind. by rewrite (deref_circ_own _ _ _ Hok Hh Hin).
Qed.

(** The dereferences that start a monadic goal. *)
Lemma wp_arg_circ {B} d (k : option aesd_circular_buffer -> M B) Q h K :
  own_ok (bufferCircular d) circ_block -> holds h K -> own (bufferCircular d) circ_block ⊆+ K ->
  wp (k (Some (circ d))) Q h -> wp (mbind k (arg_circ d)) Q h.
Proof.
  intros Hok Hh Hin Hk. apply wp_bind. unfold wp at 1. by rewrite (arg_circ_own _ _ _ Hok Hh Hin).
Qed.

Lemma wp_deref_circ {B} d (k : aesd_circular_buffer -> M B) Q h K :
  own_ok (bufferCircular d) circ_block -> holds h K -> own (bufferCircular d) circ_block ⊆+ K ->
  wp (k (circ d)) Q h -> wp (mbind k (deref_circ d)) Q h.
Proof.
  intros Hok Hh Hin Hk. apply wp_bind. unfold wp at 1. by rewrite (deref_circ_own _ _ _ Hok Hh Hin).
Qed.

Lemma wp_deref_tmp {B} d (k : aesd_temperary_buffer -> M B) Q h K :
  own_ok (bufferTemperary d) tmp_block -> holds h K -> own (bufferTemperary d) tmp_block ⊆+ K ->
  wp (k (tmp d)) Q h -> wp (mbind k (deref_tmp d)) Q h.
Proof.
  intros Hok Hh Hin Hk. apply wp_bind. unfold wp at 1. by rewrite (deref_tmp_own _ _ _ Hok Hh Hin).
Qed.

(** ** Sizes *)

(** Every stored entry fits the allocator's limit. *)
Lemma slot_bound b r h L i bs :
  circ_models b r -> holds h (circ_chunks b r ++ L) -> slots r !! i = Some (Some bs) ->
  Z.of_nat (length bs) <= alloc_max.
Proof.
  intros Hb Hh Hi. destruct (arr_get_models _ _ _ _ (cm_entries _ _ Hb) Hi) as (e & He & Hm & _).
  unfold circ_chunks in Hh. rewrite (circ_chunks_take _ _ _ _ _ He Hi), <- app_assoc in Hh.
  rewrite <- (length_fmap Some bs). by eapply (holds_block_max _ (buffptr e)); [|by apply Hm].
Qed.

Lemma view_total_bound b r q h L :
  circ_models b r -> view r q -> holds h (circ_chunks b r ++ L) ->
  0 <= total q <= 10 * alloc_max.
Proof.
  intros Hb Hv Hh. split; [apply total_nonneg|]. unfold total. rewrite length_concat_sum.
  pose proof (view_len _ _ Hv). pose proof alloc_max_pos.
  trans (Z.of_nat (length q) * alloc_max); [|nia]. apply sum_list_with_bound.
  intros bs Hbs. apply list_elem_of_lookup in Hbs as [k Hk].
  pose proof (lookup_lt_Some _ _ _ Hk). pose proof (view_at _ _ Hv k) as Hat.
  rewrite Hk in Hat. eapply slot_bound; [done..|]. apply Hat; lia.
Qed.

Lemma dev_circ_holds d r p h L :
  holds h (dev_chunks d r p ++ L) ->
  holds h (circ_chunks (circ d) r ++
           own (bufferCircular d) circ_block ++ own (bufferTemperary d) tmp_block ++
           tmp_chunks (tmp d) p ++ L).
Proof. unfold dev_chunks. intros Hh. holds_perm Hh. Qed.

(** The readable contents, and the view that describes them. *)
Lemma dev_view d r p : dev_models d r p -> view r (queue_of r).
Proof. intros []. by apply queue_of_view; apply dm_ring0. Qed.

Lemma dev_total_bound d r p h L :
  dev_models d r p -> holds h (dev_chunks d r p ++ L) -> 0 <= total (queue_of r) < 2 ^ 62.
Proof.
  intros Hd Hh. pose proof (dev_view _ _ _ Hd) as Hv.
  pose proof (view_total_bound _ _ _ _ _ (dm_circ _ _ _ Hd) Hv (dev_circ_holds _ _ _ _ _ Hh)).
  pose proof alloc_max_addressable. lia.
Qed.

(** The entry a search finds: its slot and the chunk it owns. *)
Lemma view_entry b r q h L j bs :
  circ_models b r -> view r q -> holds h (circ_chunks b r ++ L) -> q !! j = Some bs ->
  exists e, arr_get (entry b) (Z.of_nat ((r_out r + j) mod 10)) = mret e /\
            entry_models e (Some bs) /\
            exists F, holds h (own (buffptr e) (Some <$> bs) ++ F).
Proof.
  intros Hb Hv Hh Hj. pose proof (lookup_lt_Some _ _ _ Hj). pose proof (view_len _ _ Hv).
  assert (slots r !! ((r_out r + j) mod 10)%nat = Some (Some bs)) as Hs.
  { rewrite <- Hj. apply Hv; lia. }
  destruct (arr_get_models _ _ _ _ (cm_entries _ _ Hb) Hs) as (e & He & Hm & Hget).
  exists e. split_and!; [done|done|]. unfold circ_chunks in Hh.
  rewrite (circ_chunks_take _ _ _ _ _ He Hs), <- app_assoc in Hh. by eexists.
Qed.

(** ** [aesd_read] *)

(** What a read of [count] bytes at [f_pos] gives, on the view. *)
Definition read_result (u : user_buffer) (q : list (list byte)) (count f_pos : Z)
    : Z * Z * list byte :=
  match locate q (u64 f_pos) with
  | None => (0, f_pos, [])
  | Some (j, o) =>
      let bs := default [] (q !! j) in
      let n := Z.min count (Z.of_nat (length bs) - o) in
      let data := take (Z.to_nat n) (drop (Z.to_nat o) bs) in
      let left := user_store u n in
      if left =? 0 then (n, f_pos + n, data)
      else (- EFAULT, f_pos, take (Z.to_nat (n - left)) data)
  end.

Lemma mapM_id_Some (bs : list byte) : mapM id (Some <$> bs) = Some bs.
Proof. induction bs as [|c bs IH]; [done|]. change (mbind (fun k => Some (c :: k)) (mapM id (Some <$> bs)) = Some (c :: bs)). by rewrite IH. Qed.

Lemma load_init_own h q (bs : list byte) off n F :
  holds h (own q (Some <$> bs) ++ F) -> own_ok q (Some <$> bs) ->
  0 <= off -> 0 <= n -> off + n <= Z.of_nat (length bs) ->
  load_init q off n h = Done (take (Z.to_nat n) (drop (Z.to_nat off) bs)) h.
Proof.
  intros Hh Hq Hoff Hn Hle. unfold load_init.
  pose proof (wp_load_bytes h q (Some <$> bs) off n F Hh Hq Hoff Hn) as Hw.
  rewrite length_fmap in Hw. apply wp_done in Hw as (r & h' & E & -> & ->); [|done].
  unfold mbind at 1, M_bind. rewrite E, <- fmap_drop, <- fmap_take, mapM_id_Some. done.
Qed.

Lemma aesd_read_exact d r p u count f_pos h L :
  dev_models d r p -> holds h (dev_chunks d r p ++ L) ->
  0 <= count -> - 2 ^ 63 <= f_pos < 2 ^ 63 ->
  aesd_read d u count f_pos h = Done (read_result u (queue_of r) count f_pos) h.
Proof.
  intros Hd Hh Hcount Hpos. pose proof (dev_total_bound _ _ _ _ _ Hd Hh) as Htot.
  pose proof (dev_view _ _ _ Hd) as Hv. pose proof (dev_circ_holds _ _ _ _ _ Hh) as Hc.
  unfold dev_chunks in Hh. rewrite <- !app_assoc in Hh.
  unfold aesd_read. erewrite bind_done by (eapply arg_circ_own; [apply Hd|exact Hh|solve_submseteq]).
  rewrite (find_fpos_spec _ _ _ (dm_circ _ _ _ Hd) Hv) by (first [apply u64_range|lia]).
  unfold read_result, fpos_answer. destruct (locate _ _) as [[j o]|] eqn:El; [|done].
  destruct (locate_Some (queue_of r) (u64 f_pos) j o (proj1 (u64_range _)) El) as (bs & Hj & Ho & Hoff).
  assert (u64 f_pos < 2 ^ 62 /\ u64 f_pos = f_pos) as [Hup Heq].
  { pose proof (total_take_le (queue_of r) (S j)) as Hle. rewrite (total_take_S _ _ _ Hj) in Hle.
    split; [lia|]. destruct (decide (0 <= f_pos)); [apply u64_loff; lia|].
    exfalso. assert (u64 f_pos = f_pos + 2 ^ 64); [|lia].
    unfold u64. Z.to_euclidean_division_equations. lia. }
  rewrite Heq in *.
  destruct (view_entry _ _ _ _ _ _ _ (dm_circ _ _ _ Hd) Hv Hc Hj) as (e & Hget & [Hsz Hok] & F & HF).
  rewrite Hj, bind_ret. change (default 0 (Some o)) with o. cbn [default]. erewrite bind_done by (eapply deref_circ_own; [apply Hd|exact Hh|solve_submseteq]).
  rewrite Hget, bind_ret, Hsz.
  pose proof (lookup_lt_Some _ _ _ Hj).
  pose proof (total_take_le (queue_of r) (S j)) as Hlen. rewrite (total_take_S _ _ _ Hj) in Hlen.
  pose proof (total_nonneg (take j (queue_of r))).
  rewrite u64_small by lia.
  erewrite bind_done by (eapply load_init_own; [done|done|lia..]).
  simpl. destruct (_ =? 0) eqn:E0; [|done]. simpl. rewrite !s64_small by lia. done.
Qed.
End device.
