(* ===== verification/WriteFacts.v ===== *)
(** * Specification of [aesd_write]

    [write_spec u count r p ret r' p'] lists the ways a write can end: what it
    returns and how it changes the ring and the accumulated bytes.  Each
    failure carries its cause, so that a client that rules the causes out
    (memory is available, the user buffer is readable) is left with the
    intended ones. *)

From S2P Require Import Prelude CInt CMem Footprint Common CircularBuffer TemporaryBuffer.
From S2P Require Import Ring CircularFacts CircularSearch CharDevice DeviceFacts.
Import TemporaryBuffer.Driver.

Definition has_newline (bs : list byte) : bool := bool_decide (ch_newline ∈ bs).

Definition pending (p : option (list byte)) : list byte := default [] p.

Section spec.
Context `{Allocator}.

Inductive write_spec (u : user_buffer) (count : Z) (r : ring) (p : option (list byte))
    : Z -> ring -> option (list byte) -> Prop :=
  | ws_no_kbuf :
      refusable count -> write_spec u count r p (- ENOMEM) r p
  | ws_fault :
      (user_fetch u count).2 <> 0 -> write_spec u count r p (- EFAULT) r p
  | ws_line ok data :
      user_fetch u count = (data, 0) -> has_newline data = true -> pending p = [] ->
      (ok = false -> refusable count) ->
      write_spec u count r p (s64 count) (ring_add ok data r) p
  | ws_rest_of_line ok data :
      user_fetch u count = (data, 0) -> has_newline data = true -> pending p <> [] ->
      (ok = false -> refusable (Z.of_nat (length (pending p ++ data)))) ->
      write_spec u count r p (s64 count) (ring_add ok (pending p ++ data) r) None
  | ws_fragment data :
      user_fetch u count = (data, 0) -> has_newline data = false ->
      write_spec u count r p (s64 count) r (Some (pending p ++ data))
  | ws_no_room data :
      user_fetch u count = (data, 0) ->
      refusable (Z.of_nat (length (pending p ++ data))) ->
      write_spec u count r p (- ENOMEM) r p.
End spec.

Section facts.
Context `{Allocator}.
Implicit Types (d : aesd_dev) (r : ring) (p : option (list byte)) (h : heap) (L : list chunk).

(** The scan for a newline reads the whole of [kbuf], in bounds. *)
Lemma scan_newline_own n kbuf data i h F :
  holds h (own kbuf (Some <$> data) ++ F) -> own_ok kbuf (Some <$> data) ->
  (n + i = length data)%nat ->
  scan_newline n kbuf (Z.of_nat i) h = Done (has_newline (drop i data)) h.
Proof.
  intros Hh Hok. revert i. induction n as [|n IH]; intros i Hi; simpl.
  - by rewrite drop_ge by lia.
  - destruct (lookup_lt_is_Some_2 data i) as [c Hc]; [lia|].
    rewrite (bind_done _ _ _ c h).
    + rewrite (drop_S _ _ _ Hc). unfold has_newline. destruct (decide _) as [->|Hne].
      * by rewrite bool_decide_eq_true_2 by apply list_elem_of_here.
      * replace (Z.of_nat i + 1) with (Z.of_nat (S i)) by lia. rewrite IH by lia.
        f_equal. apply bool_decide_ext. rewrite elem_of_cons. split; [by right|intros [|]; congruence].
    + unfold load_byte.
      destruct (wp_done _ _ _ (wp_load_bytes h kbuf (Some <$> data) (Z.of_nat i) 1 F Hh Hok
                  ltac:(lia) ltac:(lia) ltac:(lia_len))) as (r & h' & E & -> & ->).
      erewrite bind_done by exact E. rewrite Nat2Z.id, <- fmap_drop, (drop_S _ _ _ Hc). done.
Qed.

Lemma dev_models_set_tmp d r p t p' :
  dev_models d r p -> tmp_models t p' -> dev_models (set_tmp d t) r p'.
Proof. intros [] ?. by split. Qed.

Lemma dev_models_set_circ d r p b r' :
  dev_models d r p -> circ_models b r' -> ring_ok r' -> dev_models (set_circ d b) r' p.
Proof. intros [] ??. by split. Qed.

Definition write_post (d : aesd_dev) (u : user_buffer) (count : Z) (r : ring)
    (p : option (list byte)) (L : list chunk) (res : Z * aesd_dev) (h' : heap) : Prop :=
  exists r' p', write_spec u count r p res.1 r' p' /\ dev_models res.2 r' p' /\
    bufferCircular res.2 = bufferCircular d /\ bufferTemperary res.2 = bufferTemperary d /\
    holds h' (dev_chunks res.2 r' p' ++ L).

(** After a branch, [kbuf] is freed. *)
Lemma wp_free_kbuf d d' u count r p ret r' p' kbuf b h L :
  write_spec u count r p ret r' p' -> dev_models d' r' p' ->
  bufferCircular d' = bufferCircular d -> bufferTemperary d' = bufferTemperary d ->
  holds h (own kbuf b ++ dev_chunks d' r' p' ++ L) ->
  wp (_ ← free kbuf; mret (ret, d')) (write_post d u count r p L) h.
Proof.
  intros Hs Hd Hc Ht Hh. apply wp_bind. eapply wp_mono; [by eapply wp_free|].
  intros _ h' [Hh' _]. apply wp_ret. by exists r', p'.
Qed.

(** A complete line with nothing accumulated. *)
Lemma wp_write_line d u r p kbuf data count h L :
  dev_models d r p -> own_ok kbuf (Some <$> data) -> count = Z.of_nat (length data) ->
  user_fetch u count = (data, 0) -> has_newline data = true -> pending p = [] ->
  holds h (own kbuf (Some <$> data) ++ dev_chunks d r p ++ L) ->
  wp (write_line d kbuf count) (write_post d u count r p L) h.
Proof.
  intros Hd Hk Hcount Hf Hnl Hp Hh. unfold dev_chunks in Hh. unfold write_line.
  eapply wp_arg_circ; [apply Hd|exact Hh|solve_submseteq|].
  apply wp_bind. eapply wp_mono.
  { apply (wp_add_entry (circ d) r (Entry kbuf count) data h
             (own (bufferCircular d) circ_block ++ own (bufferTemperary d) tmp_block ++
              tmp_chunks (tmp d) p ++ L)); try done; try apply Hd.
    simpl buffptr. holds_perm Hh. }
  intros ob h1 (b' & -> & Hb' & Hr' & Hh1). simpl buffptr in Hh1.
  eapply wp_free_kbuf; [|by eapply dev_models_set_circ|done|done|].
  - apply ws_line; [done..|]. intros E. by eexists.
  - unfold dev_chunks. simpl. holds_perm Hh1.
Qed.

(** No newline: the data joins the accumulated bytes. *)
Lemma wp_write_fragment d u r p kbuf data count h L :
  dev_models d r p -> own_ok kbuf (Some <$> data) -> count = Z.of_nat (length data) ->
  user_fetch u count = (data, 0) -> has_newline data = false ->
  holds h (own kbuf (Some <$> data) ++ dev_chunks d r p ++ L) ->
  wp (write_fragment d kbuf count) (write_post d u count r p L) h.
Proof.
  intros Hd Hk -> Hf Hnl Hh. unfold dev_chunks in Hh. unfold write_fragment.
  eapply wp_deref_tmp; [apply Hd|exact Hh|solve_submseteq|].
  apply wp_bind. eapply wp_mono.
  { apply (wp_tmp_add (tmp d) p kbuf data h
             (own (bufferCircular d) circ_block ++ own (bufferTemperary d) tmp_block ++
              circ_chunks (circ d) r ++ L)); [apply Hd|done|holds_perm Hh]. }
  intros [ok t] h1. simpl. intros (-> & Ht & Hh1).
  rewrite (tmp_models_pending _ _ (dm_tmp _ _ _ Hd)) in *.
  destruct (alloc_serves _ _) eqn:Eok; simpl;
    (eapply wp_free_kbuf; [|by eapply dev_models_set_tmp|done|done|unfold dev_chunks; simpl in Hh1 |- *; holds_perm Hh1]).
  - by apply ws_fragment.
  - eapply ws_no_room; [done|]. rewrite length_app, Nat2Z.inj_add. by eexists.
Qed.

(** The rest of a line: appended, stored, and the buffer emptied. *)
Lemma wp_write_rest d u r p kbuf data count h L :
  dev_models d r p -> own_ok kbuf (Some <$> data) -> count = Z.of_nat (length data) ->
  user_fetch u count = (data, 0) -> has_newline data = true -> pending p <> [] ->
  holds h (own kbuf (Some <$> data) ++ dev_chunks d r p ++ L) ->
  wp (write_rest_of_line d kbuf count) (write_post d u count r p L) h.
Proof.
  intros Hd Hk -> Hf Hnl Hp Hh. unfold dev_chunks in Hh. unfold write_rest_of_line.
  eapply wp_deref_tmp; [apply Hd|exact Hh|solve_submseteq|].
  apply wp_bind. eapply wp_mono.
  { apply (wp_tmp_add (tmp d) p kbuf data h
             (own (bufferCircular d) circ_block ++ own (bufferTemperary d) tmp_block ++
              circ_chunks (circ d) r ++ L)); [apply Hd|done|holds_perm Hh]. }
  intros [ok t] h1. simpl. intros (-> & Ht & Hh1).
  rewrite (tmp_models_pending _ _ (dm_tmp _ _ _ Hd)) in *.
  assert (forall b, b = false -> alloc_serves (next h) (Z.of_nat (length (pending p)) + Z.of_nat (length data)) = b ->
            refusable (Z.of_nat (length (pending p ++ data)))) as Href.
  { intros b -> E. rewrite length_app, Nat2Z.inj_add. by eexists. }
  destruct (alloc_serves _ _) eqn:Eok; simpl negb; cbv iota.
  2:{ eapply wp_free_kbuf; [|by eapply dev_models_set_tmp|done|done|unfold dev_chunks; simpl in Hh1 |- *; holds_perm Hh1].
      eapply ws_no_room; [done|]. by eapply Href. }
  destruct Ht as [Hsz Hok]. simpl tmp_chunks in Hh1.
  eapply wp_deref_tmp; [apply Hd|exact Hh1|solve_submseteq|].
  eapply wp_arg_circ; [apply Hd|exact Hh1|solve_submseteq|]. simpl.
  apply wp_bind. eapply wp_mono.
  { apply (wp_add_entry (circ d) r (Entry (tmp_buffptr t) (tmp_size t)) (pending p ++ data) h1
             (own (bufferCircular d) circ_block ++ own (bufferTemperary d) tmp_block ++
              own kbuf (Some <$> data) ++ L)); try done; try apply Hd.
    simpl buffptr. holds_perm Hh1. }
  intros ob h2 (b' & -> & Hb' & Hr' & Hh2). simpl buffptr in Hh2.
  rewrite delete_is_clean. apply wp_bind. eapply wp_mono.
  { apply (wp_tmp_release t (Some (pending p ++ data)) h2
             (circ_chunks b' (ring_add (alloc_serves (next h1) (tmp_size t)) (pending p ++ data) r) ++
              own (bufferCircular d) circ_block ++ own (bufferTemperary d) tmp_block ++
              own kbuf (Some <$> data) ++ L)); [done|]. simpl. holds_perm Hh2. }
  intros t' h3 (-> & Hh3 & _).
  eapply wp_free_kbuf; [eapply ws_rest_of_line; [done..|]| |done|done|].
  - intros E. exists (next h1). unfold pending. rewrite <- Hsz. exact E.
  - split; simpl; try done; apply Hd.
  - unfold dev_chunks. simpl. holds_perm Hh3.
Qed.

(** What [copy_from_user] leaves in [kbuf]. *)
Lemma wp_fetch u kbuf count h F :
  user_ok u -> 0 <= count ->
  holds h (own kbuf (replicate (Z.to_nat count) None) ++ F) ->
  own_ok kbuf (replicate (Z.to_nat count) None) ->
  wp (store_bytes kbuf 0 (Some <$> (user_fetch u count).1))
     (fun _ h' => exists b, holds h' (own kbuf b ++ F) /\ own_ok kbuf b /\
        ((user_fetch u count).2 = 0 -> b = Some <$> (user_fetch u count).1)) h.
Proof.
  intros Hu Hc Hh Hok. pose proof (fetch_length _ Hu count Hc) as Hlen.
  pose proof (fetch_left _ Hu count Hc). destruct (user_fetch u count) as [bs left]. simpl in *.
  eapply wp_mono; [eapply wp_store_bytes; [done|done|done|]|].
  { rewrite length_fmap, length_replicate. lia. }
  intros _ h' [Hh' _]. eexists. split_and!; [done| |].
  - apply splice_own_ok; [|done]. rewrite length_fmap, length_replicate. lia.
  - intros ->. unfold splice. simpl. rewrite drop_ge, app_nil_r; [done|].
    rewrite length_fmap, length_replicate. lia.
Qed.

(** [aesd_write], for every answer of the allocator and of the user copy. *)
Lemma wp_aesd_write d u r p count h L :
  dev_models d r p -> user_ok u -> 0 <= count -> holds h (dev_chunks d r p ++ L) ->
  wp (aesd_write d u count) (write_post d u count r p L) h.
Proof.
  intros Hd Hu Hcount Hh. unfold aesd_write. apply wp_bind.
  eapply wp_mono; [by apply (wp_alloc _ _ _ Hh)|]. intros kbuf h1 [Hh1 Hk].
  rewrite (alloc_serves_not_null _ _ _ _ Hk). destruct (alloc_serves _ _) eqn:Eok; simpl.
  2:{ subst kbuf. apply wp_ret. exists r, p. split_and!; try done.
      apply ws_no_kbuf. by eexists. }
  apply wp_bind. eapply wp_mono; [by eapply wp_fetch|]. intros _ h2 (b & Hh2 & Hb & Hdata).
  destruct (Z.eqb_spec (user_fetch u count).2 0) as [E0|E0]; simpl.
  2:{ eapply wp_free_kbuf; [by apply ws_fault|done..]. }
  specialize (Hdata E0). subst b. pose proof (fetch_length _ Hu count Hcount) as Hlen.
  destruct (user_fetch u count) as [data left] eqn:Ef. simpl in *. subst left.
  apply wp_bind. unfold wp at 1.
  rewrite (scan_newline_own _ kbuf data 0 _ _ Hh2 Hb) by lia. rewrite drop_0.
  unfold dev_chunks in Hh2. eapply wp_deref_tmp; [apply Hd|exact Hh2|solve_submseteq|].
  rewrite (is_empty_spec _ _ (dm_tmp _ _ _ Hd)).
  assert (count = Z.of_nat (length data)) as Hcd by lia.
  destruct (has_newline data) eqn:Enl; simpl; [|by eapply wp_write_fragment].
  case_bool_decide; simpl; [by eapply wp_write_line|by eapply wp_write_rest].
Qed.
End facts.
