(* ===== verification/SeekFacts.v ===== *)
(** * Specifications of [aesd_llseek] and [aesd_ioctl]

    The position arithmetic of [llseek], the ioctl number, the bytes of
    [struct aesd_seekto], and what the seek ioctl does to the file position in
    terms of the ring: the range check looks at the physical slot numbered
    [write_cmd], the search at the logical entry of that number. *)

From S2P Require Import Prelude CInt CMem Footprint Common CircularBuffer TemporaryBuffer.
From S2P Require Import Ring CircularFacts CircularSearch CharDevice DeviceFacts.

(** ** Bytes and words *)

Lemma byte_Z_range c : 0 <= byte_Z c < 2 ^ 8.
Proof. unfold byte_Z. pose proof (Byte.to_N_bounded c). lia. Qed.

Lemma byte_Z_Z_byte x : byte_Z (Z_byte x) = u8 x.
Proof.
  unfold byte_Z, Z_byte. pose proof (Z.mod_pos_bound x (2 ^ 8) ltac:(lia)). unfold u8 in *.
  destruct (Byte.of_N _) as [c|] eqn:E; simpl.
  - apply Byte.to_of_N in E. rewrite E. lia.
  - apply Byte.of_N_None_iff in E. lia.
Qed.

Lemma le32_decode_range bs :
  0 <= le32_decode bs < 2 ^ (8 * Z.of_nat (length bs)).
Proof.
  induction bs as [|c bs IH]; [done|]. simpl length. rewrite Nat2Z.inj_succ.
  replace (8 * Z.succ (Z.of_nat (length bs))) with (8 + 8 * Z.of_nat (length bs)) by lia.
  rewrite Z.pow_add_r by lia. change (le32_decode (c :: bs)) with (byte_Z c + 2 ^ 8 * le32_decode bs).
  pose proof (byte_Z_range c). nia.
Qed.

Lemma le32_decode_u32 bs : 0 <= le32_decode (take 4 bs) < 2 ^ 32.
Proof.
  pose proof (le32_decode_range (take 4 bs)) as [H0 H1]. split; [done|].
  eapply Z.lt_le_trans; [exact H1|]. apply Z.pow_le_mono_r; [lia|]. rewrite length_take. lia.
Qed.

(** [u8] of the successive bytes of a word rebuilds the word. *)
Lemma le32_roundtrip x : le32_decode (le32_encode x) = u32 x.
Proof.
  unfold le32_decode, le32_encode. simpl. rewrite !byte_Z_Z_byte. unfold u8, u32.
  Z.to_euclidean_division_equations. lia.
Qed.

Lemma seekto_decode_encode s :
  seekto_decode (seekto_encode s) = Seekto (u32 (write_cmd s)) (u32 (write_cmd_offset s)).
Proof.
  unfold seekto_decode, seekto_encode. change (take 4 (le32_encode ?a ++ ?b)) with (le32_encode a).
  change (take 4 (drop 4 (le32_encode ?a ++ le32_encode ?b))) with (le32_encode b).
  by rewrite !le32_roundtrip.
Qed.

Section seek.
Context `{Allocator}.
Implicit Types (d : aesd_dev) (r : ring) (p : option (list byte)) (h : heap) (L : list chunk).

(** The size the driver keeps is the size of the contents. *)
Lemma circ_size_total b r q h L :
  circ_models b r -> layout r q -> holds h (circ_chunks b r ++ L) -> circ_size b = total q.
Proof.
  intros Hb Hl Hh. rewrite (cm_size _ _ Hb).
  assert (Z.of_nat (sum_list_with slot_len (slots r)) = total q) as ->.
  { rewrite (layout_slots _ _ Hl), sum_list_with_app.
    replace (sum_list_with slot_len (replicate _ None)) with O
      by (induction (10 - length q)%nat; simpl; lia).
    unfold total. rewrite length_concat_sum. f_equal. rewrite Nat.add_0_r.
    clear. induction q as [|bs q IH]; simpl; [done|]. f_equal. exact IH. }
  pose proof (view_total_bound _ _ _ _ _ Hb (layout_view _ _ Hl) Hh).
  pose proof alloc_max_addressable. apply u64_small. lia.
Qed.

(** ** [aesd_llseek] *)

(** The two relative requests, with the position arithmetic of [loff_t]. *)
Definition llseek_result (size f_pos offset whence : Z) : Z * Z :=
  let pos :=
    if whence =? SEEK_SET then offset
    else if whence =? SEEK_CUR then s64 (f_pos + offset)
    else if whence =? SEEK_END then s64 (size + offset)
    else f_pos in
  if ((whence =? SEEK_SET) || (whence =? SEEK_CUR)) && (pos <? 0) then (- EINVAL, f_pos)
  else (pos, pos).

Lemma aesd_llseek_exact d r p f_pos offset whence h L :
  dev_models d r p -> holds h (dev_chunks d r p ++ L) ->
  aesd_llseek d f_pos offset whence h =
  Done (llseek_result (circ_size (circ d)) f_pos offset whence) h.
Proof.
  intros Hd Hh. unfold dev_chunks in Hh. unfold aesd_llseek, llseek_result.
  destruct (whence =? SEEK_SET); [by destruct (offset <? 0)|].
  destruct (whence =? SEEK_CUR); [by destruct (s64 (f_pos + offset) <? 0)|].
  destruct (whence =? SEEK_END); [|done]. simpl.
  erewrite bind_done by (eapply deref_circ_own; [apply Hd|exact Hh|solve_submseteq]).
  unfold mret, M_ret. by rewrite u64_add_r, s64_u64.
Qed.

(** ** [aesd_ioctl] *)

(** The new file position of a seek that passed the range check. *)
Definition seek_position (q : list (list byte)) (cmd : nat) (off : Z) : Z :=
  match q !! cmd with
  | Some bs => if off <? Z.of_nat (length bs) then total (take cmd q) + off else 0
  | None => 0
  end.

Lemma seek_position_range q k off : 0 <= off -> 0 <= seek_position q k off <= total q.
Proof.
  intros Hoff. unfold seek_position. pose proof (total_nonneg q). destruct (q !! k) as [bs|] eqn:Ek; [|lia].
  destruct (Z.ltb_spec off (Z.of_nat (length bs))); [|lia]. pose proof (total_take_le q (S k)) as Hle.
  rewrite (total_take_S _ _ _ Ek) in Hle. pose proof (total_nonneg (take k q)). lia.
Qed.

Definition seekto_result (r : ring) (s : aesd_seekto) (f_pos : Z) : Z * Z :=
  let cmd := Z.to_nat (write_cmd s) in
  if 10 <=? write_cmd s then (- EINVAL, f_pos)
  else if Z.of_nat (slot_len (default None (slots r !! cmd))) <=? write_cmd_offset s
  then (- EINVAL, f_pos)
  else (0, seek_position (queue_of r) cmd (write_cmd_offset s)).

Lemma aesd_ioctl_seekto d r p arg bs f_pos h L :
  dev_models d r p -> holds h (dev_chunks d r p ++ L) ->
  user_fetch arg sizeof_seekto = (bs, 0) ->
  aesd_ioctl d AESDCHAR_IOCSEEKTO arg f_pos h =
  Done (seekto_result r (seekto_decode bs) f_pos) h.
Proof.
  intros Hd Hh Hf. pose proof (dev_total_bound _ _ _ _ _ Hd Hh) as Htot.
  pose proof (dev_view _ _ _ Hd) as Hv. unfold dev_chunks in Hh. unfold aesd_ioctl.
  change (IOC_TYPE AESDCHAR_IOCSEEKTO =? AESD_IOC_MAGIC) with true.
  change (AESDCHAR_IOC_MAXNR <? IOC_NR AESDCHAR_IOCSEEKTO) with false.
  rewrite Z.eqb_refl, Hf. cbn [fst snd negb Z.eqb].
  unfold seekto_result, AESDCHAR_MAX_WRITE_OPERATIONS_SUPPORTED.
  pose proof (le32_decode_u32 bs) as Hcmd. pose proof (le32_decode_u32 (drop 4 bs)) as Hoff.
  change (le32_decode (take 4 bs)) with (write_cmd (seekto_decode bs)) in Hcmd.
  change (le32_decode (take 4 (drop 4 bs))) with (write_cmd_offset (seekto_decode bs)) in Hoff.
  destruct (seekto_decode bs) as [cmd off]. cbn [write_cmd write_cmd_offset] in *.
  destruct (10 <=? cmd) eqn:E10; [done|]. zbool.
  erewrite bind_done by (eapply deref_circ_own; [apply Hd|exact Hh|solve_submseteq]).
  destruct (lookup_lt_is_Some_2 (slots r) (Z.to_nat cmd)) as [s Hs].
  { rewrite (ok_slots _ (dm_ring _ _ _ Hd)). lia. }
  destruct (arr_get_models _ _ _ _ (cm_entries _ _ (dm_circ _ _ _ Hd)) Hs) as (e & _ & Hm & Hget).
  rewrite Z2Nat.id in Hget by lia. rewrite Hget, bind_ret, Hs, (entry_models_size _ _ Hm).
  simpl default. destruct (_ <=? off) eqn:El; [done|]. zbool.
  erewrite bind_done by (eapply arg_circ_own; [apply Hd|exact Hh|solve_submseteq]).
  rewrite <- (Z2Nat.id cmd) at 1 by lia.
  rewrite (find_ioctl_spec _ _ _ (dm_circ _ _ _ Hd) Hv) by lia.
  unfold ioctl_answer, seek_position. destruct (queue_of r !! Z.to_nat cmd) as [c|] eqn:Eq; [|done].
  destruct (off <? Z.of_nat (length c)) eqn:Elt; [|done]. zbool.
  pose proof (total_take_le (queue_of r) (S (Z.to_nat cmd))) as Hle.
  rewrite (total_take_S _ _ _ Eq) in Hle. pose proof (total_nonneg (take (Z.to_nat cmd) (queue_of r))).
  unfold mbind, M_bind, mret, M_ret. simpl. by rewrite s64_small by lia.
Qed.

(** Every other request is refused and changes nothing. *)
Lemma aesd_ioctl_other d cmd arg f_pos h :
  cmd <> AESDCHAR_IOCSEEKTO -> aesd_ioctl d cmd arg f_pos h = Done (- EINVAL, f_pos) h.
Proof.
  intros Hne. unfold aesd_ioctl. repeat (case_match; [done|]).
  rewrite (proj2 (Z.eqb_neq _ _) Hne). done.
Qed.

(** The line of a slot, in the ring and in the list. *)
Lemma layout_slot r q k :
  layout r q -> (k < 10)%nat -> slots r !! k = Some (q !! ((k + 10 - r_out r) mod 10)%nat).
Proof.
  intros Hlay Hk. pose proof (lay_out _ _ Hlay).
  rewrite <- (lay_at _ _ Hlay) by (by apply Nat.mod_upper_bound).
  rewrite Nat.Div0.add_mod_idemp_r. f_equal.
  replace (r_out r + (k + 10 - r_out r))%nat with (k + 1 * 10)%nat by lia. rewrite Nat.Div0.mod_add. by rewrite Nat.mod_small.
Qed.

(** The answer of the ioctl for the lines [q], the oldest one in slot [out]. *)
Definition seek_reply (out : nat) (q : list (list byte)) (s : aesd_seekto) (f_pos : Z) : Z * Z :=
  let cmd := Z.to_nat (write_cmd s) in
  if 10 <=? write_cmd s then (- EINVAL, f_pos)
  else if Z.of_nat (length (default [] (q !! ((cmd + 10 - out) mod 10)%nat))) <=? write_cmd_offset s
  then (- EINVAL, f_pos)
  else (0, seek_position q cmd (write_cmd_offset s)).

Definition ioctl_reply (out : nat) (q : list (list byte)) (cmd : Z) (arg : user_buffer) (f_pos : Z) : Z * Z :=
  if cmd =? AESDCHAR_IOCSEEKTO then
    let fetched := user_fetch arg sizeof_seekto in
    if fetched.2 =? 0 then seek_reply out q (seekto_decode fetched.1) f_pos else (- EFAULT, f_pos)
  else (- EINVAL, f_pos).

Lemma seekto_reply r q s f_pos :
  layout r q -> 0 <= write_cmd s -> seekto_result r s f_pos = seek_reply (r_out r) q s f_pos.
Proof.
  intros Hlay Hs. unfold seekto_result, seek_reply. destruct (Z.leb_spec 10 (write_cmd s)); [done|].
  rewrite (layout_slot _ _ _ Hlay) by lia. cbn [default]. rewrite (layout_queue_of _ _ Hlay).
  by destruct (q !! ((_ + 10 - _) mod 10)%nat).
Qed.

Lemma aesd_ioctl_exact d r p q cmd arg f_pos h L :
  dev_models d r p -> layout r q -> holds h (dev_chunks d r p ++ L) ->
  aesd_ioctl d cmd arg f_pos h = Done (ioctl_reply (r_out r) q cmd arg f_pos) h.
Proof.
  intros Hd Hlay Hh. unfold ioctl_reply. destruct (Z.eqb_spec cmd AESDCHAR_IOCSEEKTO) as [->|Hne].
  2:{ by apply aesd_ioctl_other. }
  destruct (user_fetch arg sizeof_seekto) as [bs left] eqn:Ef. cbn [fst snd]. destruct (Z.eqb_spec left 0) as [->|Hl].
  - rewrite (aesd_ioctl_seekto _ _ _ _ _ _ _ _ Hd Hh Ef), (seekto_reply _ _ _ _ Hlay); [done|].
    apply le32_decode_u32.
  - unfold aesd_ioctl. rewrite Ef, Z.eqb_refl. cbn [fst snd]. by rewrite (proj2 (Z.eqb_neq _ _) Hl).
Qed.
End seek.
