(* ===== verification/ModuleFacts.v ===== *)
(** * Loading, running and unloading the driver

    Specifications of [aesd_init_module] and [aesd_cleanup_module], and the
    system the kernel builds from the file operations: one device shared by
    any number of open files, each with its own position.  [run] executes a
    sequence of calls; [sys_inv] is the invariant of every reachable state. *)

From S2P Require Import Prelude CInt CMem Footprint Common CircularBuffer TemporaryBuffer.
From S2P Require Import Ring CircularFacts CircularSearch CharDevice DeviceFacts WriteFacts SeekFacts.

(** ** The calls of user programs *)

(** A new file starts at position 0, if [aesd_open] lets it.  The other calls
    name a file by its number; a number that is not open, or no longer, is
    refused by the kernel before it reaches the driver. *)
Inductive call :=
  | COpen
  | CClose (fd : nat)
  | CRead (fd : nat) (u : user_buffer) (count : Z)
  | CWrite (fd : nat) (u : user_buffer) (count : Z)
  | CSeek (fd : nat) (offset whence : Z)
  | CIoctl (fd : nat) (cmd : Z) (arg : user_buffer).

Record sys := Sys { device : aesd_dev; files : list (option Z) }.

Section system.
Context `{Allocator}.

Definition on_file (s : sys) (fd : nat) (k : Z -> M sys) : M sys :=
  match files s !! fd with Some (Some f_pos) => k f_pos | _ => mret s end.

Definition set_pos (s : sys) (fd : nat) (f_pos : Z) : sys :=
  Sys (device s) (<[fd := Some f_pos]> (files s)).

Definition step (s : sys) (c : call) : M sys :=
  match c with
  | COpen =>
      res ← aesd_open (device s);
      if res.1 =? 0 then mret (Sys res.2 (files s ++ [Some 0])) else mret s
  | CClose fd => on_file s fd (fun _ =>
      _ ← aesd_release (device s); mret (Sys (device s) (<[fd := None]> (files s))))
  | CRead fd u count => on_file s fd (fun f_pos =>
      res ← aesd_read (device s) u count f_pos; mret (set_pos s fd res.1.2))
  | CWrite fd u count => on_file s fd (fun _ =>
      res ← aesd_write (device s) u count; mret (Sys res.2 (files s)))
  | CSeek fd offset whence => on_file s fd (fun f_pos =>
      res ← aesd_llseek (device s) f_pos offset whence; mret (set_pos s fd res.2))
  | CIoctl fd cmd arg => on_file s fd (fun f_pos =>
      res ← aesd_ioctl (device s) cmd arg f_pos; mret (set_pos s fd res.2))
  end.

Fixpoint run (s : sys) (cs : list call) : M sys :=
  match cs with [] => mret s | c :: cs' => s' ← step s c; run s' cs' end.

(** What the kernel guarantees of a call's arguments: sizes are those of an
    [ssize_t], offsets are [loff_t], and the copy functions keep their
    contract. *)
Definition call_ok (c : call) : Prop :=
  match c with
  | COpen | CClose _ => True
  | CRead _ u count | CWrite _ u count => user_ok u /\ 0 <= count < 2 ^ 63
  | CSeek _ offset _ => - 2 ^ 63 <= offset < 2 ^ 63
  | CIoctl _ _ arg => user_ok arg
  end.

Definition pos_ok (f_pos : Z) : Prop := - 2 ^ 63 <= f_pos < 2 ^ 63.

Definition sys_inv (s : sys) (h : heap) (L : list chunk) : Prop :=
  (exists r p, dev_models (device s) r p /\ holds h (dev_chunks (device s) r p ++ L)) /\
  Forall (fun o => match o with Some f_pos => pos_ok f_pos | None => True end) (files s).

(** ** Loading *)

Lemma circ_block_size : replicate (Z.to_nat sizeof_circular_buffer) None = circ_block.
Proof. done. Qed.

(** Every way [aesd_init_module] can end, and what is allocated then. *)
Lemma wp_init region add h L :
  region <= 0 -> add <= 0 -> holds h L ->
  wp (aesd_init_module region add)
     (fun res h' =>
        let d := aesd_device res.2 in
        if region <? 0 then res = (region, Module_state false false zero_dev) /\ holds h' L
        else
          (res = (- ENOMEM, Module_state true false zero_dev) /\ holds h' L) \/
          (res.1 = - ENOMEM /\ region_held res.2 = true /\ own_ok (bufferCircular d) circ_block /\
           holds h' (own (bufferCircular d) circ_block ++ L)) \/
          (res.1 = add /\ region_held res.2 = (add =? 0) /\ cdev_live res.2 = (add =? 0) /\
           dev_models d ring_empty None /\ holds h' (dev_chunks d ring_empty None ++ L))) h.
Proof.
  intros Hr Ha Hh. unfold aesd_init_module. destruct (region <? 0); [by apply wp_ret|].
  apply wp_bind. eapply wp_mono; [by apply (wp_alloc _ _ _ Hh)|]. intros cp h1 [Hh1 Hcp].
  rewrite (alloc_serves_not_null _ _ _ _ Hcp). rewrite circ_block_size in *.
  destruct (alloc_serves _ _); simpl negb; cbv iota; [|subst; apply wp_ret; by left].
  apply wp_bind. eapply wp_mono; [by apply (wp_alloc _ _ _ Hh1)|]. intros tp h2 [Hh2 Htp].
  rewrite (alloc_serves_not_null _ _ _ _ Htp).
  change (replicate (Z.to_nat sizeof_temperary_buffer) None) with tmp_block in *.
  destruct (alloc_serves _ _); simpl negb; cbv iota; [|subst; apply wp_ret; by right; left].
  assert (forall b1 b2, let d := Dev tp (Temporary NULL 0) cp (Circular (replicate 10 null_entry) 0 0 false 0) in
    b1 = (add =? 0) -> b2 = (add =? 0) ->
    wp (mret (add, Module_state b1 b2 d))
     (fun res h' => res.1 = add /\ region_held res.2 = (add =? 0) /\ cdev_live res.2 = (add =? 0) /\
           dev_models (aesd_device res.2) ring_empty None /\
           holds h' (dev_chunks (aesd_device res.2) ring_empty None ++ L)) h2) as Hend.
  { intros b1 b2 d -> ->. apply wp_ret. split_and!; [done..| |].
    - split; [|apply ring_empty_ok|done|done|done].
      destruct (init_models (circ zero_dev)) as (b' & Hb' & Hm & _). by simplify_eq/=.
    - unfold dev_chunks. simpl. holds_perm Hh2. }
  unfold aesd_setup_cdev. destruct (add =? 0) eqn:Ea; simpl;
    (eapply wp_mono; [by apply Hend|]; intros; by right; right).
Qed.

(** ** Unloading *)

Lemma wp_cleanup_module d r p region cdev h L :
  dev_models d r p -> holds h (dev_chunks d r p ++ L) ->
  wp (aesd_cleanup_module (Module_state region cdev d))
     (fun m h' => holds h' L /\ region_held m = false /\ cdev_live m = false) h.
Proof.
  intros Hd Hh. unfold dev_chunks in Hh. unfold aesd_cleanup_module. simpl.
  eapply wp_arg_circ; [apply Hd|exact Hh|solve_submseteq|]. apply wp_bind.
  eapply wp_mono.
  { apply (wp_cleanup (circ d) r h (own (bufferCircular d) circ_block ++
             own (bufferTemperary d) tmp_block ++ tmp_chunks (tmp d) p ++ L));
      [apply Hd|apply Hd|holds_perm Hh]. }
  intros ? h1 Hh1. cbv beta in Hh1. rewrite (own_ok_not_null _ _ (dm_cptr _ _ _ Hd)). simpl.
  apply wp_bind. eapply wp_mono; [by eapply wp_free|]. intros _ h2 [Hh2 _].
  eapply wp_deref_tmp; [apply Hd|exact Hh2|solve_submseteq|]. apply wp_bind.
  eapply wp_mono.
  { apply (wp_tmp_release (tmp d) p h2 (own (bufferTemperary d) tmp_block ++ L));
      [apply Hd|holds_perm Hh2]. }
  intros t h3 (-> & Hh3 & _). rewrite (own_ok_not_null _ _ (dm_tptr _ _ _ Hd)). simpl.
  apply wp_bind. eapply wp_mono; [by eapply wp_free|]. intros _ h4 [Hh4 _]. by apply wp_ret.
Qed.

(** ** The invariant *)

Lemma wp_on_file s fd k (Q : sys -> heap -> Prop) h L :
  sys_inv s h L -> Q s h ->
  (forall f_pos, pos_ok f_pos -> wp (k f_pos) Q h) -> wp (on_file s fd k) Q h.
Proof.
  intros [_ Hpos] HQ Hk. unfold on_file. destruct (files s !! fd) as [[f_pos|]|] eqn:E.
  - apply Hk. exact (Forall_lookup_1 _ _ _ _ Hpos E).
  - by apply wp_ret.
  - by apply wp_ret.
Qed.

Lemma sys_inv_set_pos s fd f_pos h L :
  sys_inv s h L -> pos_ok f_pos -> sys_inv (set_pos s fd f_pos) h L.
Proof. intros [Hd Hpos] Hp. split; [done|]. by apply Forall_insert. Qed.

(** The file position a read leaves is a position again. *)
Lemma read_result_pos u q count f_pos :
  0 <= count -> pos_ok f_pos -> total q < 2 ^ 62 -> pos_ok (read_result u q count f_pos).1.2.
Proof.
  intros Hc Hp Hq. unfold read_result. destruct (locate q (u64 f_pos)) as [[j o]|] eqn:El; [|done].
  destruct (locate_Some _ _ _ _ (proj1 (u64_range f_pos)) El) as (bs & Hj & Ho & Hoff).
  rewrite Hj. simpl default. destruct (_ =? 0); [|done]. simpl. unfold pos_ok in *.
  pose proof (total_take_le q (S j)) as Hle. rewrite (total_take_S _ _ _ Hj) in Hle.
  pose proof (total_nonneg (take j q)).
  assert (f_pos <= u64 f_pos) by (unfold u64; Z.to_euclidean_division_equations; lia).
  lia.
Qed.

Lemma llseek_result_pos size f_pos offset whence :
  pos_ok f_pos -> - 2 ^ 63 <= offset < 2 ^ 63 -> pos_ok (llseek_result size f_pos offset whence).2.
Proof.
  intros Hp Ho. unfold llseek_result, pos_ok in *.
  pose proof (s64_range (f_pos + offset)). pose proof (s64_range (size + offset)).
  repeat case_match; simpl; lia.
Qed.

Lemma aesd_ioctl_pos d r p cmd arg f_pos h L :
  dev_models d r p -> holds h (dev_chunks d r p ++ L) -> pos_ok f_pos ->
  exists res, aesd_ioctl d cmd arg f_pos h = Done res h /\ pos_ok res.2.
Proof.
  intros Hd Hh Hp. destruct (decide (cmd = AESDCHAR_IOCSEEKTO)) as [->|Hne].
  2:{ rewrite aesd_ioctl_other by done. by eexists. }
  destruct (user_fetch arg sizeof_seekto) as [bs left] eqn:Ef.
  destruct (decide (left = 0)) as [->|Hl].
  - rewrite (aesd_ioctl_seekto _ _ _ _ _ _ _ _ Hd Hh Ef). eexists. split; [done|].
    unfold seekto_result, seek_position. repeat case_match; try done. simpl. zbool.
    pose proof (dev_total_bound _ _ _ _ _ Hd Hh).
    match goal with E : queue_of r !! ?c = Some ?bs |- _ =>
      pose proof (total_take_le (queue_of r) (S c)) as Hle; rewrite (total_take_S _ _ _ E) in Hle;
      pose proof (total_nonneg (take c (queue_of r))) end.
    pose proof (le32_decode_u32 (drop 4 bs)). unfold pos_ok, seekto_decode in *. simpl in *. lia.
  - unfold aesd_ioctl. change (IOC_TYPE AESDCHAR_IOCSEEKTO =? AESD_IOC_MAGIC) with true.
    change (AESDCHAR_IOC_MAXNR <? IOC_NR AESDCHAR_IOCSEEKTO) with false.
    rewrite Z.eqb_refl, Ef. cbn [fst snd negb]. rewrite (proj2 (Z.eqb_neq _ _) Hl). by eexists.
Qed.

(** Every call keeps the invariant, and none of them faults. *)
Lemma wp_step s c h L :
  sys_inv s h L -> call_ok c -> wp (step s c) (fun s' h' => sys_inv s' h' L) h.
Proof.
  intros Hs Hc. pose proof Hs as [(r & p & Hd & Hh) Hpos].
  destruct c as [|fd|fd u count|fd u count|fd offset whence|fd cmd arg]; simpl in Hc; unfold step.
  - apply wp_ret. split; [by exists r, p|]. apply Forall_app. split; [done|].
    constructor; [|done]. unfold pos_ok. lia.
  - eapply wp_on_file; [done..|]. intros f_pos Hp. apply wp_ret. split; [by exists r, p|]. by apply Forall_insert.
  - eapply wp_on_file; [done..|]. intros f_pos Hp. apply wp_bind. unfold wp at 1.
    rewrite (aesd_read_exact _ _ _ _ _ _ _ _ Hd Hh) by (unfold pos_ok in *; lia).
    apply wp_ret, sys_inv_set_pos; [done|].
    apply read_result_pos; [lia|done|]. eapply dev_total_bound; done.
  - eapply wp_on_file; [done..|]. intros f_pos Hp. apply wp_bind.
    eapply wp_mono; [apply (wp_aesd_write _ u _ _ count _ L Hd); [apply Hc|lia|exact Hh]|].
    intros res h' (r' & p' & _ & Hd' & _ & _ & Hh'). apply wp_ret.
    split; [by exists r', p'|done].
  - eapply wp_on_file; [done..|]. intros f_pos Hp. apply wp_bind. unfold wp at 1.
    rewrite (aesd_llseek_exact _ _ _ _ _ _ _ _ Hd Hh).
    apply wp_ret, sys_inv_set_pos; [done|]. by apply llseek_result_pos.
  - eapply wp_on_file; [done..|]. intros f_pos Hp. apply wp_bind. unfold wp at 1.
    destruct (aesd_ioctl_pos _ _ _ cmd arg f_pos _ _ Hd Hh Hp) as (res & -> & Hres).
    by apply wp_ret, sys_inv_set_pos.
Qed.

Lemma wp_run s cs h L :
  sys_inv s h L -> Forall call_ok cs -> wp (run s cs) (fun s' h' => sys_inv s' h' L) h.
Proof.
  intros Hs Hcs. revert s h Hs. induction Hcs as [|c cs Hc _ IH]; intros s h Hs; simpl.
  - by apply wp_ret.
  - apply wp_bind. eapply wp_mono; [by apply wp_step|]. auto.
Qed.
End system.
