(* ===== verification/DeviceSpec.v ===== *)
(** * The abstract device

    What the driver promises to user programs, without rings or heaps: the
    device holds the last ten complete writes and a partial line.  A write
    that contains a newline completes a line; a read delivers bytes of the
    concatenated lines.  [dev_holds] is the abstraction relation between the
    driver's state and an abstract device. *)

From S2P Require Import Prelude CInt CMem Footprint Common CircularBuffer TemporaryBuffer.
From S2P Require Import Ring CircularFacts CircularSearch CharDevice DeviceFacts WriteFacts SeekFacts.

Record contents := Contents { lines : list (list byte); partial : list byte }.

Definition no_contents : contents := Contents [] [].

Definition keep_last {A} (n : nat) (l : list A) : list A := drop (length l - n) l.

Definition spec_write (data : list byte) (c : contents) : contents :=
  if has_newline data then Contents (keep_last 10 (lines c ++ [partial c ++ data])) []
  else Contents (lines c) (partial c ++ data).

(** The bytes a reader sees from the beginning to the end of the device. *)
Definition text (c : contents) : list byte := concat (lines c).

(** Every line is complete, and the partial line is not. *)
Definition contents_wf (c : contents) : Prop :=
  (length (lines c) <= 10)%nat /\ Forall (fun l => has_newline l = true) (lines c) /\
  has_newline (partial c) = false.

(** Reading until the driver answers 0, as [cat] does; [None] when [n] calls
    were not enough. *)
Fixpoint read_to_end (n : nat) (d : aesd_dev) (u : user_buffer) (count f_pos : Z)
    : M (option (list byte)) :=
  match n with
  | O => mret None
  | S n' =>
      res ← aesd_read d u count f_pos;
      if res.1.1 =? 0 then mret (Some [])
      else rest ← read_to_end n' d u count res.1.2;
           mret (match rest with Some bs => Some (res.2 ++ bs) | None => None end)
  end.

(** A user buffer that takes everything, and one that holds [bs]. *)
Definition writable (u : user_buffer) : Prop := forall n, user_store u n = 0.
Definition supplies (u : user_buffer) (bs : list byte) : Prop :=
  user_fetch u (Z.of_nat (length bs)) = (bs, 0).

(** An allocator that refuses no request up to its limit. *)
Definition reliable `{Allocator} : Prop := forall n sz, alloc_fails n sz = false.

Section keep_last.
Lemma keep_last_le {A} n (l : list A) : (length l <= n)%nat -> keep_last n l = l.
Proof. intros. unfold keep_last. by replace (length l - n)%nat with O by lia. Qed.

(** One more entry for a full queue is one entry less in front. *)
Lemma queue_add_keep_last (bs : list byte) q :
  (length q <= 10)%nat ->
  queue_add (bool_decide (length q = 10%nat)) true bs q = keep_last 10 (q ++ [bs]).
Proof.
  intros Hl. unfold queue_add. case_bool_decide as E.
  - destruct q as [|x q]; [done|]. unfold keep_last. rewrite length_app. simpl in *.
    by replace (length q + 1 - 9)%nat with 1%nat by lia.
  - rewrite keep_last_le; [done|]. rewrite length_app. simpl. lia.
Qed.

(** Keeping the last entries of a longer history. *)
Lemma keep_last_app {A} n (l1 l2 : list A) :
  keep_last n (keep_last n l1 ++ l2) = keep_last n (l1 ++ l2).
Proof.
  unfold keep_last. rewrite !length_app, length_drop.
  destruct (decide (length l1 <= n)%nat).
  - replace (length l1 - n)%nat with O by lia. by rewrite Nat.sub_0_r.
  - rewrite !drop_app, !drop_drop, length_drop. f_equal; [f_equal; lia|f_equal; lia].
Qed.
End keep_last.

Lemma has_newline_app a b : has_newline (a ++ b) = has_newline a || has_newline b.
Proof.
  unfold has_newline. rewrite (bool_decide_ext _ (ch_newline ∈ a \/ ch_newline ∈ b)).
  - rewrite bool_decide_or. done.
  - apply elem_of_app.
Qed.

Lemma spec_write_wf data c : contents_wf c -> contents_wf (spec_write data c).
Proof.
  intros (Hl & Hall & Hp). unfold spec_write. destruct (has_newline data) eqn:E.
  - split_and!; [|apply Forall_drop, Forall_app; split; [done|]|done].
    + unfold keep_last. simpl. rewrite length_drop, length_app. simpl. lia.
    + constructor; [|done]. by rewrite has_newline_app, E, orb_true_r.
  - split_and!; [done|done|]. simpl. by rewrite has_newline_app, Hp, E.
Qed.

Lemma spec_write_partial data c :
  (length (partial (spec_write data c)) <= length (partial c) + length data)%nat.
Proof. unfold spec_write. destruct (has_newline data); simpl; [|rewrite length_app]; lia. Qed.

Lemma spec_writes_wf ws c :
  contents_wf c -> contents_wf (foldl (fun c w => spec_write w c) c ws).
Proof.
  revert c. induction ws as [|w ws IH]; intros c Hc; simpl; [done|]. by apply IH, spec_write_wf.
Qed.
(** Writing does not make the contents longer than what was written. *)
Lemma spec_write_size data c :
  total (lines (spec_write data c)) + Z.of_nat (length (partial (spec_write data c))) <=
  total (lines c) + Z.of_nat (length (partial c)) + Z.of_nat (length data).
Proof.
  unfold spec_write. destruct (has_newline data); simpl; [|lia_len].
  unfold keep_last. set (q := lines c ++ [partial c ++ data]). set (k := (length q - 10)%nat).
  assert (total q = total (lines c) + Z.of_nat (length (partial c)) + Z.of_nat (length data)) as Hq.
  { unfold q. rewrite total_app, total_cons, length_app. change (total []) with 0. lia. }
  rewrite <- (take_drop k q), total_app in Hq. pose proof (total_nonneg (take k q)). lia.
Qed.

Lemma spec_writes_size ws c :
  let c' := foldl (fun c w => spec_write w c) c ws in
  total (lines c') + Z.of_nat (length (partial c')) <=
    total (lines c) + Z.of_nat (length (partial c)) + Z.of_nat (length (concat ws)) /\
  (length (partial c') <= length (partial c) + length (concat ws))%nat.
Proof.
  revert c. induction ws as [|w ws IH]; intros c; simpl; [lia|].
  pose proof (IH (spec_write w c)) as IHw. simpl in IHw. pose proof (spec_write_size w c).
  pose proof (spec_write_partial w c). rewrite length_app. lia.
Qed.

(** Pieces of data whose only newline is its last byte make one line, for any
    way of writing that joins a piece without newline to the next. *)
Lemma line_of_pieces {C} (write : list byte -> C -> C) ps body c :
  (forall c, write [] c = c) ->
  (forall a b c, has_newline a = false -> has_newline b = true -> write b (write a c) = write (a ++ b) c) ->
  concat ps = body ++ [ch_newline] -> ch_newline ∉ body ->
  foldl (fun c w => write w c) c ps = write (body ++ [ch_newline]) c.
Proof.
  intros Hnil Hjoin. revert body c. induction ps as [|p ps IH]; intros body c Hps Hbody; simpl in Hps.
  { by destruct body. }
  assert (forall c, concat ps = [] -> foldl (fun c w => write w c) c ps = c) as Hempty.
  { clear - Hnil. induction ps as [|p ps IH]; intros c Hps; simpl in *; [done|].
    apply app_eq_nil in Hps as [-> Hps]. by rewrite Hnil, IH. }
  simpl. destruct (decide (length p <= length body)%nat) as [Hle|Hgt].
  - assert (exists body', body = p ++ body') as [body' ->].
    { exists (drop (length p) body). apply (f_equal (take (length p))) in Hps.
      rewrite take_app_length, take_app_le in Hps by done. rewrite Hps at 1. by rewrite take_drop. }
    rewrite <- app_assoc in Hps |- *. apply app_inv_head in Hps.
    apply not_elem_of_app in Hbody as [Hp Hb']. rewrite (IH body' _ Hps Hb').
    apply Hjoin; [by apply bool_decide_eq_false_2|].
    apply bool_decide_eq_true_2, elem_of_app. right. by apply list_elem_of_singleton.
  - assert (p = body ++ [ch_newline] /\ concat ps = []) as [-> Hnil']; [|by apply Hempty].
    assert (length p + length (concat ps) = length body + 1)%nat as Hlen.
    { apply (f_equal length) in Hps. by rewrite !length_app in Hps. }
    assert (concat ps = []) as Hnil' by (apply nil_length_inv; lia).
    by rewrite Hnil', app_nil_r in Hps.
Qed.

Lemma spec_write_nil c : spec_write [] c = c.
Proof. destruct c. unfold spec_write. simpl. by rewrite app_nil_r. Qed.

Lemma spec_write_join a b c :
  has_newline a = false -> has_newline b = true -> spec_write b (spec_write a c) = spec_write (a ++ b) c.
Proof. intros Ha Hb. unfold spec_write. rewrite has_newline_app, Ha, Hb. simpl. by rewrite app_assoc. Qed.

Lemma spec_write_pieces ps body c :
  concat ps = body ++ [ch_newline] -> ch_newline ∉ body ->
  foldl (fun c w => spec_write w c) c ps = spec_write (body ++ [ch_newline]) c.
Proof. intros. by apply line_of_pieces; [apply spec_write_nil|apply spec_write_join|..]. Qed.

Section refinement.
Context `{Allocator}.
Implicit Types (d : aesd_dev) (h : heap) (L : list chunk) (c : contents).

Definition dev_holds (h : heap) (d : aesd_dev) (c : contents) (L : list chunk) : Prop :=
  exists r p, dev_models d r p /\ layout r (lines c) /\ flag_exact r (lines c) /\
    pending p = partial c /\ holds h (dev_chunks d r p ++ L).

Lemma reliable_serves n sz : reliable -> sz <= alloc_max -> alloc_serves n sz = true.
Proof.
  intros Hrel Hsz. unfold alloc_serves. rewrite Hrel, (proj2 (Z.leb_le _ _) Hsz).
  by destruct (_ && _).
Qed.

Lemma reliable_not_refusable sz : reliable -> sz <= alloc_max -> ~ refusable sz.
Proof. intros Hrel Hsz [n Hn]. by rewrite reliable_serves in Hn. Qed.

(** A store of one line keeps the abstraction. *)
Lemma dev_holds_line h d r p q data L :
  dev_models d (ring_add true data r) p -> layout r q -> flag_exact r q ->
  pending p = [] -> holds h (dev_chunks d (ring_add true data r) p ++ L) ->
  dev_holds h d (Contents (keep_last 10 (q ++ [data])) []) L.
Proof.
  intros Hd Hlay Hflag Hp Hh. pose proof Hflag as Hf. unfold flag_exact in Hf.
  assert (r_full r = true -> q <> []) as Hne.
  { rewrite Hf, bool_decide_eq_true. by intros ? ->. }
  rewrite <- queue_add_keep_last, <- Hf by apply Hlay.
  exists (ring_add true data r), p. split_and!; [done| | |done|done]; cbn [lines].
  - by apply ring_add_layout.
  - by apply ring_add_flag.
Qed.

(** [aesd_write] implements [spec_write]. *)
Lemma wp_write_refines d c u data h L :
  dev_holds h d c L -> reliable -> user_ok u -> supplies u data ->
  Z.of_nat (length (partial c ++ data)) <= alloc_max ->
  wp (aesd_write d u (Z.of_nat (length data)))
     (fun res h' => res.1 = Z.of_nat (length data) /\ dev_holds h' res.2 (spec_write data c) L) h.
Proof.
  intros (r & p & Hd & Hlay & Hflag & Hp & Hh) Hrel Hu Hsup Hsz.
  rewrite length_app in Hsz. pose proof alloc_max_addressable.
  eapply wp_mono; [eapply wp_aesd_write; [exact Hd|exact Hu|lia|exact Hh]|].
  intros [ret d'] h' (r' & p' & Hspec & Hd' & _ & _ & Hh'). simpl in *.
  unfold supplies in Hsup. unfold spec_write.
  assert (forall sz, sz <= alloc_max -> ~ refusable sz) as Hno by (intros; by apply reliable_not_refusable).
  inversion Hspec as [Href|Hne|ok dat Hf Hnl Hpe Href|ok dat Hf Hnl Hpe Href|dat Hf Hnl|dat Hf Href];
    subst; rewrite ?Hf in Hsup; simplify_eq; rewrite ?s64_small by lia.
  - exfalso. eapply Hno; [|exact Href]. lia.
  - by rewrite Hsup in Hne.
  - split; [done|]. rewrite Hnl. destruct ok; [|exfalso; eapply Hno; [|exact (Href eq_refl)]; lia].
    rewrite <- Hp, Hpe. by eapply dev_holds_line.
  - split; [done|]. rewrite Hnl, <- Hp.
    destruct ok; [by eapply dev_holds_line|].
    exfalso. eapply Hno; [|exact (Href eq_refl)]. rewrite Hp, length_app. lia.
  - split; [done|]. rewrite Hnl, <- Hp. exists r', (Some (pending p ++ data)). by split_and!.
  - exfalso. eapply Hno; [|exact Href]. rewrite Hp, length_app. lia.
Qed.

(** ** Reading to the end *)

Lemma dev_holds_read d c u count f_pos h L :
  dev_holds h d c L -> 0 <= count -> 0 <= f_pos < 2 ^ 63 ->
  aesd_read d u count f_pos h = Done (read_result u (lines c) count f_pos) h.
Proof.
  intros (r & p & Hd & Hlay & _ & _ & Hh) Hc Hf.
  rewrite (aesd_read_exact _ _ _ _ _ _ _ _ Hd Hh) by lia.
  by rewrite (layout_queue_of _ _ Hlay).
Qed.

Lemma dev_holds_total d c h L : dev_holds h d c L -> 0 <= total (lines c) < 2 ^ 62.
Proof.
  intros (r & p & Hd & Hlay & _ & _ & Hh). rewrite <- (layout_queue_of _ _ Hlay).
  by eapply dev_total_bound.
Qed.

(** One read inside the text: some bytes, and they are the next ones. *)
Lemma read_result_progress u q count f_pos :
  writable u -> 0 < count -> 0 <= f_pos < total q -> total q < 2 ^ 62 ->
  exists n data, read_result u q count f_pos = (n, f_pos + n, data) /\ 0 < n /\ n <= count /\
    f_pos + n <= total q /\ Z.of_nat (length data) = n /\
    drop (Z.to_nat f_pos) (concat q) = data ++ drop (Z.to_nat (f_pos + n)) (concat q).
Proof.
  intros Hw Hc Hf Hq. unfold read_result. rewrite u64_loff by lia.
  destruct (locate q f_pos) as [[j o]|] eqn:El.
  2:{ apply locate_None in El; lia. }
  destruct (locate_Some q f_pos j o ltac:(lia) El) as (bs & Hj & Ho & Hoff).
  rewrite Hj. simpl default. rewrite Hw. simpl.
  set (n := Z.min count (Z.of_nat (length bs) - o)).
  exists n, (take (Z.to_nat n) (drop (Z.to_nat o) bs)).
  pose proof (total_take_le q (S j)) as Hle. rewrite (total_take_S _ _ _ Hj) in Hle.
  split_and!; [done|lia|lia|lia| |].
  - rewrite length_take, length_drop. lia.
  - rewrite Z2Nat.inj_add, <- drop_drop by lia.
    rewrite (locate_drop q f_pos j o bs) by (done || lia).
    rewrite drop_app_le by (lia_len). by rewrite app_assoc, take_drop.
Qed.

Lemma read_to_end_text n d c u count f_pos h L :
  dev_holds h d c L -> writable u -> 0 < count -> 0 <= f_pos <= total (lines c) ->
  total (lines c) - f_pos < Z.of_nat n ->
  read_to_end n d u count f_pos h = Done (Some (drop (Z.to_nat f_pos) (text c))) h.
Proof.
  intros Hd Hw Hc. pose proof (dev_holds_total _ _ _ _ Hd) as Htot. revert f_pos.
  induction n as [|n IH]; intros f_pos Hf Hn; [lia|]. simpl.
  rewrite (bind_done _ _ _ _ _ (dev_holds_read d c u count f_pos h L Hd ltac:(lia) ltac:(lia))).
  destruct (decide (f_pos = total (lines c))) as [->|Hne].
  - unfold read_result. rewrite u64_loff by lia.
    rewrite (proj2 (locate_None (lines c) (total (lines c)) ltac:(lia)) ltac:(lia)). simpl.
    unfold text. rewrite drop_ge; [done|]. unfold total. lia.
  - destruct (read_result_progress u (lines c) count f_pos) as (m & data & -> & Hm & _ & Hle & _ & Hdrop);
      [done|lia|lia|lia|]. simpl. zdec.
    erewrite bind_done by (apply IH; lia). unfold text. by rewrite Hdrop.
Qed.
End refinement.
