(* ===== verification/Scenario.v ===== *)
(** * Concrete instances

    User buffers and states of the driver on which the properties are
    instantiated: the witnesses of the theorems that have hypotheses, and the
    runs that exhibit a defect. *)

From S2P Require Import Prelude CInt CMem Footprint Common CircularBuffer TemporaryBuffer.
From S2P Require Import Ring CircularFacts CircularSearch CharDevice DeviceFacts WriteFacts SeekFacts.
From S2P Require Import ModuleFacts DeviceSpec.
From S2P Require Export Concrete.

Lemma kmalloc_reliable : @reliable kmalloc.
Proof. done. Qed.

(** ** User buffers *)

(** A readable and writable buffer that holds [bs]. *)
Definition user_bytes (bs : list byte) : user_buffer :=
  User (fun n => (take (Z.to_nat n) bs, n - Z.min n (Z.of_nat (length bs)))) (fun _ => 0).

(** An address that is not mapped. *)
Definition user_bad : user_buffer := User (fun n => ([], n)) (fun n => n).

Lemma user_bytes_ok bs : user_ok (user_bytes bs).
Proof. split; intros n Hn; simpl; lia_len. Qed.
Lemma user_bad_ok : user_ok user_bad.
Proof. split; intros n Hn; simpl; lia. Qed.
Lemma user_bytes_supplies bs : supplies (user_bytes bs) bs.
Proof. unfold supplies. simpl. rewrite Nat2Z.id, take_ge by done. f_equal. lia. Qed.
Lemma user_bytes_writable bs : writable (user_bytes bs).
Proof. done. Qed.

(** ** The driver, just loaded *)

Definition loaded_dev : aesd_dev :=
  Dev (Ptr 2) (Temporary NULL 0) (Ptr 1) (Circular (replicate 10 null_entry) 0 0 false 0).
Definition loaded_heap : heap := Heap {[1%positive := circ_block; 2%positive := tmp_block]} 3.

Lemma loaded_by_init :
  @aesd_init_module kmalloc 0 0 empty_heap = Done (0, Module_state true true loaded_dev) loaded_heap.
Proof. vm_compute. reflexivity. Qed.

Lemma loaded_models :
  dev_models loaded_dev ring_empty None /\ @holds kmalloc loaded_heap (dev_chunks loaded_dev ring_empty None ++ []).
Proof.
  pose proof (@wp_init kmalloc 0 0 empty_heap [] ltac:(done) ltac:(done) holds_empty) as Hw.
  unfold wp in Hw. rewrite loaded_by_init in Hw. simpl in Hw.
  destruct Hw as [[? _]|[[? _]|(_ & _ & _ & ? & ?)]]; done.
Qed.

Lemma loaded_holds : @dev_holds kmalloc loaded_heap loaded_dev no_contents [].
Proof.
  destruct loaded_models as [Hd Hh]. exists ring_empty, None.
  split_and!; [done|apply ring_empty_layout|done|done|done].
Qed.

(** ** The driver after ten short lines and a long one

    The long line went to slot 0; the oldest line is in slot 1. *)

Definition short_line : list byte := bytes "ab" ++ nl.
Definition long_line : list byte := bytes "abcdef" ++ nl.

Definition wrapped_circ : aesd_circular_buffer :=
  Circular (Entry (Ptr 24) 7 :: imap (fun i _ => Entry (Ptr (Pos.of_nat (6 + 2 * i))) 3) (replicate 9 ()))
    1 1 true 34.
Definition wrapped_dev : aesd_dev := Dev (Ptr 2) (Temporary NULL 0) (Ptr 1) wrapped_circ.
Definition wrapped_ring : ring := Ring (Some long_line :: replicate 9 (Some short_line)) 1 1 true.
Definition wrapped_lines : list (list byte) := replicate 9 short_line ++ [long_line].
Definition wrapped_heap : heap :=
  heap_of ([(1%positive, circ_block); (2%positive, tmp_block); (24%positive, Some <$> long_line)] ++
           imap (fun i _ => (Pos.of_nat (6 + 2 * i), Some <$> short_line)) (replicate 9 ())) 25.

Lemma wrapped_layout : layout wrapped_ring wrapped_lines.
Proof.
  split; [done|simpl; lia|simpl; lia|done|done|].
  intros i Hi. do 10 (destruct i as [|i]; [done|]). lia.
Qed.

Lemma wrapped_models : dev_models wrapped_dev wrapped_ring None.
Proof.
  split; [|eapply layout_ok, wrapped_layout|done..].
  split; [|done..]. repeat (constructor; [done|]). constructor.
Qed.

Lemma wrapped_holds : @holds kmalloc wrapped_heap (dev_chunks wrapped_dev wrapped_ring None ++ []).
Proof. by apply (heap_of_holds kmalloc). Qed.

(** ** A heap with the data of one entry in it *)

Definition one_entry (bs : list byte) : aesd_buffer_entry := Entry (Ptr 1) (Z.of_nat (length bs)).
Definition entry_heap (bs : list byte) : heap := heap_of [(1%positive, Some <$> bs)] 2.

Definition empty_circ : aesd_circular_buffer := Circular (replicate 10 null_entry) 0 0 false 0.

Lemma empty_circ_models : circ_models empty_circ ring_empty.
Proof. split; [repeat constructor|done..]. Qed.

Definition abc : list byte := bytes "abc".

Lemma entry_heap_holds :
  @holds kmalloc (entry_heap abc) (circ_chunks empty_circ ring_empty ++ own (Ptr 1) (Some <$> abc) ++ []).
Proof. by apply (heap_of_holds kmalloc). Qed.

(** ** A buffer with one entry, and a full one, next to the caller's data *)

Definition stored (k : nat) : list aesd_buffer_entry :=
  imap (fun i _ => Entry (Ptr (Pos.of_nat (i + 2))) 3) (replicate k ()).

Definition filled_circ (k : nat) : aesd_circular_buffer :=
  Circular (stored k ++ replicate (10 - k) null_entry) (Z.of_nat k mod 10) 0 (k =? 10)%nat (3 * Z.of_nat k).

Definition filled_ring (k : nat) : ring :=
  Ring (replicate k (Some abc) ++ replicate (10 - k) None) (k mod 10) 0 (k =? 10)%nat.

Definition filled_chunks (k : nat) : list chunk :=
  imap (fun i _ => (Pos.of_nat (i + 2), Some <$> abc)) (replicate k ()).

Definition filled_heap (k : nat) : heap :=
  heap_of (filled_chunks k ++ [(1%positive, Some <$> abc)]) (Pos.of_nat (k + 2)).

(** The state the code reaches after [k] successful calls. *)
Lemma filled_one :
  @aesd_circular_buffer_add_entry kmalloc (Some empty_circ) (Some (one_entry abc)) (entry_heap abc) =
  Done (Some (filled_circ 1)) (filled_heap 1).
Proof. vm_compute. reflexivity. Qed.

Lemma filled_models k : (k <= 10)%nat -> circ_models (filled_circ k) (filled_ring k).
Proof.
  intros Hk. do 11 (destruct k as [|k]; [split; [repeat (constructor; [done|]); constructor|done..]|]). lia.
Qed.

Lemma filled_layout k : (k <= 10)%nat -> layout (filled_ring k) (replicate k abc).
Proof.
  intros Hk. do 11 (destruct k as [|k];
    [split; [done|simpl; lia|simpl; lia|done|done|];
     intros i Hi; do 10 (destruct i as [|i]; [done|]); lia|]). lia.
Qed.

Lemma filled_flag k : (k <= 10)%nat -> flag_exact (filled_ring k) (replicate k abc).
Proof. intros Hk. do 11 (destruct k as [|k]; [done|]). lia. Qed.

Lemma filled_holds (A : Allocator) k :
  @alloc_max A = 2 ^ 22 -> (k <= 10)%nat ->
  @holds A (filled_heap k) (circ_chunks (filled_circ k) (filled_ring k) ++ own (Ptr 1) (Some <$> abc) ++ []).
Proof.
  intros HA Hk. do 11 (destruct k as [|k]; [apply (heap_of_holds A); rewrite HA; vm_compute; reflexivity|]). lia.
Qed.
