(* ===== verification/CircularProps.v ===== *)
(** * Properties of the circular buffer

    What [aesd_circular_buffer.c] guarantees to its callers: the last ten
    entries are kept, whatever the allocator does nothing is leaked or freed
    twice, the searches compute positions in the concatenation of the entries,
    and what goes wrong when memory runs out. *)

From S2P Require Import Prelude CInt CMem Footprint Common CircularBuffer.
From S2P Require Import Ring CircularFacts CircularSearch DeviceFacts DeviceSpec Scenario.

(** Adding several entries, one after the other. *)
Fixpoint add_all `{Allocator} (ob : option aesd_circular_buffer) (es : list aesd_buffer_entry)
    : M (option aesd_circular_buffer) :=
  match es with
  | [] => mret ob
  | e :: es' => ob' ← aesd_circular_buffer_add_entry ob (Some e); add_all ob' es'
  end.

(** What the caller's entries own: entry [i] names the bytes [bss !! i]. *)
Definition entries_chunks (es : list aesd_buffer_entry) (bss : list (list byte)) : list chunk :=
  concat (zip_with entry_chunks es (Some <$> bss)).

Section history.
Context `{Allocator}.

Lemma wp_add_all es bss b r q h L :
  Forall2 entry_models es (Some <$> bss) ->
  circ_models b r -> layout r q -> flag_exact r q -> reliable ->
  holds h (circ_chunks b r ++ entries_chunks es bss ++ L) ->
  wp (add_all (Some b) es)
     (fun ob h' => exists b' r', ob = Some b' /\ circ_models b' r' /\
        layout r' (keep_last 10 (q ++ bss)) /\ flag_exact r' (keep_last 10 (q ++ bss)) /\
        holds h' (circ_chunks b' r' ++ entries_chunks es bss ++ L)) h.
Proof.
  revert bss b r q h L. induction es as [|e es IH]; intros bss b r q h L Hes Hb Hlay Hflag Hrel Hh.
  - apply Forall2_nil_inv_l, fmap_nil_inv in Hes as ->. apply wp_ret. exists b, r.
    rewrite app_nil_r, keep_last_le by apply Hlay. by split_and!.
  - destruct bss as [|bs bss]; [by inversion Hes|]. apply Forall2_cons in Hes as [[Hsz Hok] Hes].
    unfold entries_chunks in Hh. simpl in Hh. rewrite <- app_assoc in Hh. simpl.
    assert (entry_size e <= alloc_max) as Hmax.
    { rewrite Hsz, <- (length_fmap Some bs). eapply (holds_block_max _ (buffptr e)); [|done].
      rewrite (Permutation_app_swap_app (circ_chunks b r)) in Hh. exact Hh. }
    apply wp_bind. eapply wp_mono; [by eapply wp_add_entry; [| |exact Hsz| |]; [|by eapply layout_ok|..]|].
    rewrite (reliable_serves _ _ Hrel Hmax). intros ob h1 (b1 & -> & Hb1 & _ & Hh1).
    assert (r_full r = true -> q <> []) as Hne.
    { rewrite Hflag, bool_decide_eq_true. by intros ? ->. }
    pose proof (ring_add_layout true bs r q Hlay Hne) as Hlay1.
    pose proof (ring_add_flag bs r q Hlay Hne) as Hflag1.
    rewrite Hflag, (queue_add_keep_last bs q (lay_len _ _ Hlay)) in Hlay1, Hflag1.
    eapply wp_mono.
    { apply (IH bss b1 _ _ h1 (own (buffptr e) (Some <$> bs) ++ L) Hes Hb1 Hlay1 Hflag1 Hrel).
      unfold entries_chunks. holds_perm Hh1. }
    intros ob h2 (b2 & r2 & -> & Hb2 & Hlay2 & Hflag2 & Hh2).
    rewrite keep_last_app, <- app_assoc in Hlay2, Hflag2. simpl in Hlay2, Hflag2.
    exists b2, r2. split_and!; try done. unfold entries_chunks in *. simpl. holds_perm Hh2.
Qed.
End history.

Section properties.
Context `{Allocator}.

(** C4: after any sequence of [aesd_circular_buffer_add_entry] calls whose
    allocations succeed, on a buffer that held [q], the buffer holds the
    last ten of [q] and the new entries, in order, in copies of its own; the
    callers' data is untouched, and [full] is set exactly when ten are held. *)
Theorem add_entry_keeps_last_ten es bss b r q h L :
  Forall2 entry_models es (Some <$> bss) ->
  circ_models b r -> layout r q -> flag_exact r q -> reliable ->
  holds h (circ_chunks b r ++ entries_chunks es bss ++ L) ->
  exists b' r' h', add_all (Some b) es h = Done (Some b') h' /\ circ_models b' r' /\
    layout r' (keep_last 10 (q ++ bss)) /\
    full b' = bool_decide (length (keep_last 10 (q ++ bss)) = 10%nat) /\
    holds h' (circ_chunks b' r' ++ entries_chunks es bss ++ L).
Proof.
  intros Hes Hb Hlay Hflag Hrel Hh.
  destruct (wp_done _ _ _ (wp_add_all _ _ _ _ _ _ _ Hes Hb Hlay Hflag Hrel Hh))
    as (ob & h' & E & b' & r' & -> & Hb' & Hl' & Hf' & Hh').
  exists b', r', h'. split_and!; [done..| |done]. by rewrite (cm_full _ _ Hb').
Qed.

(** C20: for every answer of the allocator, a call on a well-formed buffer
    returns without undefined behaviour; it changes the ring as [ring_add]
    says, keeps it well formed, and afterwards the heap holds the buffer's
    new contents, the caller's entry and the frame: nothing is leaked, freed
    twice or overwritten. *)
Theorem add_entry_safe b r e bs h L :
  circ_models b r -> ring_ok r ->
  entry_size e = Z.of_nat (length bs) -> own_ok (buffptr e) (Some <$> bs) ->
  holds h (circ_chunks b r ++ own (buffptr e) (Some <$> bs) ++ L) ->
  exists b' h', aesd_circular_buffer_add_entry (Some b) (Some e) h = Done (Some b') h' /\
    let r' := ring_add (alloc_serves (next h) (entry_size e)) bs r in
    circ_models b' r' /\ ring_ok r' /\
    holds h' (circ_chunks b' r' ++ own (buffptr e) (Some <$> bs) ++ L).
Proof.
  intros Hb Hr Hsz Hok Hh.
  destruct (wp_done _ _ _ (wp_add_entry _ _ _ _ _ _ Hb Hr Hsz Hok Hh)) as (ob & h' & E & b' & -> & Hrest).
  by exists b', h'.
Qed.

(** C18: a position inside the concatenation of the entries is found in the
    entry and at the offset where its byte lies; a position past the end is
    not found, and then [*entry_offset_byte_rtn] keeps its value. *)
Theorem find_fpos_correct b r q off v h :
  circ_models b r -> layout r q -> total q < 2 ^ 64 -> 0 <= off < 2 ^ 64 ->
  if off <? total q then
    exists j o bs,
      aesd_circular_buffer_find_entry_offset_for_fpos (Some b) off (Some v) h =
        Done (Some (Z.of_nat ((r_out r + j) mod 10)), Some o) h /\
      slots r !! ((r_out r + j) mod 10)%nat = Some (Some bs) /\ q !! j = Some bs /\
      0 <= o < Z.of_nat (length bs) /\ bs !! Z.to_nat o = concat q !! Z.to_nat off
  else
    aesd_circular_buffer_find_entry_offset_for_fpos (Some b) off (Some v) h = Done (None, Some v) h.
Proof.
  intros Hb Hlay Htot Hoff.
  rewrite (find_fpos_spec _ _ _ Hb (layout_view _ _ Hlay)) by lia.
  destruct (off <? total q) eqn:E; zbool; [|by rewrite (proj2 (locate_None q off ltac:(lia)))].
  destruct (locate q off) as [[j o]|] eqn:El; [|apply locate_None in El; lia].
  destruct (locate_Some q off j o ltac:(lia) El) as (bs & Hj & Ho & Heq).
  exists j, o, bs. split_and!; [done| |done|lia|lia|].
  - pose proof (lookup_lt_Some _ _ _ Hj). pose proof (lay_len _ _ Hlay).
    rewrite (lay_at _ _ Hlay) by lia. by rewrite Hj.
  - pose proof (locate_drop q off j o bs ltac:(lia) El Hj) as Hd.
    rewrite <- (Nat.add_0_r (Z.to_nat off)), <- lookup_drop, Hd, lookup_app_l, lookup_drop, Nat.add_0_r.
    + done.
    + rewrite length_drop. lia.
Qed.

(** C19: the two searches are inverse to each other: the position the seek
    search computes for byte [off] of entry [c] is found by the other search
    in the same slot and at the same offset. *)
Theorem find_ioctl_fpos_roundtrip b r q (c : nat) off bs v w h :
  circ_models b r -> layout r q -> total q < 2 ^ 64 ->
  q !! c = Some bs -> 0 <= off < Z.of_nat (length bs) ->
  exists idx pos,
    aesd_circular_buffer_find_entry_for_ioctl (Some b) (Z.of_nat c) off (Some v) h =
      Done (Some idx, Some pos) h /\
    aesd_circular_buffer_find_entry_offset_for_fpos (Some b) pos (Some w) h =
      Done (Some idx, Some off) h.
Proof.
  intros Hb Hlay Htot Hc Hoff. pose proof (lookup_lt_Some _ _ _ Hc). pose proof (lay_len _ _ Hlay).
  pose proof (total_take_le q (S c)) as Hle. rewrite (total_take_S _ _ _ Hc) in Hle.
  pose proof (total_nonneg (take c q)).
  exists (Z.of_nat ((r_out r + c) mod 10)), (total (take c q) + off). split.
  - rewrite (find_ioctl_spec _ _ _ Hb (layout_view _ _ Hlay)) by lia.
    unfold ioctl_answer. by rewrite Hc, (proj2 (Z.ltb_lt _ _)) by lia.
  - rewrite (find_fpos_spec _ _ _ Hb (layout_view _ _ Hlay)) by lia.
    by rewrite (locate_at _ _ _ _ Hc Hoff).
Qed.

(** The seek search refuses an entry number that is not held and an
    offset past the end of the entry, and then stores 0. *)
Theorem find_ioctl_refuses b r q (c : nat) off v h :
  circ_models b r -> layout r q -> total q < 2 ^ 64 -> (c < 10)%nat -> 0 <= off ->
  (forall bs, q !! c = Some bs -> Z.of_nat (length bs) <= off) ->
  aesd_circular_buffer_find_entry_for_ioctl (Some b) (Z.of_nat c) off (Some v) h =
    Done (None, Some 0) h.
Proof.
  intros Hb Hlay Htot Hc Hoff Hno.
  rewrite (find_ioctl_spec _ _ _ Hb (layout_view _ _ Hlay)) by lia.
  unfold ioctl_answer. destruct (q !! c) as [bs|] eqn:E; [|done].
  by rewrite (proj2 (Z.ltb_ge _ _)) by (by apply Hno).
Qed.

(** Both searches dereference a [NULL] [entry_offset_byte_rtn], although
    each tests it: the first in its debug message, when the position is
    found, the second on each of its failure paths. *)
Theorem find_null_rtn_faults b r q off (c : nat) h :
  circ_models b r -> layout r q -> total q < 2 ^ 64 ->
  0 <= off < total q -> (length q <= c < 10)%nat ->
  aesd_circular_buffer_find_entry_offset_for_fpos (Some b) off None h = Stuck NullDeref /\
  aesd_circular_buffer_find_entry_for_ioctl (Some b) (Z.of_nat c) off None h = Stuck NullDeref.
Proof.
  intros Hb Hlay Htot Hoff Hc. pose proof (layout_view _ _ Hlay) as Hv. split.
  - rewrite (find_fpos_spec _ _ _ Hb Hv) by lia.
    destruct (locate q off) as [[j o]|] eqn:El; [done|]. apply locate_None in El; lia.
  - rewrite (find_ioctl_spec _ _ _ Hb Hv) by lia. unfold ioctl_answer.
    by rewrite (lookup_ge_None_2 q c) by lia.
Qed.

(** [aesd_circular_buffer_cleanup] frees every entry of a well-formed
    buffer exactly once, and touches nothing else. *)
Theorem cleanup_frees_all b r h L :
  circ_models b r -> ring_ok r -> holds h (circ_chunks b r ++ L) ->
  exists h', aesd_circular_buffer_cleanup (Some b) h = Done () h' /\ holds h' L.
Proof.
  intros Hb Hr Hh. destruct (wp_done _ _ _ (wp_cleanup _ _ _ _ Hb Hr Hh)) as ([] & h' & E & Hh').
  by exists h'.
Qed.

(** When the allocation fails on a full buffer, the call still drops the
    oldest entry, stores nothing, and leaves [full] set with nine entries
    held. *)
Theorem add_entry_failure_on_full b r q e bs h L :
  circ_models b r -> layout r q -> length q = 10%nat ->
  entry_size e = Z.of_nat (length bs) -> own_ok (buffptr e) (Some <$> bs) ->
  holds h (circ_chunks b r ++ own (buffptr e) (Some <$> bs) ++ L) ->
  alloc_serves (next h) (entry_size e) = false ->
  exists b' r' h', aesd_circular_buffer_add_entry (Some b) (Some e) h = Done (Some b') h' /\
    circ_models b' r' /\ layout r' (tail q) /\ length (tail q) = 9%nat /\ full b' = true.
Proof.
  intros Hb Hlay Hlen Hsz Hok Hh Hfail. pose proof (lay_full _ _ Hlay Hlen) as Hfull.
  destruct (wp_done _ _ _ (wp_add_entry _ _ _ _ _ _ Hb (layout_ok _ _ Hlay) Hsz Hok Hh))
    as (ob & h' & E & b' & -> & Hb' & _ & _).
  rewrite Hfail in Hb'. eexists b', _, h'. split; [done|]. split; [exact Hb'|].
  assert (r_full r = true -> q <> []) as Hne by (intros _ ->; done).
  pose proof (ring_add_layout false bs r q Hlay Hne) as Hl. rewrite Hfull in Hl.
  split_and!; [exact Hl|destruct q; simpl in *; lia|].
  rewrite (cm_full _ _ Hb'). unfold ring_add. by rewrite Hfull.
Qed.

(** The slots of a ring that holds nothing are all vacant. *)
Lemma layout_nil_slots r : layout r [] -> slots r = replicate 10 None.
Proof.
  intros Hlay. pose proof (layout_slots _ _ Hlay) as Hperm. simpl in Hperm.
  symmetry. apply replicate_as_Forall. split; [by destruct Hlay|].
  rewrite Hperm. repeat constructor.
Qed.

Lemma ring_add_stale bs r :
  layout r [] -> r_full r = true ->
  slots (ring_add true bs r) = <[r_in r := Some bs]> (replicate 10 None) /\
  queue_of (ring_add true bs r) = [] /\ r_full (ring_add true bs r) = true.
Proof.
  intros Hlay Hf. pose proof (layout_nil_slots _ Hlay) as Hs. destruct Hlay as [_ Ho _ Hi _ _].
  rewrite Nat.add_0_r, Nat.mod_small in Hi by done. unfold ring_add, ring_release. rewrite Hf. simpl.
  rewrite Hs, Hi. split_and!.
  - by rewrite list_insert_insert_eq.
  - unfold queue_of, succ10. rewrite list_insert_insert_eq.
    revert Ho. clear. generalize (r_out r). intros n Hn.
    do 10 (destruct n as [|n]; [reflexivity|]). lia.
  - by apply bool_decide_eq_true.
Qed.

(** Once ten failed allocations on a full buffer have emptied it, [full]
    is still set; the next entry is then stored and counted in [size], but
    no position finds it. *)
Theorem exhausted_buffer_hides_entry b r e bs h L v :
  circ_models b r -> layout r [] -> full b = true ->
  entry_size e = Z.of_nat (length bs) -> own_ok (buffptr e) (Some <$> bs) ->
  holds h (circ_chunks b r ++ own (buffptr e) (Some <$> bs) ++ L) ->
  alloc_serves (next h) (entry_size e) = true ->
  exists b' h', aesd_circular_buffer_add_entry (Some b) (Some e) h = Done (Some b') h' /\
    circ_size b' = Z.of_nat (length bs) /\
    forall off, 0 <= off < 2 ^ 64 ->
      aesd_circular_buffer_find_entry_offset_for_fpos (Some b') off (Some v) h' = Done (None, Some v) h'.
Proof.
  intros Hb Hlay Hfull Hsz Hok Hh Hserve.
  assert (Z.of_nat (length bs) <= alloc_max) as Hmax.
  { rewrite <- (length_fmap Some bs). eapply (holds_block_max _ (buffptr e)); [|done].
    rewrite (Permutation_app_swap_app (circ_chunks b r)) in Hh. exact Hh. }
  pose proof alloc_max_addressable.
  destruct (wp_done _ _ _ (wp_add_entry _ _ _ _ _ _ Hb (layout_ok _ _ Hlay) Hsz Hok Hh))
    as (ob & h' & E & b' & -> & Hb' & Hr' & _).
  rewrite Hserve in Hb', Hr'. rewrite (cm_full _ _ Hb) in Hfull.
  destruct (ring_add_stale bs r Hlay Hfull) as (Hs & Hq & _).
  exists b', h'. split_and!; [done| |].
  - rewrite (cm_size _ _ Hb'), Hs. rewrite <- (u64_small (Z.of_nat (length bs))) by lia. do 2 f_equal.
    pose proof (sum_list_with_insert slot_len (replicate 10 None) (r_in r) (Some bs) None) as Hsum.
    rewrite lookup_replicate_2 in Hsum by apply (ok_in _ (layout_ok _ _ Hlay)).
    specialize (Hsum eq_refl). simpl in Hsum |- *. lia.
  - intros off Hoff. pose proof (queue_of_view _ (ok_slots _ Hr') (ok_out _ Hr')) as Hv.
    rewrite Hq in Hv. by rewrite (find_fpos_spec _ _ _ Hb' Hv) by done.
Qed.
End properties.

(** ** Witnesses *)

Lemma add_entry_keeps_last_ten_witness :
  exists b' r' h',
    @add_all kmalloc (Some empty_circ) [one_entry abc] (entry_heap abc) = Done (Some b') h' /\
    circ_models b' r' /\ layout r' [abc] /\ full b' = false /\
    @holds kmalloc h' (circ_chunks b' r' ++ entries_chunks [one_entry abc] [abc] ++ []).
Proof.
  apply (@add_entry_keeps_last_ten kmalloc [one_entry abc] [abc] empty_circ ring_empty []
           (entry_heap abc) []).
  - repeat constructor.
  - exact empty_circ_models.
  - exact ring_empty_layout.
  - reflexivity.
  - exact kmalloc_reliable.
  - exact entry_heap_holds.
Defined.

Lemma add_entry_safe_witness :
  exists b' h',
    @aesd_circular_buffer_add_entry kmalloc (Some empty_circ) (Some (one_entry abc)) (entry_heap abc) =
      Done (Some b') h' /\
    let r' := ring_add (@alloc_serves kmalloc (next (entry_heap abc)) 3) abc ring_empty in
    circ_models b' r' /\ ring_ok r' /\
    @holds kmalloc h' (circ_chunks b' r' ++ own (Ptr 1) (Some <$> abc) ++ []).
Proof.
  apply (@add_entry_safe kmalloc empty_circ ring_empty (one_entry abc) abc (entry_heap abc) []).
  - exact empty_circ_models.
  - exact ring_empty_ok.
  - reflexivity.
  - exact I.
  - exact entry_heap_holds.
Defined.

Lemma find_fpos_correct_witness :
  exists j o bs,
    aesd_circular_buffer_find_entry_offset_for_fpos (Some (filled_circ 1)) 2 (Some 7) (filled_heap 1) =
      Done (Some (Z.of_nat ((0 + j) mod 10)), Some o) (filled_heap 1) /\
    slots (filled_ring 1) !! ((0 + j) mod 10)%nat = Some (Some bs) /\ [abc] !! j = Some bs /\
    0 <= o < Z.of_nat (length bs) /\ bs !! Z.to_nat o = concat [abc] !! 2%nat.
Proof.
  exact (find_fpos_correct (filled_circ 1) (filled_ring 1) [abc] 2 7 (filled_heap 1)
           (filled_models 1 ltac:(lia)) (filled_layout 1 ltac:(lia)) ltac:(done) ltac:(lia)).
Defined.

Lemma find_ioctl_fpos_roundtrip_witness :
  exists idx pos,
    aesd_circular_buffer_find_entry_for_ioctl (Some (filled_circ 1)) 0 2 (Some 7) (filled_heap 1) =
      Done (Some idx, Some pos) (filled_heap 1) /\
    aesd_circular_buffer_find_entry_offset_for_fpos (Some (filled_circ 1)) pos (Some 8) (filled_heap 1) =
      Done (Some idx, Some 2) (filled_heap 1).
Proof.
  exact (find_ioctl_fpos_roundtrip (filled_circ 1) (filled_ring 1) [abc] 0 2 abc 7 8 (filled_heap 1)
           (filled_models 1 ltac:(lia)) (filled_layout 1 ltac:(lia)) ltac:(done) ltac:(done) ltac:(done)).
Defined.

Lemma find_ioctl_refuses_witness :
  aesd_circular_buffer_find_entry_for_ioctl (Some (filled_circ 1)) 0 3 (Some 7) (filled_heap 1) =
    Done (None, Some 0) (filled_heap 1).
Proof.
  apply (find_ioctl_refuses (filled_circ 1) (filled_ring 1) [abc] 0 3 7 (filled_heap 1) (filled_models 1 ltac:(lia)) (filled_layout 1 ltac:(lia)));
    [done|lia|lia|]. intros bs Hbs. by simplify_eq/=.
Defined.

Lemma find_null_rtn_faults_witness :
  aesd_circular_buffer_find_entry_offset_for_fpos (Some (filled_circ 1)) 1 None (filled_heap 1) = Stuck NullDeref /\
  aesd_circular_buffer_find_entry_for_ioctl (Some (filled_circ 1)) 4 1 None (filled_heap 1) = Stuck NullDeref.
Proof.
  exact (find_null_rtn_faults (filled_circ 1) (filled_ring 1) [abc] 1 4 (filled_heap 1) (filled_models 1 ltac:(lia)) (filled_layout 1 ltac:(lia))
           ltac:(done) ltac:(done) ltac:(simpl; lia)).
Defined.

Lemma cleanup_frees_all_witness :
  exists h', aesd_circular_buffer_cleanup (Some (filled_circ 1)) (filled_heap 1) = Done () h' /\
             @holds kmalloc h' (own (Ptr 1) (Some <$> abc) ++ []).
Proof.
  exact (@cleanup_frees_all kmalloc (filled_circ 1) (filled_ring 1) (filled_heap 1) _ (filled_models 1 ltac:(lia))
           (layout_ok _ _ (filled_layout 1 ltac:(lia))) (filled_holds kmalloc 1 ltac:(done) ltac:(lia))).
Defined.

(** The eleventh call on a full buffer, its allocation failing. *)
Definition fails_at_12 : Allocator := kmalloc_failing (Pos.eqb 12).

Lemma add_entry_failure_on_full_witness :
  exists b' r' h',
    @aesd_circular_buffer_add_entry fails_at_12 (Some (filled_circ 10)) (Some (one_entry abc)) (filled_heap 10) =
      Done (Some b') h' /\
    circ_models b' r' /\ layout r' (replicate 9 abc) /\ length (replicate 9 abc) = 9%nat /\ full b' = true.
Proof.
  apply (@add_entry_failure_on_full fails_at_12 (filled_circ 10) (filled_ring 10) (replicate 10 abc)
           (one_entry abc) abc (filled_heap 10) []).
  - apply filled_models. lia.
  - apply filled_layout. lia.
  - reflexivity.
  - reflexivity.
  - exact I.
  - apply filled_holds; [reflexivity|lia].
  - vm_compute. reflexivity.
Defined.

(** Ten failing calls on the full buffer reach the state of the next theorem. *)
Definition fails_12_to_21 : Allocator :=
  kmalloc_failing (fun n => (12 <=? n)%positive && (n <=? 21)%positive).
Definition exhausted_circ : aesd_circular_buffer := Circular (replicate 10 null_entry) 0 0 true 0.
Definition exhausted_ring : ring := Ring (replicate 10 None) 0 0 true.
Definition exhausted_heap : heap := heap_of [(1%positive, Some <$> abc)] 22.

Lemma exhausted_reached :
  @add_all fails_12_to_21 (Some (filled_circ 10)) (replicate 10 (one_entry abc)) (filled_heap 10) =
  Done (Some exhausted_circ) exhausted_heap.
Proof. vm_compute. reflexivity. Qed.

Lemma exhausted_buffer_hides_entry_witness :
  exists b' h',
    @aesd_circular_buffer_add_entry fails_12_to_21 (Some exhausted_circ) (Some (one_entry abc)) exhausted_heap =
      Done (Some b') h' /\
    circ_size b' = 3 /\
    forall off, 0 <= off < 2 ^ 64 ->
      aesd_circular_buffer_find_entry_offset_for_fpos (Some b') off (Some 5) h' = Done (None, Some 5) h'.
Proof.
  apply (@exhausted_buffer_hides_entry fails_12_to_21 exhausted_circ exhausted_ring (one_entry abc) abc
           exhausted_heap [] 5).
  - split; [repeat constructor|done..].
  - split; [done|simpl; lia|simpl; lia|done|done|].
    intros i Hi. do 10 (destruct i as [|i]; [done|]). lia.
  - reflexivity.
  - reflexivity.
  - exact I.
  - apply (heap_of_holds fails_12_to_21). vm_compute. reflexivity.
  - vm_compute. reflexivity.
Defined.
