(* ===== verification/DeviceProps.v ===== *)
(** * Properties of the character device

    The promises of the driver to user programs: the device is the last ten
    complete writes, readers see them in order, no sequence of calls and no
    failure corrupts memory, unloading frees everything; and the places where
    the code falls short of them. *)

From S2P Require Import Prelude CInt CMem Footprint Common CircularBuffer TemporaryBuffer.
From S2P Require Import Ring CircularFacts CircularSearch CharDevice DeviceFacts WriteFacts SeekFacts.
From S2P Require Import ModuleFacts DeviceSpec Scenario.

(** Writing a list of data, each from its own user buffer. *)
Fixpoint write_all `{Allocator} (from : list byte -> user_buffer) (d : aesd_dev)
    (ws : list (list byte)) : M aesd_dev :=
  match ws with
  | [] => mret d
  | w :: ws' =>
      res ← aesd_write d (from w) (Z.of_nat (length w));
      write_all from res.2 ws'
  end.

Section history.
Context `{Allocator}.

Lemma wp_write_all from ws d c h L :
  (forall w, user_ok (from w) /\ supplies (from w) w) -> reliable ->
  dev_holds h d c L ->
  Z.of_nat (length (partial c)) + Z.of_nat (length (concat ws)) <= alloc_max ->
  wp (write_all from d ws) (fun d' h' => dev_holds h' d' (foldl (fun c w => spec_write w c) c ws) L) h.
Proof.
  intros Hfrom Hrel. revert d c h. induction ws as [|w ws IH]; intros d c h Hd Hsz; simpl.
  - by apply wp_ret.
  - simpl in Hsz. rewrite length_app in Hsz. destruct (Hfrom w) as [Hu Hs].
    apply wp_bind. eapply wp_mono.
    { apply (wp_write_refines d c (from w) w h L Hd Hrel Hu Hs). rewrite length_app. lia. }
    intros res h' [_ Hd']. apply IH; [done|]. pose proof (spec_write_partial w c). lia.
Qed.

End history.

Section properties.
Context `{Allocator}.

(** C1: [aesd_write] implements the abstract device: with memory available
    and a readable user buffer it returns [count], data with a newline
    completes a line (the partial line in front of it, the oldest of ten
    lines dropped) and other data joins the partial line. *)
Theorem write_implements_spec d c u data h L :
  dev_holds h d c L -> reliable -> user_ok u -> supplies u data ->
  Z.of_nat (length (partial c ++ data)) <= alloc_max ->
  exists d' h', aesd_write d u (Z.of_nat (length data)) h = Done (Z.of_nat (length data), d') h' /\
    dev_holds h' d' (spec_write data c) L.
Proof.
  intros Hd Hrel Hu Hs Hsz.
  destruct (wp_done _ _ _ (wp_write_refines d c u data h L Hd Hrel Hu Hs Hsz))
    as ([ret d'] & h' & E & Hret & Hd'). simpl in *. subst ret. by exists d', h'.
Qed.

(** C2: end to end: while allocations succeed and the bytes written in all are
    at most [alloc_max], after any writes, reading from the beginning with any
    buffer size until the driver answers 0 takes finitely many calls and
    delivers exactly the concatenation of the last ten completed lines, each
    of which ends the device with a newline inside it; the partial line is
    not visible. *)
Theorem written_lines_are_read from ws d c u count h L :
  (forall w, user_ok (from w) /\ supplies (from w) w) -> reliable ->
  dev_holds h d c L -> contents_wf c ->
  Z.of_nat (length (partial c)) + Z.of_nat (length (concat ws)) <= alloc_max ->
  writable u -> 0 < count ->
  let c' := foldl (fun c w => spec_write w c) c ws in
  contents_wf c' /\
  exists d' h', write_all from d ws h = Done d' h' /\
    forall n, total (lines c') < Z.of_nat n ->
      read_to_end n d' u count 0 h' = Done (Some (text c')) h'.
Proof.
  intros Hfrom Hrel Hd Hwf Hsz Hw Hcount c'. split; [by apply spec_writes_wf|].
  destruct (wp_done _ _ _ (wp_write_all from ws d c h L Hfrom Hrel Hd Hsz)) as (d' & h' & E & Hd').
  exists d', h'. split; [done|]. intros n Hn. pose proof (total_nonneg (lines c')).
  by rewrite (read_to_end_text n d' c' u count 0 h' L Hd' Hw Hcount) by lia.
Qed.

(** C3: from a loaded driver, whatever the allocator, the user buffers and
    the interleaving of calls on any number of open files, no call has
    undefined behaviour, and unloading afterwards frees all the driver's
    memory: the heap is exactly what it was before loading. *)
Theorem driver_memory_safe d r p cs h L :
  dev_models d r p -> holds h (dev_chunks d r p ++ L) -> Forall call_ok cs ->
  exists s' h', run (Sys d []) cs h = Done s' h' /\
    exists m h'', aesd_cleanup_module (Module_state true true (device s')) h' = Done m h'' /\
      holds h'' L.
Proof.
  intros Hd Hh Hcs. assert (sys_inv (Sys d []) h L) as Hinv by (split; [by exists r, p|done]).
  destruct (wp_done _ _ _ (wp_run _ _ _ _ Hinv Hcs)) as (s' & h' & E & (r' & p' & Hd' & Hh') & _).
  exists s', h'. split; [done|].
  destruct (wp_done _ _ _ (wp_cleanup_module _ _ _ true true _ _ Hd' Hh')) as (m & h'' & E' & Hh'' & _).
  by exists m, h''.
Qed.

(** C33: a write that returns an error leaves the lines, the partial line and
    all other memory as they were. *)
Theorem write_error_unchanged d c u count h L :
  dev_holds h d c L -> user_ok u -> 0 <= count < 2 ^ 63 ->
  exists ret d' h', aesd_write d u count h = Done (ret, d') h' /\
    (ret < 0 -> (ret = - ENOMEM \/ ret = - EFAULT) /\ dev_holds h' d' c L) /\
    (0 <= ret -> ret = count).
Proof.
  intros (r & p & Hd & Hlay & Hflag & Hp & Hh) Hu Hc.
  destruct (wp_done _ _ _ (wp_aesd_write _ _ _ _ _ _ _ Hd Hu (proj1 Hc) Hh))
    as ([ret d'] & h' & E & r' & p' & Hspec & Hd' & _ & _ & Hh').
  exists ret, d', h'. split; [done|]. simpl in Hspec.
  assert (r' = r -> p' = p -> dev_holds h' d' c L) as Hsame.
  { intros -> ->. by exists r, p. }
  inversion Hspec; subst; rewrite ?s64_small by lia;
    (split; [intros Hneg|intros Hpos]); auto; unfold ENOMEM, EFAULT in *; lia.
Qed.

(** C26: one read inside the text delivers at least one and at most [count]
    bytes, the next ones in order, and advances the position by their
    number; at the end of the text it returns 0 and delivers nothing. *)
Theorem read_sequential d c u count f_pos h L :
  dev_holds h d c L -> writable u -> 0 < count -> 0 <= f_pos < 2 ^ 63 ->
  exists n data, aesd_read d u count f_pos h = Done (n, f_pos + n, data) h /\
    Z.of_nat (length data) = n /\ n <= count /\ (n = 0 <-> total (lines c) <= f_pos) /\
    data = take (Z.to_nat n) (drop (Z.to_nat f_pos) (text c)).
Proof.
  intros Hd Hw Hc Hf. pose proof (dev_holds_total _ _ _ _ Hd) as Htot.
  rewrite (dev_holds_read d c u count f_pos h L Hd) by lia.
  destruct (decide (total (lines c) <= f_pos)) as [Hend|Hin].
  - exists 0, []. unfold read_result. rewrite u64_loff by lia.
    rewrite (proj2 (locate_None _ f_pos ltac:(lia)) Hend), Z.add_0_r. split_and!; [done|done|lia|done|done].
  - destruct (read_result_progress u (lines c) count f_pos Hw Hc ltac:(lia) ltac:(lia))
      as (n & data & -> & Hn & Hle & _ & Hlen & Hdrop).
    exists n, data. split_and!; [done|done|lia|lia|]. unfold text. rewrite Hdrop.
    rewrite take_app_length'; [done|lia].
Qed.

(** When the user buffer cannot be written, a read inside the text
    returns [-EFAULT] and leaves the position where it was. *)
Theorem read_fault_keeps_position d c u count f_pos h L :
  dev_holds h d c L -> user_ok u -> (forall n, 0 < n -> 0 < user_store u n) ->
  0 < count -> 0 <= f_pos < total (lines c) ->
  exists data, aesd_read d u count f_pos h = Done (- EFAULT, f_pos, data) h.
Proof.
  intros Hd Hu Hbad Hc Hf. pose proof (dev_holds_total _ _ _ _ Hd) as Htot.
  rewrite (dev_holds_read d c u count f_pos h L Hd) by lia.
  unfold read_result. rewrite u64_loff by lia.
  destruct (locate _ f_pos) as [[j o]|] eqn:El; [|apply locate_None in El; lia].
  destruct (locate_Some _ f_pos j o ltac:(lia) El) as (bs & -> & Ho & _). simpl default.
  specialize (Hbad (Z.min count (Z.of_nat (length bs) - o)) ltac:(lia)).
  zdec. by eexists.
Qed.

(** [aesd_llseek] inside the range of [loff_t]: [SEEK_SET] and [SEEK_CUR]
    set the position or refuse a negative one with [-EINVAL] and no change,
    [SEEK_END] counts from the end of the text, and any other [whence] only
    reports the position. *)
Theorem llseek_positions d c f_pos offset whence h L :
  dev_holds h d c L -> 0 <= f_pos < 2 ^ 62 -> - 2 ^ 62 <= offset < 2 ^ 62 ->
  aesd_llseek d f_pos offset whence h =
  Done (if whence =? SEEK_SET then
          if offset <? 0 then (- EINVAL, f_pos) else (offset, offset)
        else if whence =? SEEK_CUR then
          if f_pos + offset <? 0 then (- EINVAL, f_pos) else (f_pos + offset, f_pos + offset)
        else if whence =? SEEK_END then
          (Z.of_nat (length (text c)) + offset, Z.of_nat (length (text c)) + offset)
        else (f_pos, f_pos)) h.
Proof.
  intros Hd Hf Ho. pose proof (dev_holds_total _ _ _ _ Hd) as Htot.
  destruct Hd as (r & p & Hd & Hlay & _ & _ & Hh).
  rewrite (aesd_llseek_exact _ _ _ _ _ _ _ _ Hd Hh).
  rewrite (circ_size_total _ _ _ _ _ (dm_circ _ _ _ Hd) Hlay (dev_circ_holds _ _ _ _ _ Hh)).
  unfold llseek_result. fold (total (lines c)). unfold text. fold (total (lines c)).
  rewrite !s64_small by lia. by repeat case_match.
Qed.

(** [SEEK_END] with an offset before the beginning is accepted: the call
    returns a negative number, which its caller takes for an error, but the
    position has moved there, and the next read delivers nothing. *)
Theorem seek_end_accepts_negative d c f_pos offset u count h L :
  dev_holds h d c L -> - 2 ^ 62 <= offset < - total (lines c) -> 0 <= count ->
  exists pos, aesd_llseek d f_pos offset SEEK_END h = Done (pos, pos) h /\ pos < 0 /\
    aesd_read d u count pos h = Done (0, pos, []) h.
Proof.
  intros Hd Ho Hc. pose proof (dev_holds_total _ _ _ _ Hd) as Htot.
  destruct Hd as (r & p & Hd & Hlay & _ & _ & Hh). exists (total (lines c) + offset).
  rewrite (aesd_llseek_exact _ _ _ _ _ _ _ _ Hd Hh).
  rewrite (circ_size_total _ _ _ _ _ (dm_circ _ _ _ Hd) Hlay (dev_circ_holds _ _ _ _ _ Hh)).
  split_and!.
  - unfold llseek_result. simpl. by rewrite s64_small by lia.
  - lia.
  - rewrite (aesd_read_exact _ _ _ _ _ _ _ _ Hd Hh) by lia. unfold read_result.
    rewrite (layout_queue_of _ _ Hlay), (proj2 (locate_None _ _ (proj1 (u64_range _)))); [done|].
    unfold u64. Z.to_euclidean_division_equations. lia.
Qed.

(** C27: the seek ioctl, while the oldest line is in slot 0: a request inside
    a line moves the position to that byte, and a read from there delivers
    the line from that byte on. *)
Theorem ioctl_seek_then_read d r p q (cmd : nat) off bs arg f_pos u count h L :
  dev_models d r p -> layout r q -> r_out r = 0%nat -> holds h (dev_chunks d r p ++ L) ->
  q !! cmd = Some bs -> 0 <= off < Z.of_nat (length bs) -> off < 2 ^ 32 ->
  user_fetch arg sizeof_seekto = (seekto_encode (Seekto (Z.of_nat cmd) off), 0) ->
  writable u -> 0 < count ->
  exists pos, aesd_ioctl d AESDCHAR_IOCSEEKTO arg f_pos h = Done (0, pos) h /\
    pos = total (take cmd q) + off /\
    let n := Z.min count (Z.of_nat (length bs) - off) in
    aesd_read d u count pos h =
      Done (n, pos + n, take (Z.to_nat n) (drop (Z.to_nat off) bs)) h.
Proof.
  intros Hd Hlay Hout Hh Hc Ho H32 Hf Hw Hcount. exists (total (take cmd q) + off).
  pose proof (lookup_lt_Some _ _ _ Hc). pose proof (lay_len _ _ Hlay).
  pose proof (dev_total_bound _ _ _ _ _ Hd Hh) as Htot. rewrite (layout_queue_of _ _ Hlay) in Htot.
  pose proof (total_take_le q (S cmd)) as Hle. rewrite (total_take_S _ _ _ Hc) in Hle.
  pose proof (total_nonneg (take cmd q)).
  assert (slots r !! cmd = Some (Some bs)) as Hslot.
  { rewrite <- Hc, <- (lay_at _ _ Hlay) by lia. by rewrite Hout, Nat.mod_small by lia. }
  split_and!; [|done|].
  - rewrite (aesd_ioctl_seekto _ _ _ _ _ _ _ _ Hd Hh Hf), seekto_decode_encode. simpl.
    rewrite !u32_small by lia. unfold seekto_result. simpl. rewrite Nat2Z.id, Hslot. simpl.
    zdec.
    unfold seek_position. rewrite (layout_queue_of _ _ Hlay), Hc.
    by zdec.
  - intros n. rewrite (aesd_read_exact _ _ _ _ _ _ _ _ Hd Hh) by lia. unfold read_result.
    rewrite u64_loff, (layout_queue_of _ _ Hlay), (locate_at _ _ _ _ Hc Ho), Hc by lia.
    simpl default. by rewrite Hw.
Qed.

(** C36: in general the range check of the seek ioctl looks at the slot
    numbered [write_cmd], not at the line of that number.  A request inside
    the line is refused when that slot holds a shorter one; a request
    outside the line succeeds when the slot holds a longer one, and then the
    position becomes 0. *)
Theorem ioctl_checks_wrong_entry d r p q (cmd : nat) off bs arg f_pos h L :
  dev_models d r p -> layout r q -> holds h (dev_chunks d r p ++ L) ->
  q !! cmd = Some bs -> 0 <= off < 2 ^ 32 ->
  user_fetch arg sizeof_seekto = (seekto_encode (Seekto (Z.of_nat cmd) off), 0) ->
  let size := Z.of_nat (slot_len (default None (slots r !! cmd))) in
  (off < Z.of_nat (length bs) -> size <= off ->
     aesd_ioctl d AESDCHAR_IOCSEEKTO arg f_pos h = Done (- EINVAL, f_pos) h) /\
  (Z.of_nat (length bs) <= off -> off < size ->
     aesd_ioctl d AESDCHAR_IOCSEEKTO arg f_pos h = Done (0, 0) h).
Proof.
  intros Hd Hlay Hh Hc Ho Hf size. pose proof (lookup_lt_Some _ _ _ Hc). pose proof (lay_len _ _ Hlay).
  rewrite (aesd_ioctl_seekto _ _ _ _ _ _ _ _ Hd Hh Hf), seekto_decode_encode. simpl.
  rewrite !u32_small by lia. unfold seekto_result. simpl. rewrite Nat2Z.id. fold size.
  zdec. unfold seek_position.
  rewrite (layout_queue_of _ _ Hlay), Hc. split; intros Hlen1 Hlen2.
  - by zdec.
  - zdec. by zdec.
Qed.

(** Any other ioctl number is refused with [-EINVAL], whatever its
    argument, and so is a seek whose argument names an entry past the
    tenth; a seek whose argument cannot be read is [-EFAULT].  None of them
    moves the position. *)
Theorem ioctl_refusals d r p cmd arg f_pos h L :
  dev_models d r p -> holds h (dev_chunks d r p ++ L) ->
  (cmd <> AESDCHAR_IOCSEEKTO -> aesd_ioctl d cmd arg f_pos h = Done (- EINVAL, f_pos) h) /\
  ((user_fetch arg sizeof_seekto).2 <> 0 ->
     aesd_ioctl d AESDCHAR_IOCSEEKTO arg f_pos h = Done (- EFAULT, f_pos) h) /\
  (forall bs, user_fetch arg sizeof_seekto = (bs, 0) -> 10 <= write_cmd (seekto_decode bs) ->
     aesd_ioctl d AESDCHAR_IOCSEEKTO arg f_pos h = Done (- EINVAL, f_pos) h).
Proof.
  intros Hd Hh. split_and!.
  - apply aesd_ioctl_other.
  - intros Hne. unfold aesd_ioctl. change (IOC_TYPE AESDCHAR_IOCSEEKTO =? AESD_IOC_MAGIC) with true.
    change (AESDCHAR_IOC_MAXNR <? IOC_NR AESDCHAR_IOCSEEKTO) with false.
    rewrite Z.eqb_refl. cbn [negb]. by rewrite (proj2 (Z.eqb_neq _ _) Hne).
  - intros bs Hf Hbig. rewrite (aesd_ioctl_seekto _ _ _ _ _ _ _ _ Hd Hh Hf).
    unfold seekto_result. by rewrite (proj2 (Z.leb_le _ _) Hbig).
Qed.

(** C34: loading: a refused region is reported and nothing is allocated; a
    failed allocation is [-ENOMEM] but leaves the region registered, and the
    first structure allocated when the second fails; a failed [cdev_add]
    leaves both structures allocated; otherwise the device is empty, alive
    and ready. *)
Theorem init_outcomes region add h L :
  region <= 0 -> add <= 0 -> holds h L ->
  exists ret m h', aesd_init_module region add h = Done (ret, m) h' /\
    let d := aesd_device m in
    if region <? 0 then ret = region /\ region_held m = false /\ holds h' L
    else
      (ret = - ENOMEM /\ region_held m = true /\ holds h' L) \/
      (ret = - ENOMEM /\ region_held m = true /\ holds h' (own (bufferCircular d) circ_block ++ L)) \/
      (ret = add /\ region_held m = (add =? 0) /\ cdev_live m = (add =? 0) /\
       dev_holds h' d no_contents L).
Proof.
  intros Hr Ha Hh. destruct (wp_done _ _ _ (wp_init _ _ _ _ Hr Ha Hh)) as ([ret m] & h' & E & Hpost).
  exists ret, m, h'. split; [done|]. simpl in *. destruct (region <? 0).
  - destruct Hpost as [? ?]. by simplify_eq.
  - destruct Hpost as [[? ?]|[(? & ? & _ & ?)|(? & ? & ? & Hd & Hh')]].
    + left. by simplify_eq.
    + right. left. by split_and!.
    + right. right. split_and!; [done..|]. exists ring_empty, None.
      split_and!; [done|apply ring_empty_layout|done..].
Qed.
End properties.

(** The argument of the seek ioctl survives its encoding up to the 32 bits
    of its fields. *)
Theorem seekto_roundtrip s :
  seekto_decode (seekto_encode s) = Seekto (u32 (write_cmd s)) (u32 (write_cmd_offset s)).
Proof. apply seekto_decode_encode. Qed.

(** ** Failures that the code does not report *)

(** The copy of a complete line into the buffer fails. *)
Definition fails_at_4 : Allocator := kmalloc_failing (Pos.eqb 4).

(** When the copy of a line cannot be allocated, [aesd_write] still
    returns [count]; the line is in no buffer and no reader sees it. *)
Theorem write_loses_line_silently :
  exists d' h',
    @aesd_write fails_at_4 loaded_dev (user_bytes short_line) 3 loaded_heap = Done (3, d') h' /\
    d' = loaded_dev /\ blocks h' = blocks loaded_heap /\
    aesd_read d' (user_bytes []) 100 0 h' = Done (0, 0, []) h'.
Proof. do 2 eexists. split_and!; [vm_compute; reflexivity|reflexivity..]. Qed.

Definition fails_at_2 : Allocator := kmalloc_failing (Pos.eqb 2).

(** Two failures of loading that leave something behind for good: after a
    failed second allocation the region stays registered and the first
    structure allocated; after a failed [cdev_add] both structures are. *)
Theorem init_failure_leaks :
  (exists m h', @aesd_init_module fails_at_2 0 0 empty_heap = Done (- ENOMEM, m) h' /\
     region_held m = true /\ blocks h' !! 1%positive = Some circ_block) /\
  (exists m h', @aesd_init_module kmalloc 0 (- 12) empty_heap = Done (- 12, m) h' /\
     region_held m = false /\ blocks h' !! 1%positive = Some circ_block /\
     blocks h' !! 2%positive = Some tmp_block).
Proof. split; do 2 eexists; (split; [vm_compute; reflexivity|]); by split_and!. Qed.

(** ** Witnesses *)

Lemma write_implements_spec_witness :
  exists d' h',
    @aesd_write kmalloc loaded_dev (user_bytes short_line) 3 loaded_heap = Done (3, d') h' /\
    @dev_holds kmalloc h' d' (Contents [short_line] []) [].
Proof.
  exact (@write_implements_spec kmalloc loaded_dev no_contents (user_bytes short_line) short_line
           loaded_heap [] loaded_holds kmalloc_reliable (user_bytes_ok _) (user_bytes_supplies _) ltac:(done)).
Defined.

Lemma written_lines_are_read_witness :
  contents_wf (Contents [short_line; long_line] (bytes "z")) /\
  exists d' h',
    @write_all kmalloc user_bytes loaded_dev [bytes "a"; bytes "b" ++ nl; long_line; bytes "z"] loaded_heap =
      Done d' h' /\
    forall n, 10 < Z.of_nat n ->
      read_to_end n d' (user_bytes []) 4 0 h' = Done (Some (short_line ++ long_line)) h'.
Proof.
  refine (@written_lines_are_read kmalloc user_bytes [bytes "a"; bytes "b" ++ nl; long_line; bytes "z"]
           loaded_dev no_contents (user_bytes []) 4 loaded_heap [] _ kmalloc_reliable loaded_holds _ _ _ _).
  - intros w. exact (conj (user_bytes_ok w) (user_bytes_supplies w)).
  - split; [simpl; lia|]. split; [constructor|reflexivity].
  - vm_compute. discriminate.
  - exact (user_bytes_writable []).
  - reflexivity.
Defined.

(** A session with two files, a failing user buffer and a failing allocator. *)
Definition session : list call :=
  [COpen; COpen; CWrite 0 (user_bytes short_line) 3; CWrite 1 user_bad 9; CSeek 1 1 SEEK_SET;
   CIoctl 0 AESDCHAR_IOCSEEKTO (user_bytes (seekto_encode (Seekto 0 1))); CRead 1 (user_bytes []) 10;
   CClose 1; CRead 1 (user_bytes []) 10].

Lemma driver_memory_safe_witness :
  exists s' h', @run fails_at_4 (Sys loaded_dev []) session loaded_heap = Done s' h' /\
    exists m h'', aesd_cleanup_module (Module_state true true (device s')) h' = Done m h'' /\
      @holds fails_at_4 h'' [].
Proof.
  apply (@driver_memory_safe fails_at_4 loaded_dev ring_empty None session loaded_heap []).
  - exact (proj1 loaded_models).
  - exact (proj2 loaded_models).
  - repeat (constructor; [first [exact I | exact (user_bytes_ok _)
      | split; [first [exact (user_bytes_ok _) | exact user_bad_ok]|lia] | simpl; lia]|]). constructor.
Defined.

Lemma write_error_unchanged_witness :
  exists ret d' h', @aesd_write kmalloc loaded_dev user_bad 5 loaded_heap = Done (ret, d') h' /\
    (ret < 0 -> (ret = - ENOMEM \/ ret = - EFAULT) /\ @dev_holds kmalloc h' d' no_contents []) /\
    (0 <= ret -> ret = 5).
Proof.
  exact (@write_error_unchanged kmalloc loaded_dev no_contents user_bad 5 loaded_heap []
           loaded_holds user_bad_ok ltac:(lia)).
Defined.

(** The wrapped driver as an abstract device. *)
Lemma wrapped_dev_holds : @dev_holds kmalloc wrapped_heap wrapped_dev (Contents wrapped_lines []) [].
Proof.
  exists wrapped_ring, None.
  split_and!; [exact wrapped_models|exact wrapped_layout|done|done|exact wrapped_holds].
Qed.

Lemma wrapped_reached :
  @write_all kmalloc user_bytes loaded_dev (replicate 10 short_line ++ [long_line]) loaded_heap =
  Done wrapped_dev wrapped_heap.
Proof. vm_compute. reflexivity. Qed.

Lemma read_sequential_witness :
  exists n data, aesd_read wrapped_dev (user_bytes []) 2 28 wrapped_heap = Done (n, 28 + n, data) wrapped_heap /\
    Z.of_nat (length data) = n /\ n <= 2 /\ (n = 0 <-> total wrapped_lines <= 28) /\
    data = take (Z.to_nat n) (drop 28 (text (Contents wrapped_lines []))).
Proof.
  exact (@read_sequential kmalloc wrapped_dev (Contents wrapped_lines []) (user_bytes []) 2 28
           wrapped_heap [] wrapped_dev_holds (user_bytes_writable []) ltac:(lia) ltac:(lia)).
Defined.

Lemma read_fault_keeps_position_witness :
  exists data, aesd_read wrapped_dev user_bad 4 1 wrapped_heap = Done (- EFAULT, 1, data) wrapped_heap.
Proof.
  exact (@read_fault_keeps_position kmalloc wrapped_dev (Contents wrapped_lines []) user_bad 4 1
           wrapped_heap [] wrapped_dev_holds user_bad_ok ltac:(done) ltac:(lia) ltac:(by vm_compute)).
Defined.

Lemma llseek_positions_witness :
  aesd_llseek wrapped_dev 5 (- 3) SEEK_END wrapped_heap = Done (31, 31) wrapped_heap.
Proof.
  exact (@llseek_positions kmalloc wrapped_dev (Contents wrapped_lines []) 5 (- 3) SEEK_END
           wrapped_heap [] wrapped_dev_holds ltac:(lia) ltac:(lia)).
Defined.

Lemma seek_end_accepts_negative_witness :
  exists pos, aesd_llseek wrapped_dev 5 (- 40) SEEK_END wrapped_heap = Done (pos, pos) wrapped_heap /\ pos < 0 /\
    aesd_read wrapped_dev (user_bytes []) 4 pos wrapped_heap = Done (0, pos, []) wrapped_heap.
Proof.
  exact (@seek_end_accepts_negative kmalloc wrapped_dev (Contents wrapped_lines []) 5 (- 40)
           (user_bytes []) 4 wrapped_heap [] wrapped_dev_holds ltac:(by vm_compute) ltac:(lia)).
Defined.

(** The device after one line, whose oldest line is in slot 0. *)
Definition one_line_dev : aesd_dev :=
  Dev (Ptr 2) (Temporary NULL 0) (Ptr 1)
    (Circular (<[0%nat := Entry (Ptr 4) 3]> (replicate 10 null_entry)) 1 0 false 3).
Definition one_line_ring : ring := Ring (<[0%nat := Some short_line]> (replicate 10 None)) 1 0 false.
Definition one_line_heap : heap :=
  heap_of [(1%positive, circ_block); (2%positive, tmp_block); (4%positive, Some <$> short_line)] 5.

Lemma one_line_reached :
  @write_all kmalloc user_bytes loaded_dev [short_line] loaded_heap = Done one_line_dev one_line_heap.
Proof. vm_compute. reflexivity. Qed.

Lemma one_line_layout : layout one_line_ring [short_line].
Proof. exact (ring_add_layout true short_line ring_empty [] ring_empty_layout ltac:(done)). Qed.

Lemma one_line_models : dev_models one_line_dev one_line_ring None.
Proof.
  split; [|eapply layout_ok, one_line_layout|done..].
  split; [|done..]. repeat (constructor; [done|]). constructor.
Qed.

Lemma one_line_holds : @holds kmalloc one_line_heap (dev_chunks one_line_dev one_line_ring None ++ []).
Proof. by apply (heap_of_holds kmalloc). Qed.

Lemma ioctl_seek_then_read_witness :
  exists pos, aesd_ioctl one_line_dev AESDCHAR_IOCSEEKTO (user_bytes (seekto_encode (Seekto 0 1))) 0 one_line_heap =
      Done (0, pos) one_line_heap /\
    pos = 1 /\ aesd_read one_line_dev (user_bytes []) 9 pos one_line_heap =
      Done (2, pos + 2, bytes "b" ++ nl) one_line_heap.
Proof.
  exact (@ioctl_seek_then_read kmalloc one_line_dev one_line_ring None [short_line] 0 1 short_line
           (user_bytes (seekto_encode (Seekto 0 1))) 0 (user_bytes []) 9 one_line_heap []
           one_line_models one_line_layout eq_refl one_line_holds eq_refl
           ltac:(by vm_compute) ltac:(lia) eq_refl (user_bytes_writable []) ltac:(lia)).
Defined.

Lemma ioctl_checks_wrong_entry_witness :
  aesd_ioctl wrapped_dev AESDCHAR_IOCSEEKTO (user_bytes (seekto_encode (Seekto 9 4))) 2 wrapped_heap =
    Done (- EINVAL, 2) wrapped_heap /\
  aesd_ioctl wrapped_dev AESDCHAR_IOCSEEKTO (user_bytes (seekto_encode (Seekto 0 5))) 2 wrapped_heap =
    Done (0, 0) wrapped_heap.
Proof.
  split.
  - apply (@ioctl_checks_wrong_entry kmalloc wrapped_dev wrapped_ring None wrapped_lines 9 4 long_line
      (user_bytes (seekto_encode (Seekto 9 4))) 2 wrapped_heap [] wrapped_models wrapped_layout wrapped_holds
      eq_refl ltac:(lia) eq_refl); by vm_compute.
  - apply (@ioctl_checks_wrong_entry kmalloc wrapped_dev wrapped_ring None wrapped_lines 0 5 short_line
      (user_bytes (seekto_encode (Seekto 0 5))) 2 wrapped_heap [] wrapped_models wrapped_layout wrapped_holds
      eq_refl ltac:(lia) eq_refl); by vm_compute.
Defined.

Lemma ioctl_refusals_witness :
  aesd_ioctl wrapped_dev 7 user_bad 3 wrapped_heap = Done (- EINVAL, 3) wrapped_heap /\
  aesd_ioctl wrapped_dev AESDCHAR_IOCSEEKTO user_bad 3 wrapped_heap = Done (- EFAULT, 3) wrapped_heap.
Proof.
  split.
  - apply (@ioctl_refusals kmalloc wrapped_dev wrapped_ring None 7 user_bad 3 wrapped_heap []
             wrapped_models wrapped_holds). by vm_compute.
  - apply (@ioctl_refusals kmalloc wrapped_dev wrapped_ring None 7 user_bad 3 wrapped_heap []
             wrapped_models wrapped_holds). by vm_compute.
Defined.

Lemma init_outcomes_witness :
  exists ret m h', @aesd_init_module kmalloc 0 0 empty_heap = Done (ret, m) h' /\
    let d := aesd_device m in
    (ret = - ENOMEM /\ region_held m = true /\ @holds kmalloc h' []) \/
    (ret = - ENOMEM /\ region_held m = true /\ @holds kmalloc h' (own (bufferCircular d) circ_block ++ [])) \/
    (ret = 0 /\ region_held m = true /\ cdev_live m = true /\ @dev_holds kmalloc h' d no_contents []).
Proof.
  exact (@init_outcomes kmalloc 0 0 empty_heap [] ltac:(lia) ltac:(lia) holds_empty).
Defined.
