(* ===== verification/TempProps.v ===== *)
(** * Properties of the accumulation buffer

    Stated of the server's copy of the file (module [Server]); the driver's
    copy is the same program ([server_add_is_driver_add]). *)

From S2P Require Import Prelude CInt CMem Footprint Common CircularBuffer TemporaryBuffer.
From S2P Require Import Ring CircularFacts CircularSearch CharDevice DeviceFacts WriteFacts SeekFacts.
From S2P Require Import ModuleFacts DeviceSpec Scenario.

(** Adding the blocks [ds], each a pointer and a size, until one is refused. *)
Fixpoint tmp_add_all `{Allocator} (t : aesd_temperary_buffer) (ds : list (ptr * Z))
    : M (bool * aesd_temperary_buffer) :=
  match ds with
  | [] => mret (true, t)
  | (data, size) :: ds' =>
      added ← Server.aesd_temperary_buffer_add t data size;
      if (added : bool * aesd_temperary_buffer).1 then tmp_add_all added.2 ds' else mret added
  end.

(** What the callers' blocks own. *)
Definition data_chunks (ds : list (ptr * list byte)) : list chunk :=
  concat (map (fun d => own d.1 (Some <$> d.2)) ds).

Section accumulate.
Context `{Allocator}.

Lemma wp_tmp_add_all ds t p h L :
  tmp_models t p -> Forall (fun d => own_ok d.1 (Some <$> d.2)) ds -> reliable ->
  Z.of_nat (length (default [] p)) + total (snd <$> ds) <= alloc_max ->
  holds h (tmp_chunks t p ++ data_chunks ds ++ L) ->
  wp (tmp_add_all t (map (fun d => (d.1, Z.of_nat (length d.2))) ds))
     (fun res h' => exists p', res.1 = true /\ tmp_models res.2 p' /\
        default [] p' = default [] p ++ concat (snd <$> ds) /\
        holds h' (tmp_chunks res.2 p' ++ data_chunks ds ++ L)) h.
Proof.
  revert t p h L. induction ds as [|[data bs] ds IH]; intros t p h L Ht Hds Hrel Hsz Hh; simpl.
  - apply wp_ret. exists p. by rewrite app_nil_r.
  - apply Forall_cons in Hds as [Hd Hds]. unfold data_chunks in Hh. simpl in Hh.
    rewrite <- app_assoc in Hh. rewrite fmap_cons in Hsz. unfold total in *. simpl in Hsz.
    rewrite length_app in Hsz. apply wp_bind. eapply wp_mono; [by apply wp_tmp_add|].
    intros [ok t'] h1. simpl. rewrite (tmp_models_pending _ _ Ht), (reliable_serves _ _ Hrel) by lia.
    intros (-> & Ht' & Hh'). eapply wp_mono.
    { apply (IH t' _ h1 (own data (Some <$> bs) ++ L) Ht' Hds Hrel).
      - simpl. rewrite length_app. unfold total. lia.
      - unfold data_chunks. holds_perm Hh'. }
    intros res h2 (p' & ? & ? & Heq & Hh2). exists p'. simpl in Heq.
    split_and!; [done|done|by rewrite Heq, <- app_assoc|].
    unfold data_chunks in *. simpl. holds_perm Hh2.
Qed.
End accumulate.

Section properties.
Context `{Allocator}.

(** A size of [(size_t) -1] wraps around: with pending bytes the new block is
    one byte too small, and the copy of the pending bytes runs past its end. *)
Lemma tmp_add_wraps t bs data h L :
  tmp_models t (Some bs) -> bs <> [] -> holds h (tmp_chunks t (Some bs) ++ L) ->
  alloc_serves (next h) (Z.of_nat (length bs) - 1) = true ->
  Server.aesd_temperary_buffer_add t data (u64 (- 1)) h = Stuck OutOfBounds.
Proof.
  intros Ht Hne Hh Hserve. pose proof (tmp_models_null _ _ Ht) as Hnull.
  rewrite bool_decide_eq_false_2 in Hnull by done. destruct Ht as [Hsz Hok].
  pose proof (holds_block_max _ (tmp_buffptr t) _ _ Hh Hok) as Hmax. rewrite length_fmap in Hmax.
  pose proof alloc_max_addressable. assert (0 < Z.of_nat (length bs)) by (destruct bs; simpl; [done|lia]).
  unfold Server.aesd_temperary_buffer_add. rewrite Hnull, Hsz.
  rewrite u64_add_r, u64_small by lia.
  replace (Z.of_nat (length bs) + - 1) with (Z.of_nat (length bs) - 1) by lia.
  destruct (wp_done _ _ _ (wp_alloc _ (Z.of_nat (length bs) - 1) _ Hh ltac:(lia))) as (q & h1 & E & Hh1 & Hq).
  rewrite (bind_done _ _ _ _ _ E), (alloc_serves_not_null _ _ _ _ Hq), Hserve. cbn [negb].
  rewrite Hserve in Hq. apply bind_stuck. unfold memcpy.
  destruct (wp_done _ _ _ (wp_load_bytes h1 (tmp_buffptr t) (Some <$> bs) 0 (Z.of_nat (length bs))
     (own q (replicate (Z.to_nat (Z.of_nat (length bs) - 1)) None) ++ L)
     ltac:(holds_perm Hh1) Hok ltac:(lia) ltac:(lia) ltac:(lia_len)))
    as (cs & h2 & E2 & -> & ->).
  rewrite (bind_done _ _ _ _ _ E2). unfold store_bytes.
  rewrite (bind_done _ _ _ _ _ (get_block_own _ _ _ _ Hh1 Hq)).
  unfold in_bounds. rewrite length_take, length_drop, length_fmap, length_replicate.
  rewrite (proj2 (Z.leb_gt _ (Z.of_nat (Z.to_nat _)))) by lia. by rewrite andb_false_r.
Qed.

(** With memory available, adding any blocks one after the other leaves
    the buffer with its old bytes followed by all of theirs, in one block of
    exactly that size; the blocks added are unchanged and every earlier
    version of the buffer has been freed. *)
Theorem tmp_accumulates ds t p h L :
  tmp_models t p -> Forall (fun d => own_ok d.1 (Some <$> d.2)) ds -> reliable ->
  Z.of_nat (length (default [] p)) + total (snd <$> ds) <= alloc_max ->
  holds h (tmp_chunks t p ++ data_chunks ds ++ L) ->
  exists t' p' h',
    tmp_add_all t (map (fun d => (d.1, Z.of_nat (length d.2))) ds) h = Done (true, t') h' /\
    tmp_models t' p' /\ default [] p' = default [] p ++ concat (snd <$> ds) /\
    holds h' (tmp_chunks t' p' ++ data_chunks ds ++ L).
Proof.
  intros Ht Hds Hrel Hsz Hh.
  destruct (wp_done _ _ _ (wp_tmp_add_all _ _ _ _ _ Ht Hds Hrel Hsz Hh))
    as ([ok t'] & h' & E & p' & Hok & Ht' & Heq & Hh'). simpl in *. subst ok.
  by exists t', p', h'.
Qed.

(** One call never faults, whatever the allocator answers: it returns
    [true] and appends exactly when its request is served; otherwise it
    returns [false] and buffer and heap contents are as before. *)
Theorem tmp_add_outcomes t p data bs h L :
  tmp_models t p -> own_ok data (Some <$> bs) ->
  holds h (tmp_chunks t p ++ own data (Some <$> bs) ++ L) ->
  exists ok t' h',
    Server.aesd_temperary_buffer_add t data (Z.of_nat (length bs)) h = Done (ok, t') h' /\
    ok = alloc_serves (next h) (tmp_size t + Z.of_nat (length bs)) /\
    let p' := if ok then Some (default [] p ++ bs) else p in
    tmp_models t' p' /\ holds h' (tmp_chunks t' p' ++ own data (Some <$> bs) ++ L).
Proof.
  intros Ht Hd Hh. destruct (wp_done _ _ _ (wp_tmp_add _ _ _ _ _ _ Ht Hd Hh))
    as ([ok t'] & h' & E & Hok & Ht' & Hh'). simpl in *. exists ok, t', h'. rewrite <- Hok in *.
  by split_and!.
Qed.

(** [clean] and [delete] free the bytes, and a second call is harmless. *)
Theorem tmp_clean_twice t p h L :
  tmp_models t p -> holds h (tmp_chunks t p ++ L) ->
  exists h',
    (t1 ← Server.aesd_temperary_buffer_clean t; Server.aesd_temperary_buffer_delete t1) h =
      Done (Temporary NULL 0) h' /\
    Server.aesd_temperary_buffer_is_empty (Temporary NULL 0) = true /\ holds h' L.
Proof.
  intros Ht Hh. destruct (wp_done _ _ _ (wp_tmp_release _ _ _ _ Ht Hh)) as (t' & h' & E & -> & Hh' & _).
  exists h'. split_and!; [|done|done]. by erewrite bind_done by exact E.
Qed.

End properties.

(** ** Witnesses *)

(** Two received pieces, [ab] in block 1 and [c\n] in block 2. *)
Definition two_pieces : list (ptr * list byte) := [(Ptr 1, bytes "ab"); (Ptr 2, bytes "c" ++ nl)].
Definition two_pieces_heap : heap :=
  heap_of [(1%positive, Some <$> bytes "ab"); (2%positive, Some <$> (bytes "c" ++ nl))] 3.

Lemma two_pieces_holds :
  @holds malloc two_pieces_heap (tmp_chunks (Temporary NULL 0) None ++ data_chunks two_pieces ++ []).
Proof. by apply (heap_of_holds malloc). Qed.

Lemma tmp_accumulates_witness :
  exists t' p' h',
    @tmp_add_all malloc (Temporary NULL 0) [(Ptr 1, 2); (Ptr 2, 2)] two_pieces_heap = Done (true, t') h' /\
    tmp_models t' p' /\ default [] p' = bytes "abc" ++ nl /\
    @holds malloc h' (tmp_chunks t' p' ++ data_chunks two_pieces ++ []).
Proof.
  exact (@tmp_accumulates malloc two_pieces (Temporary NULL 0) None two_pieces_heap [] eq_refl
           ltac:(by repeat constructor) kmalloc_reliable ltac:(by vm_compute) two_pieces_holds).
Defined.

(** A buffer that holds [ab], with the piece [c\n] in block 2. *)
Lemma pending_ab_holds :
  @holds malloc two_pieces_heap
    (tmp_chunks (Temporary (Ptr 1) 2) (Some (bytes "ab")) ++ own (Ptr 2) (Some <$> (bytes "c" ++ nl)) ++ []).
Proof. by apply (heap_of_holds malloc). Qed.

Lemma tmp_add_outcomes_witness :
  exists ok t' h',
    @Server.aesd_temperary_buffer_add malloc (Temporary (Ptr 1) 2) (Ptr 2) 2 two_pieces_heap =
      Done (ok, t') h' /\
    ok = true /\
    let p' := if ok then Some (bytes "abc" ++ nl) else Some (bytes "ab") in
    tmp_models t' p' /\ @holds malloc h' (tmp_chunks t' p' ++ own (Ptr 2) (Some <$> (bytes "c" ++ nl)) ++ []).
Proof.
  exact (@tmp_add_outcomes malloc (Temporary (Ptr 1) 2) (Some (bytes "ab")) (Ptr 2) (bytes "c" ++ nl)
           two_pieces_heap [] (conj eq_refl I) I pending_ab_holds).
Defined.

Lemma tmp_clean_twice_witness :
  exists h',
    (t1 ← @Server.aesd_temperary_buffer_clean (Temporary (Ptr 1) 2);
     @Server.aesd_temperary_buffer_delete t1) two_pieces_heap = Done (Temporary NULL 0) h' /\
    Server.aesd_temperary_buffer_is_empty (Temporary NULL 0) = true /\
    @holds malloc h' (own (Ptr 2) (Some <$> (bytes "c" ++ nl)) ++ []).
Proof.
  exact (@tmp_clean_twice malloc (Temporary (Ptr 1) 2) (Some (bytes "ab")) two_pieces_heap
           _ (conj eq_refl I) pending_ab_holds).
Defined.
