(* ===== verification/Systemcalls.v ===== *)
(** * [examples/systemcalls/systemcalls.c]: running commands

    The three functions, each with the process structure it has: the child's
    branch up to [execv] or [_exit], and the parent's decision from what
    [waitpid] reports.  What the kernel answers ([fork], [execv], [waitpid],
    [open], [system]) is the class [Kernel]; the descriptor table, which the
    redirection is about, is modelled: a child has a copy of its parent's. *)

From Stdlib.Strings Require Import String.
From S2P Require Import Prelude.

(** ** Processes *)

Inductive ended := Exited (code : Z) | Killed (sig : Z).

(** A command that was started: what it writes to descriptor 1, how it ends. *)
Record program := Program { prog_output : list byte; prog_end : ended }.

(** [<sys/wait.h>] *)
Definition wait_status (e : ended) : Z :=
  match e with
  | Exited code => Z.shiftl (Z.land code 0xff) 8
  | Killed sig => Z.land sig 0x7f
  end.
Definition WIFEXITED (status : Z) : bool := Z.land status 0x7f =? 0.
Definition WEXITSTATUS (status : Z) : Z := Z.shiftr (Z.land status 0xff00) 8.

(** A signal that can end a process. *)
Definition ended_ok (e : ended) : Prop :=
  match e with Exited _ => True | Killed sig => 1 <= sig < 0x7f end.

(** ** Descriptors and files *)

Inductive target := Terminal | File (path : string).

Record proc_world := Proc_world {
  fds : gmap Z target;
  file_data : gmap string (list byte);
  terminal : list byte
}.

(** The lowest descriptor that is not open. *)
Definition lowest_fd (m : gmap Z target) : Z :=
  default 0 (head (filter (fun i => m !! i = None) (seqZ 0 (Z.of_nat (S (size m)))))).

Definition set_fds (w : proc_world) (m : gmap Z target) : proc_world :=
  Proc_world m (file_data w) (terminal w).

(** [open(path, O_WRONLY|O_TRUNC|O_CREAT, 0644)], when it succeeds. *)
Definition open_trunc (w : proc_world) (path : string) : Z * proc_world :=
  let fd := lowest_fd (fds w) in
  (fd, Proc_world (<[fd := File path]> (fds w)) (<[path := []]> (file_data w)) (terminal w)).

(** [dup2]: the result is negative when [fd] is not open. *)
Definition dup2 (w : proc_world) (fd newfd : Z) : Z * proc_world :=
  match fds w !! fd with
  | Some t => (newfd, set_fds w (<[newfd := t]> (fds w)))
  | None => (-1, w)
  end.

Definition close (w : proc_world) (fd : Z) : proc_world := set_fds w (delete fd (fds w)).

(** A program writes [out] to descriptor 1. *)
Definition emit (w : proc_world) (out : list byte) : proc_world :=
  match fds w !! 1 with
  | Some Terminal => Proc_world (fds w) (file_data w) (terminal w ++ out)
  | Some (File p) =>
      Proc_world (fds w) (<[p := default [] (file_data w !! p) ++ out]> (file_data w)) (terminal w)
  | None => w
  end.

(** ** The kernel's answers *)

Class Kernel := {
  fork_fails : bool;
  waitpid_fails : bool;
  open_fails : string -> bool;
  (** [None]: [execv] returns -1. *)
  execv : option string -> list (option string) -> option program;
  (** The value [system] returns. *)
  system : string -> Z
}.

(** ** The functions *)

(** [va_arg], [n] times: undefined when there are fewer arguments. *)
Fixpoint gather (n : nat) (args : list (option string)) : option (list (option string)) :=
  match n, args with
  | O, _ => Some []
  | S n', a :: args' => cs ← gather n' args'; Some (a :: cs)
  | S _, [] => None
  end.

(** [char *command[count + 1]], filled and terminated. *)
Definition command_array (count : Z) (args : list (option string)) : option (list (option string)) :=
  if count <? 0 then None else cs ← gather (Z.to_nat count) args; Some (cs ++ [None]).

Section systemcalls.
Context `{Kernel}.

Definition do_system (cmd : option string) : bool :=
  match cmd with
  | None => false
  | Some c => let result := system c in if result =? -1 then false else true
  end.

(** The child: the program runs in the child's world, or [_exit(1)]. *)
Definition exec_child (w : proc_world) (command : list (option string)) : proc_world * ended :=
  match execv (default None (head command)) command with
  | None => (w, Exited 1)
  | Some p => (emit w (prog_output p), prog_end p)
  end.

Definition redirect_child (w : proc_world) (outputfile : string) (command : list (option string))
    : proc_world * ended :=
  let (fd, w1) := if open_fails outputfile then (-1, w) else open_trunc w outputfile in
  let (result, w2) := dup2 w1 fd 1 in
  if result <? 0 then (w2, Exited 1)
  else exec_child (close w2 fd) command.

(** The parent after [fork]: [waitpid], then the tests of the status. *)
Definition parent_result (child_end : ended) : bool :=
  if waitpid_fails then false
  else
    let status := wait_status child_end in
    if WIFEXITED status then
      if negb (WEXITSTATUS status =? 0) then false else true
    else false.

(** The files and the terminal are shared, the descriptor table is not. *)
Definition after_child (w child : proc_world) : proc_world :=
  Proc_world (fds w) (file_data child) (terminal child).

Definition do_exec (w : proc_world) (count : Z) (args : list (option string))
    : option (bool * proc_world) :=
  command ← command_array count args;
  if fork_fails then Some (false, w)
  else
    let (child, e) := exec_child w command in
    Some (parent_result e, after_child w child).

Definition do_exec_redirect (w : proc_world) (outputfile : string) (count : Z)
    (args : list (option string)) : option (bool * proc_world) :=
  command ← command_array count args;
  if fork_fails then Some (false, w)
  else
    let (child, e) := redirect_child w outputfile command in
    Some (parent_result e, after_child w child).
End systemcalls.

(** ** Wait statuses *)

Lemma wait_status_exited c :
  WIFEXITED (wait_status (Exited c)) = true /\ WEXITSTATUS (wait_status (Exited c)) = c mod 256.
Proof.
  unfold WIFEXITED, WEXITSTATUS, wait_status. change 0xff with (Z.ones 8). change 0x7f with (Z.ones 7).
  change 0xff00 with (Z.shiftl (Z.ones 8) 8).
  rewrite Z.land_ones by lia. rewrite <- Z.shiftl_land, Z.shiftr_shiftl_l, Z.sub_diag, Z.shiftl_0_r by lia.
  rewrite !Z.land_ones by lia. split; [|change (2 ^ 8) with 256; by rewrite Zmod_mod].
  rewrite Z.shiftl_mul_pow2 by lia. apply Z.eqb_eq.
  change (2 ^ 8) with (2 * 2 ^ 7). by rewrite Z.mul_assoc, Z_mod_mult.
Qed.

Lemma wait_status_killed s : 1 <= s < 0x7f -> WIFEXITED (wait_status (Killed s)) = false.
Proof.
  intros Hs. unfold WIFEXITED, wait_status. change 0x7f with (Z.ones 7).
  rewrite !Z.land_ones, Zmod_mod, Z.mod_small by lia. apply Z.eqb_neq. lia.
Qed.

Lemma parent_result_spec `{Kernel} e :
  ended_ok e ->
  parent_result e = true <-> waitpid_fails = false /\ exists c, e = Exited c /\ c mod 256 = 0.
Proof.
  intros He. unfold parent_result. destruct waitpid_fails; [by split; [|intros []]|].
  destruct e as [c|s].
  - destruct (wait_status_exited c) as [-> ->]. destruct (c mod 256 =? 0) eqn:E; zbool; simpl.
    + split; [by eauto|done].
    + split; [done|]. by intros [_ (c' & [= <-] & ?)].
  - rewrite (wait_status_killed s He). split; [done|]. by intros [_ (? & ? & _)].
Qed.

Lemma parent_result_success `{Kernel} : waitpid_fails = false -> parent_result (Exited 0) = true.
Proof. intros Hw. apply parent_result_spec; [done|]. split; [done|]. by exists 0. Qed.

(** ** Descriptors *)

Lemma lowest_fd_spec m : 0 <= lowest_fd m /\ m !! lowest_fd m = None.
Proof.
  unfold lowest_fd. destruct (filter _ _) as [|i l] eqn:E; simpl.
  - exfalso. set (s := seqZ 0 (Z.of_nat (S (size m)))) in *.
    assert (s ⊆+ (elements (dom m))) as Hsub.
    { apply NoDup_submseteq; [apply NoDup_seqZ|]. intros i Hi. apply elem_of_elements, elem_of_dom.
      destruct (m !! i) eqn:Em; [by eexists|].
      assert (i ∈ filter (fun i => m !! i = None) s) as Hf by by apply list_elem_of_filter.
      rewrite E in Hf. by apply not_elem_of_nil in Hf. }
    apply submseteq_length in Hsub. unfold s in Hsub.
    rewrite length_seqZ in Hsub. change (length (elements (dom m))) with (size (dom m)) in Hsub.
    rewrite size_dom in Hsub. lia.
  - assert (i ∈ i :: l) as Hi by by left. rewrite <- E in Hi.
    apply list_elem_of_filter in Hi as [Hm Hi%elem_of_seqZ]. split; [lia|done].
Qed.

Lemma gather_length n args : (n <= length args)%nat -> gather n args = Some (take n args).
Proof.
  revert args. induction n as [|n IH]; intros [|a args] Hn; simpl in *; try done; [lia|].
  by rewrite IH by lia.
Qed.

Lemma command_array_spec args : command_array (Z.of_nat (length args)) args = Some (args ++ [None]).
Proof.
  unfold command_array. zdec.
  by rewrite Nat2Z.id, gather_length, take_ge.
Qed.

(** ** Properties *)

(** Descriptors are not negative. *)
Definition fds_ok (w : proc_world) : Prop := forall i, is_Some (fds w !! i) -> 0 <= i.

Section properties.
Context `{Kernel}.

(** The command [args] names can be started, and then is [p]. *)
Definition starts (args : list (option string)) (p : program) : Prop :=
  execv (default None (head (args ++ [None]))) (args ++ [None]) = Some p.

(** C31: [do_exec] returns [true] exactly when the child could be created and
    waited for, the command could be started, and it exited by itself with a
    code whose low eight bits are 0; the caller's descriptors are unchanged. *)
Theorem do_exec_true_iff w args :
  (forall p, starts args p -> ended_ok (prog_end p)) ->
  exists ok w', do_exec w (Z.of_nat (length args)) args = Some (ok, w') /\ fds w' = fds w /\
    (ok = true <->
     fork_fails = false /\ waitpid_fails = false /\
     exists p c, starts args p /\ prog_end p = Exited c /\ c mod 256 = 0).
Proof.
  intros Hend. unfold do_exec. rewrite command_array_spec. simpl. unfold starts, exec_child in *.
  destruct fork_fails; [exists false, w; split_and!; [done..|]; by split; [|intros []]|].
  destruct (execv _ _) as [p|]; simpl.
  - eexists _, _. split_and!; [done..|]. rewrite parent_result_spec by by apply Hend.
    split; [intros (? & c & ? & ?); eauto 10|].
    intros (_ & ? & p' & c & [= ->] & ? & ?). eauto.
  - eexists _, _. split_and!; [done..|]. rewrite parent_result_spec by done.
    split; [by intros (_ & c & [= <-] & ?)|]. by intros (_ & _ & ? & ? & ? & _).
Qed.

(** C30: a redirected command that [do_exec_redirect] reports as successful has
    its whole output in [outputfile], which is truncated first, and nowhere
    else; this needs descriptor 1 to be open in the caller. *)
Theorem redirect_captures_output w out args p :
  fds_ok w -> is_Some (fds w !! 1) -> fork_fails = false -> open_fails out = false ->
  starts args p -> prog_end p = Exited 0 -> waitpid_fails = false ->
  exists w', do_exec_redirect w out (Z.of_nat (length args)) args = Some (true, w') /\
    fds w' = fds w /\ terminal w' = terminal w /\
    file_data w' = <[out := prog_output p]> (file_data w).
Proof.
  intros Hfds [t Ht] Hfork Hopen Hstart Hend Hwait. unfold do_exec_redirect.
  rewrite command_array_spec, Hfork. unfold redirect_child. rewrite Hopen. simpl.
  destruct (lowest_fd_spec (fds w)) as [Hlow Hnew]. set (fd := lowest_fd (fds w)) in *.
  assert (fd <> 1) as Hne by by intros E; rewrite E, Ht in Hnew.
  unfold dup2. simpl. rewrite lookup_insert_eq. simpl. unfold exec_child, close. rewrite Hstart.
  unfold emit, set_fds. simpl. rewrite lookup_delete_ne, lookup_insert_eq, lookup_insert_eq by done. simpl.
  rewrite Hend, (parent_result_success Hwait). eexists. split_and!; [done..|].
  simpl. by rewrite insert_insert_eq.
Qed.

(** When the output file cannot be opened, the command is not run at all
    and the result is [false]. *)
Theorem redirect_open_failure w out args :
  fds_ok w -> open_fails out = true ->
  do_exec_redirect w out (Z.of_nat (length args)) args = Some (false, w).
Proof.
  intros Hfds Hopen. unfold do_exec_redirect. rewrite command_array_spec. simpl.
  destruct fork_fails; [done|]. unfold redirect_child. rewrite Hopen. unfold dup2.
  destruct (fds w !! (-1)) eqn:E; [by assert (0 <= -1) by by apply Hfds|]. simpl.
  unfold after_child. destruct w as [m f t]. simpl. unfold parent_result.
  by destruct waitpid_fails.
Qed.

(** When the caller has closed descriptor 1 but not 0, the child's [open]
    returns 1, [dup2(1, 1)] does nothing and [close] closes it again: the
    command runs without an output and its output is lost, yet the result is
    [true]. *)
Theorem redirect_loses_output_when_stdout_closed w out args p :
  fds w !! 1 = None -> is_Some (fds w !! 0) -> fork_fails = false -> open_fails out = false ->
  starts args p -> prog_end p = Exited 0 -> waitpid_fails = false ->
  exists w', do_exec_redirect w out (Z.of_nat (length args)) args = Some (true, w') /\
    file_data w' = <[out := []]> (file_data w) /\ terminal w' = terminal w.
Proof.
  intros H1 [t H0] Hfork Hopen Hstart Hend Hwait. unfold do_exec_redirect.
  rewrite command_array_spec, Hfork. unfold redirect_child. rewrite Hopen. simpl.
  assert (lowest_fd (fds w) = 1) as ->.
  { unfold lowest_fd. destruct (size (fds w)) eqn:Es.
    - apply map_size_empty_inv in Es. by rewrite Es, lookup_empty in H0.
    - rewrite !Nat2Z.inj_succ, seqZ_cons by lia. rewrite filter_cons_False by by rewrite H0.
      rewrite seqZ_cons by lia. by rewrite filter_cons_True by done. }
  unfold dup2. simpl. rewrite lookup_insert_eq. simpl. unfold exec_child, close. rewrite Hstart.
  unfold emit, set_fds. simpl. rewrite lookup_delete_eq.
  rewrite Hend, (parent_result_success Hwait). by eexists.
Qed.

(** [do_system] looks only for the -1 of a failed [system] call: a command
    that exits with a code other than 0, or is killed, is reported as
    successful. *)
Theorem do_system_ignores_status c e :
  ended_ok e -> system c = wait_status e -> do_system (Some c) = true.
Proof.
  intros He Hc. unfold do_system. rewrite Hc. destruct (Z.eqb_spec (wait_status e) (-1)) as [E|]; [|done].
  exfalso. assert (0 <= wait_status e); [|lia]. destruct e as [code|sig]; simpl.
  - rewrite Z.shiftl_nonneg. apply Z.land_nonneg. by right.
  - apply Z.land_nonneg. by right.
Qed.
End properties.

(** ** Witnesses *)

(** A kernel where [/bin/echo] prints [x] and any other command is missing;
    [system] runs a command that exits with 1. *)
Definition echo_kernel : Kernel := {|
  fork_fails := false;
  waitpid_fails := false;
  open_fails path := bool_decide (path = "/readonly"%string);
  execv path argv :=
    if decide (path = Some "/bin/echo"%string) then Some (Program [x78; x0a] (Exited 0)) else None;
  system _ := 256
|}.

Definition echo_args : list (option string) := [Some "/bin/echo"%string; Some "x"%string].
Definition tty_world : proc_world := Proc_world {[0 := Terminal; 1 := Terminal]} ∅ [].

Lemma tty_world_ok : fds_ok tty_world.
Proof.
  intros i Hi. unfold tty_world in Hi. cbn [fds] in Hi.
  destruct (decide (i = 0)); [lia|]. rewrite lookup_insert_ne in Hi by done.
  apply lookup_singleton_is_Some in Hi. lia.
Qed.

Lemma do_exec_true_iff_witness :
  exists ok w', @do_exec echo_kernel tty_world 2 echo_args = Some (ok, w') /\ fds w' = fds tty_world /\
    (ok = true <->
     @fork_fails echo_kernel = false /\ @waitpid_fails echo_kernel = false /\
     exists p c, @starts echo_kernel echo_args p /\ prog_end p = Exited c /\ c mod 256 = 0).
Proof.
  apply (@do_exec_true_iff echo_kernel tty_world echo_args). intros p. vm_compute. by intros [= <-].
Defined.

Lemma redirect_captures_output_witness :
  exists w', @do_exec_redirect echo_kernel tty_world "/tmp/o" 2 echo_args = Some (true, w') /\
    fds w' = fds tty_world /\ terminal w' = [] /\
    file_data w' = <["/tmp/o"%string := [x78; x0a]]> ∅.
Proof.
  exact (@redirect_captures_output echo_kernel tty_world "/tmp/o" echo_args (Program [x78; x0a] (Exited 0))
           tty_world_ok (ltac:(by eexists)) eq_refl eq_refl eq_refl eq_refl eq_refl).
Defined.

Lemma redirect_open_failure_witness :
  @do_exec_redirect echo_kernel tty_world "/readonly" 2 echo_args = Some (false, tty_world).
Proof.
  exact (@redirect_open_failure echo_kernel tty_world "/readonly" echo_args tty_world_ok eq_refl).
Defined.

Lemma redirect_loses_output_when_stdout_closed_witness :
  exists w', @do_exec_redirect echo_kernel (Proc_world {[0 := Terminal]} ∅ []) "/tmp/o" 2 echo_args =
      Some (true, w') /\
    file_data w' = <["/tmp/o"%string := []]> ∅ /\ terminal w' = [].
Proof.
  exact (@redirect_loses_output_when_stdout_closed echo_kernel (Proc_world {[0 := Terminal]} ∅ []) "/tmp/o"
           echo_args (Program [x78; x0a] (Exited 0)) eq_refl (ltac:(by eexists)) eq_refl eq_refl
           eq_refl eq_refl eq_refl).
Defined.

Lemma do_system_ignores_status_witness : @do_system echo_kernel (Some "false"%string) = true.
Proof. exact (@do_system_ignores_status echo_kernel "false" (Exited 1) I eq_refl). Defined.
