(* ===== verification/Threading.v ===== *)
(** * [examples/threading/threading.c]: a thread that holds a mutex for a while

    [threadfunc] as a program counter per thread, advanced one library call at
    a time, so that the calls of several threads interleave freely; the mutex
    is a lock with an owner.  [reachable] is what any interleaving of started
    threads can reach.  Whether [pthread_mutex_lock] or [pthread_mutex_unlock]
    reports an error is decided by the step's label. *)

From S2P Require Import Prelude CInt CMem Footprint Concrete.

Record thread_data := Thread_data {
  mutex : positive;
  wait_to_obtain_ms : Z;
  wait_to_release_ms : Z;
  thread_complete_success : bool
}.

(** Where a thread is: before its first sleep, at the lock, sleeping with the
    mutex, at the unlock, returned; or stopped by undefined behaviour. *)
Inductive pc := AtObtainSleep | AtLock | AtReleaseSleep | AtUnlock | Returned | Undefined.

#[export] Instance pc_eq_dec : EqDecision pc.
Proof. solve_decision. Defined.

Record thread := Thread { at_pc : pc; data : thread_data; data_ptr : ptr }.

(** [locked] maps a locked mutex to its owner's number. *)
Record threads_state := Threads { threads : list thread; locked : gmap positive nat }.

Definition no_threads : threads_state := Threads [] ∅.

(** [ms * 1000] in [int], converted to [useconds_t]; [None] on overflow. *)
Definition usleep_arg (ms : Z) : option Z :=
  if (- 2 ^ 31 <=? ms * 1000) && (ms * 1000 <? 2 ^ 31) then Some (u32 (ms * 1000)) else None.

Definition move (t : thread) (p : pc) : thread := Thread p (data t) (data_ptr t).

Definition complete (t : thread) (success : bool) : thread :=
  Thread Returned
    (Thread_data (mutex (data t)) (wait_to_obtain_ms (data t)) (wait_to_release_ms (data t)) success)
    (data_ptr t).

Definition set_thread (s : threads_state) (i : nat) (t : thread) (l : gmap positive nat) : threads_state :=
  Threads (<[i := t]> (threads s)) l.

(** The next call of [threadfunc] in thread [i]; [err] says that the mutex
    call of this step reports an error.  [None]: the thread is blocked, or has
    returned. *)
Definition threadfunc_step (s : threads_state) (i : nat) (err : bool) : option threads_state :=
  t ← threads s !! i;
  match at_pc t with
  | AtObtainSleep =>
      Some (set_thread s i
              (move t (if usleep_arg (wait_to_obtain_ms (data t)) is Some _ then AtLock else Undefined)) (locked s))
  | AtLock =>
      if err then Some (set_thread s i (complete t false) (locked s))
      else match locked s !! mutex (data t) with
           | Some _ => None
           | None => Some (set_thread s i (move t AtReleaseSleep) (<[mutex (data t) := i]> (locked s)))
           end
  | AtReleaseSleep =>
      Some (set_thread s i
              (move t (if usleep_arg (wait_to_release_ms (data t)) is Some _ then AtUnlock else Undefined)) (locked s))
  | AtUnlock =>
      if err then Some (set_thread s i (complete t false) (locked s))
      else Some (set_thread s i (complete t true) (delete (mutex (data t)) (locked s)))
  | Returned | Undefined => None
  end.

Definition sizeof_thread_data : Z := 24.

Section start.
Context `{Allocator}.

(** [thread] and [mutex] are [None] when [NULL]; [create_result] is the answer
    of [pthread_create]. *)
Definition start_thread_obtaining_mutex (s : threads_state) (thread : option positive)
    (mutex : option positive) (wait_to_obtain_ms wait_to_release_ms : Z) (create_result : Z)
    : M (bool * threads_state) :=
  match thread, mutex with
  | Some _, Some m =>
      p ← alloc sizeof_thread_data;
      if is_null p then mret (false, s)
      else
        let thread_data := Thread_data m wait_to_obtain_ms wait_to_release_ms false in
        if negb (create_result =? 0) then _ ← free p; mret (false, s)
        else mret (true, Threads (threads s ++ [Thread AtObtainSleep thread_data p]) (locked s))
  | _, _ => mret (false, s)
  end.

(** Any interleaving of starts and of the steps of started threads. *)
Inductive reachable : threads_state -> Prop :=
  | reach_none : reachable no_threads
  | reach_start s s' h h' th m w1 w2 r :
      reachable s -> start_thread_obtaining_mutex s th m w1 w2 r h = Done (true, s') h' -> reachable s'
  | reach_step s s' i err :
      reachable s -> threadfunc_step s i err = Some s' -> reachable s'.
End start.

(** A schedule: which thread makes the next call, with which answer. *)
Fixpoint run_schedule (s : threads_state) (sched : list (nat * bool)) : option threads_state :=
  match sched with
  | [] => Some s
  | (i, err) :: sched' => s' ← threadfunc_step s i err; run_schedule s' sched'
  end.

(** ** The lock invariant *)

(** A thread between its lock and its unlock. *)
Definition holds_lock (t : thread) : Prop := at_pc t = AtReleaseSleep \/ at_pc t = AtUnlock.

(** Threads in the critical section own their mutex. *)
Definition lock_inv (s : threads_state) : Prop :=
  forall i t, threads s !! i = Some t -> holds_lock t -> locked s !! mutex (data t) = Some i.

(** The step of one thread, for an invariant [P] of every other thread. *)
Lemma step_lock_inv s i err s' : lock_inv s -> threadfunc_step s i err = Some s' -> lock_inv s'.
Proof.
  intros Hs Hstep. unfold threadfunc_step in Hstep. destruct (threads s !! i) as [t|] eqn:Et; [|done].
  simpl in Hstep. intros j u Hj Hu. unfold holds_lock in *.
  destruct (at_pc t) eqn:Ep; repeat case_match; simplify_eq/=;
    (destruct (decide (i = j)) as [<-|Hne];
     [rewrite list_lookup_insert_eq in Hj by (by eapply lookup_lt_Some); simplify_eq/=
     |rewrite list_lookup_insert_ne in Hj by done]);
    try (destruct Hu; done); try (by apply Hs).
  - by rewrite lookup_insert_eq.
  - pose proof (Hs _ _ Hj Hu). rewrite lookup_insert_ne; [done|]. congruence.
  - apply (Hs _ _ Et). by left.
  - pose proof (Hs _ _ Hj Hu). pose proof (Hs _ _ Et (or_intror Ep)).
    rewrite lookup_delete_ne; [done|]. congruence.
Qed.

Lemma start_shape `{Allocator} s th m w1 w2 r h ok s' h' :
  start_thread_obtaining_mutex s th m w1 w2 r h = Done (ok, s') h' ->
  if ok then exists mx p, s' = Threads (threads s ++ [Thread AtObtainSleep (Thread_data mx w1 w2 false) p]) (locked s)
  else s' = s.
Proof.
  unfold start_thread_obtaining_mutex. destruct th, m; try (by intros [= <- <- _]).
  unfold mbind, M_bind, mret, M_ret.
  repeat (case_match; simplify_eq/=); intros; simplify_eq; eauto.
Qed.

Lemma start_lock_inv s t : lock_inv s -> at_pc t = AtObtainSleep -> lock_inv (Threads (threads s ++ [t]) (locked s)).
Proof.
  intros Hs Ht j u Hj Hu. simpl in *. apply lookup_app_Some in Hj as [Hj|[_ Hj]]; [by apply Hs|].
  apply list_lookup_singleton_Some in Hj as [_ <-]. unfold holds_lock in Hu. rewrite Ht in Hu. by destruct Hu.
Qed.

Lemma reachable_lock_inv `{Allocator} s : reachable s -> lock_inv s.
Proof.
  induction 1 as [|s s' h h' th m w1 w2 r _ IH E|s s' i err _ IH E].
  - by intros i t Hi.
  - apply start_shape in E as (mx & p & ->). by apply start_lock_inv.
  - by eapply step_lock_inv.
Qed.

(** ** Progress *)

(** How many calls a thread has left. *)
Definition steps_left (t : thread) : nat :=
  match at_pc t with
  | AtObtainSleep => 4 | AtLock => 3 | AtReleaseSleep => 2 | AtUnlock => 1
  | Returned | Undefined => 0
  end.

Definition all_steps_left (s : threads_state) : nat := sum_list_with steps_left (threads s).

(** Waiting times that [usleep] gets as they are meant. *)
Definition wait_ok (ms : Z) : Prop := 0 <= ms <= 2147483.
Definition data_ok (t : thread) : Prop :=
  wait_ok (wait_to_obtain_ms (data t)) /\ wait_ok (wait_to_release_ms (data t)).

Lemma usleep_arg_ok ms : wait_ok ms -> usleep_arg ms = Some (ms * 1000).
Proof.
  unfold wait_ok, usleep_arg. intros Hms.
  zdec. simpl. by rewrite u32_small by lia.
Qed.

(** A thread that has met no error: it is not undefined, and if it has
    returned it was successful. *)
Definition thread_fine (t : thread) : Prop :=
  data_ok t /\ at_pc t <> Undefined /\ (at_pc t = Returned -> thread_complete_success (data t) = true).

(** A locked mutex has an owner that will unlock it. *)
Definition owner_alive (s : threads_state) : Prop :=
  forall m i, locked s !! m = Some i -> exists t, threads s !! i = Some t /\ mutex (data t) = m /\ holds_lock t.

Definition progress_inv (s : threads_state) : Prop := Forall thread_fine (threads s) /\ owner_alive s /\ lock_inv s.

Lemma all_steps_left_set s i t u l :
  threads s !! i = Some t ->
  (all_steps_left (set_thread s i u l) + steps_left t = all_steps_left s + steps_left u)%nat.
Proof. intros Hi. by apply sum_list_with_insert. Qed.

(** What one step without an error does to the thread and to the locks. *)
Lemma step_shape s i t s' :
  threads s !! i = Some t -> thread_fine t -> threadfunc_step s i false = Some s' ->
  exists u l, s' = set_thread s i u l /\ thread_fine u /\ mutex (data u) = mutex (data t) /\
    steps_left t = S (steps_left u) /\
    ((l = locked s /\ (holds_lock t -> holds_lock u)) \/
     (l = <[mutex (data t) := i]> (locked s) /\ holds_lock u /\ locked s !! mutex (data t) = None) \/
     l = delete (mutex (data t)) (locked s)).
Proof.
  intros Et ((Hw1 & Hw2) & Hun & Hret) Hstep. unfold threadfunc_step in Hstep. rewrite Et in Hstep.
  simpl in Hstep. rewrite (usleep_arg_ok _ Hw1), (usleep_arg_ok _ Hw2) in Hstep.
  unfold holds_lock, steps_left, thread_fine, data_ok.
  destruct (at_pc t) eqn:Ep; repeat case_match; simplify_eq/=; eexists _, _; split_and!; try done.
  - left. split; [done|]. by intros [].
  - right. left. auto.
  - left. auto.
  - by right; right.
Qed.

Lemma owner_alive_step s i t u l :
  owner_alive s -> threads s !! i = Some t -> mutex (data u) = mutex (data t) ->
  ((l = locked s /\ (holds_lock t -> holds_lock u)) \/
   (l = <[mutex (data t) := i]> (locked s) /\ holds_lock u /\ locked s !! mutex (data t) = None) \/
   l = delete (mutex (data t)) (locked s)) ->
  owner_alive (set_thread s i u l).
Proof.
  intros Hs Hi Hm Hl m j Hj. simpl in *. pose proof (lookup_lt_Some _ _ _ Hi) as Hlt.
  destruct Hl as [[-> Hh]|[(-> & Hh & Hfree)| ->]].
  - destruct (Hs _ _ Hj) as (v & Hv & <- & Hl). destruct (decide (i = j)) as [<-|Hne]; simplify_eq.
    + exists u. rewrite list_lookup_insert_eq by done. auto.
    + exists v. by rewrite list_lookup_insert_ne.
  - apply lookup_insert_Some in Hj as [[<- <-]|[Hne Hj]].
    + exists u. by rewrite list_lookup_insert_eq.
    + destruct (Hs _ _ Hj) as (v & Hv & <- & Hl). exists v. rewrite list_lookup_insert_ne; [done|].
      intros ->. simplify_eq.
  - apply lookup_delete_Some in Hj as [Hne Hj].
    destruct (Hs _ _ Hj) as (v & Hv & <- & Hl). exists v. rewrite list_lookup_insert_ne; [done|].
    intros ->. simplify_eq.
Qed.

(** A step without errors makes progress and keeps the invariant. *)
Lemma step_progress s i s' :
  progress_inv s -> threadfunc_step s i false = Some s' ->
  progress_inv s' /\ all_steps_left s = S (all_steps_left s').
Proof.
  intros (Hfine & Hown & Hinv) Hstep. pose proof (step_lock_inv _ _ _ _ Hinv Hstep) as Hinv'.
  destruct (threads s !! i) as [t|] eqn:Et; [|unfold threadfunc_step in Hstep; by rewrite Et in Hstep].
  destruct (step_shape s i t s' Et ltac:(by eapply Forall_lookup_1) Hstep) as (u & l & -> & Hu & Hm & Hleft & Hl).
  split; [|pose proof (all_steps_left_set s i t u l Et); lia].
  split_and!; [by apply Forall_insert|by eapply owner_alive_step|done].
Qed.

Lemma run_progress sched s s' :
  progress_inv s -> Forall (fun c => c.2 = false) sched -> run_schedule s sched = Some s' ->
  progress_inv s' /\ all_steps_left s = (length sched + all_steps_left s')%nat.
Proof.
  revert s. induction sched as [|[i err] sched IH]; intros s Hs Hok Hrun; simplify_eq/=; [done|].
  apply Forall_cons in Hok as [Herr Hok]. simpl in Herr. subst err.
  destruct (threadfunc_step s i false) as [s1|] eqn:E; [|done]. simpl in Hrun.
  destruct (step_progress _ _ _ Hs E) as [Hs1 Hleft]. destruct (IH _ Hs1 Hok Hrun). split; [done|lia].
Qed.

(** Some thread can move unless all have returned: whoever waits at a lock
    waits for an owner that can move. *)
Lemma can_move s : progress_inv s -> (0 < all_steps_left s)%nat -> exists i s', threadfunc_step s i false = Some s'.
Proof.
  intros (Hfine & Hown & _) Hleft.
  assert (exists i t, threads s !! i = Some t /\ (0 < steps_left t)%nat) as (i & t & Et & Ht).
  { unfold all_steps_left in Hleft. revert Hleft. generalize (threads s). clear.
    induction l as [|t l IH]; simpl; [lia|]. intros Hl. destruct (decide (0 < steps_left t)%nat).
    - by exists O, t.
    - destruct IH as (i & u & ? & ?); [lia|]. by exists (S i), u. }
  assert (forall j u, threads s !! j = Some u -> holds_lock u -> is_Some (threadfunc_step s j false)) as Hgo.
  { intros j u Hu [Hp|Hp]; unfold threadfunc_step; rewrite Hu; simpl; rewrite Hp; by eexists. }
  destruct (at_pc t) eqn:Ep; try (by unfold steps_left in Ht; rewrite Ep in Ht; lia).
  - exists i. unfold threadfunc_step. rewrite Et. simpl. rewrite Ep. by eexists.
  - destruct (locked s !! mutex (data t)) as [j|] eqn:El.
    + destruct (Hown _ _ El) as (u & Hu & _ & Hh). destruct (Hgo _ _ Hu Hh) as [s' ?]. by exists j, s'.
    + exists i. unfold threadfunc_step. rewrite Et. simpl. rewrite Ep, El. by eexists.
  - destruct (Hgo _ _ Et (or_introl Ep)) as [s' ?]. by exists i, s'.
  - destruct (Hgo _ _ Et (or_intror Ep)) as [s' ?]. by exists i, s'.
Qed.

(** Threads that are all at their beginning, no mutex locked. *)
Definition fresh_threads (s : threads_state) : Prop :=
  Forall (fun t => at_pc t = AtObtainSleep /\ data_ok t) (threads s) /\ locked s = ∅.

Lemma fresh_progress_inv s : fresh_threads s -> progress_inv s /\ all_steps_left s = (4 * length (threads s))%nat.
Proof.
  intros [Hs Hl]. split; [split_and!|].
  - eapply Forall_impl; [exact Hs|]. intros t [Hp Hd]. unfold thread_fine. by rewrite Hp.
  - intros m i Hm. by rewrite Hl in Hm.
  - intros i t Ht [Hh|Hh]; eapply Forall_lookup_1 in Hs as [Hp _]; [|done| |done]; by rewrite Hp in Hh.
  - unfold all_steps_left. induction Hs as [|t l [Hp _] _ IH]; simpl; [done|].
    rewrite IH. unfold steps_left. rewrite Hp. lia.
Qed.

Lemma run_to_end n s :
  progress_inv s -> all_steps_left s = n ->
  exists sched s', Forall (fun c => c.2 = false) sched /\ run_schedule s sched = Some s' /\ all_steps_left s' = O.
Proof.
  revert s. induction n as [|n IH]; intros s Hs Hn; [by exists [], s|].
  destruct (can_move s Hs ltac:(lia)) as (i & s1 & E). destruct (step_progress _ _ _ Hs E) as [Hs1 Hleft].
  destruct (IH s1 Hs1 ltac:(lia)) as (sched & s' & Hok & Hrun & Hend).
  exists ((i, false) :: sched), s'. split_and!; [by constructor| |done]. simpl. by rewrite E.
Qed.

Lemma progress_end s :
  progress_inv s -> all_steps_left s = O ->
  Forall (fun t => at_pc t = Returned /\ thread_complete_success (data t) = true) (threads s) /\ locked s = ∅.
Proof.
  intros (Hfine & Hown & _) Hend.
  assert (Forall (fun t => at_pc t = Returned) (threads s)) as Hret.
  { unfold all_steps_left in Hend. revert Hend. induction Hfine as [|t l (_ & Hun & _) _ IH]; simpl; [done|].
    intros Hl. constructor; [|apply IH; lia]. unfold steps_left in Hl. by destruct (at_pc t). }
  split.
  - apply Forall_forall. intros t Ht. rewrite Forall_forall in Hfine. rewrite Forall_forall in Hret.
    split; [by apply Hret|]. by apply (Hfine t Ht), Hret.
  - apply map_empty. intros m. destruct (locked s !! m) as [i|] eqn:E; [|done].
    destruct (Hown _ _ E) as (t & Ht & _ & Hh). eapply Forall_lookup_1 in Hret; [|done].
    destruct Hh as [Hh|Hh]; by rewrite Hret in Hh.
Qed.

(** ** Properties *)

(** C28: in every state that starts and steps of threads can reach, with
    whatever errors from the mutex functions, at most one thread is between
    its lock and its unlock of any one mutex. *)
Theorem mutual_exclusion `{Allocator} s i j t u :
  reachable s -> threads s !! i = Some t -> threads s !! j = Some u ->
  holds_lock t -> holds_lock u -> mutex (data t) = mutex (data u) -> i = j.
Proof.
  intros Hs Ht Hu Hlt Hlu Hm. pose proof (reachable_lock_inv _ Hs) as Hinv.
  pose proof (Hinv _ _ Ht Hlt) as H1. pose proof (Hinv _ _ Hu Hlu) as H2. congruence.
Qed.

(** C29: threads whose waiting times fit [usleep], with mutex calls that report
    no error, cannot deadlock: no interleaving makes more than four calls per
    thread, each can be continued until every thread has returned, and then
    every thread reports success and no mutex is locked. *)
Theorem threads_complete s sched s1 :
  fresh_threads s -> Forall (fun c => c.2 = false) sched -> run_schedule s sched = Some s1 ->
  (length sched <= 4 * length (threads s))%nat /\
  exists rest s2, Forall (fun c => c.2 = false) rest /\ run_schedule s1 rest = Some s2 /\
    (length sched + length rest = 4 * length (threads s))%nat /\
    Forall (fun t => at_pc t = Returned /\ thread_complete_success (data t) = true) (threads s2) /\
    locked s2 = ∅.
Proof.
  intros Hs Hok Hrun. destruct (fresh_progress_inv _ Hs) as [Hinv Hn].
  destruct (run_progress _ _ _ Hinv Hok Hrun) as [Hinv1 H1].
  destruct (run_to_end _ s1 Hinv1 eq_refl) as (rest & s2 & Hok2 & Hrun2 & Hend).
  destruct (run_progress _ _ _ Hinv1 Hok2 Hrun2) as [Hinv2 H2].
  split; [lia|]. exists rest, s2. split_and!; [done|done|lia|by apply progress_end..].
Qed.

(** [start_thread_obtaining_mutex] returns [false] for a [NULL] argument,
    a failed allocation or a failed [pthread_create], with no thread added and
    nothing left allocated; otherwise it adds one thread, about to sleep, and
    the thread's structure is the only new allocation. *)
Theorem start_outcomes `{Allocator} s th m w1 w2 r h L :
  holds h L ->
  exists ok s' h', start_thread_obtaining_mutex s th m w1 w2 r h = Done (ok, s') h' /\
    ok = bool_decide (is_Some th /\ is_Some m) && alloc_serves (next h) sizeof_thread_data && (r =? 0) /\
    if ok then
      exists mx p, m = Some mx /\
        s' = Threads (threads s ++ [Thread AtObtainSleep (Thread_data mx w1 w2 false) p]) (locked s) /\
        holds h' (own p (replicate 24 None) ++ L)
    else s' = s /\ holds h' L.
Proof.
  intros Hh. unfold start_thread_obtaining_mutex. destruct th as [x|], m as [mx|].
  2-4: exists false, s, h; split_and!; try done; by rewrite bool_decide_eq_false_2 by (intros [[] []]; done).
  rewrite bool_decide_eq_true_2 by (split; by eexists). simpl andb.
  destruct (wp_done _ _ _ (wp_alloc _ sizeof_thread_data _ Hh ltac:(done))) as (p & h1 & E & Hh1 & Hp).
  erewrite bind_done by exact E. rewrite (alloc_serves_not_null _ _ _ _ Hp).
  destruct (alloc_serves _ _); simpl; [|subst p; by exists false, s, h1].
  destruct (r =? 0); simpl.
  - exists true. eexists _, h1. split_and!; [done..|]. by exists mx, p.
  - destruct (wp_done _ _ _ (wp_free _ _ _ _ Hh1)) as ([] & h2 & E2 & Hh2 & _).
    erewrite bind_done by exact E2. by exists false, s, h2.
Qed.

(** A waiting time of more than 2147483 ms, about 36 minutes, overflows
    [int] when it is converted to microseconds. *)
Theorem long_wait_overflows s i t err :
  threads s !! i = Some t -> at_pc t = AtObtainSleep -> 2147483 < wait_to_obtain_ms (data t) ->
  exists s', threadfunc_step s i err = Some s' /\
    at_pc <$> threads s' !! i = Some Undefined /\
    forall err', threadfunc_step s' i err' = None.
Proof.
  intros Ht Hp Hms. unfold threadfunc_step at 1. rewrite Ht. simpl. rewrite Hp.
  assert (usleep_arg (wait_to_obtain_ms (data t)) = None) as ->.
  { unfold usleep_arg. zdec. by rewrite andb_false_r. }
  eexists. split; [done|]. pose proof (lookup_lt_Some _ _ _ Ht) as Hlt. split.
  - simpl. by rewrite list_lookup_insert_eq.
  - intros err'. unfold threadfunc_step. simpl. by rewrite list_lookup_insert_eq.
Qed.

(** ** Witnesses *)

(** Two threads on the mutex 7, the first in the middle of its critical
    section, the second at the lock. *)
Definition short_wait : thread_data := Thread_data 7 10 20 false.
Definition two_fresh : threads_state :=
  Threads [Thread AtObtainSleep short_wait (Ptr 1); Thread AtObtainSleep short_wait (Ptr 2)] ∅.
Definition two_racing : threads_state :=
  Threads [Thread AtReleaseSleep short_wait (Ptr 1); Thread AtLock short_wait (Ptr 2)] {[7%positive := O]}.

Lemma two_racing_run : run_schedule two_fresh [(1%nat, false); (O, false); (O, false)] = Some two_racing.
Proof. vm_compute. reflexivity. Qed.

Lemma two_fresh_reachable : @reachable malloc two_fresh.
Proof.
  assert (@reachable malloc (Threads [Thread AtObtainSleep short_wait (Ptr 1)] ∅)) as H1.
  { apply (@reach_start malloc no_threads _ (Heap ∅ 1) (Heap {[1%positive := replicate 24 None]} 2)
             (Some 1%positive) (Some 7%positive) 10 20 0); [apply reach_none|by vm_compute]. }
  apply (@reach_start malloc _ _ (Heap ∅ 2) (Heap {[2%positive := replicate 24 None]} 3)
           (Some 1%positive) (Some 7%positive) 10 20 0 H1). by vm_compute.
Qed.

Lemma reachable_run `{Allocator} sched s s' :
  reachable s -> run_schedule s sched = Some s' -> reachable s'.
Proof.
  revert s. induction sched as [|[i err] sched IH]; intros s Hs Hrun; simplify_eq/=; [done|].
  destruct (threadfunc_step s i err) as [s1|] eqn:E; [|done]. apply (IH s1); [|done]. by eapply reach_step.
Qed.

Lemma mutual_exclusion_witness :
  @reachable malloc two_racing /\ threads two_racing !! O = Some (Thread AtReleaseSleep short_wait (Ptr 1)) /\
  ~ exists u, threads two_racing !! 1%nat = Some u /\ holds_lock u /\ mutex (data u) = 7%positive.
Proof.
  pose proof (@reachable_run malloc _ _ _ two_fresh_reachable two_racing_run) as Hreach.
  split_and!; [exact Hreach|done|]. intros (u & Hu & Hl & Hm).
  discriminate (@mutual_exclusion malloc two_racing 1 O u (Thread AtReleaseSleep short_wait (Ptr 1))
                  Hreach Hu eq_refl Hl (or_introl eq_refl) Hm).
Defined.

Lemma two_fresh_ok : fresh_threads two_fresh.
Proof. split; [|done]. by repeat constructor. Qed.

Lemma threads_complete_witness :
  (3 <= 8)%nat /\
  exists rest s2, Forall (fun c => c.2 = false) rest /\ run_schedule two_racing rest = Some s2 /\
    (3 + length rest = 8)%nat /\
    Forall (fun t => at_pc t = Returned /\ thread_complete_success (data t) = true) (threads s2) /\
    locked s2 = ∅.
Proof.
  exact (threads_complete two_fresh [(1%nat, false); (O, false); (O, false)] two_racing
           two_fresh_ok ltac:(by repeat constructor) two_racing_run).
Defined.

Lemma start_outcomes_witness :
  exists ok s' h', @start_thread_obtaining_mutex malloc two_fresh (Some 3%positive) (Some 7%positive) 1 2 0 empty_heap =
      Done (ok, s') h' /\ ok = true /\
    if ok then
      exists mx p, Some 7%positive = Some mx /\
        s' = Threads (threads two_fresh ++ [Thread AtObtainSleep (Thread_data mx 1 2 false) p]) (locked two_fresh) /\
        @holds malloc h' (own p (replicate 24 None) ++ [])
    else s' = two_fresh /\ @holds malloc h' [].
Proof.
  exact (@start_outcomes malloc two_fresh (Some 3%positive) (Some 7%positive) 1 2 0 empty_heap [] (@holds_empty malloc)).
Defined.

Definition slow_thread : threads_state := Threads [Thread AtObtainSleep (Thread_data 7 3600000 0 false) (Ptr 1)] ∅.

Lemma long_wait_overflows_witness :
  exists s', threadfunc_step slow_thread 0 false = Some s' /\
    at_pc <$> threads s' !! O = Some Undefined /\ forall err', threadfunc_step s' 0 err' = None.
Proof.
  exact (long_wait_overflows slow_thread 0 (Thread AtObtainSleep (Thread_data 7 3600000 0 false) (Ptr 1)) false
           eq_refl eq_refl ltac:(done)).
Defined.
