(* ===== verification/Writer.v ===== *)
(** * [finder-app/writer.c]: writing one string to one file

    [main] on its argument vector and a small file system.  A [FILE] is its
    path and the bytes that are still in its buffer; which part of a
    [fprintf] goes to the disk at once is up to the C library, and how much
    the disk takes is up to the kernel, so both are parameters. *)

From Stdlib.Strings Require Import String.
From S2P Require Import Prelude.

Definition EXIT_SUCCESS : Z := 0.
Definition EXIT_FAILURE : Z := 1.

(** The files, and how many more bytes the disk takes. *)
Record disk := Disk { disk_files : gmap string (list byte); disk_room : nat }.

Class Stdio := {
  fopen_fails : string -> bool;
  (** Of [n] bytes printed, how many are written before [fprintf] returns. *)
  written_at_once : nat -> nat;
  written_at_once_le n : (written_at_once n <= n)%nat
}.

Record stream := Stream { stream_path : string; unwritten : list byte }.

Definition put_file (d : disk) (path : string) (bs : list byte) (room : nat) : disk :=
  Disk (<[path := bs]> (disk_files d)) room.

(** [write]: what fits is written; the result says whether all of it did. *)
Definition disk_write (d : disk) (path : string) (bs : list byte) : bool * disk :=
  let n := Nat.min (length bs) (disk_room d) in
  (bool_decide (length bs <= disk_room d)%nat,
   put_file d path (default [] (disk_files d !! path) ++ take n bs) (disk_room d - n)).

Section writer.
Context `{Stdio}.

(** [fopen(filename, "w")] *)
Definition fopen_w (d : disk) (filename : string) : option stream * disk :=
  if fopen_fails filename then (None, d)
  else (Some (Stream filename []), put_file d filename [] (disk_room d)).

(** [fprintf(fp, "%s", text)]: the number of bytes, or -1. *)
Definition fprintf_s (d : disk) (fp : stream) (text : list byte) : Z * stream * disk :=
  let n := written_at_once (length text) in
  let (ok, d') := disk_write d (stream_path fp) (take n text) in
  if ok then (Z.of_nat (length text), Stream (stream_path fp) (drop n text), d')
  else (-1, Stream (stream_path fp) [], d').

(** [fclose(fp)]: 0, or -1 when the rest of the buffer cannot be written. *)
Definition fclose (d : disk) (fp : stream) : Z * disk :=
  let (ok, d') := disk_write d (stream_path fp) (unwritten fp) in
  (if ok then 0 else -1, d').

(** [log_and_exit]: the message goes to the log; the exit code is its third
    argument. *)
Definition log_and_exit (exit_code : Z) (d : disk) : Z * disk := (exit_code, d).

Definition main (argv : list string) (d : disk) : Z * disk :=
  match argv with
  | [_; filename; text] =>
      let (fp, d1) := fopen_w d filename in
      match fp with
      | None => log_and_exit EXIT_FAILURE d1
      | Some fp =>
          let '(ret, fp', d2) := fprintf_s d1 fp (list_byte_of_string text) in
          if ret <? 0 then
            let (_, d3) := fclose d2 fp' in log_and_exit EXIT_FAILURE d3
          else
            let (_, d3) := fclose d2 fp' in (EXIT_SUCCESS, d3)
      end
  | _ => (EXIT_FAILURE, d)
  end.

(** ** Lemmas *)

Lemma disk_write_fits d path bs :
  (length bs <= disk_room d)%nat ->
  disk_write d path bs =
    (true, put_file d path (default [] (disk_files d !! path) ++ bs) (disk_room d - length bs)).
Proof.
  intros Hfit. unfold disk_write. rewrite bool_decide_eq_true_2 by done.
  by rewrite Nat.min_l, take_ge by done.
Qed.

Lemma disk_write_other d path bs p : p <> path -> disk_files (disk_write d path bs).2 !! p = disk_files d !! p.
Proof. intros Hne. unfold disk_write, put_file. simpl. by rewrite lookup_insert_ne. Qed.

Lemma fopen_w_ok d filename :
  fopen_fails filename = false ->
  fopen_w d filename = (Some (Stream filename []), put_file d filename [] (disk_room d)).
Proof. unfold fopen_w. by intros ->. Qed.

(** ** Properties *)

(** C35: when the file can be opened and the disk has room for the string, the
    program exits with 0 and the file holds exactly the string, whatever it
    held before; no other file changes. *)
Theorem writer_writes_string prog filename text d :
  fopen_fails filename = false -> (String.length text <= disk_room d)%nat ->
  exists d', main [prog; filename; text] d = (EXIT_SUCCESS, d') /\
    disk_files d' = <[filename := list_byte_of_string text]> (disk_files d).
Proof.
  intros Hopen Hroom. unfold main. rewrite (fopen_w_ok _ _ Hopen).
  set (bs := list_byte_of_string text).
  assert (length bs = String.length text) as Hlen.
  { unfold bs, list_byte_of_string. rewrite length_map.
    by induction text as [|c t IH]; simpl; [|rewrite IH by (simpl in *; lia)]. }
  unfold fprintf_s. simpl stream_path. pose proof (written_at_once_le (length bs)) as Hn.
  set (n := written_at_once (length bs)) in *.
  assert (length (take n bs) = n) as Htake by (lia_len).
  rewrite disk_write_fits by (rewrite Htake; simpl; lia). rewrite Htake.
  zdec. unfold fclose. cbn [stream_path unwritten].
  rewrite disk_write_fits by (simpl; lia_len).
  eexists. split; [done|]. simpl. rewrite !lookup_insert_eq. simpl.
  by rewrite take_drop, !insert_insert_eq.
Qed.

(** With any other number of arguments, and when the file cannot be
    opened, the program exits with 1 and changes nothing. *)
Theorem writer_refuses argv d :
  (length argv <> 3%nat \/ exists prog filename text, argv = [prog; filename; text] /\ fopen_fails filename = true) ->
  main argv d = (EXIT_FAILURE, d).
Proof.
  intros [Hlen|(prog & filename & text & -> & Hfail)].
  - by destruct argv as [|? [|? [|? [|? ?]]]].
  - unfold main, fopen_w. by rewrite Hfail.
Qed.

(** A full disk is reported only when [fprintf] itself meets it: when the
    library buffers the string, the failure comes in [fclose], which is not
    tested; the program exits with 0 although the file is cut short. *)
Theorem writer_ignores_fclose prog filename text d :
  fopen_fails filename = false -> written_at_once (length (list_byte_of_string text)) = O ->
  (disk_room d < length (list_byte_of_string text))%nat ->
  exists d', main [prog; filename; text] d = (EXIT_SUCCESS, d') /\
    disk_files d' !! filename = Some (take (disk_room d) (list_byte_of_string text)).
Proof.
  intros Hopen Hbuf Hfull. unfold main. rewrite (fopen_w_ok _ _ Hopen).
  unfold fprintf_s. rewrite Hbuf. rewrite disk_write_fits by (simpl; lia).
  zdec. unfold fclose, disk_write. cbn [stream_path unwritten].
  rewrite drop_0. eexists. split; [done|]. simpl. rewrite lookup_insert_eq, lookup_insert_eq, lookup_insert_eq. simpl.
  by rewrite Nat.sub_0_r, Nat.min_r by lia.
Qed.

(** An error that [fprintf] does see makes the program exit with 1. *)
Theorem writer_reports_fprintf prog filename text d :
  fopen_fails filename = false ->
  (disk_room d < written_at_once (length (list_byte_of_string text)))%nat ->
  exists d', main [prog; filename; text] d = (EXIT_FAILURE, d') /\
    forall p, p <> filename -> disk_files d' !! p = disk_files d !! p.
Proof.
  intros Hopen Hfull. unfold main. rewrite (fopen_w_ok _ _ Hopen). unfold fprintf_s.
  pose proof (written_at_once_le (length (list_byte_of_string text))) as Hn.
  set (n := written_at_once _) in *. cbn [stream_path].
  pose proof (disk_write_other (put_file d filename [] (disk_room d)) filename
                (take n (list_byte_of_string text))) as Hother.
  destruct (disk_write _ _ _) as [ok d'] eqn:E.
  assert (ok = false) as ->.
  { unfold disk_write in E. injection E as <- _. apply bool_decide_eq_false_2. simpl.
    rewrite length_take. lia. }
  change (-1 <? 0) with true. cbv iota. unfold fclose. cbn [stream_path unwritten].
  pose proof (disk_write_other d' filename []) as Hother2. destruct (disk_write d' filename []) as [ok2 d2].
  eexists. split; [done|].
  intros p Hp. simpl in *. rewrite (Hother2 p Hp), (Hother p Hp).
  by rewrite lookup_insert_ne.
Qed.
End writer.

(** ** Witnesses *)

(** A library that writes everything at once, and one that buffers. *)
Definition unbuffered : Stdio :=
  {| fopen_fails p := bool_decide (p = "/readonly"%string); written_at_once n := n; written_at_once_le n := Nat.le_refl n |}.
Definition buffered : Stdio :=
  {| fopen_fails p := false; written_at_once _ := O; written_at_once_le n := Nat.le_0_l n |}.

Definition old_disk (room : nat) : disk := Disk {["f"%string := [x41]]} room.

Lemma writer_writes_string_witness :
  exists d', @main buffered ["writer"; "f"; "xyz"]%string (old_disk 3) = (EXIT_SUCCESS, d') /\
    disk_files d' = <["f"%string := [x78; x79; x7a]]> {["f"%string := [x41]]}.
Proof. exact (@writer_writes_string buffered "writer" "f" "xyz" (old_disk 3) eq_refl ltac:(simpl; lia)). Defined.

Lemma writer_refuses_witness :
  @main unbuffered ["writer"; "/readonly"; "xyz"]%string (old_disk 3) = (EXIT_FAILURE, old_disk 3).
Proof.
  exact (@writer_refuses unbuffered ["writer"; "/readonly"; "xyz"]%string (old_disk 3)
    (or_intror (ex_intro _ _ (ex_intro _ _ (ex_intro _ _ (conj eq_refl eq_refl)))))).
Defined.

Lemma writer_ignores_fclose_witness :
  exists d', @main buffered ["writer"; "f"; "xyz"]%string (old_disk 2) = (EXIT_SUCCESS, d') /\
    disk_files d' !! "f"%string = Some [x78; x79].
Proof.
  exact (@writer_ignores_fclose buffered "writer" "f" "xyz" (old_disk 2) eq_refl eq_refl ltac:(simpl; lia)).
Defined.

Lemma writer_reports_fprintf_witness :
  exists d', @main unbuffered ["writer"; "f"; "xyz"]%string (old_disk 2) = (EXIT_FAILURE, d') /\
    forall p, p <> "f"%string -> disk_files d' !! p = disk_files (old_disk 2) !! p.
Proof. exact (@writer_reports_fprintf unbuffered "writer" "f" "xyz" (old_disk 2) eq_refl ltac:(simpl; lia)). Defined.
