(* ===== verification/CString.v ===== *)
(** * C strings: the functions of [<string.h>] and [<stdlib.h>] the server uses

    Characters are loaded one at a time, up to the one that decides the
    result, so a buffer without a terminating NUL is read past its end exactly
    when no character before the end decides.  The searches have no bound of
    their own in C; here the block's length bounds the loop, and its last
    iteration is a load outside the block. *)

From S2P Require Import Prelude CInt CMem Footprint.

Definition char_Z (c : byte) : Z := Z.of_N (Byte.to_N c).

(** Does [lit] stand at [s + i]? *)
Fixpoint match_literal (s : ptr) (i : Z) (lit : list byte) : M bool :=
  match lit with
  | [] => mret true
  | d :: lit' =>
      c ← load_byte s i;
      if decide (c = d) then match_literal s (i + 1) lit' else mret false
  end.

(** [strncmp(s + i, lit, n)] *)
Fixpoint strncmp (n : nat) (s : ptr) (i : Z) (lit : list byte) : M Z :=
  match n with
  | O => mret 0
  | S n' =>
      c ← load_byte s i;
      let d := default ch_nul (head lit) in
      if decide (c = d) then
        if decide (c = ch_nul) then mret 0 else strncmp n' s (i + 1) (tail lit)
      else mret (char_Z c - char_Z d)
  end.

(** [strstr(s, lit)], from index [i] on: the index of the first match. *)
Fixpoint strstr_loop (n : nat) (s : ptr) (i : Z) (lit : list byte) : M (option Z) :=
  match n with
  | O => stuck OutOfBounds
  | S n' =>
      here ← match_literal s i lit;
      if (here : bool) then mret (Some i)
      else
        c ← load_byte s i;
        if decide (c = ch_nul) then mret None else strstr_loop n' s (i + 1) lit
  end.

Definition strstr (s : ptr) (lit : list byte) : M (option Z) :=
  b ← get_block s; strstr_loop (S (length b)) s 0 lit.

(** ** [strtoul], base 10 *)

Definition isspace (c : byte) : bool := (char_Z c =? 32) || ((9 <=? char_Z c) && (char_Z c <=? 13)).
Definition isdigit (c : byte) : bool := (48 <=? char_Z c) && (char_Z c <=? 57).
Definition is_minus (c : byte) : bool := char_Z c =? 45.
Definition is_plus (c : byte) : bool := char_Z c =? 43.

Fixpoint skip_space (n : nat) (s : ptr) (i : Z) : M Z :=
  match n with
  | O => stuck OutOfBounds
  | S n' => c ← load_byte s i; if isspace c then skip_space n' s (i + 1) else mret i
  end.

Fixpoint digits_loop (n : nat) (s : ptr) (i acc : Z) : M (Z * Z) :=
  match n with
  | O => stuck OutOfBounds
  | S n' =>
      c ← load_byte s i;
      if isdigit c then digits_loop n' s (i + 1) (10 * acc + (char_Z c - 48)) else mret (acc, i)
  end.

(** [strtoul(s + i, &end, 10)]: the value and the index of [end]. *)
Definition strtoul (s : ptr) (i : Z) : M (Z * Z) :=
  b ← get_block s;
  j ← skip_space (S (length b)) s i;
  c ← load_byte s j;
  let k := if is_minus c || is_plus c then j + 1 else j in
  res ← digits_loop (S (length b)) s k 0;
  if (res : Z * Z).2 =? k then mret (0, i)
  else if ULONG_MAX <? res.1 then mret (ULONG_MAX, res.2)
  else mret (if is_minus c then u64 (- res.1) else res.1, res.2).

(** ** Reading a block of initialised bytes *)

Definition str_at (h : heap) (s : ptr) (bs : list byte) : Prop := get_block s h = Done (Some <$> bs) h.

Lemma str_at_own `{Allocator} h s bs L :
  holds h (own s (Some <$> bs) ++ L) -> own_ok s (Some <$> bs) -> str_at h s bs.
Proof. apply get_block_own. Qed.

Section facts.
Implicit Types (h : heap) (s : ptr) (bs lit : list byte).

Lemma load_byte_at h s bs i :
  str_at h s bs ->
  load_byte s (Z.of_nat i) h = match bs !! i with Some c => Done c h | None => Stuck OutOfBounds end.
Proof.
  unfold str_at. intros Hs. unfold load_byte, load_bytes, mbind, M_bind. rewrite Hs.
  unfold in_bounds. rewrite length_fmap.
  destruct (bs !! i) as [c|] eqn:E.
  - pose proof (lookup_lt_Some _ _ _ E). zdec. simpl.
    rewrite Nat2Z.id, <- fmap_drop, (drop_S _ _ _ E). done.
  - apply lookup_ge_None in E. rewrite (proj2 (Z.leb_gt (Z.of_nat i + 1) _)) by lia.
    by rewrite andb_false_r.
Qed.

(** One loop step on a string that continues with [c]. *)
Lemma load_byte_drop h s bs i c rest :
  str_at h s bs -> drop i bs = c :: rest -> load_byte s (Z.of_nat i) h = Done c h /\ drop (S i) bs = rest.
Proof.
  intros Hs Hd. rewrite (load_byte_at _ _ _ _ Hs).
  pose proof (f_equal (head (A:=byte)) Hd) as Hc. rewrite head_lookup, lookup_drop, Nat.add_0_r in Hc.
  rewrite Hc. split; [done|]. rewrite (drop_S _ _ _ Hc) in Hd. by injection Hd.
Qed.

Lemma load_byte_end h s bs i :
  str_at h s bs -> (length bs <= i)%nat -> load_byte s (Z.of_nat i) h = Stuck OutOfBounds.
Proof. intros Hs Hi. by rewrite (load_byte_at _ _ _ _ Hs), lookup_ge_None_2. Qed.

Lemma of_nat_S i : Z.of_nat i + 1 = Z.of_nat (S i).
Proof. lia. Qed.

(** Where [lit] and the string differ first, if they do. *)
Fixpoint lit_match (lit bs : list byte) : option bool :=
  match lit, bs with
  | [], _ => Some true
  | _, [] => None
  | d :: lit', c :: bs' => if decide (c = d) then lit_match lit' bs' else Some false
  end.

Lemma match_literal_spec h s bs lit i :
  str_at h s bs ->
  match_literal s (Z.of_nat i) lit h =
    match lit_match lit (drop i bs) with Some r => Done r h | None => Stuck OutOfBounds end.
Proof.
  intros Hs. revert i. induction lit as [|d lit IH]; intros i; simpl; [done|].
  destruct (drop i bs) as [|c rest] eqn:E.
  - erewrite bind_stuck; [done|]. apply (load_byte_end _ _ bs); [done|].
    rewrite <- (take_drop i bs), E, app_nil_r, length_take. lia.
  - destruct (load_byte_drop _ _ _ _ _ _ Hs E) as [Hl <-]. rewrite (bind_done _ _ _ _ _ Hl).
    destruct (decide (c = d)); [|done]. by rewrite of_nat_S, IH.
Qed.

Lemma lit_match_app lit rest : lit_match lit (lit ++ rest) = Some true.
Proof. induction lit as [|c lit IH]; simpl; [done|]. by rewrite decide_True. Qed.

(** [strncmp] with a literal without NUL, as a test for equality. *)
Lemma strncmp_spec h s bs lit i :
  str_at h s bs -> ch_nul ∉ lit -> (i + length lit <= length bs)%nat ->
  exists r, strncmp (length lit) s (Z.of_nat i) lit h = Done r h /\
    (r = 0 <-> lit_match lit (drop i bs) = Some true).
Proof.
  intros Hs. revert i. induction lit as [|d lit IH]; intros i Hnul Hlen; simpl in *; [by exists 0|].
  destruct (drop i bs) as [|c rest] eqn:E.
  { apply (f_equal length) in E. rewrite length_drop in E. simpl in E. lia. }
  destruct (load_byte_drop _ _ _ _ _ _ Hs E) as [Hl <-]. rewrite (bind_done _ _ _ _ _ Hl). simpl.
  apply not_elem_of_cons in Hnul as [Hd Hnul]. destruct (decide (c = d)) as [->|Hne].
  - rewrite decide_False by done. rewrite of_nat_S. apply IH; [done|lia].
  - eexists. split; [done|]. split; [|done]. intros Hr. exfalso. apply Hne.
    unfold char_Z in Hr. assert (Byte.to_N c = Byte.to_N d) as Heq by lia.
    pose proof (Byte.of_to_N c). pose proof (Byte.of_to_N d). congruence.
Qed.

(** ** The searches and the parser, on lists

    [None]: the list ends before the result is decided, so that the C function
    reads past the end of the block. *)

(** The index of [x], if it comes before a NUL. *)
Fixpoint find_char (x : byte) (bs : list byte) : option (option nat) :=
  match bs with
  | [] => None
  | c :: bs' =>
      if decide (c = x) then Some (Some O)
      else if decide (c = ch_nul) then Some None
      else option_map (fmap (M:=option) S) (find_char x bs')
  end.

(** The longest run of characters at the beginning that satisfy [f]. *)
Fixpoint run_of (f : byte -> bool) (bs : list byte) : list byte :=
  match bs with
  | c :: bs' => if f c then c :: run_of f bs' else []
  | [] => []
  end.

Definition digits_value (ds : list byte) (acc : Z) : Z :=
  foldl (fun acc c => 10 * acc + (char_Z c - 48)) acc ds.

(** The number at the beginning, after white space and a sign, and how many
    characters it takes; none when there is no digit. *)
Definition number_at (bs : list byte) : option (Z * nat) :=
  let j := length (run_of isspace bs) in
  match drop j bs with
  | [] => None
  | c :: _ =>
      let k := if is_minus c || is_plus c then S j else j in
      let ds := run_of isdigit (drop k bs) in
      match drop (k + length ds) bs with
      | [] => None
      | _ :: _ =>
          let v := digits_value ds 0 in
          Some (if bool_decide (ds = []) then (0, O)
                else (if ULONG_MAX <? v then ULONG_MAX else if is_minus c then u64 (- v) else v, (k + length ds)%nat))
      end
  end.

(** ** [strstr] *)

Lemma strstr_first h s bs lit :
  str_at h s bs -> lit_match lit bs = Some true -> strstr s lit h = Done (Some 0) h.
Proof.
  intros Hs Hm. unfold strstr. rewrite (bind_done _ _ _ _ _ Hs). simpl.
  change 0 with (Z.of_nat 0). erewrite bind_done; [|by rewrite (match_literal_spec _ _ _ _ _ Hs), drop_0, Hm]. done.
Qed.

Lemma strstr_loop_char h s bs x i n :
  str_at h s bs -> (length bs < i + n)%nat ->
  strstr_loop n s (Z.of_nat i) [x] h =
    match find_char x (drop i bs) with
    | Some r => Done ((fun j => Z.of_nat (i + j)) <$> r) h
    | None => Stuck OutOfBounds
    end.
Proof.
  intros Hs. revert i. induction n as [|n IH]; intros i Hn; cbn [strstr_loop].
  { by rewrite drop_ge by lia. }
  unfold mbind at 1, M_bind at 1. rewrite (match_literal_spec _ _ _ _ _ Hs).
  destruct (drop i bs) as [|c rest] eqn:E; cbn [lit_match find_char]; [done|].
  destruct (load_byte_drop _ _ _ _ _ _ Hs E) as [Hl <-].
  destruct (decide (c = x)); [cbn [fmap option_fmap option_map]; by rewrite Nat.add_0_r|].
  rewrite (bind_done _ _ _ _ _ Hl). destruct (decide (c = ch_nul)); [done|].
  rewrite of_nat_S, IH by lia. destruct (find_char x _) as [[j|]|]; cbn; [|done..]. by rewrite Nat.add_succ_r.
Qed.

(** The search for one character. *)
Lemma strstr_char h s bs x :
  str_at h s bs ->
  strstr s [x] h =
    match find_char x bs with Some r => Done (Z.of_nat <$> r) h | None => Stuck OutOfBounds end.
Proof.
  intros Hs. unfold strstr. rewrite (bind_done _ _ _ _ _ Hs), length_fmap.
  change 0 with (Z.of_nat 0). by rewrite (strstr_loop_char _ _ bs) by (done || lia).
Qed.

Lemma find_char_app x pre tl : x ∉ pre -> ch_nul ∉ pre -> find_char x (pre ++ x :: tl) = Some (Some (length pre)).
Proof.
  induction pre as [|c pre IH]; intros Hx Hn; simpl; [by rewrite decide_True|].
  apply not_elem_of_cons in Hx as [??]. apply not_elem_of_cons in Hn as [??].
  by rewrite !decide_False, IH by done.
Qed.

(** Without the character and without a NUL, the search leaves the block. *)
Lemma find_char_missing x bs : x ∉ bs -> ch_nul ∉ bs -> find_char x bs = None.
Proof.
  induction bs as [|c bs IH]; intros Hx Hn; simpl; [done|].
  apply not_elem_of_cons in Hx as [??]. apply not_elem_of_cons in Hn as [??].
  by rewrite !decide_False, IH by done.
Qed.

(** ** [strtoul] *)

Lemma skip_space_exact h s bs i n :
  str_at h s bs -> (length bs < i + n)%nat ->
  let j := (i + length (run_of isspace (drop i bs)))%nat in
  skip_space n s (Z.of_nat i) h = match drop j bs with [] => Stuck OutOfBounds | _ :: _ => Done (Z.of_nat j) h end.
Proof.
  intros Hs. revert i. induction n as [|n IH]; intros i Hn; cbn [skip_space].
  { by rewrite !drop_ge by lia. }
  destruct (drop i bs) as [|c rest] eqn:E; cbn [run_of].
  { rewrite drop_ge by (apply (f_equal length) in E; rewrite length_drop in E; simpl in *; lia).
    apply bind_stuck, (load_byte_end _ _ bs); [done|]. apply (f_equal length) in E. rewrite length_drop in E. simpl in E. lia. }
  destruct (load_byte_drop _ _ _ _ _ _ Hs E) as [Hl Hd]. rewrite (bind_done _ _ _ _ _ Hl).
  destruct (isspace c); simpl length; [|by rewrite Nat.add_0_r, E].
  rewrite of_nat_S, IH by lia. by rewrite Hd, Nat.add_succ_r.
Qed.

Lemma digits_loop_exact h s bs i n acc :
  str_at h s bs -> (length bs < i + n)%nat ->
  let ds := run_of isdigit (drop i bs) in
  digits_loop n s (Z.of_nat i) acc h =
    match drop (i + length ds) bs with
    | [] => Stuck OutOfBounds
    | _ :: _ => Done (digits_value ds acc, Z.of_nat (i + length ds)) h
    end.
Proof.
  intros Hs. revert i acc. induction n as [|n IH]; intros i acc Hn; cbn [digits_loop].
  { by rewrite !drop_ge by lia. }
  destruct (drop i bs) as [|c rest] eqn:E; cbn [run_of].
  { rewrite drop_ge by (apply (f_equal length) in E; rewrite length_drop in E; simpl in *; lia).
    apply bind_stuck, (load_byte_end _ _ bs); [done|]. apply (f_equal length) in E. rewrite length_drop in E. simpl in E. lia. }
  destruct (load_byte_drop _ _ _ _ _ _ Hs E) as [Hl Hd]. rewrite (bind_done _ _ _ _ _ Hl).
  destruct (isdigit c); simpl length; [|by rewrite Nat.add_0_r, E].
  rewrite of_nat_S, IH by lia. rewrite Hd, Nat.add_succ_r. done.
Qed.

(** Any call of [strtoul]. *)
Lemma strtoul_exact h s bs i :
  str_at h s bs ->
  strtoul s (Z.of_nat i) h =
    match number_at (drop i bs) with
    | Some (v, k) => Done (v, Z.of_nat (i + k)) h
    | None => Stuck OutOfBounds
    end.
Proof.
  intros Hs. unfold strtoul, number_at. rewrite (bind_done _ _ _ _ _ Hs), length_fmap. cbv zeta.
  unfold mbind at 1, M_bind at 1. rewrite (skip_space_exact _ _ bs) by (done || lia). rewrite <- drop_drop.
  set (j := length (run_of isspace (drop i bs))).
  destruct (drop j (drop i bs)) as [|c rest] eqn:E; [done|]. rewrite drop_drop in E.
  destruct (load_byte_drop _ _ _ _ _ _ Hs E) as [Hl _]. rewrite (bind_done _ _ _ _ _ Hl).
  set (k := if is_minus c || is_plus c then S j else j).
  replace (if is_minus c || is_plus c then Z.of_nat (i + j) + 1 else Z.of_nat (i + j)) with (Z.of_nat (i + k))
    by (unfold k; destruct (_ || _); lia).
  unfold mbind at 1, M_bind at 1. rewrite (digits_loop_exact _ _ bs) by (done || lia). cbv zeta.
  rewrite !drop_drop. set (ds := run_of isdigit (drop (i + k) bs)). rewrite Nat.add_assoc.
  destruct (drop (i + k + length ds) bs); [done|]. cbn [fst snd]. case_bool_decide as Eds.
  - rewrite Eds, Nat.add_0_r, Z.eqb_refl. by rewrite Nat.add_0_r.
  - rewrite (proj2 (Z.eqb_neq _ _)) by (destruct ds; [done|simpl length; lia]). rewrite Nat.add_assoc. by case_match.
Qed.

Lemma run_of_app f ds c tl : Forall (fun c => f c = true) ds -> f c = false -> run_of f (ds ++ c :: tl) = ds.
Proof. intros Hds Hc. induction Hds as [|d ds Hd _ IH]; simpl; [by rewrite Hc|]. by rewrite Hd, IH. Qed.

Lemma isdigit_not_space c : isdigit c = true -> isspace c = false /\ is_minus c = false /\ is_plus c = false.
Proof.
  unfold isdigit, isspace, is_minus, is_plus. intros H. zbool.
  rewrite (proj2 (Z.eqb_neq _ 32)), (proj2 (Z.leb_gt _ 13)), andb_false_r by lia.
  split; [done|]. split; apply Z.eqb_neq; lia.
Qed.

(** A run of digits, closed by another character: its value, cut to
    [ULONG_MAX], and its length. *)
Lemma number_at_digits ds c tl :
  Forall (fun c => isdigit c = true) ds -> ds <> [] -> isdigit c = false ->
  number_at (ds ++ c :: tl) = Some (Z.min (digits_value ds 0) ULONG_MAX, length ds).
Proof.
  intros Hds Hne Hc. unfold number_at. destruct ds as [|d ds]; [done|].
  destruct (isdigit_not_space _ (Forall_inv Hds)) as (Hsp & Hmin & Hplus).
  assert (run_of isspace ((d :: ds) ++ c :: tl) = []) as -> by (simpl; by rewrite Hsp).
  cbn [length drop app]. rewrite Hmin, Hplus. cbn [orb]. change (drop 0 ?x) with x.
  change (d :: ds ++ c :: tl) with ((d :: ds) ++ c :: tl). rewrite (run_of_app isdigit) by done.
  cbn [Nat.add]. rewrite drop_app_length. rewrite bool_decide_eq_false_2 by done.
  destruct (Z.ltb_spec ULONG_MAX (digits_value (d :: ds) 0)); [by rewrite Z.min_r by lia|by rewrite Z.min_l by lia].
Qed.

(** A NUL stops every search, and every number. *)
Lemma find_char_nul x bs : ch_nul ∈ bs -> is_Some (find_char x bs).
Proof.
  induction bs as [|c bs IH]; simpl; [by intros ?%not_elem_of_nil|].
  intros Hin. destruct (decide (c = x)); [by eexists|]. destruct (decide (c = ch_nul)); [by eexists|].
  apply elem_of_cons in Hin as [?|Hin]; [congruence|]. destruct (IH Hin) as [r ->]. by eexists.
Qed.

Lemma find_char_before x bs i : find_char x bs = Some (Some i) -> ch_nul ∉ take (S i) bs \/ x = ch_nul.
Proof.
  revert i. induction bs as [|c bs IH]; intros i; simpl; [done|].
  destruct (decide (c = x)) as [->|Hne].
  - intros [= <-]. destruct (decide (x = ch_nul)); [by right|left].
    intros [?|?%not_elem_of_nil]%elem_of_cons; congruence.
  - destruct (decide (c = ch_nul)); [done|]. destruct (find_char x bs) as [[j|]|]; simpl; try done.
    intros [= <-]. destruct (IH j eq_refl) as [Hn| ->]; [left|by right].
    intros [?|?]%elem_of_cons; congruence.
Qed.

Lemma run_of_stops f bs x : f x = false -> x ∈ bs -> x ∈ drop (length (run_of f bs)) bs.
Proof.
  intros Hf. induction bs as [|c bs IH]; simpl; [done|]. intros Hin. destruct (f c) eqn:Hc; simpl; [|done].
  apply elem_of_cons in Hin as [->|Hin]; [congruence|by apply IH].
Qed.

Lemma number_at_nul bs : ch_nul ∈ bs -> is_Some (number_at bs).
Proof.
  intros Hin. unfold number_at. pose proof (run_of_stops isspace bs ch_nul eq_refl Hin) as Hj.
  set (j := length (run_of isspace bs)) in *. destruct (drop j bs) as [|c rest] eqn:E; [by apply not_elem_of_nil in Hj|].
  set (k := if is_minus c || is_plus c then S j else j).
  assert (ch_nul ∈ drop k bs) as Hk.
  { unfold k. destruct (is_minus c || is_plus c) eqn:Es; [|by rewrite E].
    rewrite <- Nat.add_1_r, <- drop_drop, E. simpl. apply elem_of_cons in Hj as [<-|Hj]; [done|by rewrite drop_0]. }
  pose proof (run_of_stops isdigit _ ch_nul eq_refl Hk) as Hd. rewrite drop_drop in Hd.
  destruct (drop (k + length _) bs); [by apply not_elem_of_nil in Hd|by eexists].
Qed.
End facts.
