(* ===== verification/SeekCommand.v ===== *)
(** * [server/src/aesdsocket.c]: what a received packet is

    The three functions that inspect the accumulated data: the checks for a
    NUL and for a newline, and the parser of the seek command
    [AESDCHAR_IOCSEEKTO:<cmd>,<offset>]. *)

From Stdlib.Strings Require Import String.
From S2P Require Import Prelude CInt CMem Footprint Common CircularBuffer TemporaryBuffer.
From S2P Require Import CharDevice Concrete CString.

Definition SEEK_CMD_PREFIX : list byte := bytes "AESDCHAR_IOCSEEKTO:".
Definition ch_comma : byte := x2c.

(** [for (i = 0; i < len; i++) if (str[i] == c) ...], [n] iterations before
    the end: the position of [c]. *)
Fixpoint scan_for (c : byte) (n : nat) (str : ptr) (i : Z) : M (option Z) :=
  match n with
  | O => mret None
  | S n' =>
      d ← load_byte str i;
      if decide (d = c) then mret (Some i) else scan_for c n' str (i + 1)
  end.

Definition checkForNullCharInString (str : ptr) (len : Z) : M bool :=
  if is_null str || (len <=? 0) then mret true
  else
    found ← scan_for ch_nul (Z.to_nat len) str 0;
    mret (bool_decide (is_Some found)).

(** [newlinePosition] is [None] when the caller passes [NULL]. *)
Definition checkForNewlineCharInString (str : ptr) (len : Z) (newlinePosition : option Z)
    : M (bool * option Z) :=
  if is_null str || (len <=? 0) then mret (true, newlinePosition)
  else
    found ← scan_for ch_newline (Z.to_nat len) str 0;
    match found with
    | Some i => mret (true, match newlinePosition with Some _ => Some i | None => None end)
    | None => mret (false, newlinePosition)
    end.

(** Returns the result and [*command]. *)
Definition checkForCommandInString (buffer : ptr) (size : Z) (command : aesd_seekto)
    : M (bool * aesd_seekto) :=
  if is_null buffer || (size =? 0) then mret (false, command)
  else
    let prefixLen := Z.of_nat (length SEEK_CMD_PREFIX) in
    if size <? prefixLen then mret (false, command)
    else
      cmp ← strncmp (length SEEK_CMD_PREFIX) buffer 0 SEEK_CMD_PREFIX;
      if negb (cmp =? 0) then mret (false, command)
      else
        cmdPosition ← strstr buffer SEEK_CMD_PREFIX;
        match cmdPosition with
        | None => mret (false, command)
        | Some pos =>
            let cmdFirstArg := pos + prefixLen in
            first ← strtoul buffer cmdFirstArg;
            if first.2 =? cmdFirstArg then mret (false, command)
            else
              comma ← strstr buffer [ch_comma];
              match comma with
              | None => mret (false, command)
              | Some comma =>
                  let cmdSecondArg := comma + 1 in
                  second ← strtoul buffer cmdSecondArg;
                  if second.2 =? cmdSecondArg then mret (false, command)
                  else mret (true, Seekto (u32 first.1) (u32 second.1))
              end
        end.

(** ** The scans *)

Section facts.
Implicit Types (h : heap) (s : ptr) (bs : list byte).

Lemma scan_for_spec c n h s bs i :
  str_at h s bs -> (i + n <= length bs)%nat ->
  exists r, scan_for c n s (Z.of_nat i) h = Done r h /\
    (is_Some r <-> c ∈ take n (drop i bs)) /\
    (forall j, r = Some j -> 0 <= j /\ bs !! Z.to_nat j = Some c).
Proof.
  intros Hs. revert i. induction n as [|n IH]; intros i Hn; simpl.
  - exists None. split_and!; [done| |done]. rewrite take_0. split; [by intros []|by intros ?%not_elem_of_nil].
  - destruct (lookup_lt_is_Some_2 bs i) as [d Hd]; [lia|].
    rewrite (bind_done _ _ _ d h) by by rewrite (load_byte_at _ _ _ _ Hs), Hd.
    rewrite (drop_S _ _ _ Hd). simpl. destruct (decide (d = c)) as [->|Hne].
    + exists (Some (Z.of_nat i)). split_and!; [done| |].
      * split; [intros _; by left|by eexists].
      * intros j [= <-]. rewrite Nat2Z.id. split; [lia|done].
    + rewrite of_nat_S. destruct (IH (S i)) as (r & E & Hr & Hpos); [lia|].
      exists r. split_and!; [done| |done]. rewrite Hr, elem_of_cons. split; [by right|by intros [->|?]].
Qed.

Lemma checkForNewline_spec h s bs len pos :
  str_at h s bs -> s <> NULL -> 0 < len <= Z.of_nat (length bs) ->
  exists pos', checkForNewlineCharInString s len pos h =
    Done (bool_decide (ch_newline ∈ take (Z.to_nat len) bs), pos') h.
Proof.
  intros Hs Hnull Hlen. unfold checkForNewlineCharInString, is_null.
  rewrite bool_decide_eq_false_2, (proj2 (Z.leb_gt _ _)) by (done || lia). cbn [orb]. change 0 with (Z.of_nat 0).
  destruct (scan_for_spec ch_newline (Z.to_nat len) h s bs 0 Hs ltac:(lia)) as (r & E & Hr & _).
  rewrite (bind_done _ _ _ _ _ E). rewrite drop_0 in Hr. destruct r as [j|].
  - eexists. rewrite bool_decide_eq_true_2; [done|]. apply Hr. by eexists.
  - eexists. rewrite bool_decide_eq_false_2; [done|]. intros ?%Hr. by destruct H.
Qed.

Lemma checkForNull_spec h s bs len :
  str_at h s bs -> s <> NULL -> 0 < len <= Z.of_nat (length bs) ->
  checkForNullCharInString s len h = Done (bool_decide (ch_nul ∈ take (Z.to_nat len) bs)) h.
Proof.
  intros Hs Hnull Hlen. unfold checkForNullCharInString, is_null.
  rewrite bool_decide_eq_false_2, (proj2 (Z.leb_gt _ _)) by (done || lia). cbn [orb]. change 0 with (Z.of_nat 0).
  destruct (scan_for_spec ch_nul (Z.to_nat len) h s bs 0 Hs ltac:(lia)) as (r & E & Hr & _).
  rewrite (bind_done _ _ _ _ _ E). rewrite drop_0 in Hr. do 2 f_equal. by apply bool_decide_ext.
Qed.

(** ** The parser *)

Lemma prefix_no_nul : ch_nul ∉ SEEK_CMD_PREFIX.
Proof. apply (bool_decide_unpack (ch_nul ∉ SEEK_CMD_PREFIX)). by vm_compute. Qed.
Lemma prefix_no_comma : ch_comma ∉ SEEK_CMD_PREFIX.
Proof. apply (bool_decide_unpack (ch_comma ∉ SEEK_CMD_PREFIX)). by vm_compute. Qed.

(** Is it a seek command? *)
Definition has_prefix (bs : list byte) : bool :=
  match lit_match SEEK_CMD_PREFIX bs with Some true => true | _ => false end.

(** What the parser finds in a text: a command, none, or ([None]) the end of
    the text before it knows. *)
Definition command_of (bs : list byte) : option (option aesd_seekto) :=
  if negb (has_prefix bs) then Some None
  else
    match number_at (drop (length SEEK_CMD_PREFIX) bs) with
    | None => None
    | Some (_, O) => Some None
    | Some (first, S _) =>
        match find_char ch_comma bs with
        | None => None
        | Some None => Some None
        | Some (Some i) =>
            match number_at (drop (S i) bs) with
            | None => None
            | Some (_, O) => Some None
            | Some (second, S _) => Some (Some (Seekto (u32 first) (u32 second)))
            end
        end
    end.

Lemma lit_match_length lit bs : lit_match lit bs = Some true -> (length lit <= length bs)%nat.
Proof.
  revert bs. induction lit as [|d lit IH]; intros [|c bs]; simpl; try (done || lia).
  destruct (decide _); [|done]. intros Hm. specialize (IH _ Hm). lia.
Qed.

Lemma lit_match_take lit bs : lit_match lit bs = Some true -> take (length lit) bs = lit.
Proof.
  revert bs. induction lit as [|d lit IH]; intros [|c bs]; simpl; try done.
  destruct (decide _) as [->|]; [|done]. intros Hm. by rewrite (IH _ Hm).
Qed.

(** Has [strtoul] moved? *)
Lemma moved_eqb i k : (Z.of_nat (i + k) =? Z.of_nat i) = match k with O => true | S _ => false end.
Proof. destruct k; [apply Z.eqb_eq; lia|apply Z.eqb_neq; lia]. Qed.

(** On any text, the parser does what [command_of] says. *)
Lemma checkForCommandInString_exact h s bs command :
  str_at h s bs -> s <> NULL ->
  checkForCommandInString s (Z.of_nat (length bs)) command h =
    match command_of bs with
    | Some (Some c) => Done (true, c) h
    | Some None => Done (false, command) h
    | None => Stuck OutOfBounds
    end.
Proof.
  intros Hs Hnull. unfold checkForCommandInString, command_of, is_null. rewrite bool_decide_eq_false_2 by done. cbn [orb].
  assert (has_prefix bs = true -> length SEEK_CMD_PREFIX <= length bs)%nat as Hlong.
  { unfold has_prefix. intros Hp. apply lit_match_length. by destruct (lit_match SEEK_CMD_PREFIX bs) as [[]|]. }
  assert (0 < length SEEK_CMD_PREFIX)%nat by (vm_compute; lia).
  destruct (Z.eqb_spec (Z.of_nat (length bs)) 0).
  { destruct (has_prefix bs); [specialize (Hlong eq_refl); lia|done]. }
  destruct (Z.ltb_spec (Z.of_nat (length bs)) (Z.of_nat (length SEEK_CMD_PREFIX))).
  { destruct (has_prefix bs); [specialize (Hlong eq_refl); lia|done]. }
  destruct (strncmp_spec h s bs SEEK_CMD_PREFIX 0 Hs prefix_no_nul ltac:(lia)) as (r & E & Hr).
  change (Z.of_nat 0) with 0 in E. rewrite (bind_done _ _ _ _ _ E), drop_0 in *. clear E.
  destruct (Z.eqb_spec r 0) as [Hz|Hz]; cbn [negb].
  2:{ unfold has_prefix. destruct (lit_match SEEK_CMD_PREFIX bs) as [[]|]; [by destruct Hz; apply Hr|done..]. }
  apply Hr in Hz as Hm. unfold has_prefix at 1. rewrite Hm. cbn [negb].
  rewrite (bind_done _ _ _ _ _ (strstr_first _ _ _ _ Hs Hm)), Z.add_0_l.
  unfold mbind at 1, M_bind at 1. rewrite (strtoul_exact _ _ bs _ Hs).
  destruct (number_at _) as [[v k]|]; [|done]. cbn [fst snd]. rewrite moved_eqb. destruct k; [done|].
  unfold mbind at 1, M_bind at 1. rewrite (strstr_char _ _ bs) by done.
  destruct (find_char ch_comma bs) as [[i|]|]; [|done..]. cbn [fmap option_fmap option_map].
  rewrite of_nat_S. unfold mbind at 1, M_bind at 1. rewrite (strtoul_exact _ _ bs _ Hs).
  destruct (number_at (drop (S i) bs)) as [[v2 k2]|]; [|done]. cbn [fst snd]. rewrite moved_eqb. by destruct k2.
Qed.

(** Anything without the prefix is told apart without leaving the buffer. *)
Lemma command_of_other bs : has_prefix bs = false -> command_of bs = Some None.
Proof. unfold command_of. by intros ->. Qed.

(** A NUL keeps the parser inside. *)
Lemma command_of_nul bs : ch_nul ∈ bs -> command_of bs <> None.
Proof.
  intros Hin. unfold command_of. destruct (has_prefix bs) eqn:Hp; cbn [negb]; [|done].
  assert (ch_nul ∈ drop (length SEEK_CMD_PREFIX) bs) as Hin1.
  { unfold has_prefix in Hp. destruct (lit_match SEEK_CMD_PREFIX bs) as [[]|] eqn:Hm; try done.
    rewrite <- (take_drop (length SEEK_CMD_PREFIX) bs), (lit_match_take _ _ Hm) in Hin.
    apply elem_of_app in Hin as [Hin|Hin]; [by apply prefix_no_nul in Hin|done]. }
  destruct (number_at_nul _ Hin1) as [[v [|k]] ->]; [done|].
  destruct (find_char_nul ch_comma _ Hin) as [[i|] Ei]; rewrite Ei; [|done].
  destruct (find_char_before _ _ _ Ei) as [Hb|]; [|done].
  assert (ch_nul ∈ drop (S i) bs) as Hin2.
  { rewrite <- (take_drop (S i) bs) in Hin. by apply elem_of_app in Hin as [Hin|Hin]. }
  by destruct (number_at_nul _ Hin2) as [[v2 [|k2]] ->].
Qed.

(** A run of decimal digits. *)
Definition number (ds : list byte) : Prop := Forall (fun c => isdigit c = true) ds /\ ds <> [].

Lemma number_no c ds : number ds -> isdigit c = false -> c ∉ ds.
Proof. intros [Hds _] Hc Hin. rewrite Forall_forall in Hds. specialize (Hds _ Hin). congruence. Qed.

Lemma prefix_number_no c ds : number ds -> isdigit c = false -> c ∉ SEEK_CMD_PREFIX -> c ∉ SEEK_CMD_PREFIX ++ ds.
Proof. intros Hds Hc Hp [?|?]%elem_of_app; [done|]. by eapply number_no. Qed.

(** Up to the first argument. *)
Lemma command_first ds c tl :
  number ds -> isdigit c = false ->
  command_of (SEEK_CMD_PREFIX ++ ds ++ c :: tl) =
    match find_char ch_comma (SEEK_CMD_PREFIX ++ ds ++ c :: tl) with
    | None => None
    | Some None => Some None
    | Some (Some i) =>
        match number_at (drop (S i) (SEEK_CMD_PREFIX ++ ds ++ c :: tl)) with
        | None => None
        | Some (_, O) => Some None
        | Some (second, S _) => Some (Some (Seekto (u32 (Z.min (digits_value ds 0) ULONG_MAX)) (u32 second)))
        end
    end.
Proof.
  intros [Hds Hne] Hc. unfold command_of, has_prefix. rewrite lit_match_app. cbn [negb].
  rewrite drop_app_length, number_at_digits by done. by destruct ds.
Qed.

(** Two numbers after the prefix, separated by a comma and closed by any
    character that is not a digit; whatever follows is ignored. *)
Lemma command_of_numbers ds1 ds2 c tl :
  number ds1 -> number ds2 -> isdigit c = false ->
  command_of (SEEK_CMD_PREFIX ++ ds1 ++ ch_comma :: ds2 ++ c :: tl) =
    Some (Some (Seekto (u32 (Z.min (digits_value ds1 0) ULONG_MAX)) (u32 (Z.min (digits_value ds2 0) ULONG_MAX)))).
Proof.
  intros H1 H2 Hc. rewrite command_first by done. rewrite app_assoc.
  rewrite find_char_app by (by apply prefix_number_no; [| |apply prefix_no_comma || apply prefix_no_nul]).
  change (?x ++ ch_comma :: ?y) with (x ++ [ch_comma] ++ y). rewrite app_assoc, <- Nat.add_1_r.
  change 1%nat with (length [ch_comma]). rewrite <- length_app, drop_app_length, number_at_digits by (done || apply H2).
  destruct H2 as [_ H2]. by destruct ds2.
Qed.

(** A first number but no comma: [strstr] runs past the end of the buffer. *)
Lemma command_of_overread ds c tl :
  number ds -> isdigit c = false -> ch_comma ∉ c :: tl -> ch_nul ∉ c :: tl ->
  command_of (SEEK_CMD_PREFIX ++ ds ++ c :: tl) = None.
Proof.
  intros Hds Hc Hcomma Hnul. rewrite command_first by done. rewrite app_assoc, find_char_missing; [done|..];
    intros [Hin|Hin]%elem_of_app; try done; revert Hin; apply prefix_number_no; try done;
    [apply prefix_no_comma|apply prefix_no_nul].
Qed.
End facts.

(** ** Printing a command *)

(** Decimal digits, the most significant first; [n] digits at most. *)
Fixpoint decimal (n : nat) (x : Z) : list byte :=
  match n with
  | O => []
  | S n' => (if x <? 10 then [] else decimal n' (x / 10)) ++ [Z_byte (48 + x mod 10)]
  end.

(** The text a client sends for a seek; twenty digits hold an [unsigned long]. *)
Definition format_command (c : aesd_seekto) : list byte :=
  SEEK_CMD_PREFIX ++ decimal 20 (write_cmd c) ++ [ch_comma] ++ decimal 20 (write_cmd_offset c) ++ [ch_newline].

Lemma char_Z_byte x : 0 <= x < 256 -> char_Z (Z_byte x) = x.
Proof.
  intros Hx. unfold Z_byte. rewrite u8_small by lia.
  destruct (Byte.of_N (Z.to_N x)) as [c|] eqn:E; simpl.
  - apply Byte.to_of_N in E. unfold char_Z. rewrite E. lia.
  - apply Byte.of_N_None_iff in E. lia.
Qed.

Lemma decimal_digits n x : 0 <= x -> Forall (fun c => isdigit c = true) (decimal n x).
Proof.
  revert x. induction n as [|n IH]; intros x Hx; simpl; [done|].
  apply Forall_app. split; [destruct (x <? 10); [done|]; apply IH; lia_mod|].
  constructor; [|done]. unfold isdigit. rewrite char_Z_byte by lia_mod.
  rewrite (proj2 (Z.leb_le _ _)), (proj2 (Z.leb_le _ _)) by lia_mod. done.
Qed.

Lemma decimal_nonempty n x : decimal (S n) x <> [].
Proof. simpl. by destruct (if x <? 10 then [] else decimal n (x / 10)). Qed.

Lemma decimal_value n x : 0 <= x < 10 ^ Z.of_nat n -> (0 < n)%nat -> digits_value (decimal n x) 0 = x.
Proof.
  revert x. induction n as [|n IH]; intros x Hx Hn; [lia|]. cbn [decimal]. unfold digits_value.
  rewrite foldl_app. simpl. rewrite char_Z_byte by lia_mod. destruct (Z.ltb_spec x 10); simpl.
  - rewrite Z.mod_small; lia.
  - rewrite Nat2Z.inj_succ, Z.pow_succ_r in Hx by lia.
    fold (digits_value (decimal n (x / 10)) 0). rewrite IH; [lia_mod|lia_mod|].
    destruct n; [simpl in Hx; lia|lia].
Qed.

Lemma decimal_no c n x : isdigit c = false -> 0 <= x -> c ∉ decimal n x.
Proof.
  intros Hc Hx Hin. pose proof (decimal_digits n x Hx) as Hd. rewrite Forall_forall in Hd.
  specialize (Hd _ Hin). congruence.
Qed.

(** The text of a command, parsed. *)
Lemma command_of_format c :
  0 <= write_cmd c < 2 ^ 64 -> 0 <= write_cmd_offset c < 2 ^ 64 ->
  command_of (format_command c) = Some (Some (Seekto (u32 (write_cmd c)) (u32 (write_cmd_offset c)))).
Proof.
  intros H1 H2. unfold format_command.
  change (command_of _) with (command_of (SEEK_CMD_PREFIX ++ decimal 20 (write_cmd c) ++ ch_comma ::
    decimal 20 (write_cmd_offset c) ++ ch_newline :: [])).
  rewrite command_of_numbers; [|split; [apply decimal_digits; lia|apply decimal_nonempty]..|done].
  rewrite !decimal_value by lia. unfold ULONG_MAX. by rewrite !Z.min_l by lia.
Qed.

(** ** Properties *)

(** C32: printing and parsing: the text a client sends for a seek is parsed
    back to it, up to the 32 bits of its fields: a value from [2 ^ 32] on
    silently becomes another one.  The parser stays inside the buffer, which
    does not end with a NUL. *)
Theorem seek_command_roundtrip h s c command :
  str_at h s (format_command c) -> s <> NULL ->
  0 <= write_cmd c < 2 ^ 64 -> 0 <= write_cmd_offset c < 2 ^ 64 ->
  exists c', checkForCommandInString s (Z.of_nat (length (format_command c))) command h = Done (true, c') h /\
    c' = Seekto (write_cmd c mod 2 ^ 32) (write_cmd_offset c mod 2 ^ 32) /\
    (write_cmd c < 2 ^ 32 -> write_cmd_offset c < 2 ^ 32 -> c' = c).
Proof.
  intros Hs Hnull H1 H2. eexists. rewrite (checkForCommandInString_exact _ _ _ _ Hs Hnull), command_of_format by done.
  split; [done|]. split; [done|].
  intros ??. rewrite !u32_small by lia. by destruct c.
Qed.

(** C40: the parser, on every text: it answers what [command_of] finds there.
    It stays inside a buffer whose text does not begin with the prefix, and
    inside one that holds a NUL, but the server's buffers hold none: a command
    without its comma is read past the end. *)
Theorem command_parser_exact h s bs command :
  str_at h s bs -> s <> NULL ->
  checkForCommandInString s (Z.of_nat (length bs)) command h =
    match command_of bs with
    | Some (Some c) => Done (true, c) h
    | Some None => Done (false, command) h
    | None => Stuck OutOfBounds
    end /\
  (has_prefix bs = false -> command_of bs = Some None) /\
  (ch_nul ∈ bs -> command_of bs <> None) /\
  (forall ds, number ds -> bs = SEEK_CMD_PREFIX ++ ds ++ [ch_newline] -> command_of bs = None).
Proof.
  intros Hs Hnull. split; [by apply checkForCommandInString_exact|]. split; [apply command_of_other|].
  split; [apply command_of_nul|]. intros ds Hds ->.
  apply command_of_overread; [done|done|by intros ?%list_elem_of_singleton..].
Qed.

(** The checks for a newline and for a NUL look at the first [len] bytes
    and nothing else: what they answer, and that they stay inside the buffer
    whenever [len] does. *)
Theorem character_checks h s bs len pos :
  str_at h s bs -> s <> NULL -> 0 < len <= Z.of_nat (length bs) ->
  (exists pos', checkForNewlineCharInString s len pos h =
     Done (bool_decide (ch_newline ∈ take (Z.to_nat len) bs), pos') h) /\
  checkForNullCharInString s len h = Done (bool_decide (ch_nul ∈ take (Z.to_nat len) bs)) h.
Proof. intros Hs Hnull Hlen. split; [by apply checkForNewline_spec|by apply checkForNull_spec]. Qed.

(** ** Witnesses *)

Definition text_heap (bs : list byte) : heap := Heap {[1%positive := Some <$> bs]} 2.

Lemma text_heap_at bs : str_at (text_heap bs) (Ptr 1) bs.
Proof. unfold str_at, get_block, text_heap. simpl. by simplify_map_eq. Qed.

Lemma seek_command_roundtrip_witness :
  exists c', checkForCommandInString (Ptr 1) 33 (Seekto 9 9) (text_heap (format_command (Seekto 4294967297 12))) =
      Done (true, c') (text_heap (format_command (Seekto 4294967297 12))) /\
    c' = Seekto 1 12 /\ (4294967297 < 2 ^ 32 -> 12 < 2 ^ 32 -> c' = Seekto 4294967297 12).
Proof.
  exact (seek_command_roundtrip _ (Ptr 1) (Seekto 4294967297 12) (Seekto 9 9) (text_heap_at _)
    ltac:(done) ltac:(simpl; lia) ltac:(simpl; lia)).
Defined.

Lemma command_parser_exact_witness :
  checkForCommandInString (Ptr 1) 23 (Seekto 9 9) (text_heap (SEEK_CMD_PREFIX ++ bytes " +4" ++ nl)) = Stuck OutOfBounds /\
  command_of (SEEK_CMD_PREFIX ++ bytes " +4" ++ nl) = None.
Proof.
  destruct (command_parser_exact _ (Ptr 1) (SEEK_CMD_PREFIX ++ bytes " +4" ++ nl) (Seekto 9 9) (text_heap_at _) ltac:(done))
    as (E & _). split; [exact E|by vm_compute].
Defined.

Lemma character_checks_witness :
  (exists pos', checkForNewlineCharInString (Ptr 1) 2 (Some (-1)) (text_heap (bytes "ab" ++ nl)) =
     Done (false, pos') (text_heap (bytes "ab" ++ nl))) /\
  checkForNullCharInString (Ptr 1) 2 (text_heap (bytes "ab" ++ nl)) = Done false (text_heap (bytes "ab" ++ nl)).
Proof.
  exact (character_checks _ (Ptr 1) (bytes "ab" ++ nl) 2 (Some (-1)) (text_heap_at _) ltac:(done) ltac:(simpl; lia)).
Defined.
