(* ===== verification/DeviceInterface.v ===== *)
(** * The device as the server sees it

    What the server promises its clients rests on what a character device
    promises the server.  [CharDevice] has the operations behind the server's
    [write], [read] and [ioctl] system calls on [/dev/aesdchar];
    [DeviceModel] is an abstract device and [CharDeviceLaws] the contract that
    a state implements it.  The server's theorems are proved from the
    contract; [DriverDevice] proves it of the driver of this repository and
    [FileDevice] of the file that the other build of the server uses. *)

From S2P Require Import Prelude CInt CMem Footprint Common CircularBuffer TemporaryBuffer.
From S2P Require Import Ring CircularFacts CircularSearch CharDevice DeviceFacts WriteFacts SeekFacts.
From S2P Require Import ModuleFacts DeviceSpec.

(** Results are [None] when the kernel faults.  Otherwise: [dev_write s data]
    returns the result and the new state; [dev_read s count pos] the result,
    the new position and the bytes delivered; [dev_seekto s cmd pos] the
    result of the seek ioctl and the new position. *)
Class CharDevice (S : Type) := {
  dev_write : S -> list byte -> option (Z * S);
  dev_read : S -> Z -> Z -> option (Z * Z * list byte);
  dev_seekto : S -> aesd_seekto -> Z -> option (Z * Z)
}.

(** What a device holds, as its users see it: the effect of a write, the text
    a reader gets, how many bytes are held that no reader sees yet, and the
    position in the text that a seek leads to, unless it is refused. *)
Class DeviceModel (C : Type) := {
  model_write : list byte -> C -> C;
  model_text : C -> list byte;
  model_hidden : C -> nat;
  model_seek : aesd_seekto -> C -> option Z;
  model_write_hidden data c : (model_hidden (model_write data c) <= model_hidden c + length data)%nat;
  model_write_size data c :
    (length (model_text (model_write data c)) + model_hidden (model_write data c) <=
     length (model_text c) + model_hidden c + length data)%nat;
  (** A line written in pieces is a line written. *)
  model_write_pieces ps body c :
    concat ps = body ++ [ch_newline] -> ch_newline ∉ body ->
    foldl (fun c w => model_write w c) c ps = model_write (body ++ [ch_newline]) c;
  model_seek_range cmd c pos : model_seek cmd c = Some pos -> 0 <= pos <= Z.of_nat (length (model_text c))
}.

Definition text_size {C} `{DeviceModel C} (c : C) : Z := Z.of_nat (length (model_text c)).

Lemma model_writes_size {C} `{DeviceModel C} ws (c : C) :
  let c' := foldl (fun c w => model_write w c) c ws in
  text_size c' + Z.of_nat (model_hidden c') <=
    text_size c + Z.of_nat (model_hidden c) + Z.of_nat (length (concat ws)) /\
  (model_hidden c' <= model_hidden c + length (concat ws))%nat.
Proof.
  unfold text_size. revert c. induction ws as [|w ws IH]; intros c; simpl; [lia|].
  pose proof (IH (model_write w c)) as IHw. simpl in IHw. pose proof (model_write_size w c).
  pose proof (model_write_hidden w c). rewrite length_app. lia.
Qed.

(** The contract of a device with the contents [C]. *)
Class CharDeviceLaws (S C : Type) `{CharDevice S} `{DeviceModel C} := {
  (** The contents a state stands for. *)
  dev_abs : S -> C -> Prop;
  (** How many bytes the device has room for beside the text. *)
  dev_limit : Z;
  dev_write_law s c data :
    dev_abs s c -> Z.of_nat (model_hidden c + length data) <= dev_limit ->
    exists s', dev_write s data = Some (Z.of_nat (length data), s') /\ dev_abs s' (model_write data c);
  dev_read_law s c count pos :
    dev_abs s c -> 0 < count -> 0 <= pos <= text_size c ->
    exists data, dev_read s count pos = Some (Z.of_nat (length data), pos + Z.of_nat (length data), data) /\
      Z.of_nat (length data) <= count /\
      (data = [] -> pos = text_size c) /\
      drop (Z.to_nat pos) (model_text c) = data ++ drop (Z.to_nat pos + length data) (model_text c);
  dev_seek_law s c cmd pos :
    dev_abs s c ->
    match model_seek cmd c with
    | Some pos' => dev_seekto s cmd pos = Some (0, pos')
    | None => exists ret, dev_seekto s cmd pos = Some (ret, pos) /\ ret < 0
    end
}.

Section seeks.
Context {S C : Type} `{CharDeviceLaws S C}.

Lemma dev_seek_accepted (s : S) c cmd pos pos' :
  dev_abs s c -> model_seek cmd c = Some pos' -> dev_seekto s cmd pos = Some (0, pos').
Proof. intros Hs E. pose proof (dev_seek_law s c cmd pos Hs) as Hl. by rewrite E in Hl. Qed.

Lemma dev_seek_refused (s : S) c cmd pos :
  dev_abs s c -> model_seek cmd c = None -> exists ret, dev_seekto s cmd pos = Some (ret, pos) /\ ret < 0.
Proof. intros Hs E. pose proof (dev_seek_law s c cmd pos Hs) as Hl. by rewrite E in Hl. Qed.
End seeks.

(** ** Devices of lines

    The last ten lines, a partial one, and the slot where the oldest line
    lies.  A line that pushes the oldest one out moves it to the next slot. *)

Record line_store := Stored { kept : contents; oldest : nat }.

Definition nothing_stored : line_store := Stored no_contents 0.

Definition store_write (data : list byte) (c : line_store) : line_store :=
  Stored (spec_write data (kept c))
    (if has_newline data && bool_decide (length (lines (kept c)) = 10%nat) then succ10 (oldest c) else oldest c).

(** The line in a slot. *)
Definition slot_line (c : line_store) (slot : nat) : list byte :=
  default [] (lines (kept c) !! ((slot + 10 - oldest c) mod 10)%nat).

(** A seek is refused by the line in the slot of its number; the position is
    that of the line of its number, or 0 when that is not long enough. *)
Definition store_seek (s : aesd_seekto) (c : line_store) : option Z :=
  let cmd := u32 (write_cmd s) in
  let off := u32 (write_cmd_offset s) in
  if 10 <=? cmd then None
  else if Z.of_nat (length (slot_line c (Z.to_nat cmd))) <=? off then None
  else Some (seek_position (lines (kept c)) (Z.to_nat cmd) off).

Lemma store_write_hidden data c :
  (length (partial (kept (store_write data c))) <= length (partial (kept c)) + length data)%nat.
Proof. apply spec_write_partial. Qed.

Lemma store_write_size data c :
  (length (text (kept (store_write data c))) + length (partial (kept (store_write data c))) <=
   length (text (kept c)) + length (partial (kept c)) + length data)%nat.
Proof. pose proof (spec_write_size data (kept c)). unfold text, total in *. simpl. lia. Qed.

Lemma store_write_nil c : store_write [] c = c.
Proof. destruct c. unfold store_write. by rewrite spec_write_nil. Qed.

Lemma store_write_join a b c :
  has_newline a = false -> has_newline b = true -> store_write b (store_write a c) = store_write (a ++ b) c.
Proof.
  intros Ha Hb. unfold store_write. cbn [kept oldest]. rewrite spec_write_join, has_newline_app, Ha, Hb by done.
  unfold spec_write. by rewrite Ha.
Qed.

Lemma store_write_pieces ps body c :
  concat ps = body ++ [ch_newline] -> ch_newline ∉ body ->
  foldl (fun c w => store_write w c) c ps = store_write (body ++ [ch_newline]) c.
Proof. intros. by apply line_of_pieces; [apply store_write_nil|apply store_write_join|..]. Qed.

Lemma store_seek_range s c pos : store_seek s c = Some pos -> 0 <= pos <= Z.of_nat (length (text (kept c))).
Proof.
  unfold store_seek. repeat case_match; intros; simplify_eq. apply seek_position_range.
  pose proof (u32_range (write_cmd_offset s)). lia.
Qed.

#[export] Instance lines_model : DeviceModel line_store := {|
  model_write := store_write;
  model_text c := text (kept c);
  model_hidden c := length (partial (kept c));
  model_seek := store_seek;
  model_write_hidden := store_write_hidden;
  model_write_size := store_write_size;
  model_write_pieces := store_write_pieces;
  model_seek_range := store_seek_range
|}.

(** A seek to a byte of a line, when the line in the slot of its number is
    long enough too. *)
Lemma store_seek_accepted c k line off :
  (k < 10)%nat -> lines (kept c) !! k = Some line -> 0 <= off < Z.of_nat (length line) ->
  off < Z.of_nat (length (slot_line c k)) -> off < 2 ^ 32 ->
  store_seek (Seekto (Z.of_nat k) off) c = Some (total (take k (lines (kept c))) + off).
Proof.
  intros Hk El Hoff Hslot H32. unfold store_seek, seek_position. cbn [write_cmd write_cmd_offset].
  rewrite !u32_small, Nat2Z.id, El by lia. zdec. done.
Qed.

(** While no line has been pushed out, it is that very line. *)
Lemma slot_line_in_order c k : oldest c = O -> (k < 10)%nat -> slot_line c k = default [] (lines (kept c) !! k).
Proof.
  intros Ho Hk. unfold slot_line. rewrite Ho.
  replace ((k + 10 - 0) mod 10)%nat with k by (by rewrite Nat.sub_0_r, Nat.Div0.add_mod, Nat.add_0_r, Nat.Div0.mod_mod, Nat.mod_small).
  done.
Qed.
