(* ===== verification/DriverDevice.v ===== *)
(** * The driver implements the device interface

    The state is the driver's structures together with the kernel's heap; a
    system call runs the driver's handler on it.  The laws hold while the
    kernel has memory; [L] is what else is allocated in the kernel. *)

From S2P Require Import Prelude CInt CMem Footprint Common CircularBuffer TemporaryBuffer.
From S2P Require Import Ring CircularFacts CircularSearch CharDevice DeviceFacts WriteFacts SeekFacts.
From S2P Require Import ModuleFacts DeviceSpec DeviceInterface Scenario.

Definition driver_state : Type := aesd_dev * heap.

Definition finished {A} (r : result A) : option (A * heap) :=
  match r with Done a h => Some (a, h) | Stuck _ => None end.

Definition driver_write (A : Allocator) (s : driver_state) (data : list byte) : option (Z * driver_state) :=
  match finished (aesd_write s.1 (user_bytes data) (Z.of_nat (length data)) s.2) with
  | Some (ret, d, h) => Some (ret, (d, h))
  | None => None
  end.

Definition driver_read (s : driver_state) (count pos : Z) : option (Z * Z * list byte) :=
  fst <$> finished (aesd_read s.1 (user_bytes []) count pos s.2).

Definition driver_seekto (s : driver_state) (c : aesd_seekto) (pos : Z) : option (Z * Z) :=
  fst <$> finished (aesd_ioctl s.1 AESDCHAR_IOCSEEKTO (user_bytes (seekto_encode c)) pos s.2).

#[export] Instance driver_device (A : Allocator) : CharDevice driver_state := {|
  dev_write := driver_write A;
  dev_read := driver_read;
  dev_seekto := driver_seekto
|}.

Section laws.
Context (A : Allocator) (L : list chunk) (Hrel : reliable).
Implicit Types (s : driver_state) (c : line_store).

Definition driver_abs s c : Prop := dev_holds s.2 s.1 (kept c) L /\ out_offs (circ s.1) = Z.of_nat (oldest c).

Lemma ring_add_out ok bs r : r_out (ring_add ok bs r) = if r_full r then succ10 (r_out r) else r_out r.
Proof. unfold ring_add, ring_store, ring_release. by destruct ok, (r_full r). Qed.

(** [out_offs] moves when a line is added to ten. *)
Lemma write_out_offs d (c : contents) u data h L' ret d' h' :
  dev_holds h d c L' -> user_ok u -> supplies u data -> 0 <= ret ->
  aesd_write d u (Z.of_nat (length data)) h = Done (ret, d') h' ->
  exists o, out_offs (circ d) = Z.of_nat o /\
    out_offs (circ d') =
      Z.of_nat (if has_newline data && bool_decide (length (lines c) = 10%nat) then succ10 o else o).
Proof.
  intros (r & p & Hd & Hlay & Hflag & _ & Hh) Hu Hsup Hret E.
  destruct (done_wp _ _ _ _ _ E (wp_aesd_write _ _ _ _ _ _ _ Hd Hu (Nat2Z.is_nonneg _) Hh))
    as (r' & p' & Hspec & Hd' & _). cbn [fst snd] in *. unfold supplies in Hsup.
  exists (r_out r). split; [apply Hd|]. rewrite (cm_out _ _ (dm_circ _ _ _ Hd')), <- Hflag. f_equal.
  inversion Hspec as [| |? ? Hf Hnl|? ? Hf Hnl|? Hf Hnl|]; subst; try (unfold ENOMEM, EFAULT in Hret; lia);
    rewrite Hf in Hsup; simplify_eq; rewrite Hnl; [apply ring_add_out..|done].
Qed.

Lemma driver_write_law s c data :
  driver_abs s c -> Z.of_nat (length (partial (kept c)) + length data) <= alloc_max ->
  exists s', driver_write A s data = Some (Z.of_nat (length data), s') /\ driver_abs s' (store_write data c).
Proof.
  destruct s as [d h]. simpl. rewrite <- length_app. intros [Hs Ho] Hsz.
  destruct (wp_done _ _ _ (wp_write_refines d (kept c) (user_bytes data) data h L Hs Hrel (user_bytes_ok data)
              (user_bytes_supplies data) Hsz)) as ([ret d'] & h' & E & Hret & Hd'). simpl in Hret, Hd'. subst ret.
  exists (d', h'). unfold driver_write. simpl. rewrite E. split; [done|]. split; [exact Hd'|]. cbn [fst] in *.
  destruct (write_out_offs d (kept c) (user_bytes data) data h L _ d' h' Hs (user_bytes_ok data)
              (user_bytes_supplies data) (Nat2Z.is_nonneg _) E) as (o & Ho1 & ->).
  rewrite Ho in Ho1. apply Nat2Z.inj in Ho1 as <-. done.
Qed.

Lemma driver_read_law s c count pos :
  driver_abs s c -> 0 < count -> 0 <= pos <= total (lines (kept c)) ->
  exists data, driver_read s count pos = Some (Z.of_nat (length data), pos + Z.of_nat (length data), data) /\
    Z.of_nat (length data) <= count /\ (data = [] -> pos = total (lines (kept c))) /\
    drop (Z.to_nat pos) (text (kept c)) = data ++ drop (Z.to_nat pos + length data) (text (kept c)).
Proof.
  destruct s as [d h]. intros [Hs _] Hc Hpos. pose proof (dev_holds_total _ _ _ _ Hs) as Htot.
  unfold driver_read. simpl.
  rewrite (dev_holds_read d (kept c) (user_bytes []) count pos h L Hs ltac:(lia) ltac:(lia)). simpl.
  destruct (decide (pos = total (lines (kept c)))) as [->|Hne].
  - exists []. unfold read_result. rewrite u64_loff by lia.
    rewrite (proj2 (locate_None (lines (kept c)) (total (lines (kept c))) ltac:(lia)) ltac:(lia)). simpl.
    rewrite Z.add_0_r, Nat.add_0_r. split_and!; [done|lia|done|done].
  - destruct (read_result_progress (user_bytes []) (lines (kept c)) count pos (user_bytes_writable []) Hc
                ltac:(lia) ltac:(lia)) as (n & data & -> & Hn & Hle & _ & Hlen & Hdrop).
    exists data. rewrite Hlen. split_and!; [done|lia|intros ->; simpl in Hlen; lia|].
    unfold text. rewrite Hdrop at 1. do 2 f_equal. lia.
Qed.

Lemma driver_fetch_seekto (cmd : aesd_seekto) :
  user_fetch (user_bytes (seekto_encode cmd)) sizeof_seekto = (seekto_encode cmd, 0).
Proof. done. Qed.

Lemma driver_seek_law s c cmd pos :
  driver_abs s c ->
  match store_seek cmd c with
  | Some pos' => driver_seekto s cmd pos = Some (0, pos')
  | None => exists ret, driver_seekto s cmd pos = Some (ret, pos) /\ ret < 0
  end.
Proof.
  destruct s as [d h]. intros [(r & p & Hd & Hlay & _ & _ & Hh) Ho]. cbn [fst snd] in *.
  assert (driver_seekto (d, h) cmd pos =
    Some (seekto_result r (Seekto (u32 (write_cmd cmd)) (u32 (write_cmd_offset cmd))) pos)) as ->.
  { unfold driver_seekto. cbn [fst snd].
    rewrite (aesd_ioctl_seekto _ _ _ _ _ _ _ _ Hd Hh (driver_fetch_seekto cmd)). simpl.
    by rewrite seekto_decode_encode. }
  rewrite (cm_out _ _ (dm_circ _ _ _ Hd)) in Ho. apply Nat2Z.inj in Ho. pose proof (u32_range (write_cmd cmd)).
  rewrite (seekto_reply _ _ _ _ Hlay), Ho by (cbn [write_cmd]; lia).
  unfold seek_reply, store_seek, slot_line, EINVAL. cbn [write_cmd write_cmd_offset].
  destruct (10 <=? _); [by eexists|]. destruct (_ <=? _); [by eexists|done].
Qed.

Instance driver_laws : @CharDeviceLaws driver_state line_store (driver_device A) _ := {|
  dev_abs := driver_abs;
  dev_limit := alloc_max;
  dev_write_law := driver_write_law;
  dev_read_law := driver_read_law;
  dev_seek_law := driver_seek_law
|}.
End laws.

(** C15: the driver implements the device's contract, for as long as the kernel
    has memory for its lines: the abstraction relation is [dev_holds], with
    [out_offs] the slot of the oldest line.  Writes, reads and seeks, those
    that the wrong range check lets through or refuses included, are those of
    [lines_model]. *)
Theorem driver_is_char_device (A : Allocator) (L : list chunk) :
  reliable ->
  exists laws : @CharDeviceLaws driver_state line_store (driver_device A) lines_model,
    (forall s c, @dev_abs _ _ _ _ laws s c <->
       dev_holds s.2 s.1 (kept c) L /\ out_offs (circ s.1) = Z.of_nat (oldest c)) /\
    @dev_limit _ _ _ _ laws = alloc_max.
Proof. intros Hrel. by exists (driver_laws A L Hrel). Qed.

Lemma driver_is_char_device_witness :
  exists laws : @CharDeviceLaws driver_state line_store (driver_device kmalloc) lines_model,
    @dev_abs _ _ _ _ laws (loaded_dev, loaded_heap) nothing_stored /\ @dev_limit _ _ _ _ laws = 2 ^ 22.
Proof.
  destruct (driver_is_char_device kmalloc [] kmalloc_reliable) as (laws & Habs & Hlim).
  exists laws. split; [apply Habs; split; [exact loaded_holds|done]|exact Hlim].
Defined.
