(* ===== verification/Process.v ===== *)
(** * A process that uses a character device

    The programs of [server/src] are translated to [SM D A], sequences of the
    calls a thread makes: on the heap of the process, on the device it has
    opened, and everything else it asks the system for.  A program is data,
    so it can be run alone ([run]) or one call at a time, between the calls of
    other threads (file Concurrency). *)

From S2P Require Import Prelude CInt CMem Footprint Common CircularBuffer TemporaryBuffer.
From S2P Require Import CharDevice DeviceInterface.

(** ** The outside *)

(** The structure handed to a client's thread; an address is its 16 bytes. *)
Record clientData_t := ClientData { newSockFd : Z; clientLen : Z; clientAddr : list byte }.

(** What a trace records.  [Joined slot] is a call of [pthread_join], which
    returns at once in the thread that names itself. *)
Inductive io_event :=
  | Locked | Unlocked
  | Opened | ClosedFile
  | WroteDevice (data : list byte) (ret : Z)
  | ReadDevice (data : list byte) (ret : Z)
  | SeekDevice (cmd : aesd_seekto) (ret : Z)
  | Sent (sock : Z) (data : list byte)
  | ClosedSocket (sock : Z)
  | ClosedFd (fd : Z)
  | Duplicated (fd onto : Z)
  | HandlerSet (signum flags : Z)
  | Listening (sock backlog : Z)
  | Spawned (slot : Z) (arg : clientData_t)
  | SpawnedTimestamp
  | WrotePipe
  | WroteTimestampPipe
  | Joined (slot : Z)
  | JoinedTimestamp
  | RemovedFile.

Record world (D : Type) := World { uheap : heap; device_of : D; trace : list io_event }.
Arguments World {D}.
Arguments uheap {D}.
Arguments device_of {D}.
Arguments trace {D}.

Inductive server_fault := UserFault (f : fault) | KernelFault.

(** A computation returns, ends the process, has undefined behaviour, or has
    not ended within its loop bound. *)
Inductive outcome (D A : Type) :=
  | Returns (a : A) (w : world D)
  | Exits (code : Z) (w : world D)
  | Faults (f : server_fault)
  | Unfinished.
Arguments Returns {D A}.
Arguments Exits {D A}.
Arguments Faults {D A}.
Arguments Unfinished {D A}.

(** The C library's streams.  [bufsiz]: how much a stream reads ahead;
    [stdio_chunks data]: the pieces in which [fwrite] and the following
    [fclose] pass [data] to [write]; [fopen_ok n]: does the [fopen] made after
    [n] interactions succeed? *)
Class Streams := {
  bufsiz : Z;
  bufsiz_pos : 0 < bufsiz;
  stdio_chunks : list byte -> list (list byte);
  stdio_chunks_concat data : concat (stdio_chunks data) = data;
  fopen_ok : nat -> bool
}.

(** ** Calls and programs *)

(** A call and the type of its answer. *)
Inductive call : Type -> Type :=
  | Memory {X} (m : M X) : call X
  | Event (e : io_event) : call ()
  | Open : call bool
  | Write (data : list byte) : call Z
  | Read (count pos : Z) : call (Z * Z * list byte)
  | SeekTo (cmd : aesd_seekto) (pos : Z) : call (Z * Z)
  | Exit (code : Z) : call Empty_set
  | Crash (f : server_fault) : call Empty_set
  | OutOfFuel : call Empty_set.

Inductive prog (A : Type) : Type :=
  | Ret (a : A)
  | Call {X} (c : call X) (k : X -> prog A).
Arguments Ret {A} a.
Arguments Call {A X} c k.

Fixpoint prog_bind {A B} (p : prog A) (k : A -> prog B) : prog B :=
  match p with
  | Ret a => k a
  | Call c k' => Call c (fun x => prog_bind (k' x) k)
  end.

(** Programs of a process on a device [D]. *)
Definition SM (D : Type) {HD : CharDevice D} {HS : Streams} (A : Type) : Type := prog A.

#[export] Instance SM_ret {D} {HD : CharDevice D} {HS : Streams} : MRet (SM D) := fun A a => Ret a.
#[export] Instance SM_bind {D} {HD : CharDevice D} {HS : Streams} : MBind (SM D) :=
  fun A B k m => prog_bind m k.

#[global] Arguments SM_bind : simpl never.

Section process.
Context {D : Type} `{CharDevice D} `{Streams}.

(** What a call does, and its answer. *)
Definition perform {X} (c : call X) (w : world D) : outcome D X :=
  match c in call X return outcome D X with
  | Memory m =>
      match m (uheap w) with
      | Done x h => Returns x (World h (device_of w) (trace w))
      | Stuck f => Faults (UserFault f)
      end
  | Event e => Returns () (World (uheap w) (device_of w) (trace w ++ [e]))
  | Open =>
      if fopen_ok (length (trace w)) then
        Returns true (World (uheap w) (device_of w) (trace w ++ [Opened]))
      else Returns false w
  | Write data =>
      match dev_write (device_of w) data with
      | Some (ret, d) => Returns ret (World (uheap w) d (trace w ++ [WroteDevice data ret]))
      | None => Faults KernelFault
      end
  | Read count pos =>
      match dev_read (device_of w) count pos with
      | Some (ret, pos', data) =>
          Returns (ret, pos', data) (World (uheap w) (device_of w) (trace w ++ [ReadDevice data ret]))
      | None => Faults KernelFault
      end
  | SeekTo cmd pos =>
      match dev_seekto (device_of w) cmd pos with
      | Some (ret, pos') =>
          Returns (ret, pos') (World (uheap w) (device_of w) (trace w ++ [SeekDevice cmd ret]))
      | None => Faults KernelFault
      end
  | Exit code => Exits code w
  | Crash f => Faults f
  | OutOfFuel => Unfinished
  end.

(** A program run alone. *)
Fixpoint run_prog {A} (p : prog A) (w : world D) : outcome D A :=
  match p with
  | Ret a => Returns a w
  | Call c k =>
      match perform c w with
      | Returns x w' => run_prog (k x) w'
      | Exits code w' => Exits code w'
      | Faults f => Faults f
      | Unfinished => Unfinished
      end
  end.

Definition run {A} (m : SM D A) : world D -> outcome D A := run_prog m.

Lemma run_bind {A B} (m : SM D A) (k : A -> SM D B) w :
  run (m ≫= k) w =
    match run m w with
    | Returns a w' => run (k a) w'
    | Exits code w' => Exits code w'
    | Faults f => Faults f
    | Unfinished => Unfinished
    end.
Proof.
  unfold run, mbind, SM_bind. revert w. induction m as [a|X c k' IH]; intros w; simpl; [done|].
  by destruct (perform c w).
Qed.

(** The calls as programs. *)
Definition on_heap {A} (m : M A) : SM D A := Call (Memory m) Ret.
Definition emit (e : io_event) : SM D () := Call (Event e) Ret.
Definition fopen : SM D bool := Call Open Ret.
Definition sys_write (data : list byte) : SM D Z := Call (Write data) Ret.
Definition sys_read (count pos : Z) : SM D (Z * Z * list byte) := Call (Read count pos) Ret.
Definition sys_seekto (cmd : aesd_seekto) (pos : Z) : SM D (Z * Z) := Call (SeekTo cmd pos) Ret.
Definition crash {A} (f : fault) : SM D A := Call (Crash (UserFault f)) (fun e : Empty_set => match e with end).
Definition null_deref {A} : SM D A := crash NullDeref.
Definition unfinished {A} : SM D A := Call OutOfFuel (fun e : Empty_set => match e with end).
Definition exit {A} (code : Z) : SM D A := Call (Exit code) (fun e : Empty_set => match e with end).
End process.

(** A program applied to a world is run there. *)
Coercion run : SM >-> Funclass.
#[global] Arguments run : simpl never.
