(* ===== verification/SocketServer.v ===== *)
(** * [server/src/aesdsocket.c]: the socket server

    The thread that serves one client ([clientHandler]) and the accepting
    thread ([main], [cleanupMain]), as programs of [Process].  What the
    environment decides is a parameter: the answers of [poll], [recv] and
    [accept] are lists of events, the behaviour of the C library's streams is
    the class [Streams].

    [USE_AESD_CHAR_DEVICE] is 1 in the repository: packets go to
    [/dev/aesdchar], and there is no timestamp thread.  The code for 0, which
    uses a file in [/var/tmp], is the same but for the device the process is
    on and the thread of file Timestamp; what [main] and [cleanupMain] do for
    that thread is here.  [send] always sends all it is given: the peer has
    not closed the connection, which would end the process by [SIGPIPE], and
    the code looks at no result of it.  Messages to the log and to standard output are left
    out. *)

From Stdlib.Strings Require Import String.
From S2P Require Import Prelude CInt CMem Footprint Common CircularBuffer TemporaryBuffer.
From S2P Require Import CharDevice DeviceInterface Process CString SeekCommand Writer.
Import TemporaryBuffer.Server.

Definition BUFFER_SIZE : Z := 512.
Definition MAX_THREADS : Z := 128.

(** A stream open for reading. *)
Record rfile := RFile { rf_pos : Z; rf_buf : list byte; rf_eof : bool }.

Section server.
Context {D : Type} `{CharDevice D} `{Allocator} `{Streams}.

(** ** Streams *)

Definition fclose_file : SM D () := emit ClosedFile.

(** Passing one piece to [write] until it is all taken or refused. *)
Fixpoint write_piece (n : nat) (data : list byte) : SM D bool :=
  match n with
  | O => unfinished
  | S n' =>
      ret ← sys_write data;
      if ret <? 0 then mret false
      else if Z.of_nat (length data) <=? ret then mret true
      else write_piece n' (drop (Z.to_nat ret) data)
  end.

(** [fwrite] and [fclose]: the pieces in order, up to the first refused. *)
Fixpoint write_pieces (pieces : list (list byte)) : SM D () :=
  match pieces with
  | [] => mret ()
  | p :: ps =>
      ok ← write_piece (S (length p)) p;
      if (ok : bool) then write_pieces ps else mret ()
  end.

(** [fread(_, 1, want, f)]: from the buffer, refilled by [read]. *)
Fixpoint fread_loop (n want : nat) (f : rfile) : SM D (list byte * rfile) :=
  match n with
  | O => unfinished
  | S n' =>
      match want, rf_buf f with
      | O, _ => mret ([], f)
      | _, [] =>
          if rf_eof f then mret ([], f)
          else
            res ← sys_read bufsiz (rf_pos f);
            let '(ret, pos', data) := res in
            if ret <? 0 then mret ([], f)
            else if ret =? 0 then mret ([], RFile (rf_pos f) [] true)
            else fread_loop n' want (RFile pos' data false)
      | _, buf =>
          let now := take want buf in
          rest ← fread_loop n' (want - length now) (RFile (rf_pos f) (drop want buf) (rf_eof f));
          mret (now ++ (rest : list byte * rfile).1, rest.2)
      end
  end.

Definition fread (want : nat) (f : rfile) : SM D (list byte * rfile) :=
  fread_loop (2 * want + 2) want f.

(** ** Shutting down *)

(** The variables of the timestamp thread, which the build without the device
    has ([USE_AESD_CHAR_DEVICE] set to 0). *)
Record timestamps := Timestamps { timestampThreadStarted : bool; pipeTimestampWriter : Z }.

Record server := Server {
  threadCount : Z;
  clientThreads : list Z;
  serverSockFd : Z;
  pipe_write_end : Z;
  timestamp : option timestamps
}.

Fixpoint repeat_io (n : nat) (e : nat -> io_event) (i : nat) : SM D () :=
  match n with O => mret () | S n' => _ ← emit (e i); repeat_io n' e (S i) end.

Definition cleanupMain (s : server) : SM D () :=
  _ ← match timestamp s with
      | Some ts =>
          if timestampThreadStarted ts && (0 <? pipeTimestampWriter ts) then
            _ ← emit WroteTimestampPipe; emit JoinedTimestamp
          else mret ()
      | None => mret ()
      end;
  _ ← (if (0 <? threadCount s) && (0 <? pipe_write_end s)
       then repeat_io (Z.to_nat (threadCount s)) (fun _ => WrotePipe) 0 else mret ());
  _ ← (if 0 <? threadCount s
       then repeat_io (Z.to_nat (threadCount s)) (fun i => Joined (Z.of_nat i)) 0 else mret ());
  _ ← (if 0 <? serverSockFd s then emit (ClosedSocket (serverSockFd s)) else mret ());
  if timestamp s is Some _ then emit RemovedFile else mret ().

Definition sizeof_msgBuffer : Z := 256.

Definition logAndExit {A} (s : server) (msg : string) (exit_code : Z) : SM D A :=
  if sizeof_msgBuffer - 64 <=? Z.of_nat (String.length msg) then exit EXIT_FAILURE
  else _ ← cleanupMain s; exit exit_code.

(** ** One client *)

Definition sizeof_clientData : Z := 24.

(** [poll] on the client's socket and the pipe, and what [recv] then gives:
    [None] for -1, otherwise at most [BUFFER_SIZE - 1] bytes. *)
Inductive poll_event :=
  | PollFailed
  | PollPipe
  | PollRecv (received : option (list byte))
  | PollNothing.

(** [while (1) { fread ...; send ... }], [n] iterations at most. *)
Fixpoint send_file (s : server) (n : nat) (sock : Z) (f : rfile) : SM D () :=
  match n with
  | O => unfinished
  | S n' =>
      res ← fread (Z.to_nat BUFFER_SIZE) f;
      let '(bufferSend, f') := res in
      if decide (length bufferSend = O) then
        if rf_eof f' then mret () else logAndExit s "Failed to read from file" EXIT_FAILURE
      else
        _ ← emit (Sent sock bufferSend);
        send_file s n' sock f'
  end.

(** The branch of a seek command. *)
Definition seek_and_send (s : server) (n : nat) (sock : Z) (bufferString : aesd_temperary_buffer)
    (command : aesd_seekto) : SM D () :=
  opened ← fopen;
  if negb opened then null_deref
  else
    res ← sys_seekto command 0;
    if (res : Z * Z).1 <? 0 then
      _ ← emit Unlocked;
      _ ← on_heap (aesd_temperary_buffer_clean bufferString);
      logAndExit s "Failed to seek in file" EXIT_FAILURE
    else
      _ ← send_file s n sock (RFile res.2 [] false);
      fclose_file.

(** The branch of any other packet. *)
Definition write_and_send (s : server) (n : nat) (sock : Z) (bufferString : aesd_temperary_buffer)
    : SM D () :=
  opened ← fopen;
  data ← on_heap (load_init (tmp_buffptr bufferString) 0 (tmp_size bufferString));
  if negb opened then null_deref
  else
    _ ← write_pieces (stdio_chunks data);
    _ ← fclose_file;
    opened ← fopen;
    if negb opened then null_deref
    else
      _ ← send_file s n sock (RFile 0 [] false);
      fclose_file.

(** From [pthread_mutex_lock] to [pthread_mutex_unlock]. *)
Definition process_packet (s : server) (n : nat) (sock : Z) (bufferString : aesd_temperary_buffer)
    : SM D () :=
  _ ← emit Locked;
  res ← on_heap (checkForCommandInString (tmp_buffptr bufferString) (tmp_size bufferString) (Seekto 0 0));
  _ ← (if (res : bool * aesd_seekto).1 then seek_and_send s n sock bufferString res.2
       else write_and_send s n sock bufferString);
  emit Unlocked.

(** The branch of data from the client, from [recv] on: does the loop end,
    and the buffer it leaves. *)
Definition receive (s : server) (n : nat) (sock : Z) (buffer : ptr) (received : option (list byte))
    (bufferString : aesd_temperary_buffer) : SM D (bool * aesd_temperary_buffer) :=
  let recvLen := match received with None => -1 | Some data => Z.of_nat (length data) end in
  _ ← on_heap (match received with
               | None => mret ()
               | Some data => store_bytes buffer 0 (Some <$> data)
               end);
  _ ← on_heap (if (0 <=? recvLen) && (recvLen <? BUFFER_SIZE)
               then store_bytes buffer recvLen [Some ch_nul] else mret ());
  added ← on_heap (aesd_temperary_buffer_add bufferString buffer (u64 recvLen));
  let '(ok, bufferString) := added in
  if negb ok then
    _ ← on_heap (free buffer);
    logAndExit s "Failed to add data to temporary buffer" EXIT_FAILURE
  else
    _ ← on_heap (free buffer);
    if recvLen <? 0 then
      _ ← on_heap (aesd_temperary_buffer_clean bufferString);
      logAndExit s "Failed to receive data" EXIT_FAILURE
    else if recvLen =? 0 then
      bufferString ← on_heap (aesd_temperary_buffer_clean bufferString);
      _ ← emit (ClosedSocket sock);
      mret (true, bufferString)
    else
      _ ← on_heap (checkForNullCharInString (tmp_buffptr bufferString) recvLen);
      newline ← on_heap (checkForNewlineCharInString (tmp_buffptr bufferString) recvLen (Some (-1)));
      if (newline : bool * option Z).1 then
        _ ← process_packet s n sock bufferString;
        bufferString ← on_heap (aesd_temperary_buffer_clean bufferString);
        mret (false, bufferString)
      else mret (false, bufferString).

(** [calloc(BUFFER_SIZE, sizeof(char))] *)
Definition calloc_buffer : M ptr :=
  p ← alloc BUFFER_SIZE;
  if is_null p then mret p
  else _ ← store_bytes p 0 (replicate (Z.to_nat BUFFER_SIZE) (Some ch_nul)); mret p.

(** One iteration of the handler's loop. *)
Definition handler_iteration (s : server) (n : nat) (sock : Z) (ev : poll_event)
    (bufferString : aesd_temperary_buffer) : SM D (bool * aesd_temperary_buffer) :=
  buffer ← on_heap calloc_buffer;
  if is_null buffer then logAndExit s "Failed to allocate memory for buffer" EXIT_FAILURE
  else
    match ev with
    | PollFailed | PollPipe => mret (true, bufferString)
    | PollNothing => mret (false, bufferString)
    | PollRecv received => receive s n sock buffer received bufferString
    end.

(** The handler's loop on the events [evs]; the last event need not end it. *)
Fixpoint handler_loop (s : server) (n : nat) (sock : Z) (evs : list poll_event)
    (bufferString : aesd_temperary_buffer) : SM D (bool * aesd_temperary_buffer) :=
  match evs with
  | [] => mret (false, bufferString)
  | ev :: evs' =>
      res ← handler_iteration s n sock ev bufferString;
      let '(stop, bufferString) := res in
      if (stop : bool) then mret (true, bufferString) else handler_loop s n sock evs' bufferString
  end.

(** [clientData->...] *)
Definition deref_client (p : ptr) (c : clientData_t) : SM D clientData_t :=
  _ ← on_heap (get_block p); mret c.

Definition cleanupClientHandler (p : ptr) (c : clientData_t) (buffer : option aesd_temperary_buffer)
    : SM D () :=
  _ ← match buffer with
      | Some b => _ ← on_heap (aesd_temperary_buffer_clean b); mret ()
      | None => mret ()
      end;
  clientData ← deref_client p c;
  _ ← (if 0 <? newSockFd clientData then emit (ClosedSocket (newSockFd clientData)) else mret ());
  if negb (is_null p) then on_heap (free p) else mret ().

(** [true] when the thread has ended, with the buffer while it has not. *)
Definition clientHandler (s : server) (n : nat) (p : ptr) (c : clientData_t) (evs : list poll_event)
    : SM D (bool * aesd_temperary_buffer) :=
  let bufferString := aesd_temperary_buffer_init (Temporary NULL 0) in
  clientData ← deref_client p c;
  res ← handler_loop s n (newSockFd clientData) evs bufferString;
  let '(stop, bufferString) := res in
  if (stop : bool) then
    _ ← cleanupClientHandler p c (Some bufferString);
    mret (true, bufferString)
  else mret (false, bufferString).

(** ** The accepting thread *)

(** The signals the server handles; the handlers set the flag [stop]. *)
Inductive signal := Interrupt | Terminate.

Definition SIGINTHandler (stop : Z) : Z := 1.
Definition SIGTERMHandler (stop : Z) : Z := 1.

Definition deliver (stop : Z) (g : signal) : Z :=
  match g with Interrupt => SIGINTHandler stop | Terminate => SIGTERMHandler stop end.

Definition EINTR : Z := 4.

(** One turn of [main]'s loop: the signals that arrive before its test of
    [stop]; those that arrive while it waits in [accept]; the result of
    [accept], the address of the peer and, for a failure, [errno]; the result
    and the identifier of [pthread_create]. *)
Record turn := Turn {
  before_test : list signal;
  during_accept : list signal;
  accept_result : Z;
  peer : list byte;
  accept_errno : Z;
  create_result : Z;
  thread_id : Z
}.

(** The build, the arguments of [main] and the answers of its preparation. *)
Record setup := Setup {
  USE_AESD_CHAR_DEVICE : bool;
  argv : list string;
  fork_result : Z;
  setsid_result : Z;
  null_fd : Z;
  socket_result : Z;
  setsockopt_result : Z;
  bind_result : Z;
  pipe_result : Z;
  pipe_fd : Z;
  timestamp_create_result : Z;
  timestamp_pipe_result : Z;
  timestamp_pipe_fd : Z
}.

(** [argc == 2 && strcmp(argv[1], "-d") == 0] *)
Definition runAsDaemon (u : setup) : bool :=
  match argv u with [_; arg] => String.eqb arg "-d" | _ => false end.

Definition sizeof_sockaddr_in : Z := 16.
Definition STDIN_FILENO : Z := 0.
Definition STDOUT_FILENO : Z := 1.
Definition STDERR_FILENO : Z := 2.
Definition SIGINT : Z := 2.
Definition SIGTERM : Z := 15.

(** A new connection: [pthread_create] stores its identifier at
    [clientThreads[threadCount++]], an array of [MAX_THREADS]; its result is
    not tested. *)
Definition accept_client (s : server) (t : turn) : SM D server :=
  p ← on_heap (alloc sizeof_clientData);
  _ ← on_heap (store_bytes p 0 (replicate (Z.to_nat sizeof_clientData) (Some ch_nul)));
  let clientDataContainer := ClientData (accept_result t) sizeof_sockaddr_in (peer t) in
  let i := threadCount s in
  threads ← on_heap (if create_result t =? 0 then
                       _ ← arr_get (clientThreads s) i;
                       mret (arr_set (clientThreads s) i (thread_id t))
                     else mret (clientThreads s));
  _ ← emit (Spawned i clientDataContainer);
  mret (Server (s32 (i + 1)) threads (serverSockFd s) (pipe_write_end s) (timestamp s)).

(** [while (!stop)]: the state, and whether the loop has ended. *)
Fixpoint accept_loop (s : server) (stop : Z) (ts : list turn) : SM D (server * bool) :=
  match ts with
  | [] => mret (s, false)
  | t :: ts' =>
      let stop := foldl deliver stop (before_test t) in
      if negb (stop =? 0) then mret (s, true)
      else
        let stop := foldl deliver stop (during_accept t) in
        if accept_result t <? 0 then
          if (accept_errno t =? EINTR) && negb (stop =? 0) then mret (s, true)
          else logAndExit s "Failed to accept connection" EXIT_FAILURE
        else s' ← accept_client s t; accept_loop s' stop ts'
  end.

(** [if (runAsDaemon)]: the parent exits, the child goes on with [/dev/null]
    ([null_fd], -1 when it cannot be opened) for its standard streams. *)
Definition daemonize (s : server) (u : setup) : SM D () :=
  if runAsDaemon u then
    if fork_result u <? 0 then logAndExit s "Failed to fork for daemon" EXIT_FAILURE
    else if 0 <? fork_result u then exit EXIT_SUCCESS
    else if setsid_result u <? 0 then logAndExit s "Failed to setsid" EXIT_FAILURE
    else
      _ ← emit (ClosedFd STDIN_FILENO);
      _ ← emit (ClosedFd STDOUT_FILENO);
      _ ← emit (ClosedFd STDERR_FILENO);
      let nullfd := null_fd u in
      if negb (nullfd =? -1) then
        _ ← emit (Duplicated nullfd STDIN_FILENO);
        _ ← emit (Duplicated nullfd STDOUT_FILENO);
        _ ← emit (Duplicated nullfd STDERR_FILENO);
        if STDERR_FILENO <? nullfd then emit (ClosedFd nullfd) else mret ()
      else mret ()
  else mret ().

(** [action.sa_flags] is the number of the signal. *)
Definition setSignalSIGINTHandler : SM D () := emit (HandlerSet SIGINT SIGINT).
Definition setSignalSIGTERMHandler : SM D () := emit (HandlerSet SIGTERM SIGTERM).

(** [pthread_create] of the timestamp thread, and its pipe: only in the build
    without the device. *)
Definition start_timestamps (s : server) (u : setup) : SM D server :=
  match timestamp s with
  | Some ts =>
      if timestamp_create_result u =? 0 then
        _ ← emit SpawnedTimestamp;
        mret (Server (threadCount s) (clientThreads s) (serverSockFd s) (pipe_write_end s)
                (Some (Timestamps true (pipeTimestampWriter ts))))
      else mret s
  | None => mret s
  end.

Definition open_timestamp_pipe (s : server) (u : setup) : SM D server :=
  match timestamp s with
  | Some ts =>
      if timestamp_pipe_result u <? 0 then
        logAndExit s "Failed to create pipe for timestamp writer handler" EXIT_FAILURE
      else
        mret (Server (threadCount s) (clientThreads s) (serverSockFd s) (pipe_write_end s)
                (Some (Timestamps (timestampThreadStarted ts) (timestamp_pipe_fd u))))
  | None => mret s
  end.

Definition server_main (u : setup) (ts : list turn) : SM D (option Z) :=
  let no_threads := replicate (Z.to_nat MAX_THREADS) 0 in
  let timestamp0 := if USE_AESD_CHAR_DEVICE u then None else Some (Timestamps false 0) in
  _ ← daemonize (Server 0 no_threads 0 0 timestamp0) u;
  _ ← setSignalSIGINTHandler;
  _ ← setSignalSIGTERMHandler;
  let s0 := Server 0 no_threads (socket_result u) 0 timestamp0 in
  if socket_result u <? 0 then logAndExit s0 "Failed to create socket" EXIT_FAILURE
  else if setsockopt_result u <? 0 then logAndExit s0 "Failed to set socket options" EXIT_FAILURE
  else if bind_result u <? 0 then logAndExit s0 "Failed to bind socket" EXIT_FAILURE
  else
    _ ← emit (Listening (socket_result u) 5);
    s1 ← start_timestamps s0 u;
    if pipe_result u <? 0 then logAndExit s1 "Failed to create pipe for client handler" EXIT_FAILURE
    else
      s2 ← open_timestamp_pipe
             (Server (threadCount s1) (clientThreads s1) (serverSockFd s1) (pipe_fd u) (timestamp s1)) u;
      res ← accept_loop s2 0 ts;
      let '(s, stopped) := res in
      if (stopped : bool) then _ ← cleanupMain s; mret (Some EXIT_SUCCESS) else mret None.
End server.
