(* ===== verification/SocketFacts.v ===== *)
(** * Facts about the socket server

    A weakest precondition for the server's monad, the streams against the
    device's contract, and the specification of each stage of a handler's
    iteration. *)

From S2P Require Import Prelude CInt CMem Footprint Common CircularBuffer TemporaryBuffer.
From S2P Require Import Ring CircularFacts CircularSearch CharDevice DeviceFacts WriteFacts SeekFacts.
From S2P Require Import ModuleFacts DeviceSpec DeviceInterface Process CString SeekCommand SocketServer.
Import TemporaryBuffer.Server.

(** ** Weakest preconditions

    [swp m Q E w]: [m] ends, without undefined behaviour and within its loop
    bounds; [Q] holds if it returns, [E] if it ends the process. *)

Definition swp {D} `{CharDevice D} `{Streams} {A} (m : SM D A)
    (Q : A -> world D -> Prop) (E : Z -> world D -> Prop) (w : world D) : Prop :=
  match m w with Returns a w' => Q a w' | Exits code w' => E code w' | _ => False end.

Definition no_exit {D} : Z -> world D -> Prop := fun _ _ => False.

Section swp_rules.
Context {D A B : Type} `{CharDevice D} `{Streams}.
Implicit Types (m : SM D A) (w : world D).

Lemma swp_ret (a : A) Q E w : Q a w -> swp (mret a) Q E w.
Proof. done. Qed.

Lemma swp_bind m (k : A -> SM D B) Q E w :
  swp m (fun a w' => swp (k a) Q E w') E w -> swp (mbind k m) Q E w.
Proof. unfold swp. rewrite run_bind. by destruct (m w). Qed.

Lemma swp_mono m (Q Q' : A -> world D -> Prop) (E E' : Z -> world D -> Prop) w :
  swp m Q E w -> (forall a w', Q a w' -> Q' a w') -> (forall z w', E z w' -> E' z w') -> swp m Q' E' w.
Proof. unfold swp. destruct (m w); auto. Qed.

Lemma swp_done m Q E w : swp m Q E w -> (forall z w', ~ E z w') -> exists a w', m w = Returns a w' /\ Q a w'.
Proof. unfold swp. destruct (m w) as [a w'|z w'| |]; [by eauto|naive_solver|done|done]. Qed.

Lemma swp_returns m Q w : swp m Q no_exit w -> exists a w', m w = Returns a w' /\ Q a w'.
Proof. intros Hm. apply (swp_done _ _ _ _ Hm). by intros ?? []. Qed.

Lemma swp_exits m (E : Z -> world D -> Prop) w :
  swp m (fun _ _ => False) E w -> exists code w', m w = Exits code w' /\ E code w'.
Proof. unfold swp. destruct (m w) as [|z w'| |]; [done|by eauto|done|done]. Qed.

Lemma swp_eq m m' Q E w w' : m w = m' w' -> swp m' Q E w' -> swp m Q E w.
Proof. unfold swp. by intros ->. Qed.

(** The calls. *)
Lemma swp_on_heap (m : M A) Q E w :
  wp m (fun a h => Q a (World h (device_of w) (trace w))) (uheap w) -> swp (on_heap m) Q E w.
Proof. unfold swp, wp, run, on_heap. simpl. by destruct (m (uheap w)). Qed.

(** A step on the heap, computed. *)
Lemma on_heap_done (m : M A) (k : A -> SM D B) a h' w :
  m (uheap w) = Done a h' -> (mbind k (on_heap m)) w = k a (World h' (device_of w) (trace w)).
Proof. intros E. rewrite run_bind. unfold run at 1, on_heap. simpl. by rewrite E. Qed.

Lemma on_heap_stuck (m : M A) (k : A -> SM D B) f w :
  m (uheap w) = Stuck f -> (mbind k (on_heap m)) w = Faults (UserFault f).
Proof. intros E. rewrite run_bind. unfold run at 1, on_heap. simpl. by rewrite E. Qed.

Lemma swp_emit e (Q : () -> world D -> Prop) E w :
  Q () (World (uheap w) (device_of w) (trace w ++ [e])) -> swp (emit e) Q E w.
Proof. done. Qed.

Lemma swp_write data ret d (Q : Z -> world D -> Prop) E w :
  dev_write (device_of w) data = Some (ret, d) ->
  Q ret (World (uheap w) d (trace w ++ [WroteDevice data ret])) -> swp (sys_write data) Q E w.
Proof. intros Hw HQ. unfold swp, run, sys_write. simpl. by rewrite Hw. Qed.

Lemma swp_read count pos ret pos' data (Q : Z * Z * list byte -> world D -> Prop) E w :
  dev_read (device_of w) count pos = Some (ret, pos', data) ->
  Q (ret, pos', data) (World (uheap w) (device_of w) (trace w ++ [ReadDevice data ret])) ->
  swp (sys_read count pos) Q E w.
Proof. intros Hr HQ. unfold swp, run, sys_read. simpl. by rewrite Hr. Qed.

Lemma swp_seekto cmd pos ret pos' (Q : Z * Z -> world D -> Prop) E w :
  dev_seekto (device_of w) cmd pos = Some (ret, pos') ->
  Q (ret, pos') (World (uheap w) (device_of w) (trace w ++ [SeekDevice cmd ret])) ->
  swp (sys_seekto cmd pos) Q E w.
Proof. intros Hs HQ. unfold swp, run, sys_seekto. simpl. by rewrite Hs. Qed.

Lemma swp_fopen (Q : bool -> world D -> Prop) E w :
  (if fopen_ok (length (trace w)) then Q true (World (uheap w) (device_of w) (trace w ++ [Opened])) else Q false w) ->
  swp fopen Q E w.
Proof. unfold swp, run, fopen. simpl. by destruct (fopen_ok _). Qed.
Lemma emit_done e (k : () -> SM D B) w :
  (mbind k (emit e)) w = k () (World (uheap w) (device_of w) (trace w ++ [e])).
Proof. by rewrite run_bind. Qed.

Lemma ret_done (a : A) (k : A -> SM D B) w : (mbind k (mret a)) w = k a w.
Proof. done. Qed.

(** The rest of a program, after a part whose outcome is known. *)
Lemma run_returns m (k : A -> SM D B) a w w' : m w = Returns a w' -> (mbind k m) w = k a w'.
Proof. intros E. by rewrite run_bind, E. Qed.

Lemma run_exits m (k : A -> SM D B) z w w' : m w = Exits z w' -> (mbind k m) w = Exits z w'.
Proof. intros E. by rewrite run_bind, E. Qed.

Lemma run_faults m (k : A -> SM D B) f w : m w = Faults f -> (mbind k m) w = Faults f.
Proof. intros E. by rewrite run_bind, E. Qed.
End swp_rules.

(** ** Traces *)

(** The bytes a trace sends, in order. *)
Definition sent (T : list io_event) : list byte :=
  concat (omap (fun e => match e with Sent _ data => Some data | _ => None end) T).

Lemma sent_app T1 T2 : sent (T1 ++ T2) = sent T1 ++ sent T2.
Proof. unfold sent. by rewrite omap_app, concat_app. Qed.

Lemma sent_locked T : sent (Locked :: T ++ [Unlocked]) = sent T.
Proof. change (Locked :: T ++ [Unlocked]) with ([Locked] ++ T ++ [Unlocked]). rewrite !sent_app. by rewrite app_nil_r. Qed.

(** The heap is untouched, and the trace grows by events [ok] that send [bs]. *)
Definition io_rel {D} (ok : io_event -> Prop) (w w' : world D) (bs : list byte) : Prop :=
  uheap w' = uheap w /\ exists T, trace w' = trace w ++ T /\ Forall ok T /\ sent T = bs.

Section io_rel.
Context {D : Type} (ok : io_event -> Prop).
Implicit Types (w : world D).

Lemma io_rel_refl w : io_rel ok w w [].
Proof. split; [done|]. exists []. by rewrite app_nil_r. Qed.

Lemma io_rel_trans w w1 w2 b1 b2 : io_rel ok w w1 b1 -> io_rel ok w1 w2 b2 -> io_rel ok w w2 (b1 ++ b2).
Proof.
  intros [Hh1 (T1 & Ht1 & Hok1 & <-)] [Hh2 (T2 & Ht2 & Hok2 & <-)]. split; [congruence|].
  exists (T1 ++ T2). rewrite Ht2, Ht1, <- app_assoc, sent_app. split_and!; [done| |done]. by apply Forall_app.
Qed.

Lemma io_rel_one w d e : ok e -> io_rel ok w (World (uheap w) d (trace w ++ [e])) (sent [e]).
Proof. intros He. split; [done|]. exists [e]. by repeat constructor. Qed.
End io_rel.

Lemma io_rel_impl {D} (P P' : io_event -> Prop) (w w' : world D) bs :
  (forall e, P e -> P' e) -> io_rel P w w' bs -> io_rel P' w w' bs.
Proof.
  intros HP [Hh (T & Ht & Hok & Hs)]. split; [done|]. exists T. split_and!; [done| |done].
  by eapply Forall_impl.
Qed.

(** What the handler does with the device between its lock and its unlock. *)
Definition device_event (sock : Z) (e : io_event) : Prop :=
  match e with
  | Opened | ClosedFile | WroteDevice _ _ | ReadDevice _ _ | SeekDevice _ _ => True
  | Sent sock' _ => sock' = sock
  | _ => False
  end.

(** ** Streams *)

Section streams.
Context {D C : Type} `{CharDeviceLaws D C} `{Allocator} `{Streams}.
Implicit Types (w : world D) (c : C) (f : rfile).

(** What is still to be read from a stream. *)
Definition rest_of c f : list byte := rf_buf f ++ drop (Z.to_nat (rf_pos f)) (model_text c).

Definition stream_ok c f : Prop :=
  0 <= rf_pos f <= text_size c /\ (rf_eof f = true -> rest_of c f = []).

(** How many iterations of [fread_loop] suffice. *)
Definition fread_fuel (want : nat) f : nat := 2 * want + match rf_buf f with [] => 2 | _ => 1 end.

Lemma drop_text_end c : drop (Z.to_nat (text_size c)) (model_text c) = [].
Proof. rewrite drop_ge; [done|]. unfold text_size. lia. Qed.

(** Refilling an empty buffer keeps what is still to be read. *)
Lemma refill_spec sock f w c :
  dev_abs (device_of w) c -> stream_ok c f -> rf_buf f = [] ->
  swp (sys_read bufsiz (rf_pos f))
      (fun res w' => exists data f', f' = RFile (rf_pos f + Z.of_nat (length data)) data false /\
         res = (Z.of_nat (length data), rf_pos f', data) /\ (data = [] -> rest_of c f = []) /\
         stream_ok c f' /\ rest_of c f' = rest_of c f /\
         device_of w' = device_of w /\ io_rel (device_event sock) w w' []) no_exit w.
Proof.
  intros Habs [Hpos Heof] Eb.
  assert (rest_of c f = drop (Z.to_nat (rf_pos f)) (model_text c)) as Hrest by (unfold rest_of; by rewrite Eb).
  destruct (dev_read_law (device_of w) c bufsiz (rf_pos f) Habs bufsiz_pos Hpos)
    as (data & Eread & Hle & Hend & Hdrop).
  eapply swp_read; [exact Eread|]. eexists data, _. split; [done|]. split_and!.
  - done.
  - intros Hd. by rewrite Hrest, (Hend Hd), drop_text_end.
  - split; [|done]. simpl. split; [lia|]. apply (f_equal length) in Hdrop.
    rewrite length_app, !length_drop in Hdrop. unfold text_size in *. lia.
  - rewrite Hrest, Hdrop. unfold rest_of. simpl. do 2 f_equal. lia.
  - done.
  - exact (io_rel_one (device_event sock) w (device_of w) (ReadDevice data (Z.of_nat (length data))) I).
Qed.

Lemma fread_loop_spec sock n want f w c :
  dev_abs (device_of w) c -> stream_ok c f -> (fread_fuel want f <= n)%nat ->
  swp (fread_loop n want f)
      (fun res w' => res.1 = take want (rest_of c f) /\ rest_of c res.2 = drop want (rest_of c f) /\
         stream_ok c res.2 /\ ((length (rest_of c f) < want)%nat -> rf_eof res.2 = true) /\
         device_of w' = device_of w /\ io_rel (device_event sock) w w' []) no_exit w.
Proof.
  intros Habs. revert want f w Habs. induction n as [|n IH]; intros want f w Habs [Hpos Heof] Hn.
  { unfold fread_fuel in Hn. destruct (rf_buf f); lia. }
  simpl. destruct want as [|want]; [|destruct (rf_buf f) as [|x buf] eqn:Eb].
  - apply swp_ret. split_and!; [done|by rewrite drop_0|by split|by simpl; lia|done|apply io_rel_refl].
  - pose proof (refill_spec sock f w c Habs (conj Hpos Heof) Eb) as Hrefill. destruct (rf_eof f) eqn:Ee.
    { apply swp_ret. cbn [fst snd]. rewrite !(Heof eq_refl).
      split_and!; [done|done|by split; [|intros _; apply Heof]|done|done|apply io_rel_refl]. }
    apply swp_bind. eapply swp_mono; [exact Hrefill| |done].
    intros ? w1 (data & ? & -> & -> & Hend & Hok & Hsame & Hdev1 & Hio). cbn [rf_pos]. zdec.
    destruct (Z.eqb_spec (Z.of_nat (length data)) 0) as [Ez|Ez].
    + assert (data = []) as -> by (by destruct data). specialize (Hend eq_refl). simpl in Hsame, Hok.
      rewrite Z.add_0_r in Hsame, Hok. apply swp_ret. cbn [fst snd]. rewrite Hend.
      change (rest_of c (RFile (rf_pos f) [] true)) with (rest_of c (RFile (rf_pos f) [] false)).
      rewrite Hsame, Hend. split_and!; try done. split; [done|]. intros _. exact (eq_trans Hsame Hend).
    + rewrite <- Hsame. eapply swp_mono; [apply IH; [by rewrite Hdev1|done|]| |done].
      * unfold fread_fuel in *. rewrite Eb in Hn. cbn [rf_buf rf_pos]. destruct data; simpl in *; lia.
      * intros res w' (? & ? & ? & ? & Hdev & Hio'). rewrite Hdev1 in Hdev. split_and!; try done.
        eapply (io_rel_trans _ _ _ _ [] []); [exact Hio|exact Hio'].
  - apply swp_bind. set (now := take (S want) (x :: buf)).
    assert (rest_of c f = now ++ rest_of c (RFile (rf_pos f) (drop (S want) (x :: buf)) (rf_eof f))) as Hrest.
    { unfold rest_of. rewrite Eb. unfold now. cbn [rf_buf rf_pos]. by rewrite app_assoc, take_drop. }
    assert (1 <= length now <= S want)%nat as Hnow by (unfold now; lia_len).
    eapply swp_mono.
    + apply (IH (S want - length now)%nat); [done| |].
      * split; [done|]. intros He. specialize (Heof He). rewrite Hrest in Heof.
        by apply app_eq_nil in Heof as [_ ?].
      * unfold fread_fuel in *. rewrite Eb in Hn. cbn [rf_buf rf_pos]. destruct (drop (S want) (x :: buf)) eqn:Ed; lia.
    + intros res w' (E1 & E2 & Hok & Hshort & Hdev & Hio). apply swp_ret. cbn [fst snd]. rewrite Hrest.
      rewrite E1, take_app, E2, drop_app.
      rewrite (take_ge now) by lia. rewrite (drop_ge now) by lia.
      split_and!; try done. intros Hlen. apply Hshort. rewrite length_app in Hlen. lia.
    + done.
Qed.

(** The sending loop delivers what is left of the stream. *)
Lemma send_file_spec srv sock n f w c :
  dev_abs (device_of w) c -> stream_ok c f -> (length (rest_of c f) < n)%nat ->
  swp (send_file srv n sock f)
      (fun _ w' => device_of w' = device_of w /\ io_rel (device_event sock) w w' (rest_of c f)) no_exit w.
Proof.
  revert f w. induction n as [|n IH]; intros f w Habs Hok Hn; [lia|]. cbn [send_file].
  assert (Z.to_nat BUFFER_SIZE = 512%nat) as -> by done. apply swp_bind. eapply swp_mono.
  - apply (fread_loop_spec sock _ 512 f w c Habs Hok). unfold fread_fuel. destruct (rf_buf f); lia.
  - intros [data f'] w1 (Ed & Erest & Hok' & Hshort & Hdev & Hio). cbn [fst snd] in *.
    destruct (decide (length data = O)) as [Hz|Hz].
    + assert (rest_of c f = []) as Hnil.
      { destruct (rest_of c f); [done|]. by rewrite Ed in Hz. }
      rewrite Hnil in Hshort |- *. rewrite Hshort by (simpl; lia). by apply swp_ret.
    + apply swp_bind, swp_emit. eapply swp_mono.
      * apply (IH f' _); cbn [device_of].
        -- by rewrite Hdev.
        -- done.
        -- rewrite Erest, length_drop. rewrite Ed, length_take in Hz. lia.
      * intros _ w2 [Hdev2 Hio2]. cbn [device_of] in Hdev2. split; [congruence|].
        pose proof (io_rel_one (device_event sock) w1 (device_of w1) (Sent sock data) eq_refl) as Hone.
        pose proof (io_rel_trans _ _ _ _ _ _ Hio (io_rel_trans _ _ _ _ _ _ Hone Hio2)) as Hall.
        unfold sent in Hall. simpl in Hall. rewrite app_nil_r in Hall.
        by rewrite Erest, Ed, take_drop in Hall.
      * done.
  - done.
Qed.

(** The writing of the pieces is the abstract device's writes. *)
Lemma write_pieces_spec sock ps w c :
  dev_abs (device_of w) c ->
  Z.of_nat (model_hidden c) + Z.of_nat (length (concat ps)) <= dev_limit ->
  swp (write_pieces ps)
      (fun _ w' => dev_abs (device_of w') (foldl (fun c p => model_write p c) c ps) /\
         io_rel (device_event sock) w w' []) no_exit w.
Proof.
  revert w c. induction ps as [|p ps IH]; intros w c Habs Hlim; cbn [write_pieces].
  - apply swp_ret. split; [done|apply io_rel_refl].
  - simpl in Hlim. rewrite length_app in Hlim.
    destruct (dev_write_law (device_of w) c p Habs) as (d' & Ew & Habs'); [lia|].
    apply swp_bind. cbn [write_piece]. apply swp_bind. eapply swp_write; [exact Ew|]. cbn beta.
    zdec. apply swp_ret.
    eapply swp_mono; [apply (IH _ (model_write p c)); [done|]| |done].
    + pose proof (model_write_hidden p c). lia.
    + intros _ w' [Habs2 Hio]. split; [done|]. eapply (io_rel_trans _ _ _ _ [] []); [|exact Hio].
      by apply (io_rel_one (device_event sock)).
Qed.

Lemma fopen_spec sock w :
  (forall n, fopen_ok n = true) ->
  swp fopen (fun ok w' => ok = true /\ device_of w' = device_of w /\ io_rel (device_event sock) w w' []) no_exit w.
Proof.
  intros Hopen. apply swp_fopen. rewrite Hopen. split_and!; [done|done|].
  by apply (io_rel_one (device_event sock)).
Qed.

Lemma fclose_spec sock w :
  swp fclose_file (fun _ w' => device_of w' = device_of w /\ io_rel (device_event sock) w w' []) no_exit w.
Proof. split; [done|]. by apply (io_rel_one (device_event sock)). Qed.

(** A stream opened at [pos]. *)
Lemma rest_of_fresh c pos : rest_of c (RFile pos [] false) = drop (Z.to_nat pos) (model_text c).
Proof. done. Qed.

Lemma stream_ok_fresh c pos : 0 <= pos <= text_size c -> stream_ok c (RFile pos [] false).
Proof. by split. Qed.

(** A packet that is not a command: its bytes [bs] go to the device in the
    pieces the C library makes of them, and the whole text comes back. *)
Lemma write_and_send_spec srv sock n t bs w c c' h L :
  (forall n, fopen_ok n = true) -> dev_abs (device_of w) c ->
  h = uheap w -> tmp_models t (Some bs) -> holds h (tmp_chunks t (Some bs) ++ L) ->
  Z.of_nat (model_hidden c) + Z.of_nat (length bs) <= dev_limit ->
  c' = foldl (fun c p => model_write p c) c (stdio_chunks bs) -> text_size c' < Z.of_nat n ->
  swp (write_and_send srv n sock t)
      (fun _ w' => dev_abs (device_of w') c' /\ io_rel (device_event sock) w w' (model_text c')) no_exit w.
Proof.
  intros Hopen Habs -> Ht Hh Hlim -> Hn. destruct Ht as [Hsz Hok]. unfold write_and_send.
  apply swp_bind. eapply swp_mono; [by apply (fopen_spec sock)| |done]. intros ? w1 (-> & Hd1 & Hio1).
  assert (uheap w1 = uheap w) as Hh1 by apply Hio1.
  apply swp_bind, swp_on_heap. rewrite Hsz. unfold wp.
  rewrite (load_init_own _ _ bs 0 _ L) by (rewrite ?Hh1; done || lia).
  rewrite Nat2Z.id, drop_0, take_ge by done. cbn [negb].
  apply swp_bind. eapply swp_mono.
  { apply (write_pieces_spec sock _ _ c); cbn [device_of]; [by rewrite Hd1|by rewrite stdio_chunks_concat]. }
  2: done. intros _ w2 [Habs2 Hio2]. set (c' := foldl _ _ _) in *.
  apply swp_bind. eapply swp_mono; [by apply (fclose_spec sock)| |done]. intros _ w3 [Hd3 Hio3].
  apply swp_bind. eapply swp_mono; [by apply (fopen_spec sock)| |done]. intros ? w4 (-> & Hd4 & Hio4).
  cbn [negb]. apply swp_bind. eapply swp_mono.
  { apply (send_file_spec srv sock n (RFile 0 [] false) w4 c'); [by rewrite Hd4, Hd3| |].
    - apply stream_ok_fresh. unfold text_size. lia.
    - rewrite rest_of_fresh, length_drop. unfold text_size in *. lia. }
  2: done. intros _ w5 [Hd5 Hio5]. eapply swp_mono; [by apply (fclose_spec sock)| |done]. intros _ w6 [Hd6 Hio6].
  split; [by rewrite Hd6, Hd5, Hd4, Hd3|].
  assert (io_rel (device_event sock) w (World (uheap w1) (device_of w1) (trace w1)) []) as Hio1' by (by destruct w1).
  rewrite rest_of_fresh, drop_0 in Hio5.
  pose proof (io_rel_trans _ _ _ _ _ _ Hio1' (io_rel_trans _ _ _ _ _ _ Hio2 (io_rel_trans _ _ _ _ _ _ Hio3
    (io_rel_trans _ _ _ _ _ _ Hio4 (io_rel_trans _ _ _ _ _ _ Hio5 Hio6))))) as Hall.
  by rewrite app_nil_r in Hall.
Qed.

(** A seek command the device accepts: the text from there on comes back. *)
Lemma seek_and_send_spec srv sock n t cmd w c pos :
  (forall n, fopen_ok n = true) -> dev_abs (device_of w) c ->
  model_seek cmd c = Some pos -> text_size c < Z.of_nat n ->
  swp (seek_and_send srv n sock t cmd)
      (fun _ w' => device_of w' = device_of w /\
         io_rel (device_event sock) w w' (drop (Z.to_nat pos) (model_text c))) no_exit w.
Proof.
  intros Hopen Habs Hpos Hn. pose proof (dev_seek_accepted _ _ _ 0 _ Habs Hpos) as Hseek.
  apply model_seek_range in Hpos. fold (text_size c) in Hpos. unfold seek_and_send.
  apply swp_bind. eapply swp_mono; [by apply (fopen_spec sock)| |done]. intros ? w1 (-> & Hd1 & Hio1).
  cbn [negb]. apply swp_bind. eapply swp_seekto; [rewrite Hd1; exact Hseek|].
  cbn [fst snd]. change (0 <? 0) with false. cbv iota.
  assert (io_rel (device_event sock) w1 (World (uheap w1) (device_of w1) (trace w1 ++ [SeekDevice cmd 0])) []) as Hio2
    by (by apply (io_rel_one (device_event sock))).
  apply swp_bind. eapply swp_mono.
  { apply (send_file_spec srv sock n (RFile pos [] false) _ c); [cbn [device_of]; by rewrite Hd1|by apply stream_ok_fresh|].
    rewrite rest_of_fresh, length_drop. unfold text_size in *. lia. }
  2: done. intros _ w3 [Hd3 Hio3]. eapply swp_mono; [by apply (fclose_spec sock)| |done]. intros _ w4 [Hd4 Hio4].
  cbn [device_of] in Hd3. split; [congruence|]. rewrite rest_of_fresh in Hio3.
  pose proof (io_rel_trans _ _ _ _ _ _ Hio1 (io_rel_trans _ _ _ _ _ _ Hio2 (io_rel_trans _ _ _ _ _ _ Hio3 Hio4))) as Hall.
  by rewrite app_nil_r in Hall.
Qed.
End streams.
