(* ===== verification/HandlerFacts.v ===== *)
(** * One client's handler, step by step

    [client_step] says what a poll event does to the pending data of a client,
    to the device and to the outside; [receive] and the handler's loop are
    shown to do exactly that. *)

From Stdlib.Strings Require Import String.
From S2P Require Import Prelude CInt CMem Footprint Common CircularBuffer TemporaryBuffer.
From S2P Require Import Ring CircularFacts CircularSearch CharDevice DeviceFacts WriteFacts SeekFacts.
From S2P Require Import ModuleFacts DeviceSpec DeviceInterface Process CString SeekCommand Writer SocketServer SocketFacts.
Import TemporaryBuffer.Server.

(** Does the server see a newline?  It looks at the first [length data] bytes
    of all the data accumulated. *)
Definition newline_seen (acc data : list byte) : bool :=
  bool_decide (ch_newline ∈ take (length data) acc).

Section client.
Context {C : Type} `{DeviceModel C} `{Streams}.

(** ** Packets

    What the accumulated data is once a newline has been seen: a line for the
    device, or a seek command. *)

(** Bytes for the device, in the pieces the C library makes of them. *)
Definition store (d : list byte) (c : C) : C := foldl (fun c w => model_write w c) c (stdio_chunks d).

(** A packet that the server can handle: the parser stays inside it, and a
    seek is not refused. *)
Definition packet_ok (c : C) (d : list byte) : bool :=
  match command_of d with
  | None => false
  | Some None => true
  | Some (Some cmd) => bool_decide (is_Some (model_seek cmd c))
  end.

(** The device after it, and the answer: the text from the position sought,
    or the whole text. *)
Definition after_packet (c : C) (d : list byte) : C :=
  match command_of d with Some None => store d c | _ => c end.

Definition reply (c : C) (d : list byte) : list byte :=
  match command_of d with
  | Some (Some cmd) => drop (Z.to_nat (default 0 (model_seek cmd c))) (model_text c)
  | _ => model_text (after_packet c d)
  end.

Lemma packet_ok_plain c d : has_prefix d = false -> packet_ok c d = true.
Proof. intros Hd. unfold packet_ok. by rewrite command_of_other. Qed.

Lemma store_size d c :
  text_size (store d c) + Z.of_nat (model_hidden (store d c)) <=
    text_size c + Z.of_nat (model_hidden c) + Z.of_nat (length d) /\
  (model_hidden (store d c) <= model_hidden c + length d)%nat.
Proof. pose proof (model_writes_size (stdio_chunks d) c) as Hsz. simpl in Hsz. by rewrite stdio_chunks_concat in Hsz. Qed.

Lemma after_packet_size c d :
  text_size (after_packet c d) + Z.of_nat (model_hidden (after_packet c d)) <=
    text_size c + Z.of_nat (model_hidden c) + Z.of_nat (length d) /\
  (model_hidden (after_packet c d) <= model_hidden c + length d)%nat.
Proof. unfold after_packet. destruct (command_of d) as [[|]|]; [lia|apply store_size|lia]. Qed.

(** ** Events *)

(** What receiving [data] does to a client with pending bytes [p], the device
    contents [c] and the outside (the events appended to the trace). *)
Inductive client_step (sock : Z) (p : option (list byte)) (c : C) :
    list byte -> bool -> option (list byte) -> C -> list io_event -> Prop :=
  | client_closed : client_step sock p c [] true None c [ClosedSocket sock]
  | client_pending data :
      data <> [] -> newline_seen (pending p ++ data) data = false ->
      client_step sock p c data false (Some (pending p ++ data)) c []
  | client_packet data T :
      data <> [] -> newline_seen (pending p ++ data) data = true -> packet_ok c (pending p ++ data) = true ->
      Forall (device_event sock) T -> sent T = reply c (pending p ++ data) ->
      client_step sock p c data false None (after_packet c (pending p ++ data)) (Locked :: T ++ [Unlocked]).

(** A whole run of the handler's loop: whether it ended, the pending data, the
    contents and the events it leaves, and how many buffers it lost. *)
Inductive client_run (sock : Z) :
    option (list byte) -> C -> list poll_event ->
    bool -> option (list byte) -> C -> list io_event -> nat -> Prop :=
  | run_waiting p c : client_run sock p c [] false p c [] 0
  | run_poll_ends p c ev evs :
      ev = PollFailed \/ ev = PollPipe -> client_run sock p c (ev :: evs) true p c [] 1
  | run_poll_nothing p c evs stop p' c' T k :
      client_run sock p c evs stop p' c' T k ->
      client_run sock p c (PollNothing :: evs) stop p' c' T (S k)
  | run_recv_ends p c data evs p' c' T :
      client_step sock p c data true p' c' T ->
      client_run sock p c (PollRecv (Some data) :: evs) true p' c' T 0
  | run_recv p c data evs p1 c1 T1 stop p' c' T k :
      client_step sock p c data false p1 c1 T1 -> client_run sock p1 c1 evs stop p' c' T k ->
      client_run sock p c (PollRecv (Some data) :: evs) stop p' c' (T1 ++ T) k.

(** The data pending after a piece. *)
Definition next_pending (p : option (list byte)) (data : list byte) : option (list byte) :=
  if decide (data = []) then None
  else if newline_seen (pending p ++ data) data then None else Some (pending p ++ data).

(** What is pending, and what the device holds, after an event. *)
Definition event_pending (p : option (list byte)) (ev : poll_event) : option (list byte) :=
  match ev with PollRecv (Some data) => next_pending p data | _ => p end.

Definition event_contents (p : option (list byte)) (c : C) (ev : poll_event) : C :=
  match ev with
  | PollRecv (Some data) =>
      if newline_seen (pending p ++ data) data then after_packet c (pending p ++ data) else c
  | _ => c
  end.

(** Events that end the loop. *)
Definition ends_loop (ev : poll_event) : bool :=
  match ev with PollFailed | PollPipe | PollRecv (Some []) => true | _ => false end.

(** Events that the handler copes with: no error of [recv], and packets that
    it can handle. *)
Definition event_ok (p : option (list byte)) (c : C) (ev : poll_event) : bool :=
  match ev with
  | PollRecv None => false
  | PollRecv (Some data) =>
      (length data <=? 511)%nat && implb (newline_seen (pending p ++ data) data) (packet_ok c (pending p ++ data))
  | _ => true
  end.

Fixpoint input_ok (p : option (list byte)) (c : C) (evs : list poll_event) : bool :=
  match evs with
  | [] => true
  | ev :: evs' =>
      event_ok p c ev && (ends_loop ev || input_ok (event_pending p ev) (event_contents p c ev) evs')
  end.

Definition received_bytes (evs : list poll_event) : nat :=
  sum_list_with (fun ev => match ev with PollRecv (Some data) => length data | _ => O end) evs.

Lemma client_step_next sock p c data stop p' c' T :
  client_step sock p c data stop p' c' T -> p' = next_pending p data.
Proof.
  unfold next_pending. destruct 1 as [|data Hne Hnl|data T Hne Hnl]; [done|..];
    by rewrite decide_False, Hnl by done.
Qed.

Lemma newline_seen_nil acc : newline_seen acc [] = false.
Proof. by apply bool_decide_eq_false_2, not_elem_of_nil. Qed.

Lemma client_step_contents sock p c data stop p' c' T :
  client_step sock p c data stop p' c' T ->
  c' = event_contents p c (PollRecv (Some data)) /\ stop = ends_loop (PollRecv (Some data)).
Proof.
  simpl. destruct 1 as [|data Hne Hnl|data T Hne Hnl]; [by rewrite newline_seen_nil|rewrite Hnl..];
    by destruct data.
Qed.

(** The sizes a step leaves, against what was received. *)
Lemma client_step_size sock p c data stop p' c' T :
  client_step sock p c data stop p' c' T ->
  (length (pending p') <= length (pending p) + length data)%nat /\
  (model_hidden c' + length (pending p') <= model_hidden c + length (pending p) + length data)%nat /\
  text_size c' + Z.of_nat (model_hidden c') + Z.of_nat (length (pending p')) <=
    text_size c + Z.of_nat (model_hidden c) + Z.of_nat (length (pending p)) + Z.of_nat (length data).
Proof.
  destruct 1 as [|data Hne Hnl|data T Hne Hnl]; simpl.
  - lia.
  - unfold pending. simpl. rewrite length_app. lia.
  - pose proof (after_packet_size c (pending p ++ data)) as Hsz. rewrite length_app in Hsz. lia.
Qed.
End client.

Section handler.
Context {D C : Type} `{CharDeviceLaws D C} `{Allocator} `{Streams}.
Implicit Types (w : world D) (c : C) (t : aesd_temperary_buffer) (p : option (list byte)).

(** A program that does nothing but the events [T]. *)
Definition emits (m : SM D ()) (T : list io_event) : Prop :=
  forall w, m w = Returns () (World (uheap w) (device_of w) (trace w ++ T)).

Lemma emits_ret : emits (mret ()) [].
Proof. intros [h d T]. cbn [uheap device_of trace]. by rewrite app_nil_r. Qed.

Lemma emits_emit e : emits (emit e) [e].
Proof. done. Qed.

Lemma emits_then (m1 m2 : SM D ()) T1 T2 : emits m1 T1 -> emits m2 T2 -> emits (_ ← m1; m2) (T1 ++ T2).
Proof.
  intros H1' H2' w. rewrite (run_returns _ _ _ _ _ (H1' w)), H2'. cbn [uheap device_of trace]. by rewrite app_assoc.
Qed.

Lemma emits_when (b : bool) m T : emits m T -> emits (if b then m else mret ()) (if b then T else []).
Proof. destruct b; [done|intros _; apply emits_ret]. Qed.

Lemma emits_repeat n e i : emits (repeat_io n e i) (e <$> seq i n).
Proof. revert i. induction n as [|n IH]; intros i; [apply emits_ret|]. by apply (emits_then _ _ [e i]). Qed.

(** What [cleanupMain] does: it wakes and joins the threads, and closes the
    server's socket. *)
Definition shutdown_events (s : server) : list io_event :=
  match timestamp s with
  | Some ts => if timestampThreadStarted ts && (0 <? pipeTimestampWriter ts)
               then [WroteTimestampPipe; JoinedTimestamp] else []
  | None => []
  end ++
  (if (0 <? threadCount s) && (0 <? pipe_write_end s)
   then (fun _ => WrotePipe) <$> seq 0 (Z.to_nat (threadCount s)) else []) ++
  (if 0 <? threadCount s then (fun i => Joined (Z.of_nat i)) <$> seq 0 (Z.to_nat (threadCount s)) else []) ++
  (if 0 <? serverSockFd s then [ClosedSocket (serverSockFd s)] else []) ++
  (if timestamp s is Some _ then [RemovedFile] else []).

Lemma cleanupMain_emits s : emits (cleanupMain s) (shutdown_events s).
Proof.
  unfold cleanupMain, shutdown_events. apply emits_then.
  { destruct (timestamp s); [|apply emits_ret]. apply emits_when. by apply (emits_then _ _ [_]). }
  apply emits_then; [apply emits_when, emits_repeat|]. apply emits_then; [apply emits_when, emits_repeat|].
  apply emits_then; [by apply emits_when|]. destruct (timestamp s); [done|apply emits_ret].
Qed.

(** [logAndExit] ends the process; its messages are short. *)
Lemma logAndExit_swp {A} s msg code (Q : A -> world D -> Prop) (E : Z -> world D -> Prop) w :
  (String.length msg < 192)%nat ->
  E code (World (uheap w) (device_of w) (trace w ++ shutdown_events s)) -> swp (logAndExit s msg code) Q E w.
Proof.
  intros Hmsg HE. unfold logAndExit. rewrite (proj2 (Z.leb_gt _ _)) by (unfold sizeof_msgBuffer; lia).
  eapply swp_eq; [apply run_returns, cleanupMain_emits|]. exact HE.
Qed.

(** The last request was for [sz] bytes and got nothing. *)
Definition last_refused h (sz : Z) : Prop := exists k, next h = Pos.succ k /\ alloc_serves k sz = false.

Lemma last_refused_refusable h sz : last_refused h sz -> refusable sz.
Proof. intros (k & _ & Hk). by exists k. Qed.

Lemma free_next (q : ptr) h u h' : free q h = Done u h' -> next h' = next h.
Proof.
  destruct q as [| |i]; simpl; [by intros [= _ <-]..|]. destruct (blocks h !! i); [|done]. by intros [= _ <-].
Qed.

Lemma alloc_null sz h (q : ptr) h' : alloc sz h = Done q h' -> is_null q = true -> next h' = Pos.succ (next h).
Proof.
  unfold alloc. destruct (_ && _); [by intros [= <- _]|]. destruct (_ && _); [by intros [= <- _]|]. by intros [= _ <-].
Qed.

(** An addition that fails does so at its only request. *)
Lemma tmp_add_refused t data size h t1 h' :
  aesd_temperary_buffer_add t data size h = Done (false, t1) h' -> next h' = Pos.succ (next h).
Proof.
  unfold aesd_temperary_buffer_add, mbind, M_bind. intros E.
  destruct (is_null (tmp_buffptr t)); destruct (alloc _ h) as [q h1|] eqn:Ea; try done;
    (destruct (is_null q) eqn:Eq; [injection E as _ <-; by eapply alloc_null|]); exfalso;
    repeat match type of E with context [match ?m with Done _ _ => _ | Stuck _ => _ end] => destruct m; [|done] end; done.
Qed.

Lemma calloc_null h q h' : calloc_buffer h = Done q h' -> is_null q = true -> next h' = Pos.succ (next h).
Proof.
  unfold calloc_buffer, mbind, M_bind. intros E Hq. destruct (alloc BUFFER_SIZE h) as [p h1|] eqn:Ea; [|done].
  destruct (is_null p) eqn:Ep; [injection E as _ <-; by eapply alloc_null|].
  destruct (store_bytes p 0 _ h1); [|done]. injection E as -> _. by rewrite Ep in Hq.
Qed.

(** The buffer of one iteration, zeroed. *)
Definition zeros (n : nat) : block := replicate n (Some ch_nul).

Lemma calloc_buffer_wp h L :
  holds h L ->
  wp calloc_buffer
     (fun q h' => if is_null q then holds h' L /\ last_refused h' BUFFER_SIZE
                  else holds h' (own q (zeros 512) ++ L) /\ own_ok q (zeros 512)) h.
Proof.
  intros Hh.
  assert (wp calloc_buffer (fun q h' => if is_null q then holds h' L /\ alloc_serves (next h) BUFFER_SIZE = false
                                        else holds h' (own q (zeros 512) ++ L) /\ own_ok q (zeros 512)) h) as Hw.
  { unfold calloc_buffer. apply wp_bind.
    eapply wp_mono; [by apply (wp_alloc _ BUFFER_SIZE _ Hh)|]. intros q h1 [Hh1 Hq].
    rewrite (alloc_serves_not_null _ _ _ _ Hq). destruct (alloc_serves _ _) eqn:Es; cbn [negb].
    - change (Z.to_nat BUFFER_SIZE) with 512%nat in *. apply wp_bind. eapply wp_mono.
      { apply (wp_store_bytes _ q _ 0 (replicate 512 (Some ch_nul)) _ Hh1 Hq); [done|].
        rewrite !length_replicate. lia. }
      intros _ h2 [Hh2 _]. apply wp_ret.
      rewrite (own_ok_not_null _ _ Hq).
      change (splice _ _ _) with (zeros 512) in Hh2. split; [done|]. by destruct q.
    - subst q. by apply wp_ret. }
  destruct (wp_done _ _ _ Hw) as (q & h' & E & HQ). unfold wp. rewrite E.
  destruct (is_null q) eqn:Eq; [|done]. destruct HQ as [Hh' Es]. split; [done|].
  exists (next h). split; [by eapply calloc_null|done].
Qed.

(** The buffer after [recv] and the terminating NUL: the data in front. *)
Lemma recv_buffer_wp h q data L :
  (length data <= 511)%nat -> holds h (own q (zeros 512) ++ L) -> own_ok q (zeros 512) ->
  wp (_ ← store_bytes q 0 (Some <$> data); store_bytes q (Z.of_nat (length data)) [Some ch_nul])
     (fun _ h' => holds h' (own q ((Some <$> data) ++ zeros (512 - length data)) ++ L) /\
                  own_ok q ((Some <$> data) ++ zeros (512 - length data))) h.
Proof.
  intros Hlen Hh Hq. assert (length (zeros 512) = 512%nat) as Hz by apply length_replicate.
  assert (splice (zeros 512) 0 (Some <$> data) = (Some <$> data) ++ zeros (512 - length data)) as E1.
  { unfold splice, zeros. simpl take. simpl plus. by rewrite length_fmap, drop_replicate. }
  apply wp_bind. eapply wp_mono.
  { apply (wp_store_bytes _ q _ 0 (Some <$> data) _ Hh Hq); [done|]. rewrite length_fmap, Hz. lia. }
  intros _ h1 [Hh1 _]. change (Z.to_nat 0) with O in Hh1. rewrite E1 in Hh1.
  assert (own_ok q ((Some <$> data) ++ zeros (512 - length data))) as Hq1 by (by destruct q).
  eapply wp_mono.
  { apply (wp_store_bytes _ q _ (Z.of_nat (length data)) [Some ch_nul] _ Hh1 Hq1); [lia|].
    rewrite length_app, length_fmap. unfold zeros. rewrite length_replicate. simpl length. lia. }
  intros _ h2 [Hh2 _]. rewrite Nat2Z.id in Hh2.
  assert (splice ((Some <$> data) ++ zeros (512 - length data)) (length data) [Some ch_nul] =
          (Some <$> data) ++ zeros (512 - length data)) as E2.
  { unfold splice, zeros. replace (512 - length data)%nat with (S (511 - length data)) by lia.
    rewrite <- (length_fmap Some data). rewrite take_app_length. f_equal. simpl.
    rewrite drop_app_ge by lia. replace (_ - _)%nat with 1%nat by (simpl; lia). done. }
  by rewrite E2 in Hh2.
Qed.

(** What is done on the device between the lock and the unlock. *)
Lemma locked_section sock (m : SM D ()) w c text :
  let w0 := World (uheap w) (device_of w) (trace w ++ [Locked]) in
  swp m (fun _ w' => dev_abs (device_of w') c /\ io_rel (device_event sock) w0 w' text) no_exit w0 ->
  swp (_ ← m; emit Unlocked)
      (fun _ w' => dev_abs (device_of w') c /\ uheap w' = uheap w /\
         exists T, trace w' = trace w ++ Locked :: T ++ [Unlocked] /\ Forall (device_event sock) T /\
           sent T = text) no_exit w0.
Proof.
  intros w0 Hm. apply swp_bind. eapply swp_mono; [exact Hm| |done].
  intros _ w1 [Habs1 [Hh1 (T & Ht1 & HT & Hs)]]. cbn [w0 uheap trace] in *. apply swp_emit. cbn [uheap device_of trace].
  split_and!; [done|done|]. exists T. rewrite Ht1, <- !app_assoc. by split_and!.
Qed.

(** The critical section. *)
Lemma process_packet_spec srv sock n t bs w c L :
  (forall n, fopen_ok n = true) -> dev_abs (device_of w) c ->
  tmp_models t (Some bs) -> holds (uheap w) (tmp_chunks t (Some bs) ++ L) -> packet_ok c bs = true ->
  Z.of_nat (model_hidden c) + Z.of_nat (length bs) <= dev_limit ->
  text_size c + Z.of_nat (model_hidden c) + Z.of_nat (length bs) < Z.of_nat n ->
  swp (process_packet srv n sock t)
      (fun _ w' => dev_abs (device_of w') (after_packet c bs) /\ uheap w' = uheap w /\
         exists T, trace w' = trace w ++ Locked :: T ++ [Unlocked] /\ Forall (device_event sock) T /\
           sent T = reply c bs) no_exit w.
Proof.
  intros Hopen Habs Ht Hh Hok Hlim Hn. unfold process_packet. apply swp_bind, swp_emit.
  apply swp_bind, swp_on_heap. cbn [uheap device_of trace].
  pose proof Ht as [Hsz Htok]. rewrite Hsz. unfold wp.
  rewrite (checkForCommandInString_exact _ _ bs); [|by eapply str_at_own|by intros E; rewrite E in Htok].
  pose proof (after_packet_size c bs). unfold packet_ok, reply, after_packet in *.
  destruct (command_of bs) as [[cmd|]|]; [| |done]; cbn [fst snd]; apply locked_section.
  - apply bool_decide_eq_true in Hok as [pos Hpos]. rewrite Hpos. cbn [default].
    eapply swp_mono; [eapply (seek_and_send_spec srv sock n t cmd _ c pos); try done; lia| |done].
    intros _ w1 [Hd1 Hio]. by rewrite Hd1.
  - apply (write_and_send_spec srv sock n t bs _ c _ (uheap w) L); cbn [device_of uheap]; try done.
    fold (store bs c). lia.
Qed.

Lemma newline_seen_spec t bs data h :
  str_at h (tmp_buffptr t) bs -> tmp_buffptr t <> NULL -> data <> [] -> (length data <= length bs)%nat ->
  exists pos, checkForNewlineCharInString (tmp_buffptr t) (Z.of_nat (length data)) (Some (-1)) h =
    Done (newline_seen bs data, pos) h.
Proof.
  intros Hs Hnull Hne Hlen. assert (0 < Z.of_nat (length data)) by (destruct data; simpl; [done|lia]).
  destruct (checkForNewline_spec h _ bs (Z.of_nat (length data)) (Some (-1)) Hs Hnull ltac:(lia)) as [pos E].
  exists pos. rewrite E. by rewrite Nat2Z.id.
Qed.

(** What follows once the accumulated data is known to contain a newline. *)
Definition packet_branch (srv : server) (n : nat) (sock : Z) t : SM D (bool * aesd_temperary_buffer) :=
  _ ← process_packet srv n sock t;
  t' ← on_heap (aesd_temperary_buffer_clean t);
  mret (false, t').

(** [receive] up to there: the data joins the pending data. *)
Lemma receive_accumulates srv sock n q data t p w L :
  data <> [] -> (length data <= 511)%nat -> tmp_models t p -> own_ok q (zeros 512) ->
  holds (uheap w) (own q (zeros 512) ++ tmp_chunks t p ++ L) ->
  exists ok t1 h1,
    (ok = false -> last_refused h1 (Z.of_nat (length (pending p ++ data)))) /\
    (ok = true -> tmp_models t1 (Some (pending p ++ data)) /\
                  holds h1 (tmp_chunks t1 (Some (pending p ++ data)) ++ L)) /\
    receive srv n sock q (Some data) t w =
      (if ok then
         if newline_seen (pending p ++ data) data then packet_branch srv n sock t1 else mret (false, t1)
       else logAndExit srv "Failed to add data to temporary buffer" EXIT_FAILURE)
        (World h1 (device_of w) (trace w)).
Proof.
  intros Hne Hlen Ht Hq Hh. unfold receive. set (acc := pending p ++ data).
  pose proof (wp_bind_inv _ _ _ _ (recv_buffer_wp _ q data _ Hlen Hh Hq)) as Hrecv.
  destruct (wp_done _ _ _ Hrecv) as (? & h1 & E1 & Hrecv1). rewrite (on_heap_done _ _ _ _ w E1).
  rewrite (proj2 (Z.leb_le 0 _)), (proj2 (Z.ltb_lt _ BUFFER_SIZE)) by (unfold BUFFER_SIZE; lia). cbn [andb].
  destruct (wp_done _ _ _ Hrecv1) as (? & h2 & E2 & Hh2 & Hq2).
  rewrite (on_heap_done _ _ _ _ (World h1 (device_of w) (trace w)) E2). cbn [uheap device_of trace]. rewrite u64_small by lia. rewrite Permutation_app_swap_app in Hh2.
  destruct (wp_done _ _ _ (wp_tmp_add_front _ _ _ _ _ _ _ Ht Hq2 Hh2)) as ([ok t1] & h3 & E3 & Hok & Ht1 & Hh3).
  rewrite (on_heap_done _ _ _ _ (World h2 (device_of w) (trace w)) E3).
  cbn [fst snd uheap device_of trace] in *.
  rewrite (tmp_models_pending _ _ Ht), <- Nat2Z.inj_add, <- length_app in Hok. fold (pending p) in Hok. fold acc in Hok.
  rewrite (tmp_models_pending _ _ Ht), <- Nat2Z.inj_add, <- length_app in Ht1, Hh3.
  fold (pending p) in Ht1, Hh3. fold acc in Ht1, Hh3. rewrite <- Hok in Ht1, Hh3.
  rewrite Permutation_app_swap_app in Hh3.
  destruct (wp_done _ _ _ (wp_free _ q _ _ Hh3)) as ([] & h4 & Efree & Hh4 & _).
  exists ok, t1, h4. split_and!.
  - intros ->. exists (next h2). rewrite (free_next _ _ _ _ Efree). split; [by eapply tmp_add_refused|done].
  - by intros ->.
  - destruct ok; cbn [negb]; rewrite (on_heap_done _ _ _ _ (World h3 (device_of w) (trace w)) Efree); cbn [uheap device_of trace]; [|done].
    zdec.
    rewrite (proj2 (Z.eqb_neq _ 0)) by (destruct data; simpl; [done|lia]).
    pose proof Ht1 as [Hsz1 Hok1]. pose proof (str_at_own _ _ _ _ Hh4 Hok1) as Hstr.
    assert (tmp_buffptr t1 <> NULL) as Hnull by (by intros E; rewrite E in Hok1).
    assert (length data <= length acc)%nat as Hle by (unfold acc; lia_len).
    assert (0 < Z.of_nat (length data)) by (destruct data; simpl; [done|lia]).
    rewrite (on_heap_done _ _ _ _ (World h4 (device_of w) (trace w))
               (checkForNull_spec _ _ _ (Z.of_nat (length data)) Hstr Hnull ltac:(lia))). cbn [uheap device_of trace].
    destruct (newline_seen_spec t1 _ data h4 Hstr Hnull Hne Hle) as [pos Epos].
    rewrite (on_heap_done _ _ _ _ (World h4 (device_of w) (trace w)) Epos). cbn [fst snd uheap device_of trace].
    by destruct (newline_seen acc data).
Qed.

(** An empty piece is the end of the connection. *)
Lemma receive_closes srv sock n q t p w L :
  tmp_models t p -> own_ok q (zeros 512) ->
  holds (uheap w) (own q (zeros 512) ++ tmp_chunks t p ++ L) ->
  swp (receive srv n sock q (Some []) t)
      (fun res w' => res = (true, Temporary NULL 0) /\ holds (uheap w') L /\
         device_of w' = device_of w /\ trace w' = trace w ++ [ClosedSocket sock])
      (fun code w' => code = EXIT_FAILURE /\ last_refused (uheap w') (Z.of_nat (length (pending p))) /\
         device_of w' = device_of w /\ trace w' = trace w ++ shutdown_events srv) w.
Proof.
  intros Ht Hq Hh. unfold receive. cbn [length].
  pose proof (wp_bind_inv _ _ _ _ (recv_buffer_wp _ q [] _ ltac:(simpl; lia) Hh Hq)) as Hrecv.
  apply swp_bind, swp_on_heap. eapply wp_mono; [exact Hrecv|]. intros ? h1 Hrecv1.
  apply swp_bind, swp_on_heap. eapply wp_mono; [exact Hrecv1|]. intros _ h2 [Hh2 Hq2].
  apply swp_bind, swp_on_heap. cbn [uheap device_of trace]. change (u64 (Z.of_nat 0)) with (Z.of_nat (length (A:=byte) [])).
  rewrite Permutation_app_swap_app in Hh2.
  destruct (wp_done _ _ _ (wp_tmp_add_front _ _ _ _ _ _ _ Ht Hq2 Hh2)) as ([ok t1] & h3 & E3 & Hres).
  change (Driver.aesd_temperary_buffer_add t) with (aesd_temperary_buffer_add t) in E3. unfold wp. rewrite E3.
  cbn [fst snd] in *. revert Hres.
  rewrite (tmp_models_pending _ _ Ht). fold (pending p). rewrite Z.add_0_r. intros (Hok & Ht1 & Hh3).
  rewrite <- Hok in Ht1, Hh3. rewrite Permutation_app_swap_app in Hh3.
  destruct (wp_done _ _ _ (wp_free _ q _ _ Hh3)) as ([] & h4 & Efree & Hh4 & _).
  destruct ok; cbn [negb];
    (eapply swp_eq; [by apply (on_heap_done _ _ _ _ (World h3 (device_of w) (trace w)) Efree)|]);
    cbn [uheap device_of trace].
  - change (Z.of_nat 0 <? 0) with false. change (Z.of_nat 0 =? 0) with true. cbv iota.
    apply swp_bind, swp_on_heap. eapply wp_mono; [by eapply wp_tmp_release|].
    intros t2 h5 (-> & Hh5 & _). by apply swp_bind, swp_emit, swp_ret.
  - apply logAndExit_swp; [simpl; lia|]. cbn [uheap device_of trace]. split_and!; [done| |done|done].
    exists (next h2). rewrite (free_next _ _ _ _ Efree). split; [by eapply tmp_add_refused|done].
Qed.

(** A received piece does what [client_step] says; the process ends only when
    there is no memory for the accumulated data. *)
Lemma receive_swp srv sock n q data t p w c L :
  (forall n, fopen_ok n = true) -> (length data <= 511)%nat -> tmp_models t p -> own_ok q (zeros 512) ->
  holds (uheap w) (own q (zeros 512) ++ tmp_chunks t p ++ L) -> dev_abs (device_of w) c ->
  implb (newline_seen (pending p ++ data) data) (packet_ok c (pending p ++ data)) = true ->
  Z.of_nat (model_hidden c) + Z.of_nat (length (pending p ++ data)) <= dev_limit ->
  text_size c + Z.of_nat (model_hidden c) + Z.of_nat (length (pending p ++ data)) < Z.of_nat n ->
  swp (receive srv n sock q (Some data) t)
      (fun res w' => exists p' c' T, client_step sock p c data res.1 p' c' T /\
         tmp_models res.2 p' /\ holds (uheap w') (tmp_chunks res.2 p' ++ L) /\
         dev_abs (device_of w') c' /\ trace w' = trace w ++ T)
      (fun code w' => code = EXIT_FAILURE /\ last_refused (uheap w') (Z.of_nat (length (pending p ++ data))) /\
         device_of w' = device_of w /\ trace w' = trace w ++ shutdown_events srv) w.
Proof.
  intros Hopen Hlen Ht Hq Hh Habs Hpk Hlim Hn. destruct (decide (data = [])) as [->|Hne].
  { eapply swp_mono; [by eapply receive_closes| |by rewrite app_nil_r].
    intros ? w' (-> & Hh' & Hd & Htr). exists None, c, [ClosedSocket sock].
    split_and!; [constructor|done|done|by rewrite Hd|done]. }
  destruct (receive_accumulates srv sock n q data t p w L Hne Hlen Ht Hq Hh) as (ok & t1 & h1 & Hbad & Hgood & E).
  eapply swp_eq; [exact E|]. destruct ok.
  2:{ apply logAndExit_swp; [simpl; lia|]. split_and!; [done|by apply Hbad|done|done]. }
  destruct (Hgood eq_refl) as [Ht1 Hh1]. destruct (newline_seen (pending p ++ data) data) eqn:Enl.
  2:{ apply swp_ret. exists (Some (pending p ++ data)), c, []. cbn [fst snd uheap device_of trace].
      rewrite app_nil_r. split_and!; [by constructor|done..]. }
  set (w1 := World h1 (device_of w) (trace w)).
  unfold packet_branch. apply swp_bind. eapply swp_mono.
  { by eapply (process_packet_spec srv sock n t1 (pending p ++ data) w1 c L). }
  2: done. intros _ w5 (Habs5 & Hh5 & T & HT5 & HT & Hs). apply swp_bind, swp_on_heap. rewrite Hh5.
  eapply wp_mono; [by eapply wp_tmp_release|]. intros t2 h6 (-> & Hh6 & _). apply swp_ret.
  cbn [uheap device_of trace fst snd].
  eexists None, _, (Locked :: T ++ [Unlocked]). split_and!; [by eapply client_packet|done|done|exact Habs5|done].
Qed.

(** ** The loop *)

(** [k] lost buffers of one iteration each. *)
Definition lost (k : nat) (B : list chunk) : Prop :=
  length B = k /\ Forall (fun ch => ch.2 = zeros 512) B.

(** The process ended after the events [served], because a request for memory
    was refused. *)
Record no_memory (srv : server) (sock : Z) p c (evs : list poll_event) w (code : Z) w' : Prop := {
  nm_code : code = EXIT_FAILURE;
  nm_served : exists served ev rest p' c' T k, evs = served ++ ev :: rest /\
    client_run sock p c served false p' c' T k /\ dev_abs (device_of w') c' /\
    trace w' = trace w ++ T ++ shutdown_events srv;
  nm_refused : exists sz, 0 <= sz <= Z.max BUFFER_SIZE (Z.of_nat (length (pending p) + received_bytes evs)) /\
    last_refused (uheap w') sz
}.

(** At the first event. *)
Lemma no_memory_now srv sock p c ev evs w w' sz :
  dev_abs (device_of w') c -> trace w' = trace w ++ shutdown_events srv -> last_refused (uheap w') sz ->
  0 <= sz <= Z.max BUFFER_SIZE (Z.of_nat (length (pending p) + received_bytes (ev :: evs))) ->
  no_memory srv sock p c (ev :: evs) w EXIT_FAILURE w'.
Proof.
  intros Habs Htr Hr Hsz. split; [done| |by exists sz].
  exists [], ev, evs, p, c, [], O. split_and!; [done|constructor|done|done].
Qed.

Lemma own_one q : own_ok q (zeros 512) -> exists i, own q (zeros 512) = [(i, zeros 512)].
Proof. destruct q as [| |i]; simpl; [done|done|]. by exists i. Qed.

(** A loop that goes on after an iteration that lost the buffer [q]. *)
Lemma lost_one q k B L K h :
  own_ok q (zeros 512) -> lost k B -> holds h (B ++ K ++ own q (zeros 512) ++ L) ->
  exists B', lost (S k) B' /\ holds h (B' ++ K ++ L).
Proof.
  intros Hq [Hk HB] Hh. destruct (own_one q Hq) as [i Ei]. rewrite Ei in Hh.
  exists ((i, zeros 512) :: B). split; [split; simpl; [by rewrite Hk|by constructor]|]. holds_perm Hh.
Qed.

Lemma handler_loop_swp srv sock n evs t p w c L :
  (forall n, fopen_ok n = true) -> input_ok p c evs = true -> tmp_models t p ->
  holds (uheap w) (tmp_chunks t p ++ L) -> dev_abs (device_of w) c ->
  Z.of_nat (model_hidden c + length (pending p) + received_bytes evs) <= dev_limit ->
  text_size c + Z.of_nat (model_hidden c + length (pending p) + received_bytes evs) < Z.of_nat n ->
  swp (handler_loop srv n sock evs t)
      (fun res w' => exists p' c' T k B, client_run sock p c evs res.1 p' c' T k /\
         tmp_models res.2 p' /\ lost k B /\ holds (uheap w') (B ++ tmp_chunks res.2 p' ++ L) /\
         dev_abs (device_of w') c' /\ trace w' = trace w ++ T)
      (no_memory srv sock p c evs w) w.
Proof.
  intros Hopen. revert t p w c L. induction evs as [|ev evs IH]; intros t p w c L Hin Ht Hh Habs Hlim Hn; cbn [handler_loop].
  { apply swp_ret. exists p, c, [], O, []. rewrite app_nil_r.
    split_and!; [constructor|done|by split|done|done|done]. }
  apply swp_bind. unfold handler_iteration. apply swp_bind, swp_on_heap.
  eapply wp_mono; [by apply calloc_buffer_wp|]. intros q h1 Hq. cbv beta in Hq.
  destruct (is_null q).
  { apply logAndExit_swp; [simpl; lia|]. destruct Hq as [_ Hr].
    eapply no_memory_now; [done|done|exact Hr|unfold BUFFER_SIZE; lia]. }
  destruct Hq as [Hh1 Hq].
  destruct (own_one q Hq) as [i Ei].
  cbn [input_ok] in Hin. apply andb_true_iff in Hin as [Hev Hin].
  destruct ev as [| |[data|]|]; cbn [event_ok ends_loop orb] in Hev, Hin.
  1, 2: apply swp_ret; rewrite Ei in Hh1; exists p, c, [], 1%nat, [(i, zeros 512)]; rewrite app_nil_r; simpl;
    split_and!; [apply run_poll_ends; auto|done|by repeat constructor|done|done|done].
  - apply andb_true_iff in Hev as [Hlen Hpk]. apply Nat.leb_le in Hlen. unfold received_bytes in Hlim, Hn. simpl in Hlim, Hn.
    fold (received_bytes evs) in Hlim, Hn. eapply swp_mono.
    { apply (receive_swp srv sock n q data t p _ c L); cbn [uheap device_of]; try done;
        lia_len. }
    + intros [stop t1] w1 (p1 & c1 & T1 & Hstep & Ht1 & Hh2 & Habs1 & Htr). cbn [fst snd uheap device_of trace] in *.
      pose proof (client_step_size _ _ _ _ _ _ _ _ Hstep) as Hsz. destruct stop.
      * apply swp_ret. exists p1, c1, T1, O, []. split_and!; [by constructor|done|by split|done|done|done].
      * destruct (client_step_contents _ _ _ _ _ _ _ _ Hstep) as [Ec Es]. cbn [ends_loop] in Es. rewrite <- Es in Hin.
        cbn [orb event_pending] in Hin. rewrite <- Ec, <- (client_step_next _ _ _ _ _ _ _ _ Hstep) in Hin.
        eapply swp_mono; [apply (IH t1 p1 w1 c1 L Hin Ht1 Hh2 Habs1); lia|..].
        -- intros [stop t2] w2 (p2 & c2 & T2 & k & B & Hrun & Ht2 & HB & Hh3 & Habs2 & Htr2).
           exists p2, c2, (T1 ++ T2), k, B.
           split_and!; [by eapply run_recv|done..|by rewrite Htr2, Htr, app_assoc].
        -- intros code w2 [Hcode (sv & ev & rest & p2 & c2 & T & k & -> & Hrun & Habs2 & Htr2) (sz & Hb & Hr)].
           split; [done| |exists sz; split; [|done]].
           ++ exists (PollRecv (Some data) :: sv), ev, rest, p2, c2, (T1 ++ T), k.
              split_and!; [done|by eapply run_recv|done|by rewrite Htr2, Htr, !app_assoc].
           ++ unfold received_bytes at 1. simpl. fold (received_bytes (sv ++ ev :: rest)). lia.
    + intros code w1 (-> & Hr & Hd & Htr). eapply no_memory_now; [by rewrite Hd|done|exact Hr|].
      unfold received_bytes. simpl. fold (received_bytes evs). rewrite length_app. lia.
  - done.
  - eapply swp_mono.
    + apply swp_ret. by instantiate (1 := fun res w' => res = (false, t) /\ w' = World h1 (device_of w) (trace w)).
    + intros ? ? [-> ->]. eapply swp_mono.
      * apply (IH t p _ c (own q (zeros 512) ++ L)); cbn [uheap device_of]; try done. holds_perm Hh1.
      * cbn [trace]. intros [stop t2] w2 (p2 & c2 & T2 & k & B & Hrun & Ht2 & HB & Hh3 & Habs2 & Htr2).
        destruct (lost_one _ _ _ _ _ _ Hq HB Hh3) as (B' & HB' & Hh4).
        exists p2, c2, T2, (S k), B'. split_and!; [by constructor|done..].
      * intros code w2 [Hcode (sv & ev & rest & p2 & c2 & T & k & -> & Hrun & Hend) Hr]. split; [done| |exact Hr].
        exists (PollNothing :: sv), ev, rest, p2, c2, T, (S k). split_and!; [done|by constructor|apply Hend..].
    + by instantiate (1 := no_exit).
Qed.
End handler.
