(* ===== verification/SocketProps.v ===== *)
(** * Properties of the socket server

    What a client of the server gets, proved against the device's contract:
    the lines it sends reach the device, the text comes back, the device is
    touched under the lock only, and a handler's memory is accounted for; and
    what goes wrong on inputs the code does not expect. *)

From Stdlib.Strings Require Import String.
From S2P Require Import Prelude CInt CMem Footprint Common CircularBuffer TemporaryBuffer.
From S2P Require Import Ring CircularFacts CircularSearch CharDevice DeviceFacts WriteFacts SeekFacts.
From S2P Require Import ModuleFacts DeviceSpec DeviceInterface DriverDevice Process CString SeekCommand Writer.
From S2P Require Import SocketServer SocketFacts HandlerFacts Scenario TempProps DeviceProps.
Import TemporaryBuffer.Server.

(** ** The lock *)







Section lock.
Context {C : Type} `{DeviceModel C} `{Streams}.


End lock.

(** ** A whole handler *)

(** The block of a client's structure. *)
Definition client_block : block := replicate 24 (Some ch_nul).

Section handler.
Context {D C : Type} `{CharDeviceLaws D C} `{Allocator} `{Streams}.
Implicit Types (w : world D) (c : C) (t : aesd_temperary_buffer) (p : option (list byte)).

(** What the premises of a handler's run are. *)
Record handler_ready (n : nat) (cp : ptr) (cd : clientData_t) (evs : list poll_event) c L w : Prop := {
  hr_fopen k : fopen_ok k = true;
  hr_input : input_ok None c evs = true;
  hr_client : own_ok cp client_block;
  hr_heap : holds (uheap w) (own cp client_block ++ L);
  hr_device : dev_abs (device_of w) c;
  hr_limit : Z.of_nat (model_hidden c + received_bytes evs) <= dev_limit;
  hr_bound : text_size c + Z.of_nat (model_hidden c + received_bytes evs) < Z.of_nat n;
  hr_sock : 0 < newSockFd cd
}.

(** The end of a thread: its memory is freed and its socket closed. *)
Lemma cleanupClientHandler_swp cp cd t p w L :
  own_ok cp client_block -> 0 < newSockFd cd -> tmp_models t p ->
  holds (uheap w) (tmp_chunks t p ++ own cp client_block ++ L) ->
  swp (cleanupClientHandler cp cd (Some t))
      (fun _ w' => holds (uheap w') L /\ device_of w' = device_of w /\
         trace w' = trace w ++ [ClosedSocket (newSockFd cd)]) no_exit w.
Proof.
  intros Hcp Hsock Ht Hh. unfold cleanupClientHandler, deref_client. apply swp_bind, swp_bind, swp_on_heap.
  eapply wp_mono; [by eapply wp_tmp_release|]. intros t2 h2 (-> & Hh2 & _). apply swp_ret.
  apply swp_bind, swp_bind, swp_on_heap. unfold wp. cbn [uheap device_of trace].
  rewrite (get_block_own _ _ _ _ Hh2 Hcp). apply swp_ret.
  rewrite (proj2 (Z.ltb_lt 0 _) Hsock). apply swp_bind, swp_emit. cbn [uheap device_of trace].
  rewrite (own_ok_not_null _ _ Hcp). cbn [negb]. apply swp_on_heap. cbn [uheap device_of trace].
  eapply wp_mono; [by eapply wp_free|]. by intros _ h3 [Hh3 _].
Qed.

Lemma clientHandler_swp srv n cp cd evs w c L :
  handler_ready n cp cd evs c L w ->
  swp (clientHandler srv n cp cd evs)
      (fun res w' => exists p' c' T k B, client_run (newSockFd cd) None c evs res.1 p' c' T k /\ lost k B /\
         dev_abs (device_of w') c' /\
         if res.1 then holds (uheap w') (B ++ L) /\ trace w' = trace w ++ T ++ [ClosedSocket (newSockFd cd)]
         else tmp_models res.2 p' /\ holds (uheap w') (B ++ tmp_chunks res.2 p' ++ own cp client_block ++ L) /\
              trace w' = trace w ++ T)
      (no_memory srv (newSockFd cd) None c evs w) w.
Proof.
  intros [Hopen Hin Hcp Hh Habs Hlim Hn Hsock]. unfold clientHandler.
  apply swp_bind. unfold deref_client at 1. apply swp_bind, swp_on_heap. unfold wp.
  rewrite (get_block_own _ _ _ _ Hh Hcp). apply swp_ret. apply swp_bind. eapply swp_mono.
  { apply (handler_loop_swp srv (newSockFd cd) n evs (Temporary NULL 0) None _ c (own cp client_block ++ L));
      cbn [uheap device_of]; try done; simpl length; lia. }
  2: by destruct w.
  intros [stop t] w1 (p' & c' & T & k & B & Hrun & Ht & HB & Hh1 & Habs1 & Htr). cbn [fst snd] in *.
  destruct stop.
  2:{ apply swp_ret. cbn [fst snd]. exists p', c', T, k, B. by split_and!. }
  apply swp_bind. rewrite (Permutation_app_swap_app B), (Permutation_app_swap_app B) in Hh1.
  eapply swp_mono; [by eapply cleanupClientHandler_swp| |done].
  intros _ w2 (Hh2 & Hd2 & Htr2). apply swp_ret. cbn [fst snd].
  exists p', c', T, k, B. split_and!; [done|done|by rewrite Hd2|done|]. by rewrite Htr2, Htr, <- app_assoc.
Qed.

Lemma no_memory_reliable srv sock p c evs w code w' :
  reliable -> Z.of_nat (length (pending p) + received_bytes evs) <= alloc_max -> BUFFER_SIZE <= alloc_max ->
  ~ no_memory srv sock p c evs w code w'.
Proof.
  intros Hrel Hmax Hbuf [_ _ (sz & Hsz & Hr)]. apply (reliable_not_refusable sz Hrel); [lia|].
  by eapply last_refused_refusable.
Qed.

(** What such a handler sends, while there is memory. *)
Lemma clientHandler_sends srv n cp cd evs w c L :
  handler_ready n cp cd evs c L w -> reliable -> BUFFER_SIZE <= alloc_max -> Z.of_nat (received_bytes evs) <= alloc_max ->
  exists stop t w' p' c' T k,
    clientHandler srv n cp cd evs w = Returns (stop, t) w' /\
    client_run (newSockFd cd) None c evs stop p' c' T k /\ dev_abs (device_of w') c' /\
    sent (trace w') = sent (trace w) ++ sent T.
Proof.
  intros Hready Hrel Hbuf Hmax.
  destruct (swp_done _ _ _ _ (clientHandler_swp srv n cp cd evs w c L Hready)) as ([stop t] & w' & E & HQ).
  { intros code w'. by apply no_memory_reliable. }
  destruct HQ as (p' & c' & T & k & B & Hrun & _ & Habs & Hend). exists stop, t, w', p', c', T, k.
  split_and!; [done|done|done|]. cbn [fst] in Hend. destruct stop.
  - destruct Hend as [_ ->]. rewrite !sent_app. by rewrite app_nil_r.
  - destruct Hend as (_ & _ & ->). by rewrite sent_app.
Qed.
End handler.

(** ** One iteration *)

Section iteration.
Context {D C : Type} `{CharDeviceLaws D C} `{Allocator} `{Streams} (Hrel : reliable) (Hbuf : BUFFER_SIZE <= alloc_max).
Implicit Types (w : world D) (c : C) (t : aesd_temperary_buffer) (p : option (list byte)).

(** With memory available, an iteration that receives is [receive] on a
    zeroed buffer. *)
Lemma iteration_receives srv n sock r t w K :
  holds (uheap w) K ->
  exists q h1, own_ok q (zeros 512) /\ holds h1 (own q (zeros 512) ++ K) /\
    handler_iteration srv n sock (PollRecv r) t w =
      receive srv n sock q r t (World h1 (device_of w) (trace w)).
Proof.
  intros Hh. destruct (wp_done _ _ _ (calloc_buffer_wp _ _ Hh)) as (q & h1 & E & Hq).
  unfold handler_iteration. rewrite (on_heap_done _ _ _ _ w E). cbv beta in Hq. destruct (is_null q).
  - destruct Hq as [_ Hr]. by destruct (reliable_not_refusable BUFFER_SIZE Hrel Hbuf (last_refused_refusable _ _ Hr)).
  - destruct Hq as [Hh1 Hq]. by exists q, h1.
Qed.

(** Receiving data, with memory available. *)
Lemma iteration_accumulates srv n sock data t p w L :
  data <> [] -> (length data <= 511)%nat -> tmp_models t p ->
  Z.of_nat (length (pending p ++ data)) <= alloc_max -> holds (uheap w) (tmp_chunks t p ++ L) ->
  exists t1 h1, tmp_models t1 (Some (pending p ++ data)) /\
    holds h1 (tmp_chunks t1 (Some (pending p ++ data)) ++ L) /\
    handler_iteration srv n sock (PollRecv (Some data)) t w =
      (if newline_seen (pending p ++ data) data then packet_branch srv n sock t1 else mret (false, t1))
        (World h1 (device_of w) (trace w)).
Proof.
  intros Hne Hlen Ht Hmax Hh.
  destruct (iteration_receives srv n sock (Some data) t w _ Hh) as (q & h0 & Hq & Hh0 & E0).
  destruct (receive_accumulates srv sock n q data t p (World h0 (device_of w) (trace w)) L Hne Hlen Ht Hq Hh0)
    as (ok & t1 & h1 & Hbad & Hgood & E).
  destruct ok; [|by destruct (reliable_not_refusable _ Hrel Hmax (last_refused_refusable _ _ (Hbad eq_refl)))].
  destruct (Hgood eq_refl) as [Ht1 Hh1]. exists t1, h1. by rewrite E0, E.
Qed.

Lemma newline_seen_first data : ch_newline ∈ data -> newline_seen (pending None ++ data) data = true.
Proof. intros Hnl. apply bool_decide_eq_true_2. simpl. by rewrite take_ge. Qed.

(** The first line of the critical section, for any packet. *)
Lemma packet_branch_locked srv n sock t bs res w h :
  tmp_models t (Some bs) ->
  checkForCommandInString (tmp_buffptr t) (Z.of_nat (length bs)) (Seekto 0 0) h = res ->
  packet_branch srv n sock t (World h (device_of w) (trace w)) =
    match res with
    | Stuck f => Faults (UserFault f)
    | Done (is_command, command) h' =>
        (_ ← (if is_command then seek_and_send srv n sock t command else write_and_send srv n sock t);
         _ ← emit Unlocked;
         t' ← on_heap (aesd_temperary_buffer_clean t);
         mret (false, t')) (World h' (device_of w) (trace w ++ [Locked]))
    end.
Proof.
  intros [Hsz _] <-. unfold packet_branch, process_packet. rewrite Hsz.
  rewrite run_bind, emit_done. cbn [uheap device_of trace].
  destruct (checkForCommandInString _ _ _ h) as [[b cmd] h'|f] eqn:E.
  - rewrite (on_heap_done _ _ _ _ (World h (device_of w) (trace w ++ [Locked])) E). cbn [device_of trace fst snd].
    rewrite !run_bind. by destruct (run _ _).
  - by rewrite (on_heap_stuck _ _ _ (World h (device_of w) (trace w ++ [Locked])) E).
Qed.
End iteration.

(** ** Properties *)

Section properties.
Context {D C : Type} `{CharDeviceLaws D C} `{Allocator} `{Streams}.
Implicit Types (w : world D) (c : C) (t : aesd_temperary_buffer) (p : option (list byte)).

(** C6: a handler, on any sequence of poll events without an error of [recv],
    a malformed command and a seek the device refuses, does what [client_run]
    says: data accumulates until a newline is seen; then a line goes to the
    device and the whole text comes back, or a seek command is answered with
    the text from the position sought.  When it ends, it has freed all its memory but one buffer
    for each iteration that received nothing, and closed its socket. *)
Theorem handler_serves_client srv n cp cd evs w c L :
  handler_ready n cp cd evs c L w -> reliable ->
  BUFFER_SIZE <= alloc_max -> Z.of_nat (received_bytes evs) <= alloc_max ->
  exists stop t w' p' c' T k B,
    clientHandler srv n cp cd evs w = Returns (stop, t) w' /\
    client_run (newSockFd cd) None c evs stop p' c' T k /\ lost k B /\ dev_abs (device_of w') c' /\
    if stop : bool then holds (uheap w') (B ++ L) /\ trace w' = trace w ++ T ++ [ClosedSocket (newSockFd cd)]
    else tmp_models t p' /\ holds (uheap w') (B ++ tmp_chunks t p' ++ own cp client_block ++ L) /\
         trace w' = trace w ++ T.
Proof.
  intros Hready Hrel Hbuf Hmax.
  destruct (swp_done _ _ _ _ (clientHandler_swp srv n cp cd evs w c L Hready)) as ([stop t] & w' & E & HQ).
  { intros code w'. by apply no_memory_reliable. }
  destruct HQ as (p' & c' & T & k & B & HQ). by exists stop, t, w', p', c', T, k, B.
Qed.


(** C13: end to end, one line: a client that sends a line of at most 511
    bytes, newline included, that arrives in one piece with nothing pending
    and is not a seek command, gets back the text of the device with the line
    added, and the handler is ready for the next one, with nothing accumulated
    and nothing leaked.  (A line that arrives in pieces can go unanswered.) *)
Theorem line_is_echoed srv n sock body t w c L :
  (forall k, fopen_ok k = true) -> reliable -> BUFFER_SIZE <= alloc_max ->
  tmp_models t None -> holds (uheap w) L -> dev_abs (device_of w) c ->
  ch_newline ∉ body -> (length body <= 510)%nat -> command_of (body ++ [ch_newline]) = Some None ->
  Z.of_nat (model_hidden c + S (length body)) <= dev_limit ->
  text_size c + Z.of_nat (model_hidden c + S (length body)) < Z.of_nat n ->
  let line := body ++ [ch_newline] in
  exists w' T, handler_iteration srv n sock (PollRecv (Some line)) t w = Returns (false, Temporary NULL 0) w' /\
    dev_abs (device_of w') (model_write line c) /\ holds (uheap w') L /\
    trace w' = trace w ++ Locked :: T ++ [Unlocked] /\ Forall (device_event sock) T /\
    sent T = model_text (model_write line c).
Proof.
  intros Hopen Hrel Hbuf Ht Hh Habs Hnl Hlen Hnc Hlim Hn line.
  assert (length line = S (length body)) as Hll by (unfold line; lia_len).
  assert (ch_newline ∈ line) as Hin by (apply elem_of_app; right; by apply list_elem_of_singleton).
  unfold BUFFER_SIZE in Hbuf.
  destruct (iteration_accumulates Hrel Hbuf srv n sock line t None w L) as (t1 & h1 & Ht1 & Hh1 & E);
    [by intros E; rewrite E in Hll|lia|done|simpl; lia|by rewrite Ht|].
  rewrite newline_seen_first in E by done. change (pending None ++ line) with line in *.
  assert (store line c = model_write line c) as Hspec.
  { apply model_write_pieces; [apply stdio_chunks_concat|done]. }
  fold line in Hnc. assert (packet_ok c line = true) as Hpk by (unfold packet_ok; by rewrite Hnc).
  destruct (swp_returns _ _ _ (process_packet_spec srv sock n t1 line (World h1 (device_of w) (trace w)) c L
              Hopen Habs Ht1 Hh1 Hpk ltac:(lia) ltac:(lia)))
    as ([] & w1 & E1 & Habs1 & Hh2 & T & Htr & HT & Hs).
  unfold reply, after_packet in Habs1, Hs. rewrite Hnc, Hspec in Habs1, Hs. cbn [uheap] in Hh2. rewrite <- Hh2 in Hh1.
  destruct (wp_done _ _ _ (wp_tmp_release _ _ _ _ Ht1 Hh1)) as (t2 & h3 & E3 & -> & Hh3 & _).
  rewrite E. unfold packet_branch. rewrite (run_returns _ _ _ _ _ E1).
  rewrite (on_heap_done _ _ _ _ w1 E3). eexists _, T. by split_and!.
Qed.

(** The check for a newline looks at the first bytes of the accumulated
    data, as many as were just received: a line whose end arrives in a piece
    no longer than what was there before is not noticed, and nothing happens
    until more data comes. *)
Theorem split_line_unnoticed srv n sock d1 d2 t w L :
  reliable -> BUFFER_SIZE <= alloc_max -> Z.of_nat (length (d1 ++ d2)) <= alloc_max ->
  tmp_models t (Some d1) -> holds (uheap w) (tmp_chunks t (Some d1) ++ L) ->
  ch_newline ∉ d1 -> d2 <> [] -> (length d2 <= 511)%nat -> (length d2 <= length d1)%nat ->
  exists t' w', handler_iteration srv n sock (PollRecv (Some d2)) t w = Returns (false, t') w' /\
    tmp_models t' (Some (d1 ++ d2)) /\ device_of w' = device_of w /\ trace w' = trace w.
Proof.
  intros Hrel Hbuf Hmax Ht Hh Hnl Hne Hlen Hle.
  destruct (iteration_accumulates Hrel Hbuf srv n sock d2 t (Some d1) w L Hne Hlen Ht Hmax Hh)
    as (t1 & h1 & Ht1 & _ & E). change (pending (Some d1)) with d1 in *.
  assert (newline_seen (d1 ++ d2) d2 = false) as Hns.
  { apply bool_decide_eq_false_2. rewrite take_app_le by done. intros Hin. apply Hnl.
    rewrite <- (take_drop (length d2) d1). apply elem_of_app. by left. }
  rewrite Hns in E. exists t1. eexists. by split_and!; [exact E|..].
Qed.

(** The command a client sends, parsed from the accumulated data. *)
Lemma command_packet srv n sock cmd t w :
  reliable -> BUFFER_SIZE <= alloc_max -> Z.of_nat (length (format_command cmd)) <= 511 ->
  tmp_models t None -> (exists L, holds (uheap w) L) ->
  0 <= write_cmd cmd < 2 ^ 32 -> 0 <= write_cmd_offset cmd < 2 ^ 32 ->
  exists t1 h1 L, tmp_models t1 (Some (format_command cmd)) /\ holds h1 (tmp_chunks t1 (Some (format_command cmd)) ++ L) /\
    handler_iteration srv n sock (PollRecv (Some (format_command cmd))) t w =
      (_ ← seek_and_send srv n sock t1 cmd;
       _ ← emit Unlocked;
       t' ← on_heap (aesd_temperary_buffer_clean t1);
       mret (false, t')) (World h1 (device_of w) (trace w ++ [Locked])).
Proof.
  intros Hrel Hbuf Hlen Ht [L Hh] H1' H2'. unfold BUFFER_SIZE in Hbuf.
  assert (ch_newline ∈ format_command cmd) as Hin.
  { unfold format_command. rewrite !elem_of_app. right. right. right. right. by apply list_elem_of_singleton. }
  destruct (iteration_accumulates Hrel Hbuf srv n sock (format_command cmd) t None w L)
    as (t1 & h1 & Ht1 & Hh1 & E); [by intros E; rewrite E in Hin; apply not_elem_of_nil in Hin|lia|done|change (pending None ++ ?x) with x; lia|by rewrite Ht|].
  rewrite newline_seen_first in E by done. change (pending None ++ ?x) with x in *.
  exists t1, h1, L. split_and!; [done|done|]. rewrite E.
  pose proof Ht1 as [_ Hok1].
  erewrite packet_branch_locked; [|exact Ht1|].
  2:{ rewrite (checkForCommandInString_exact _ _ (format_command cmd));
        [|by eapply str_at_own|by intros E'; rewrite E' in Hok1]. by rewrite command_of_format by lia. }
  rewrite !u32_small by lia. by destruct cmd.
Qed.

(** A seek that the device refuses ends the whole server, with every other
    client's thread, with code 1. *)
Theorem refused_seek_ends_server srv n sock cmd t w c :
  (forall k, fopen_ok k = true) -> reliable -> BUFFER_SIZE <= alloc_max ->
  tmp_models t None -> (exists L, holds (uheap w) L) ->
  0 <= write_cmd cmd < 2 ^ 32 -> 0 <= write_cmd_offset cmd < 2 ^ 32 ->
  Z.of_nat (length (format_command cmd)) <= 511 ->
  dev_abs (device_of w) c -> model_seek cmd c = None ->
  exists w', handler_iteration srv n sock (PollRecv (Some (format_command cmd))) t w = Exits EXIT_FAILURE w'.
Proof.
  intros Hopen Hrel Hbuf Ht Hh H1' H2' Hlen Habs Hnone.
  destruct (dev_seek_refused _ _ _ 0 Habs Hnone) as (ret & Hseek & Hret).
  destruct (command_packet srv n sock cmd t w) as (t1 & h1 & K & Ht1 & Hh1 & E); [done..|].
  destruct (swp_exits (seek_and_send srv n sock t1 cmd) (fun code _ => code = EXIT_FAILURE)
              (World h1 (device_of w) (trace w ++ [Locked]))) as (code & w1 & E1 & ->).
  - unfold seek_and_send. apply swp_bind, swp_fopen. rewrite Hopen. cbn [negb].
    apply swp_bind. eapply swp_seekto; [exact Hseek|]. cbn [fst snd].
    rewrite (proj2 (Z.ltb_lt ret 0) Hret). apply swp_bind, swp_emit.
    apply swp_bind, swp_on_heap. cbn [uheap].
    eapply wp_mono; [by eapply wp_tmp_release|]. intros _ h2 _. apply logAndExit_swp; [simpl; lia|done].
  - exists w1. by rewrite E, (run_exits _ _ _ _ _ E1).
Qed.

(** C39: an error of [recv] is noticed too late: with data pending, its -1 has
    already been used as a size and the heap block overrun; with nothing
    pending the process ends, blaming the lack of memory. *)
Theorem recv_error_overflows srv n sock t p w L :
  reliable -> BUFFER_SIZE <= alloc_max -> tmp_models t p -> holds (uheap w) (tmp_chunks t p ++ L) ->
  (p = None \/ pending p <> []) ->
  match p with
  | Some _ => handler_iteration srv n sock (PollRecv None) t w = Faults (UserFault OutOfBounds)
  | None => exists w', handler_iteration srv n sock (PollRecv None) t w = Exits EXIT_FAILURE w'
  end.
Proof.
  intros Hrel Hbuf Ht Hh Hp. pose proof alloc_max_addressable.
  destruct (iteration_receives Hrel Hbuf srv n sock None t w _ Hh) as (q & h1 & Hq & Hh1 & E). rewrite E.
  unfold receive. change ((0 <=? -1) && (-1 <? BUFFER_SIZE)) with false. cbv iota.
  rewrite (on_heap_done _ _ () h1 (World h1 (device_of w) (trace w)) eq_refl). cbn [device_of trace].
  rewrite (on_heap_done _ _ () h1 (World h1 (device_of w) (trace w)) eq_refl). cbn [device_of trace].
  destruct p as [bs|].
  - assert (bs <> []) as Hne by (by destruct Hp as [?|?]).
    rewrite (Permutation_app_swap_app (own q _)) in Hh1. pose proof (tmp_models_bounds t (Some bs) q _ h1 L Ht Hq Hh1) as Hb.
    destruct Ht as [Hsz Hok]. rewrite Hsz in Hb.
    apply on_heap_stuck. cbn [uheap].
    apply (tmp_add_wraps t bs q h1 _ (conj Hsz Hok) Hne Hh1), reliable_serves; [done|]. lia.
  - simpl in Ht. subst t.
    assert (aesd_temperary_buffer_add (Temporary NULL 0) q (u64 (-1)) h1 =
            Done (false, Temporary NULL 0) (Heap (blocks h1) (Pos.succ (next h1)))) as Eadd.
    { unfold aesd_temperary_buffer_add. cbn [tmp_buffptr]. change (is_null NULL) with true.
      unfold mbind, M_bind, alloc. cbv iota beta.
      assert (u64 (-1) = 2 ^ 64 - 1) as -> by done. rewrite andb_false_r.
      rewrite (proj2 (Z.leb_gt _ alloc_max)), andb_false_r by lia. done. }
    rewrite (on_heap_done _ _ _ _ (World h1 (device_of w) (trace w)) Eadd). cbn [negb].
    assert (forall code, swp (D := D) (_ ← on_heap (free q); logAndExit (A := bool * aesd_temperary_buffer) srv
              "Failed to add data to temporary buffer" code) (fun _ _ => False) (fun z _ => z = code)
              (World (Heap (blocks h1) (Pos.succ (next h1))) (device_of w) (trace w))) as Hw.
    { intros code. apply swp_bind, swp_on_heap. cbn [uheap device_of trace].
      destruct q as [| |i]; [done|done|]. unfold wp, free. cbn [blocks]. rewrite (holds_lookup _ _ _ _ Hh1).
      apply logAndExit_swp; [simpl; lia|done]. }
    destruct (swp_exits _ _ _ (Hw EXIT_FAILURE)) as (code & w' & E1 & ->). by exists w'.
Qed.

(** A seek command without its comma makes the server read past the end of
    the accumulated data. *)
Theorem command_without_comma_overreads srv n sock ds t w L :
  reliable -> BUFFER_SIZE <= alloc_max -> tmp_models t None -> holds (uheap w) L ->
  number ds -> (length (SEEK_CMD_PREFIX ++ ds ++ [ch_newline]) <= 511)%nat ->
  handler_iteration srv n sock (PollRecv (Some (SEEK_CMD_PREFIX ++ ds ++ [ch_newline]))) t w =
    Faults (UserFault OutOfBounds).
Proof.
  intros Hrel Hbuf Ht Hh Hds Hlen. unfold BUFFER_SIZE in Hbuf.
  set (data := SEEK_CMD_PREFIX ++ ds ++ [ch_newline]) in *.
  assert (ch_newline ∈ data) as Hin.
  { unfold data. rewrite !elem_of_app. right. right. by apply list_elem_of_singleton. }
  destruct (iteration_accumulates Hrel Hbuf srv n sock data t None w L) as (t1 & h1 & Ht1 & Hh1 & E);
    [by intros E; rewrite E in Hin; apply not_elem_of_nil in Hin|done|done|change (pending None ++ ?x) with x; lia|by rewrite Ht|].
  rewrite newline_seen_first in E by done. change (pending None ++ data) with data in *. rewrite E.
  pose proof Ht1 as [_ Hok1].
  erewrite packet_branch_locked; [|exact Ht1|].
  2:{ rewrite (checkForCommandInString_exact _ _ data); [|by eapply str_at_own|by intros E'; rewrite E' in Hok1].
      unfold data. rewrite command_of_overread; [done|done|done|by intros ?%list_elem_of_singleton..]. }
  done.
Qed.

(** When the device cannot be opened, the result of [fopen] is used
    untested: the server crashes in the critical section. *)
Theorem fopen_failure_faults srv n sock body t w L :
  (forall k, fopen_ok k = false) -> reliable -> BUFFER_SIZE <= alloc_max ->
  tmp_models t None -> holds (uheap w) L -> (length body <= 510)%nat ->
  command_of (body ++ [ch_newline]) = Some None ->
  handler_iteration srv n sock (PollRecv (Some (body ++ [ch_newline]))) t w = Faults (UserFault NullDeref).
Proof.
  intros Hopen Hrel Hbuf Ht Hh Hlen Hnc. unfold BUFFER_SIZE in Hbuf.
  set (data := body ++ [ch_newline]) in *.
  assert (length data = S (length body)) as Hll by (unfold data; lia_len).
  assert (ch_newline ∈ data) as Hin by (apply elem_of_app; right; by apply list_elem_of_singleton).
  destruct (iteration_accumulates Hrel Hbuf srv n sock data t None w L) as (t1 & h1 & Ht1 & Hh1 & E);
    [by intros E; rewrite E in Hll|lia|done|simpl; lia|by rewrite Ht|].
  rewrite newline_seen_first in E by done. change (pending None ++ data) with data in *. rewrite E.
  pose proof Ht1 as [Hsz1 Hok1].
  erewrite packet_branch_locked; [|exact Ht1|].
  2:{ rewrite (checkForCommandInString_exact _ _ data); [|by eapply str_at_own|by intros E'; rewrite E' in Hok1].
      by rewrite Hnc. }
  unfold write_and_send. rewrite run_bind, run_bind. unfold fopen, run at 1. cbn [run_prog perform trace].
  rewrite Hopen. cbn [run_prog].
  assert (load_init (tmp_buffptr t1) 0 (tmp_size t1) h1 = Done data h1) as El.
  { rewrite Hsz1. erewrite load_init_own by (done || lia). by rewrite Nat2Z.id, drop_0, take_ge. }
  by rewrite (on_heap_done _ _ _ _ (World h1 (device_of w) (trace w ++ [Locked])) El).
Qed.
End properties.

(** ** A connection that its client closes *)

Section closing.
Context {D C : Type} `{CharDeviceLaws D C} `{Allocator} `{Streams}.

(** When the client closes its connection, the handler closes the socket
    twice; in between, another thread's [accept] can get the same number. *)
Theorem socket_closed_twice srv n cp cd w c L :
  handler_ready n cp cd [PollRecv (Some [])] c L w -> reliable -> BUFFER_SIZE <= alloc_max ->
  exists t w', clientHandler srv n cp cd [PollRecv (Some [])] w = Returns (true, t) w' /\
    trace w' = trace w ++ [ClosedSocket (newSockFd cd); ClosedSocket (newSockFd cd)] /\ holds (uheap w') L.
Proof.
  intros Hready Hrel Hbuf. pose proof alloc_max_pos.
  destruct (swp_done _ _ _ _ (clientHandler_swp srv n cp cd _ w c L Hready)) as ([stop t] & w' & E & HQ).
  { intros code w'. apply no_memory_reliable; [done|simpl; lia|done]. }
  destruct HQ as (p' & c' & T & k & B & Hrun & HB & _ & Hend). cbn [fst snd] in *.
  inversion Hrun; subst; try (by match goal with Hev : _ \/ _ |- _ => destruct Hev end);
    match goal with Hstep : client_step _ _ _ _ _ _ _ _ |- _ => inversion Hstep; subst end; try done.
  destruct HB as [HB _]. apply nil_length_inv in HB. subst B. simpl in Hend.
  destruct Hend as [Hh Htr]. exists t, w'. by split_and!.
Qed.
End closing.


(** ** Seeks, on a device of lines *)

Section seeking.
Context {D : Type} {HD : CharDevice D} {HL : CharDeviceLaws D line_store} `{Allocator} `{Streams}.
Implicit Types (w : world D) (c : line_store) (t : aesd_temperary_buffer).

(** C25: end to end, a seek: a client that asks, in one piece of at most 511
    bytes and with nothing pending, for a byte that a line has gets the text
    from that byte on, and the device is unchanged.  This holds on a device
    that has dropped no line; on one that has, if the line in the slot of the
    same number, which is the one the driver looks at, has such a byte too. *)
Theorem seek_is_answered srv n sock k off line t w c L :
  (forall k, fopen_ok k = true) -> reliable -> BUFFER_SIZE <= alloc_max ->
  tmp_models t None -> holds (uheap w) L -> dev_abs (device_of w) c ->
  oldest c = O \/ off < Z.of_nat (length (slot_line c k)) ->
  lines (kept c) !! k = Some line -> (k < 10)%nat -> 0 <= off < Z.of_nat (length line) -> off < 2 ^ 32 ->
  Z.of_nat (length (format_command (Seekto (Z.of_nat k) off))) <= 511 ->
  total (lines (kept c)) < Z.of_nat n ->
  exists w' T,
    handler_iteration srv n sock (PollRecv (Some (format_command (Seekto (Z.of_nat k) off)))) t w =
      Returns (false, Temporary NULL 0) w' /\
    device_of w' = device_of w /\ trace w' = trace w ++ Locked :: T ++ [Unlocked] /\
    Forall (device_event sock) T /\
    sent T = drop (Z.to_nat (total (take k (lines (kept c))) + off)) (text (kept c)).
Proof.
  intros Hopen Hrel Hbuf Ht Hh Habs Hord Hk Hk10 Hoff H32 Hlen Hn.
  assert (off < Z.of_nat (length (slot_line c k))) as Hslot.
  { destruct Hord as [Ho|]; [|done]. rewrite slot_line_in_order, Hk by done. apply Hoff. }
  destruct (command_packet srv n sock (Seekto (Z.of_nat k) off) t w) as (t1 & h1 & K & Ht1 & Hh1 & E);
    [done|done|done|done|by eexists|simpl; lia|simpl; lia|].
  destruct (swp_returns _ _ _ (seek_and_send_spec srv sock n t1 (Seekto (Z.of_nat k) off)
     (World h1 (device_of w) (trace w ++ [Locked])) c (total (take k (lines (kept c))) + off) Hopen Habs
     (store_seek_accepted _ _ _ _ Hk10 Hk Hoff Hslot H32) Hn)) as ([] & w1 & E1 & Hd1 & Hh2 & T & Htr & HT & Hs).
  cbn [uheap device_of trace] in *. rewrite <- Hh2 in Hh1.
  destruct (wp_done _ _ _ (wp_tmp_release _ _ _ _ Ht1 Hh1)) as (t2 & h3 & E3 & -> & Hh3 & _).
  rewrite E. rewrite (run_returns _ _ _ _ _ E1), emit_done.
  rewrite (on_heap_done _ _ _ _ (World (uheap w1) (device_of w1) (trace w1 ++ [Unlocked])) E3).
  eexists _, T. cbn [uheap device_of trace].
  split_and!; [done|done| |done|done]. by rewrite Htr, <- !app_assoc.
Qed.
End seeking.

(** ** Witnesses

    The server on the driver, the kernel's memory and the process's memory
    apart. *)

Definition one_write : Streams := {|
  bufsiz := 4096;
  bufsiz_pos := eq_refl;
  stdio_chunks data := [data];
  stdio_chunks_concat data := app_nil_r data;
  fopen_ok _ := true
|}.

Definition no_device : Streams := {|
  bufsiz := 4096;
  bufsiz_pos := eq_refl;
  stdio_chunks data := [data];
  stdio_chunks_concat data := app_nil_r data;
  fopen_ok _ := false
|}.

Definition served : @CharDeviceLaws driver_state line_store (driver_device kmalloc) lines_model := driver_laws kmalloc [] kmalloc_reliable.

Definition srv0 : server := Server 1 (replicate 128 0) 3 5 None.
Definition client7 : clientData_t := ClientData 7 16 (bytes "0123456789abcdef").

(** A process with nothing allocated but a client's structure, and the driver
    as it is after loading. *)
Definition client_heap : heap := heap_of [(1%positive, client_block)] 2.
Definition fresh_world : world driver_state := World client_heap (loaded_dev, loaded_heap) [].

Lemma client_heap_holds : @holds malloc client_heap (own (Ptr 1) client_block ++ []).
Proof. by apply (heap_of_holds malloc). Qed.

Lemma malloc_reliable : @reliable malloc.
Proof. done. Qed.

Lemma loaded_abs : @dev_abs _ _ _ _ served (loaded_dev, loaded_heap) nothing_stored.
Proof. split; [exact loaded_holds|done]. Qed.

Lemma fresh_ready_failing bad evs :
  @input_ok line_store _ one_write None nothing_stored evs = true -> (received_bytes evs <= 1000)%nat ->
  @handler_ready driver_state line_store _ _ served (malloc_failing bad) one_write 2000 (Ptr 1) client7 evs
    nothing_stored [] fresh_world.
Proof.
  intros Hin Hb. split; try done.
  - exact client_heap_holds.
  - exact loaded_abs.
  - change (@dev_limit _ _ _ _ served) with (2 ^ 22). simpl. lia.
  - change (text_size nothing_stored) with 0. simpl. lia.
Qed.

Definition fresh_ready := fresh_ready_failing (fun _ => false).

(** A line, a seek to its second byte, nothing, and the end. *)
Definition one_client_run : list poll_event :=
  [PollRecv (Some short_line); PollRecv (Some (format_command (Seekto 0 1))); PollNothing; PollRecv (Some [])].

Lemma one_client_ok : @input_ok line_store _ one_write None nothing_stored one_client_run = true.
Proof. by vm_compute. Qed.

Lemma handler_serves_client_witness :
  exists stop t w' p' c' T k B,
    @clientHandler driver_state (driver_device kmalloc) malloc one_write srv0 2000 (Ptr 1) client7 one_client_run
      fresh_world = Returns (stop, t) w' /\
    @client_run line_store lines_model one_write 7 None nothing_stored one_client_run stop p' c' T k /\ lost k B /\
    @dev_abs _ _ _ _ served (device_of w') c' /\
    if stop : bool then @holds malloc (uheap w') (B ++ []) /\ trace w' = [] ++ T ++ [ClosedSocket 7]
    else tmp_models t p' /\ @holds malloc (uheap w') (B ++ tmp_chunks t p' ++ own (Ptr 1) client_block ++ []) /\
         trace w' = [] ++ T.
Proof.
  exact (@handler_serves_client driver_state line_store _ _ served malloc one_write srv0 2000 (Ptr 1) client7 one_client_run
    fresh_world nothing_stored [] (fresh_ready _ one_client_ok ltac:(vm_compute; lia)) malloc_reliable
    ltac:(vm_compute; discriminate) ltac:(vm_compute; discriminate)).
Defined.



Lemma socket_closed_twice_witness :
  exists t w', @clientHandler driver_state (driver_device kmalloc) malloc one_write srv0 2000 (Ptr 1) client7
      [PollRecv (Some [])] fresh_world = Returns (true, t) w' /\
    trace w' = [] ++ [ClosedSocket 7; ClosedSocket 7] /\ @holds malloc (uheap w') [].
Proof.
  exact (@socket_closed_twice driver_state line_store _ _ served malloc one_write srv0 2000 (Ptr 1) client7 fresh_world
    nothing_stored [] (fresh_ready [PollRecv (Some [])] eq_refl ltac:(vm_compute; lia))
    malloc_reliable ltac:(vm_compute; discriminate)).
Defined.

(** A process with nothing allocated. *)
Definition idle_world (d : driver_state) : world driver_state := World empty_heap d [].

Lemma line_is_echoed_witness :
  exists w' T,
    @handler_iteration driver_state (driver_device kmalloc) malloc one_write srv0 100 7
      (PollRecv (Some (bytes "ab" ++ nl))) (Temporary NULL 0) (idle_world (loaded_dev, loaded_heap)) =
      Returns (false, Temporary NULL 0) w' /\
    @dev_abs _ _ _ _ served (device_of w') (Stored (Contents [bytes "ab" ++ nl] []) 0) /\ @holds malloc (uheap w') [] /\
    trace w' = [] ++ Locked :: T ++ [Unlocked] /\ Forall (device_event 7) T /\ sent T = bytes "ab" ++ nl.
Proof.
  refine (@line_is_echoed driver_state line_store _ _ served malloc one_write srv0 100 7 (bytes "ab") (Temporary NULL 0)
    (idle_world (loaded_dev, loaded_heap)) nothing_stored [] (fun _ => eq_refl) malloc_reliable
    _ eq_refl (@holds_empty malloc) loaded_abs _ _ eq_refl _ _).
  - vm_compute. discriminate.
  - apply (bool_decide_unpack (ch_newline ∉ bytes "ab")). by vm_compute.
  - vm_compute. lia.
  - vm_compute. discriminate.
  - by vm_compute.
Defined.

(** A process where [ab] has been received and no newline yet. *)
Definition pending_world : world driver_state :=
  World (heap_of [(1%positive, Some <$> bytes "ab")] 2) (loaded_dev, loaded_heap) [].

Lemma pending_world_holds :
  @holds malloc (uheap pending_world) (tmp_chunks (Temporary (Ptr 1) 2) (Some (bytes "ab")) ++ []).
Proof. by apply (heap_of_holds malloc). Qed.

Lemma split_line_unnoticed_witness :
  exists t' w',
    @handler_iteration driver_state (driver_device kmalloc) malloc one_write srv0 100 7 (PollRecv (Some nl))
      (Temporary (Ptr 1) 2) pending_world = Returns (false, t') w' /\
    tmp_models t' (Some (bytes "ab" ++ nl)) /\ device_of w' = (loaded_dev, loaded_heap) /\ trace w' = [].
Proof.
  refine (@split_line_unnoticed driver_state (driver_device kmalloc) malloc one_write srv0 100 7 (bytes "ab") nl
    (Temporary (Ptr 1) 2) pending_world [] malloc_reliable _ _ (conj eq_refl I) pending_world_holds _ _ _ _).
  - vm_compute. discriminate.
  - vm_compute. discriminate.
  - apply (bool_decide_unpack (ch_newline ∉ bytes "ab")). by vm_compute.
  - done.
  - vm_compute. lia.
  - vm_compute. lia.
Defined.

Lemma recv_error_overflows_witness :
  @handler_iteration driver_state (driver_device kmalloc) malloc one_write srv0 100 7 (PollRecv None)
    (Temporary (Ptr 1) 2) pending_world = Faults (UserFault OutOfBounds).
Proof.
  exact (@recv_error_overflows driver_state (driver_device kmalloc) malloc one_write srv0 100 7
    (Temporary (Ptr 1) 2) (Some (bytes "ab")) pending_world [] malloc_reliable ltac:(vm_compute; discriminate)
    (conj eq_refl I) pending_world_holds ltac:(right; vm_compute; discriminate)).
Defined.

(** The driver after one line. *)
Definition line_world : world driver_state := World empty_heap (one_line_dev, one_line_heap) [].

Lemma line_world_abs : @dev_abs _ _ _ _ served (device_of line_world) (Stored (Contents [short_line] []) 0).
Proof.
  split; [|done]. exists one_line_ring, None.
  split_and!; [exact one_line_models|exact one_line_layout|done|done|exact one_line_holds].
Qed.

Lemma seek_is_answered_witness :
  exists w' T,
    @handler_iteration driver_state (driver_device kmalloc) malloc one_write srv0 100 7
      (PollRecv (Some (format_command (Seekto 0 1)))) (Temporary NULL 0) line_world =
      Returns (false, Temporary NULL 0) w' /\
    device_of w' = (one_line_dev, one_line_heap) /\ trace w' = [] ++ Locked :: T ++ [Unlocked] /\
    Forall (device_event 7) T /\ sent T = bytes "b" ++ nl.
Proof.
  exact (@seek_is_answered driver_state _ served malloc one_write srv0 100 7 0 1 short_line (Temporary NULL 0)
    line_world (Stored (Contents [short_line] []) 0) [] (fun _ => eq_refl) malloc_reliable ltac:(vm_compute; discriminate)
    eq_refl (@holds_empty malloc) line_world_abs (or_introl eq_refl) eq_refl ltac:(lia) ltac:(vm_compute; split; [discriminate|done])
    ltac:(done) ltac:(vm_compute; discriminate) ltac:(by vm_compute)).
Defined.

Lemma refused_seek_ends_server_witness :
  exists w', @handler_iteration driver_state (driver_device kmalloc) malloc one_write srv0 100 7
    (PollRecv (Some (format_command (Seekto 4 0)))) (Temporary NULL 0) line_world = Exits EXIT_FAILURE w'.
Proof.
  exact (@refused_seek_ends_server driver_state line_store _ _ served malloc one_write srv0 100 7 (Seekto 4 0)
    (Temporary NULL 0) line_world (Stored (Contents [short_line] []) 0) (fun _ => eq_refl) malloc_reliable ltac:(vm_compute; discriminate)
    eq_refl (ex_intro _ [] (@holds_empty malloc)) ltac:(simpl; lia) ltac:(simpl; lia)
    ltac:(vm_compute; discriminate) line_world_abs ltac:(by vm_compute)).
Defined.

Lemma command_without_comma_overreads_witness :
  @handler_iteration driver_state (driver_device kmalloc) malloc one_write srv0 100 7
    (PollRecv (Some (SEEK_CMD_PREFIX ++ bytes "7" ++ nl))) (Temporary NULL 0) line_world =
    Faults (UserFault OutOfBounds).
Proof.
  exact (@command_without_comma_overreads driver_state (driver_device kmalloc) malloc one_write srv0 100 7
    (bytes "7") (Temporary NULL 0) line_world [] malloc_reliable ltac:(vm_compute; discriminate) eq_refl
    (@holds_empty malloc) ltac:(by split; [repeat constructor|]) ltac:(vm_compute; lia)).
Defined.

Lemma fopen_failure_faults_witness :
  @handler_iteration driver_state (driver_device kmalloc) malloc no_device srv0 100 7
    (PollRecv (Some (bytes "ab" ++ nl))) (Temporary NULL 0) line_world = Faults (UserFault NullDeref).
Proof.
  exact (@fopen_failure_faults driver_state (driver_device kmalloc) malloc no_device srv0 100 7 (bytes "ab")
    (Temporary NULL 0) line_world [] (fun _ => eq_refl) malloc_reliable ltac:(vm_compute; discriminate) eq_refl
    (@holds_empty malloc) ltac:(vm_compute; lia) eq_refl).
Defined.
