(* ===== verification/AcceptProps.v ===== *)
(** * Properties of the accepting thread

    [main] of [server/src/aesdsocket.c] in both builds: what it prepares, one
    thread for each connection, the orderly shutdown, and the connection that
    the table of threads has no room for. *)

From Stdlib.Strings Require Import String.
From S2P Require Import Prelude CInt CMem Footprint Common CircularBuffer TemporaryBuffer.
From S2P Require Import CharDevice DeviceSpec DeviceInterface DriverDevice Process SeekCommand Writer.
From S2P Require Import SocketServer SocketFacts HandlerFacts Scenario DeviceProps SocketProps.

Section accepting.
Context {D : Type} `{CharDevice D} `{Streams} `{Allocator} (Hrel : reliable) (Hmin : sizeof_clientData <= alloc_max).
Implicit Types (w : world D).

(** A turn that accepts a connection and starts its thread. *)
Definition ordinary (t : turn) : Prop :=
  before_test t = [] /\ during_accept t = [] /\ 0 <= accept_result t /\ create_result t = 0.

(** A turn that a signal ends, before the test of the flag or in [accept]. *)
Definition stops (t : turn) : Prop :=
  before_test t <> [] \/ (during_accept t <> [] /\ accept_result t < 0 /\ accept_errno t = EINTR).

Lemma deliver_some stop gs : gs <> [] -> foldl deliver stop gs = 1.
Proof.
  assert (forall gs, foldl deliver 1 gs = 1) as Hone by (clear gs; intros gs; induction gs as [|[] gs IH]; done).
  destruct gs as [|[] gs]; [done|intros _; apply Hone..].
Qed.

(** What its thread is given. *)
Definition client_of (t : turn) : clientData_t := ClientData (accept_result t) sizeof_sockaddr_in (peer t).

(** The threads started in consecutive slots from [i] on. *)
Definition started (i : Z) (ts : list turn) : list io_event :=
  zip_with (fun j t => Spawned j (client_of t)) (seqZ i (Z.of_nat (length ts))) ts.

Definition server_ok (s : server) : Prop :=
  length (clientThreads s) = 128%nat /\ 0 <= threadCount s <= 128.

Lemma client_structure K w :
  holds (uheap w) K ->
  exists p h, alloc sizeof_clientData (uheap w) = Done p h /\
    exists h2, store_bytes p 0 (replicate (Z.to_nat sizeof_clientData) (Some ch_nul)) h = Done () h2 /\
      exists K', holds h2 K'.
Proof.
  intros Hh. destruct (wp_done _ _ _ (wp_alloc _ sizeof_clientData _ Hh ltac:(done))) as (p & h & E & Hh1 & Hp).
  rewrite (reliable_serves _ _ Hrel Hmin) in Hp. exists p, h. split; [done|].
  destruct (wp_done _ _ _ (wp_store_bytes h p _ 0 (replicate 24 (Some ch_nul)) _ Hh1 Hp ltac:(done)
              ltac:(rewrite !length_replicate; unfold sizeof_clientData; lia))) as ([] & h2 & E2 & Hh2 & _).
  exists h2. split; [done|]. by eexists.
Qed.

Lemma accept_client_ok s t w K :
  server_ok s -> ordinary t -> holds (uheap w) K ->
  if threadCount s <? 128 then
    exists s' w', accept_client s t w = Returns s' w' /\ server_ok s' /\ threadCount s' = threadCount s + 1 /\
      serverSockFd s' = serverSockFd s /\ pipe_write_end s' = pipe_write_end s /\ timestamp s' = timestamp s /\
      trace w' = trace w ++ [Spawned (threadCount s) (client_of t)] /\ exists K', holds (uheap w') K'
  else accept_client s t w = Faults (UserFault OutOfBounds).
Proof.
  intros [Hlen Hcount] (_ & _ & _ & Hcreate) Hh.
  destruct (client_structure K w Hh) as (p & h & E1 & h2 & E2 & K' & Hh2).
  assert (accept_client s t w =
    match clientThreads s !! Z.to_nat (threadCount s) with
    | Some _ => Returns (Server (s32 (threadCount s + 1)) (arr_set (clientThreads s) (threadCount s) (thread_id t))
                           (serverSockFd s) (pipe_write_end s) (timestamp s))
                  (World h2 (device_of w) (trace w ++ [Spawned (threadCount s) (client_of t)]))
    | None => Faults (UserFault OutOfBounds)
    end) as ->.
  { unfold accept_client. rewrite (on_heap_done _ _ _ _ w E1).
    rewrite (on_heap_done _ _ _ _ (World h (device_of w) (trace w)) E2). cbn [device_of trace].
    rewrite Hcreate. cbn [Z.eqb].
    set (m := (_ ← arr_get (clientThreads s) (threadCount s);
               mret (arr_set (clientThreads s) (threadCount s) (thread_id t))) : M (list Z)).
    assert (m h2 = match clientThreads s !! Z.to_nat (threadCount s) with
                   | Some _ => Done (arr_set (clientThreads s) (threadCount s) (thread_id t)) h2
                   | None => Stuck OutOfBounds
                   end) as Em.
    { unfold m, mbind, M_bind, arr_get. zdec. by destruct (clientThreads s !! _). }
    destruct (clientThreads s !! _).
    - by rewrite (on_heap_done _ _ _ _ (World h2 (device_of w) (trace w)) Em), emit_done.
    - by rewrite (on_heap_stuck _ _ _ (World h2 (device_of w) (trace w)) Em). }
  destruct (Z.ltb_spec (threadCount s) 128).
  - destruct (lookup_lt_is_Some_2 (clientThreads s) (Z.to_nat (threadCount s))) as [x ->]; [lia|].
    eexists _, _. split; [done|]. cbn [threadCount serverSockFd pipe_write_end clientThreads timestamp uheap trace].
    rewrite s32_small by lia. split_and!; [|done|done|done|done|done|by eexists].
    split; cbn [threadCount clientThreads]; [|lia]. unfold arr_set. by rewrite length_insert.
  - by rewrite lookup_ge_None_2 by lia.
Qed.

Lemma accept_loop_ok ts rest s w K :
  server_ok s -> Forall ordinary ts -> threadCount s + Z.of_nat (length ts) <= 128 -> holds (uheap w) K ->
  exists s' w', accept_loop s 0 (ts ++ rest) w = accept_loop s' 0 rest w' /\ server_ok s' /\
    threadCount s' = threadCount s + Z.of_nat (length ts) /\
    serverSockFd s' = serverSockFd s /\ pipe_write_end s' = pipe_write_end s /\ timestamp s' = timestamp s /\
    trace w' = trace w ++ started (threadCount s) ts /\ exists K', holds (uheap w') K'.
Proof.
  revert s w K. induction ts as [|t ts IH]; intros s w K Hs Hts Hcount Hh.
  - exists s, w. simpl. rewrite app_nil_r, Z.add_0_r. split_and!; try done. by eexists.
  - apply Forall_cons in Hts as [Ht Hts]. simpl in Hcount.
    pose proof (accept_client_ok s t w K Hs Ht Hh) as Hone. rewrite (proj2 (Z.ltb_lt _ _)) in Hone by lia.
    destruct Hone as (s1 & w1 & E & Hs1 & Hc1 & Hf1 & Hp1 & Hts1 & Ht1 & K1 & Hh1).
    destruct (IH s1 w1 K1 Hs1 Hts ltac:(lia) Hh1) as (s2 & w2 & E2 & Hs2 & Hc2 & Hf2 & Hp2 & Hts2 & Ht2 & HK2).
    exists s2, w2. destruct Ht as (Hstop & Hsig & Hacc & _). cbn [app accept_loop].
    rewrite Hstop, Hsig. cbn [foldl Z.eqb negb]. rewrite (proj2 (Z.ltb_ge _ 0)), (run_returns _ _ _ _ _ E), E2 by done.
    split_and!; [done|done|simpl length; lia|congruence|congruence|congruence| |done].
    rewrite Ht2, Ht1, Hc1, <- app_assoc. unfold started. cbn [length].
    rewrite (seqZ_cons (threadCount s)) by lia. simpl.
    by replace (Z.pred (Z.of_nat (S (length ts)))) with (Z.of_nat (length ts)) by lia.
Qed.

Lemma accept_loop_stops s t w : stops t -> accept_loop s 0 [t] w = Returns (s, true) w.
Proof.
  intros Ht. cbn [accept_loop]. destruct (decide (before_test t = [])) as [Hb|Hb].
  - destruct Ht as [|(Hd & Hacc & Herr)]; [done|]. rewrite Hb, (deliver_some _ _ Hd), Herr. cbn [foldl].
    by rewrite (proj2 (Z.ltb_lt _ 0) Hacc).
  - by rewrite (deliver_some _ _ Hb).
Qed.

Lemma repeat_io_exact n e i w :
  repeat_io n e i w = Returns () (World (uheap w) (device_of w) (trace w ++ map e (seq i n))).
Proof.
  revert i w. induction n as [|n IH]; intros i w; cbn [repeat_io].
  - rewrite app_nil_r. by destruct w.
  - rewrite emit_done, IH. cbn [uheap device_of trace]. by rewrite <- app_assoc.
Qed.

(** The answers of a preparation that succeeds. *)
Definition setup_ok (u : setup) : Prop :=
  (runAsDaemon u = true -> fork_result u = 0 /\ 0 <= setsid_result u) /\
  0 < socket_result u /\ 0 <= setsockopt_result u /\ 0 <= bind_result u /\ 0 <= pipe_result u /\ 0 < pipe_fd u /\
  (USE_AESD_CHAR_DEVICE u = false ->
     timestamp_create_result u = 0 /\ 0 <= timestamp_pipe_result u /\ 0 < timestamp_pipe_fd u).

(** What the process does before it accepts connections. *)
Definition detached (u : setup) : list io_event :=
  [ClosedFd 0; ClosedFd 1; ClosedFd 2] ++
  (if null_fd u =? -1 then []
   else [Duplicated (null_fd u) 0; Duplicated (null_fd u) 1; Duplicated (null_fd u) 2] ++
        (if 2 <? null_fd u then [ClosedFd (null_fd u)] else [])).

(** Events of the build without the device only. *)
Definition without_device (u : setup) (T : list io_event) : list io_event :=
  if USE_AESD_CHAR_DEVICE u then [] else T.

Definition prepared (u : setup) : list io_event :=
  (if runAsDaemon u then detached u else []) ++
  [HandlerSet SIGINT SIGINT; HandlerSet SIGTERM SIGTERM; Listening (socket_result u) 5] ++
  without_device u [SpawnedTimestamp].

(** The state in which the server accepts connections. *)
Definition ready_server (u : setup) : server :=
  Server 0 (replicate 128 0) (socket_result u) (pipe_fd u)
    (if USE_AESD_CHAR_DEVICE u then None else Some (Timestamps true (timestamp_pipe_fd u))).

Lemma daemonize_child s u w :
  (runAsDaemon u = true -> fork_result u = 0 /\ 0 <= setsid_result u) ->
  daemonize s u w =
    Returns () (World (uheap w) (device_of w) (trace w ++ if runAsDaemon u then detached u else [])).
Proof.
  intros Hd. unfold daemonize, detached. destruct (runAsDaemon u); [|by rewrite app_nil_r; destruct w].
  destruct (Hd eq_refl) as [-> Hsid]. rewrite (proj2 (Z.ltb_ge _ 0) Hsid). cbn [Z.ltb Z.compare].
  rewrite !emit_done. cbn [uheap device_of trace]. unfold STDERR_FILENO.
  destruct (null_fd u =? -1); cbn [negb]; [by rewrite <- !app_assoc|].
  rewrite !emit_done. cbn [uheap device_of trace].
  destruct (2 <? null_fd u); unfold run, emit, mret, SM_ret; cbn; by rewrite <- !app_assoc.
Qed.

Lemma server_main_setup u ts w :
  setup_ok u ->
  server_main u ts w =
    (res ← accept_loop (ready_server u) 0 ts;
     let '(s, stopped) := res in
     if (stopped : bool) then _ ← cleanupMain s; mret (Some EXIT_SUCCESS) else mret None)
    (World (uheap w) (device_of w) (trace w ++ prepared u)).
Proof.
  intros (Hd & Hs & Ho & Hb & Hp & _ & Hts).
  unfold server_main, prepared, ready_server, without_device, setSignalSIGINTHandler, setSignalSIGTERMHandler.
  cbv zeta. rewrite (run_returns _ _ _ _ _ (daemonize_child _ u w Hd)), !emit_done, !(proj2 (Z.ltb_ge _ 0)) by lia.
  rewrite emit_done. unfold start_timestamps, open_timestamp_pipe. cbn [timestamp uheap device_of trace].
  rewrite <- !app_assoc. destruct (USE_AESD_CHAR_DEVICE u).
  - cbn [app]. rewrite ret_done. cbn [timestamp]. by rewrite ret_done.
  - destruct (Hts eq_refl) as (-> & Htp & _). cbn [Z.eqb].
    rewrite (run_bind (emit SpawnedTimestamp ≫= _)), emit_done. cbn [uheap device_of trace].
    unfold run at 1. cbn [mret SM_ret run_prog timestamp threadCount clientThreads serverSockFd].
    rewrite (proj2 (Z.ltb_ge (timestamp_pipe_result u) 0)), ret_done by lia.
    by rewrite <- !app_assoc.
Qed.

(** The orderly shutdown, once the counts and descriptors are known. *)
Lemma cleanupMain_exact s n sock T1 T2 w :
  threadCount s = Z.of_nat n -> serverSockFd s = sock -> (0 < n)%nat /\ 0 < sock -> 0 < pipe_write_end s ->
  match timestamp s with
  | Some ts => (timestampThreadStarted ts && (0 <? pipeTimestampWriter ts) = true /\
                T1 = [WroteTimestampPipe; JoinedTimestamp] /\ T2 = [RemovedFile])
  | None => T1 = [] /\ T2 = []
  end ->
  cleanupMain s w = Returns () (World (uheap w) (device_of w) (trace w ++ T1 ++
    replicate n WrotePipe ++ map (fun i => Joined (Z.of_nat i)) (seq 0 n) ++ [ClosedSocket sock] ++ T2)).
Proof.
  intros Hc Hf [Hn Hsock] Hp Hts. unfold cleanupMain. rewrite Hc, Hf.
  rewrite !(proj2 (Z.ltb_lt 0 _)), Nat2Z.id by lia. cbn [andb].
  assert (map (fun _ => WrotePipe) (seq 0 n) = replicate n WrotePipe) as Hrep.
  { clear. generalize O. induction n as [|n IH]; intros i; simpl; [done|]. by rewrite IH. }
  destruct (timestamp s) as [ts|].
  - destruct Hts as (-> & -> & ->).
    rewrite run_bind, emit_done. unfold run at 1, emit at 1. cbn [run_prog perform].
    rewrite !(run_returns _ _ _ _ _ (repeat_io_exact _ _ _ _)), emit_done.
    cbn [uheap device_of trace]. unfold run, emit. cbn [run_prog perform uheap device_of trace].
    by rewrite Hrep, <- !app_assoc.
  - destruct Hts as [-> ->].
    rewrite ret_done, !(run_returns _ _ _ _ _ (repeat_io_exact _ _ _ _)), emit_done.
    cbn [uheap device_of trace]. rewrite Hrep, <- !app_assoc. done.
Qed.

(** Up to 128 connections are served, each by a thread of its own that is
    given its socket and address, and a signal after the last of them, before
    the test of the flag or during [accept], shuts the server down in order:
    in the build without the device the timestamp thread first; one byte in
    the pipe and one join for each client's thread; then the listening socket,
    and the file of that build; and exit code 0. *)
Theorem server_shuts_down u ts t w K :
  setup_ok u -> Forall ordinary ts -> (0 < length ts <= 128)%nat -> stops t -> holds (uheap w) K ->
  exists w', server_main u (ts ++ [t]) w = Returns (Some EXIT_SUCCESS) w' /\
    trace w' = trace w ++ prepared u ++ started 0 ts ++
      without_device u [WroteTimestampPipe; JoinedTimestamp] ++
      replicate (length ts) WrotePipe ++ map (fun i => Joined (Z.of_nat i)) (seq 0 (length ts)) ++
      [ClosedSocket (socket_result u)] ++ without_device u [RemovedFile].
Proof.
  intros Hu Hts Hlen Hstop Hh. rewrite (server_main_setup u _ w Hu).
  pose proof Hu as (_ & Hsock & _ & _ & _ & Hpipe & Hbuild).
  destruct (accept_loop_ok ts [t] (ready_server u)
              (World (uheap w) (device_of w) (trace w ++ prepared u)) K)
    as (s & w1 & E & Hs & Hc & Hf & Hp & Hstamp & Htr & _); [split; cbn; [done|lia]|done|simpl; lia|done|].
  cbn [ready_server threadCount serverSockFd pipe_write_end timestamp trace] in Hc, Hf, Hp, Hstamp, Htr.
  rewrite Z.add_0_l in Hc. rewrite (accept_loop_stops _ _ _ Hstop) in E.
  rewrite (run_returns _ _ _ _ _ E). cbv beta iota.
  assert (cleanupMain s w1 = Returns () (World (uheap w1) (device_of w1) (trace w1 ++
      without_device u [WroteTimestampPipe; JoinedTimestamp] ++
      replicate (length ts) WrotePipe ++ map (fun i => Joined (Z.of_nat i)) (seq 0 (length ts)) ++
      [ClosedSocket (socket_result u)] ++ without_device u [RemovedFile]))) as Ecl.
  { apply cleanupMain_exact; [done|done|lia|by rewrite Hp|].
    rewrite Hstamp. unfold without_device. destruct (USE_AESD_CHAR_DEVICE u); [done|].
    destruct (Hbuild eq_refl) as (_ & _ & Hfd). cbn. by rewrite (proj2 (Z.ltb_lt 0 _) Hfd). }
  rewrite (run_returns _ _ _ _ _ Ecl). eexists. split; [done|]. cbn [trace].
  by rewrite Htr, <- !app_assoc.
Qed.

(** The 129th connection stores its thread's identifier outside
    [clientThreads]: slots are not reused when clients leave. *)
Theorem connection_129_overflows u ts t rest w K :
  setup_ok u -> Forall ordinary ts -> length ts = 128%nat -> ordinary t -> holds (uheap w) K ->
  server_main u (ts ++ t :: rest) w = Faults (UserFault OutOfBounds).
Proof.
  intros Hu Hts Hlen Ht Hh. rewrite (server_main_setup u _ w Hu).
  destruct (accept_loop_ok ts (t :: rest) (ready_server u)
              (World (uheap w) (device_of w) (trace w ++ prepared u)) K)
    as (s & w1 & E & Hs & Hc & _ & _ & _ & _ & K1 & Hh1); [split; cbn; [done|lia]|done|simpl; lia|done|].
  cbn [ready_server threadCount] in Hc. pose proof (accept_client_ok s t w1 K1 Hs Ht Hh1) as Hone.
  rewrite (proj2 (Z.ltb_ge _ _)) in Hone by lia. destruct Ht as (Hstop & Hsig & Hacc & _).
  rewrite run_bind, E. cbn [accept_loop]. rewrite Hstop, Hsig. cbn [foldl Z.eqb negb].
  by rewrite (proj2 (Z.ltb_ge _ 0)), (run_faults _ _ _ _ Hone) by done.
Qed.
End accepting.

(** ** Witnesses *)

Definition good_setup : setup := Setup true ["aesdsocket"; "-d"]%string 0 1 6 3 0 0 0 5 0 0 0.
Definition file_setup : setup := Setup false ["aesdsocket"]%string 0 1 6 3 0 0 0 5 0 0 8.
Definition connect : turn := Turn [] [] 7 (clientAddr client7) 0 0 99.
Definition signalled : turn := Turn [Interrupt] [] 0 [] 0 0 0.
Definition interrupted : turn := Turn [] [Terminate] (-1) [] EINTR 0 0.

Lemma good_setup_ok : setup_ok good_setup.
Proof. unfold setup_ok. simpl. lia. Qed.

Lemma file_setup_ok : setup_ok file_setup.
Proof. unfold setup_ok. simpl. split_and!; try done; intros; try lia. Qed.

Lemma connect_ordinary n : Forall ordinary (replicate n connect).
Proof. apply Forall_replicate. by split_and!. Qed.

Lemma signalled_stops : stops signalled.
Proof. by left. Qed.
Lemma interrupted_stops : stops interrupted.
Proof. by right. Qed.

Lemma server_shuts_down_witness :
  (exists w', @server_main driver_state (driver_device kmalloc) malloc one_write good_setup
       [connect; connect; signalled] line_world = Returns (Some EXIT_SUCCESS) w' /\
     trace w' = [] ++
       [ClosedFd 0; ClosedFd 1; ClosedFd 2; Duplicated 6 0; Duplicated 6 1; Duplicated 6 2; ClosedFd 6;
        HandlerSet SIGINT SIGINT; HandlerSet SIGTERM SIGTERM; Listening 3 5] ++
       [Spawned 0 client7; Spawned 1 client7] ++ [] ++ [WrotePipe; WrotePipe] ++ [Joined 0; Joined 1] ++
       [ClosedSocket 3] ++ []) /\
  exists w', @server_main driver_state (driver_device kmalloc) malloc one_write file_setup
       [connect; interrupted] line_world = Returns (Some EXIT_SUCCESS) w' /\
     trace w' = [] ++ [HandlerSet SIGINT SIGINT; HandlerSet SIGTERM SIGTERM; Listening 3 5; SpawnedTimestamp] ++
       [Spawned 0 client7] ++ [WroteTimestampPipe; JoinedTimestamp] ++ [WrotePipe] ++ [Joined 0] ++
       [ClosedSocket 3] ++ [RemovedFile].
Proof.
  split.
  - exact (@server_shuts_down driver_state (driver_device kmalloc) one_write malloc malloc_reliable
      ltac:(vm_compute; discriminate) good_setup [connect; connect] signalled line_world [] good_setup_ok
      (connect_ordinary 2) ltac:(simpl; lia) signalled_stops (@holds_empty malloc)).
  - exact (@server_shuts_down driver_state (driver_device kmalloc) one_write malloc malloc_reliable
      ltac:(vm_compute; discriminate) file_setup [connect] interrupted line_world [] file_setup_ok
      (connect_ordinary 1) ltac:(simpl; lia) interrupted_stops (@holds_empty malloc)).
Defined.

Lemma connection_129_overflows_witness :
  @server_main driver_state (driver_device kmalloc) malloc one_write good_setup (replicate 128 connect ++ [connect]) line_world =
    Faults (UserFault OutOfBounds).
Proof.
  exact (@connection_129_overflows driver_state (driver_device kmalloc) one_write malloc malloc_reliable ltac:(vm_compute; discriminate) good_setup
    (replicate 128 connect) connect [] line_world [] good_setup_ok (connect_ordinary 128) eq_refl
    ltac:(by split_and!) (@holds_empty malloc)).
Defined.
