(* ===== verification/Timestamp.v ===== *)
(** * [server/src/aesdsocket.c]: the timestamp thread

    The build without the device ([USE_AESD_CHAR_DEVICE] set to 0) appends a
    line with the time to the file every ten seconds.  [timestampWriterHandler]
    is translated with the answers of [poll] and of [localtime] as events;
    [strftime] and [snprintf] are the C library's, for the conversions used,
    in the C locale. *)

From Stdlib.Strings Require Import String Ascii.
From S2P Require Import Prelude CInt CMem Footprint Common CircularBuffer TemporaryBuffer Concrete.
From S2P Require Import CharDevice DeviceInterface Process CString SeekCommand Writer SocketServer.

(** ** The C library *)

(** [struct tm], as far as the format needs it. *)
Record tm := Tm {
  tm_sec : Z;
  tm_min : Z;
  tm_hour : Z;
  tm_mday : Z;
  tm_mon : Z;
  tm_year : Z;
  tm_wday : Z;
  tm_gmtoff : Z
}.

Definition day_names : list (list byte) := map bytes ["Sun"; "Mon"; "Tue"; "Wed"; "Thu"; "Fri"; "Sat"]%string.
Definition month_names : list (list byte) :=
  map bytes ["Jan"; "Feb"; "Mar"; "Apr"; "May"; "Jun"; "Jul"; "Aug"; "Sep"; "Oct"; "Nov"; "Dec"]%string.

(** A name, or a question mark out of range. *)
Definition name_of (names : list (list byte)) (i : Z) : list byte :=
  if 0 <=? i then default (bytes "?") (names !! Z.to_nat i) else bytes "?".

(** Two digits. *)
Definition two_digits (x : Z) : list byte := [Z_byte (48 + x / 10 mod 10); Z_byte (48 + x mod 10)].

(** [+hhmm] or [-hhmm]. *)
Definition zone (gmtoff : Z) : list byte :=
  bytes (if gmtoff <? 0 then "-" else "+") ++
  two_digits (Z.abs gmtoff / 3600) ++ two_digits (Z.abs gmtoff / 60 mod 60).

(** The year, with its sign when it is negative and without padding. *)
Definition year_text (y : Z) : list byte := if y <? 0 then bytes "-" ++ decimal 20 (- y) else decimal 20 y.

(** One conversion; [None] for those the program does not use. *)
Definition conversion (c : ascii) (t : tm) : option (list byte) :=
  match c with
  | "a" => Some (name_of day_names (tm_wday t))
  | "d" => Some (two_digits (tm_mday t))
  | "b" => Some (name_of month_names (tm_mon t))
  | "Y" => Some (year_text (1900 + tm_year t))
  | "H" => Some (two_digits (tm_hour t))
  | "M" => Some (two_digits (tm_min t))
  | "S" => Some (two_digits (tm_sec t))
  | "z" => Some (zone (tm_gmtoff t))
  | _ => None
  end%char.

Fixpoint format_time (fmt : string) (t : tm) : option (list byte) :=
  match fmt with
  | EmptyString => Some []
  | String "%"%char (String c fmt') =>
      s ← conversion c t; rest ← format_time fmt' t; Some (s ++ rest)
  | String c fmt' => rest ← format_time fmt' t; Some (bytes (String c EmptyString) ++ rest)
  end.

(** [strftime(s, max, fmt, t)]: [None] when the text and its NUL do not fit,
    and [s] then holds nothing that may be read. *)
Definition strftime (max : nat) (fmt : string) (t : tm) : option (list byte) :=
  s ← format_time fmt t;
  if decide (length s < max)%nat then Some s else None.

(** [snprintf] into a buffer of [size] bytes. *)
Definition snprintf (size : nat) (s : list byte) : list byte := take (size - 1) s.

(** ** The thread *)

Definition time_format : string := "%a, %d %b %Y %H:%M:%S %z".

(** [final_line], of 256 bytes, from [time_str], of 128. *)
Definition final_line (t : tm) : option (list byte) :=
  time_str ← strftime 128 time_format t;
  Some (snprintf 256 (bytes "timestamp:" ++ time_str ++ nl)).

(** One answer of [poll]: an error; the timeout, with the result of
    [localtime]; the byte in the pipe; anything else. *)
Inductive clock_event :=
  | ClockFailed
  | ClockTimeout (tm_info : option tm)
  | ClockPipe
  | ClockNothing.

Section timestamp.
Context {D : Type} `{CharDevice D} `{Streams}.

(** One iteration of the loop: does it end? *)
Definition timestamp_iteration (ev : clock_event) : SM D bool :=
  match ev with
  | ClockFailed | ClockPipe => mret true
  | ClockTimeout None => null_deref
  | ClockTimeout (Some tm_info) =>
      match final_line tm_info with
      | None => crash Uninitialised
      | Some line =>
          _ ← emit Locked;
          opened ← fopen;
          _ ← (if (opened : bool) then _ ← write_pieces (stdio_chunks line); fclose_file else mret ());
          _ ← emit Unlocked;
          mret false
      end
  | ClockNothing => mret false
  end.

Fixpoint timestampWriterHandler (evs : list clock_event) : SM D bool :=
  match evs with
  | [] => mret false
  | ev :: evs' =>
      stop ← timestamp_iteration ev;
      if (stop : bool) then mret true else timestampWriterHandler evs'
  end.
End timestamp.

(** ** The text of a line *)

(** What [localtime] documents: the fields' ranges, with any year that an
    [int] can count from 1900. *)
Definition tm_ok (t : tm) : Prop :=
  0 <= tm_sec t <= 60 /\ 0 <= tm_min t <= 59 /\ 0 <= tm_hour t <= 23 /\ 1 <= tm_mday t <= 31 /\
  0 <= tm_mon t <= 11 /\ - 2 ^ 31 <= tm_year t < 2 ^ 31 /\ 0 <= tm_wday t <= 6 /\
  Z.abs (tm_gmtoff t) < 24 * 3600.

Lemma final_line_text t :
  format_time time_format t =
    Some (name_of day_names (tm_wday t) ++ bytes ", " ++ two_digits (tm_mday t) ++ bytes " " ++
          name_of month_names (tm_mon t) ++ bytes " " ++ year_text (1900 + tm_year t) ++ bytes " " ++
          two_digits (tm_hour t) ++ bytes ":" ++ two_digits (tm_min t) ++ bytes ":" ++ two_digits (tm_sec t) ++
          bytes " " ++ zone (tm_gmtoff t)).
Proof. cbn [format_time time_format conversion]. cbn -[year_text two_digits zone name_of]. by rewrite app_nil_r. Qed.

Lemma length_decimal n x k :
  (0 < k <= n)%nat -> 10 ^ (Z.of_nat k - 1) <= x < 10 ^ Z.of_nat k -> length (decimal n x) = k.
Proof.
  revert x k. induction n as [|n IH]; intros x k Hk Hx; [lia|]. cbn [decimal]. rewrite length_app. simpl length.
  destruct (decide (k = 1%nat)) as [->|Hne].
  - simpl in Hx. zdec. done.
  - assert (10 ^ (Z.of_nat k - 1) = 10 * 10 ^ (Z.of_nat (k - 1) - 1)) as E1.
    { rewrite <- Z.pow_succ_r by lia. f_equal. lia. }
    assert (10 ^ Z.of_nat k = 10 * 10 ^ Z.of_nat (k - 1)) as E2.
    { rewrite <- Z.pow_succ_r by lia. f_equal. lia. }
    assert (0 < 10 ^ (Z.of_nat (k - 1) - 1)) by (apply Z.pow_pos_nonneg; lia).
    zdec. rewrite (IH (x / 10) (k - 1)%nat) by (try lia; lia_mod). lia.
Qed.

Lemma length_decimal_bound n x k :
  (0 < k <= n)%nat -> 0 <= x < 10 ^ Z.of_nat k -> (1 <= length (decimal n x) <= k)%nat.
Proof.
  revert x k. induction n as [|n IH]; intros x k Hk Hx; [lia|]. cbn [decimal]. rewrite length_app. simpl length.
  destruct (Z.ltb_spec x 10); [simpl; lia|].
  assert (k <> 1%nat) as Hne by (intros ->; simpl in Hx; lia).
  assert (10 ^ Z.of_nat k = 10 * 10 ^ Z.of_nat (k - 1)) as E2.
  { rewrite <- Z.pow_succ_r by lia. f_equal. lia. }
  assert (1 <= length (decimal n (x / 10)) <= k - 1)%nat; [|lia]. apply IH; [lia|]. lia_mod.
Qed.

Lemma length_year_text t : - 2 ^ 31 <= tm_year t < 2 ^ 31 -> (1 <= length (year_text (1900 + tm_year t)) <= 11)%nat.
Proof.
  change (2 ^ 31) with 2147483648. intros Hy. unfold year_text.
  pose proof (length_decimal_bound 20 (Z.abs (1900 + tm_year t)) 10) as Hd.
  change (10 ^ Z.of_nat 10) with 10000000000 in Hd. specialize (Hd ltac:(lia) ltac:(lia)).
  destruct (Z.ltb_spec (1900 + tm_year t) 0).
  - rewrite length_app. change (length (bytes "-")) with 1%nat. rewrite Z.abs_neq in Hd by lia. lia.
  - rewrite Z.abs_eq in Hd by lia. lia.
Qed.

Lemma year_text_plain y : ch_newline ∉ year_text y.
Proof.
  unfold year_text. destruct (Z.ltb_spec y 0); [|by apply decimal_no].
  rewrite not_elem_of_app. split; [apply (bool_decide_unpack _); by vm_compute|apply decimal_no; [done|lia]].
Qed.

(** The names are short lists of letters: checked one by one. *)
Lemma name_of_forall names i (P : list byte -> Prop) :
  Forall P names -> 0 <= i < Z.of_nat (length names) -> P (name_of names i).
Proof.
  intros Hall Hi. unfold name_of. zdec.
  destruct (lookup_lt_is_Some_2 names (Z.to_nat i)) as [s Hs]; [lia|]. rewrite Hs. simpl.
  by eapply Forall_lookup_1.
Qed.

Definition short_name (s : list byte) : Prop := length s = 3%nat /\ ch_newline ∉ s.
#[local] Instance short_name_dec s : Decision (short_name s) := and_dec _ _.

Lemma days_short : Forall short_name day_names.
Proof. apply (bool_decide_unpack _). by vm_compute. Qed.
Lemma months_short : Forall short_name month_names.
Proof. apply (bool_decide_unpack _). by vm_compute. Qed.

Lemma digit_not_newline x : 0 <= x < 10 -> Z_byte (48 + x) <> ch_newline.
Proof.
  intros Hx E. pose proof (char_Z_byte (48 + x) ltac:(lia)) as Hc. rewrite E in Hc.
  change (char_Z ch_newline) with 10 in Hc. lia.
Qed.

Lemma two_digits_plain x : length (two_digits x) = 2%nat /\ ch_newline ∉ two_digits x.
Proof.
  split; [done|]. unfold two_digits. rewrite !not_elem_of_cons. split_and!; [| |apply not_elem_of_nil];
    apply not_eq_sym, digit_not_newline; lia_mod.
Qed.

Lemma zone_plain off : length (zone off) = 5%nat /\ ch_newline ∉ zone off.
Proof.
  destruct (two_digits_plain (Z.abs off / 3600)) as [_ H1].
  destruct (two_digits_plain (Z.abs off / 60 mod 60)) as [_ H2]. split.
  - unfold zone. by destruct (off <? 0).
  - unfold zone. rewrite !not_elem_of_app. split_and!; [|done|done].
    apply (bool_decide_unpack _). by destruct (off <? 0); vm_compute.
Qed.

(** The time is 27 characters and the year, none of them a newline. *)
Lemma time_text t : tm_ok t ->
  exists s, format_time time_format t = Some s /\ length s = (27 + length (year_text (1900 + tm_year t)))%nat /\
    ch_newline ∉ s.
Proof.
  intros (_ & _ & _ & _ & Hmon & _ & Hday & _). eexists. split; [apply final_line_text|].
  destruct (name_of_forall day_names (tm_wday t) short_name days_short ltac:(simpl; lia)) as [Hd1 Hd2].
  destruct (name_of_forall month_names (tm_mon t) short_name months_short ltac:(simpl; lia)) as [Hm1 Hm2].
  destruct (zone_plain (tm_gmtoff t)) as [Hz1 Hz2].
  pose proof (year_text_plain (1900 + tm_year t)) as Hy.
  split.
  - rewrite !length_app, Hd1, Hm1, Hz1. simpl length. lia.
  - rewrite !not_elem_of_app. split_and!; try done; try apply two_digits_plain;
      apply (bool_decide_unpack _); by vm_compute.
Qed.

(** Nothing is cut off, and the buffer of the time is never read unwritten. *)
Lemma final_line_ok t : tm_ok t ->
  exists s, strftime 128 time_format t = Some s /\ final_line t = Some (bytes "timestamp:" ++ s ++ nl) /\
    length s = (27 + length (year_text (1900 + tm_year t)))%nat /\ ch_newline ∉ s.
Proof.
  intros Ht. destruct (time_text t Ht) as (s & E & Hlen & Hnl). exists s.
  assert (length s <= 38)%nat as Hle.
  { destruct Ht as (_ & _ & _ & _ & _ & Hy & _). pose proof (length_year_text t Hy). lia. }
  assert (strftime 128 time_format t = Some s) as Es.
  { unfold strftime. rewrite E. simpl. by rewrite decide_True by lia. }
  split_and!; [done| |done|done]. unfold final_line, snprintf. rewrite Es.
  change (Some (take 255 (bytes "timestamp:" ++ s ++ nl)) = Some (bytes "timestamp:" ++ s ++ nl)).
  rewrite take_ge; [done|]. rewrite !length_app. simpl length. lia.
Qed.

(** C24: every time [localtime] can give makes a whole line: the text fits
    [strftime]'s 128 bytes, so the buffer is never read unwritten, and the
    256 of [snprintf], so nothing is cut off; the line starts with its label
    and its only newline is its last byte.  It is 38 bytes and those of the
    year, which are at most 11, and so 42 bytes in the years 1000 to 9999. *)
Theorem timestamp_line_fits t :
  tm_ok t ->
  exists time_str, strftime 128 time_format t = Some time_str /\
    final_line t = Some (bytes "timestamp:" ++ time_str ++ nl) /\
    ch_newline ∉ (bytes "timestamp:" ++ time_str) /\
    (39 <= length (bytes "timestamp:" ++ time_str ++ nl) <= 49)%nat /\
    (1000 <= 1900 + tm_year t <= 9999 -> length (bytes "timestamp:" ++ time_str ++ nl) = 42%nat).
Proof.
  intros Ht. destruct (final_line_ok t Ht) as (s & Es & Ef & Hlen & Hnl). exists s.
  assert (length (bytes "timestamp:" ++ s ++ nl) = (38 + length (year_text (1900 + tm_year t)))%nat) as Hline.
  { rewrite !length_app, Hlen. simpl length. lia. }
  destruct Ht as (_ & _ & _ & _ & _ & Hy & _). pose proof (length_year_text t Hy).
  split; [done|]. split; [done|]. split; [|split; [lia|]].
  - rewrite not_elem_of_app. split; [|done]. apply (bool_decide_unpack _). by vm_compute.
  - intros Hyear. rewrite Hline. unfold year_text. zdec.
    by rewrite (length_decimal 20 (1900 + tm_year t) 4 ltac:(lia) ltac:(simpl; lia)).
Qed.

Definition some_time : tm := Tm 5 4 3 2 0 123 1 (-5400).

Definition late_time : tm := Tm 59 59 23 31 11 2147483647 6 0.

Lemma timestamp_line_fits_witness :
  final_line some_time = Some (bytes "timestamp:Mon, 02 Jan 2023 03:04:05 -0130" ++ nl) /\
  final_line late_time = Some (bytes "timestamp:Sat, 31 Dec 2147485547 23:59:59 +0000" ++ nl) /\
  (exists time_str, final_line some_time = Some (bytes "timestamp:" ++ time_str ++ nl) /\
     length (bytes "timestamp:" ++ time_str ++ nl) = 42%nat) /\
  (exists time_str, final_line late_time = Some (bytes "timestamp:" ++ time_str ++ nl) /\
     (length (bytes "timestamp:" ++ time_str ++ nl) <= 49)%nat).
Proof.
  split; [by vm_compute|]. split; [by vm_compute|].
  destruct (timestamp_line_fits some_time ltac:(unfold tm_ok; simpl; lia)) as (s1 & _ & E1 & _ & _ & H1).
  destruct (timestamp_line_fits late_time ltac:(unfold tm_ok; simpl; lia)) as (s2 & _ & E2 & _ & H2 & _).
  split; [exists s1; split; [exact E1|apply H1; simpl; lia]|exists s2; split; [exact E2|apply H2]].
Defined.
