(* ===== verification/FileDevice.v ===== *)
(** * The file of the other build of the server

    With [USE_AESD_CHAR_DEVICE] set to 0 the server keeps its data in
    [/var/tmp/aesdsocketdata].  The state is the bytes of the file; the
    operations are those of a regular file opened for appending, for reading
    and for the seek ioctl, which regular files refuse.  The file implements
    the contract of [DeviceInterface], so the theorems about the server's
    threads hold of both builds, and [builds_agree] compares them. *)

From S2P Require Import Prelude CInt CMem Footprint Common CircularBuffer TemporaryBuffer.
From S2P Require Import Ring CircularFacts CircularSearch CharDevice DeviceFacts WriteFacts SeekFacts.
From S2P Require Import ModuleFacts DeviceSpec DeviceInterface DriverDevice Process CString SeekCommand Writer.
From S2P Require Import SocketServer SocketFacts HandlerFacts Scenario Concrete SocketProps.

Definition file_state : Type := list byte.

(** The most one [read] or [write] transfers. *)
Definition MAX_RW_COUNT : Z := 0x7ffff000.
Definition ENOTTY : Z := 25.

Definition file_write (s : file_state) (data : list byte) : option (Z * file_state) :=
  let taken := take (Z.to_nat (Z.min (Z.of_nat (length data)) MAX_RW_COUNT)) data in
  Some (Z.of_nat (length taken), s ++ taken).

Definition file_read (s : file_state) (count pos : Z) : option (Z * Z * list byte) :=
  if pos <? 0 then Some (- EINVAL, pos, [])
  else
    let data := take (Z.to_nat (Z.min count MAX_RW_COUNT)) (drop (Z.to_nat pos) s) in
    Some (Z.of_nat (length data), pos + Z.of_nat (length data), data).

Definition file_seekto (s : file_state) (cmd : aesd_seekto) (pos : Z) : option (Z * Z) :=
  Some (- ENOTTY, pos).

#[export] Instance file_device : CharDevice file_state := {|
  dev_write := file_write;
  dev_read := file_read;
  dev_seekto := file_seekto
|}.

(** ** The contract *)

Lemma append_hidden (data : list byte) (c : file_state) : (0 <= 0 + length data)%nat.
Proof. lia. Qed.

Lemma append_size (data : list byte) (c : file_state) :
  (length (c ++ data) + 0 <= length c + 0 + length data)%nat.
Proof. lia_len. Qed.

Lemma append_pieces (ps : list (list byte)) (c : file_state) : foldl app c ps = c ++ concat ps.
Proof.
  revert c. induction ps as [|p ps IH]; intros c; simpl; [by rewrite app_nil_r|].
  by rewrite IH, app_assoc.
Qed.

(** A file holds everything ever written to it, and hides nothing. *)
#[export] Instance file_model : DeviceModel file_state := {|
  model_write data c := c ++ data;
  model_text c := c;
  model_hidden _ := O;
  model_seek _ _ := None;
  model_write_hidden := append_hidden;
  model_write_size := append_size;
  model_write_pieces ps body c E _ := eq_trans (append_pieces ps c) (f_equal (app c) E);
  model_seek_range _ _ _ E := match E with eq_refl => I end
|}.

Lemma file_write_law (s c : file_state) data :
  s = c -> Z.of_nat (0 + length data) <= MAX_RW_COUNT ->
  exists s', file_write s data = Some (Z.of_nat (length data), s') /\ s' = c ++ data.
Proof.
  intros -> Hlen. exists (c ++ data). split; [|done]. unfold file_write.
  rewrite take_ge by (unfold MAX_RW_COUNT in *; lia). done.
Qed.

Lemma file_read_law (s c : file_state) count pos :
  s = c -> 0 < count -> 0 <= pos <= text_size c ->
  exists data, file_read s count pos = Some (Z.of_nat (length data), pos + Z.of_nat (length data), data) /\
    Z.of_nat (length data) <= count /\ (data = [] -> pos = text_size c) /\
    drop (Z.to_nat pos) c = data ++ drop (Z.to_nat pos + length data) c.
Proof.
  intros -> Hc Hpos. unfold text_size in *. simpl in *. unfold file_read. zdec.
  set (n := Z.to_nat (Z.min count MAX_RW_COUNT)). set (rest := drop (Z.to_nat pos) c).
  assert (0 < n <= Z.to_nat count)%nat as Hn by (unfold n, MAX_RW_COUNT; lia).
  assert (length rest = length c - Z.to_nat pos)%nat as Hr by (unfold rest; by rewrite length_drop).
  exists (take n rest). split_and!; [done|rewrite length_take; lia| |].
  - intros E. apply (f_equal length) in E. rewrite length_take in E. simpl in E. lia.
  - rewrite <- drop_drop. fold rest. rewrite length_take, <- (take_drop n rest) at 1.
    f_equal. destruct (Nat.le_ge_cases n (length rest)); [by rewrite Nat.min_l|by rewrite Nat.min_r, !drop_ge].
Qed.

Lemma file_seek_law (s c : file_state) cmd pos :
  s = c -> exists ret, file_seekto s cmd pos = Some (ret, pos) /\ ret < 0.
Proof. intros _. by exists (- ENOTTY). Qed.

#[export] Instance file_laws : CharDeviceLaws file_state file_state := {|
  dev_abs := eq;
  dev_limit := MAX_RW_COUNT;
  dev_write_law := file_write_law;
  dev_read_law := file_read_law;
  dev_seek_law := file_seek_law
|}.

(** The file implements the device's contract too: it stands for itself,
    so every byte written comes back for ever, in writes of at most
    [MAX_RW_COUNT] bytes. *)
Theorem file_is_device :
  exists laws : CharDeviceLaws file_state file_state,
    (forall s c, @dev_abs _ _ _ _ laws s c <-> s = c) /\ @dev_limit _ _ _ _ laws = MAX_RW_COUNT.
Proof. by exists file_laws. Qed.

(** ** The two builds *)

Definition is_line (d : list byte) : Prop := exists body, d = body ++ [ch_newline] /\ ch_newline ∉ body.

(** The packets of a client are lines, and there are at most [room] of them. *)
Fixpoint whole_lines (room : nat) (p : option (list byte)) (evs : list poll_event) : Prop :=
  match evs with
  | [] => True
  | PollRecv (Some data) :: evs' =>
      if decide (data = []) then True
      else if newline_seen (pending p ++ data) data then
        match room with
        | O => False
        | S room' => is_line (pending p ++ data) /\ whole_lines room' None evs'
        end
      else whole_lines room (Some (pending p ++ data)) evs'
  | _ :: evs' => whole_lines room p evs'
  end.

(** The driver's contents and the file's, with room for [room] lines before
    the driver forgets one. *)
Definition same_text (room : nat) (c : line_store) (f : file_state) : Prop :=
  partial (kept c) = [] /\ text (kept c) = f /\ (length (lines (kept c)) + room <= 10)%nat.

Lemma same_text_write room c f d :
  same_text (S room) c f -> is_line d -> same_text room (store_write d c) (f ++ d).
Proof.
  intros (Hp & <- & Hroom) (body & -> & _). unfold same_text, store_write, spec_write, text. cbn [kept].
  assert (has_newline (body ++ [ch_newline]) = true) as ->.
  { rewrite has_newline_app. change (has_newline [ch_newline]) with true. by rewrite orb_true_r. }
  rewrite Hp. cbn [lines partial app]. rewrite keep_last_le by lia_len.
  rewrite concat_app, length_app. simpl. rewrite app_nil_r. split_and!; [done|done|lia].
Qed.

Section builds.
Context {DD : Type} `{CharDevice DD, !CharDeviceLaws DD line_store} `{Allocator} `{Streams}.

Lemma stored_line room c f d :
  same_text (S room) c f -> is_line d ->
  same_text room (store d c) (store d f).
Proof.
  intros Hs (body & E & Hnl). unfold store.
  rewrite !(model_write_pieces _ body) by (by rewrite ?stdio_chunks_concat). rewrite <- E.
  apply same_text_write; [done|by exists body].
Qed.

(** A file refuses every seek, so the packets it can handle are data. *)
Lemma file_packet_ok (f : file_state) d : packet_ok f d = true -> command_of d = Some None.
Proof. unfold packet_ok. by destruct (command_of d) as [[|]|]. Qed.

Lemma client_run_agree room sock p c f evs stop1 p1 c1 T1 k1 stop2 p2 f2 T2 k2 :
  same_text room c f -> whole_lines room p evs ->
  client_run sock p c evs stop1 p1 c1 T1 k1 -> client_run sock p f evs stop2 p2 f2 T2 k2 ->
  stop1 = stop2 /\ p1 = p2 /\ text (kept c1) = f2 /\ sent T1 = sent T2 /\ k1 = k2.
Proof.
  intros Hs Hw Hrun. revert room f Hs Hw stop2 p2 f2 T2 k2.
  assert (forall room c f, same_text room c f -> text (kept c) = f) as Htext by (by intros ??? (_ & ? & _)).
  induction Hrun as [p c|p c ev evs Hev|p c evs stop p' c' T k _ IH|p c data evs p' c' T Hstep|
                     p c data evs p1 c1 T1 stop p' c' T k Hstep Hrun IH];
    intros room f Hs Hw stop2 p2 f2 T2 k2 Hrun2.
  - inversion Hrun2; subst. by split_and!; try eapply Htext.
  - destruct Hev as [-> | ->]; inversion Hrun2; subst; by split_and!; try eapply Htext.
  - inversion Hrun2 as [|? ? ev ? Hev| | |]; subst; [by destruct Hev|].
    edestruct IH as (? & ? & ? & ? & ?); [eassumption..|]. by split_and!; subst.
  - inversion Hstep; subst. inversion Hrun2 as [|? ? ev ? Hev| |? ? ? ? ? ? ? Hstep2|? ? ? ? ? ? ? ? ? ? ? ? Hstep2]; subst;
      [by destruct Hev|..]; inversion Hstep2; subst; try done. by split_and!; try eapply Htext.
  - cbn [whole_lines] in Hw.
    inversion Hrun2 as [|? ? ev ? Hev| |? ? ? ? ? ? ? Hstep2|? ? ? ? q1 g1 U1 ? ? ? U ? Hstep2 Hrun3]; subst;
      [by destruct Hev|inversion Hstep2; subst; inversion Hstep; by subst|].
    inversion Hstep as [|? Hne Hnl|? ? Hne Hnl _ HT Hsent]; subst; rewrite decide_False, Hnl in Hw by done;
      inversion Hstep2 as [|? Hne2 Hnl2|? ? Hne2 Hnl2 Hok HT2 Hsent2]; subst; try congruence.
    + by edestruct IH as (-> & -> & Ht & Hsent3 & ->); [exact Hs|exact Hw|exact Hrun3|].
    + destruct room as [|room]; [done|]. destruct Hw as [Hline Hw].
      apply file_packet_ok in Hok. unfold reply, after_packet in *. rewrite Hok in *.
      pose proof (stored_line _ _ _ _ Hs Hline) as Hs'.
      edestruct IH as (-> & -> & Ht & Hsent3 & ->); [exact Hs'|exact Hw|exact Hrun3|]. split_and!; try done.
      rewrite !sent_app, !sent_locked, Hsent3, Hsent, Hsent2. f_equal. by eapply Htext.
Qed.
End builds.

Section agreement.
Context {DD : Type} `{CharDevice DD, !CharDeviceLaws DD line_store} `{Allocator} `{Streams}.

(** C22: the two builds of the server answer alike to lines: on the same
    events, without an error of [recv], as long as each of the client's
    packets is one line and none a seek command, which the file refuses, and
    the driver has not had to forget a line, a client's thread on the device and one on the file come to the same
    end, send the same bytes and leave the same text behind. *)
Theorem builds_agree srv1 srv2 n1 n2 cp1 cp2 cd evs (wd : world DD) (wf : world file_state) c f room L1 L2 :
  handler_ready n1 cp1 cd evs c L1 wd -> handler_ready n2 cp2 cd evs f L2 wf ->
  trace wd = [] -> trace wf = [] -> reliable -> BUFFER_SIZE <= alloc_max -> Z.of_nat (received_bytes evs) <= alloc_max ->
  same_text room c f -> whole_lines room None evs ->
  exists stop t1 t2 wd' wf' c',
    clientHandler srv1 n1 cp1 cd evs wd = Returns (stop, t1) wd' /\
    clientHandler srv2 n2 cp2 cd evs wf = Returns (stop, t2) wf' /\
    sent (trace wd') = sent (trace wf') /\
    dev_abs (device_of wd') c' /\ text (kept c') = device_of wf'.
Proof.
  intros Hd Hf Ed Ef Hrel Hbuf Hmax Hs Hw.
  destruct (clientHandler_sends srv1 n1 cp1 cd evs wd c L1 Hd Hrel Hbuf Hmax)
    as (stop & t1 & wd' & p1 & c' & T1 & k1 & E1 & Hrun1 & Habs1 & Hsent1).
  destruct (clientHandler_sends srv2 n2 cp2 cd evs wf f L2 Hf Hrel Hbuf Hmax)
    as (stop2 & t2 & wf' & p2 & f' & T2 & k2 & E2 & Hrun2 & Habs2 & Hsent2).
  destruct (client_run_agree _ _ _ _ _ _ _ _ _ _ _ _ _ _ _ _ Hs Hw Hrun1 Hrun2) as (<- & _ & Ht & Hsame & _).
  exists stop, t1, t2, wd', wf', c'. split_and!; [done|done| |done|].
  - rewrite Hsent1, Hsent2, Ed, Ef. simpl. by rewrite Hsame.
  - rewrite Ht. by symmetry.
Qed.
End agreement.

Definition file_world : world file_state := World client_heap [] [].

Lemma file_ready evs :
  @input_ok file_state _ one_write None [] evs = true -> (received_bytes evs <= 1000)%nat ->
  @handler_ready file_state file_state _ _ file_laws malloc one_write 2000 (Ptr 1) client7 evs [] [] file_world.
Proof.
  intros Hin Hb. split; try done.
  - apply client_heap_holds.
  - change (@dev_limit _ _ _ _ file_laws) with MAX_RW_COUNT. unfold MAX_RW_COUNT. simpl. lia.
  - change (text_size (C := file_state) []) with 0. simpl. lia.
Qed.

Definition two_lines : list poll_event := [PollRecv (Some short_line); PollRecv (Some short_line); PollRecv (Some [])].

Lemma builds_agree_witness :
  exists stop t1 t2 wd' wf' c',
    @clientHandler driver_state (driver_device kmalloc) malloc one_write srv0 2000 (Ptr 1) client7 two_lines fresh_world
      = Returns (stop, t1) wd' /\
    @clientHandler file_state _ malloc one_write srv0 2000 (Ptr 1) client7 two_lines file_world
      = Returns (stop, t2) wf' /\
    sent (trace wd') = sent (trace wf') /\ @dev_abs _ _ _ _ served (device_of wd') c' /\ text (kept c') = device_of wf'.
Proof.
  refine (@builds_agree driver_state (driver_device kmalloc) served malloc one_write srv0 srv0 2000 2000 (Ptr 1) (Ptr 1)
    client7 two_lines fresh_world file_world nothing_stored [] 2 [] [] (fresh_ready two_lines eq_refl _) (file_ready two_lines eq_refl _)
    eq_refl eq_refl malloc_reliable _ _ _ _); try (vm_compute; discriminate).
  - apply Nat.leb_le. by vm_compute.
  - apply Nat.leb_le. by vm_compute.
  - split_and!; [done|done|simpl; lia].
  - cbn. assert (is_line short_line) as Hline.
    { exists (removelast short_line). split; [done|]. apply (bool_decide_unpack _). by vm_compute. }
    by split.
Defined.
