(* ===== verification/Concurrency.v ===== *)
(** * Threads of one process on one device

    A state is the threads, the device and the owner of [fileMutex]; a step
    is one call of one thread.  A thread works through its events: each is
    handled by a program, [body], that ends or leaves a new local state.
    The heap is divided among the threads: no block is passed between two of
    them once they run, and each thread's allocations are answered by its own
    history.

    [atomic_step] is the same system with whole bodies as steps.  When every
    body keeps to the discipline of the mutex ([phased]: the device only
    between one lock and one unlock) and completes when run alone, each
    interleaving of calls is an execution of bodies one after the other. *)

From S2P Require Import Prelude CInt CMem Footprint Common CircularBuffer TemporaryBuffer.
From S2P Require Import CharDevice DeviceInterface Process.

Section concurrency.
Context {D : Type} `{CharDevice D} `{Streams} {St Ev : Type}.
Implicit Types (i j : nat).

(** ** States and steps *)

Inductive code :=
  | Idle (st : St)
  | Busy (p : SM D (bool * St))
  | Ended (st : St).

Record tstate := Tstate { todo : list Ev; at_ : code; theap : heap; ttrace : list io_event }.

Record system := System { tasks : list tstate; shared : D; owner : option nat }.

Implicit Types (t : tstate) (s a : system).

Definition set_task s i t : system := System (<[i:=t]> (tasks s)) (shared s) (owner s).

(** The program that handles one event of one thread. *)
Context (body : nat -> Ev -> St -> SM D (bool * St)).

(** Has the thread numbered [j] ended, or was it never started? *)
Definition joinable s j : bool :=
  match tasks s !! j with Some (Tstate _ (Ended _) _ _) | None => true | _ => false end.

(** The mutex and [pthread_join]: the new owner, or nothing when the call
    blocks.  A thread that joins itself is answered at once. *)
Definition sync s i {X} (c : call X) : option (option nat) :=
  match c with
  | Event Locked => match owner s with None => Some (Some i) | Some _ => None end
  | Event Unlocked => if decide (owner s = Some i) then Some None else None
  | Event (Joined j) => if decide (j = Z.of_nat i) then Some (owner s)
                        else if joinable s (Z.to_nat j) then Some (owner s) else None
  | _ => Some (owner s)
  end.

(** One step of thread [i]: it takes its next event, makes its next call, or
    leaves a body. *)
Definition step_task s i : option system :=
  t ← tasks s !! i;
  match at_ t with
  | Idle st =>
      match todo t with
      | [] => None
      | ev :: evs => Some (set_task s i (Tstate evs (Busy (body i ev st)) (theap t) (ttrace t)))
      end
  | Busy (Ret res) =>
      Some (set_task s i (Tstate (todo t) (if res.1 then Ended res.2 else Idle res.2) (theap t) (ttrace t)))
  | Busy (Call c k) =>
      o ← sync s i c;
      match perform c (World (theap t) (shared s) (ttrace t)) with
      | Returns x w =>
          Some (System (<[i := Tstate (todo t) (Busy (k x)) (uheap w) (trace w)]> (tasks s)) (device_of w) o)
      | _ => None
      end
  | Ended _ => None
  end.

Fixpoint run_steps s (sched : list nat) : option system :=
  match sched with
  | [] => Some s
  | i :: sched' => s' ← step_task s i; run_steps s' sched'
  end.

(** No thread is inside a body. *)
Definition quiescent s : Prop :=
  Forall (fun t => match at_ t with Busy _ => False | _ => True end) (tasks s) /\ owner s = None.

#[export] Instance quiescent_dec s : Decision (quiescent s).
Proof.
  apply and_dec; [|apply _]. apply Forall_dec. intros t. destruct (at_ t); [by left|by right; intros []|by left].
Defined.

(** The threads in turn, each making a step when it can: [fuel] turns from
    thread [i] on. *)
Fixpoint round_robin (fuel i : nat) s : list nat :=
  match fuel with
  | O => []
  | S fuel' =>
      let next := (S i mod length (tasks s))%nat in
      match step_task s i with
      | Some s' => i :: round_robin fuel' next s'
      | None => round_robin fuel' next s
      end
  end.

(** ** Whole bodies as steps *)

Definition after_body (evs : list Ev) (res : bool * St) (w : world D) : tstate :=
  Tstate evs (if res.1 then Ended res.2 else Idle res.2) (uheap w) (trace w).

Definition atomic_step a i : option system :=
  t ← tasks a !! i;
  match at_ t, todo t with
  | Idle st, ev :: evs =>
      match body i ev st (World (theap t) (shared a) (ttrace t)) with
      | Returns res w => Some (System (<[i := after_body evs res w]> (tasks a)) (device_of w) (owner a))
      | _ => None
      end
  | _, _ => None
  end.

Fixpoint run_atomic a (order : list nat) : option system :=
  match order with
  | [] => Some a
  | i :: order' => a' ← atomic_step a i; run_atomic a' order'
  end.

Lemma run_atomic_app a o1 o2 a1 : run_atomic a o1 = Some a1 -> run_atomic a (o1 ++ o2) = run_atomic a1 o2.
Proof.
  revert a. induction o1 as [|i o1 IH]; intros a E; simpl in *; [by simplify_eq|].
  destruct (atomic_step a i) as [a'|]; simpl in *; [by apply IH|done].
Qed.

Lemma run_steps_app s o1 o2 s1 : run_steps s o1 = Some s1 -> run_steps s (o1 ++ o2) = run_steps s1 o2.
Proof.
  revert s. induction o1 as [|i o1 IH]; intros s E; simpl in *; [by simplify_eq|].
  destruct (step_task s i) as [s'|]; simpl in *; [by apply IH|done].
Qed.
End concurrency.

(** ** The discipline of the mutex *)

Inductive phase := Before | Inside | After.

#[export] Instance phase_eq_dec : EqDecision phase.
Proof. solve_decision. Defined.

(** Where a call is allowed, and the phase it leads to. *)
Definition next_phase (ph : phase) {X} (c : call X) : option phase :=
  match c with
  | Event Locked => if decide (ph = Before) then Some Inside else None
  | Event Unlocked => if decide (ph = Inside) then Some After else None
  | Open | Write _ | Read _ _ | SeekTo _ _ => if decide (ph = Inside) then Some Inside else None
  | _ => Some ph
  end.

(** Whatever the answers, a program started in phase [ph] keeps to it, and
    [Q] holds of its result and the phase it ends in. *)
Fixpoint phased_prog {A} (ph : phase) (p : prog A) (Q : A -> phase -> Prop) : Prop :=
  match p with
  | Ret a => Q a ph
  | Call c k =>
      match next_phase ph c with
      | Some ph' => forall x, phased_prog ph' (k x) Q
      | None => False
      end
  end.

Definition phased {D} `{CharDevice D} `{Streams} {A} (ph : phase) (m : SM D A) (Q : A -> phase -> Prop) : Prop :=
  phased_prog ph m Q.

(** A program that may be anywhere. *)
Definition quiet {D} `{CharDevice D} `{Streams} {A} (m : SM D A) : Prop := forall ph, phased ph m (fun _ ph' => ph' = ph).

(** A whole body: at most one critical section, left at the end. *)
Definition disciplined {D} `{CharDevice D} `{Streams} {A} (m : SM D A) : Prop :=
  phased Before m (fun _ ph => ph <> Inside).

Section phased.
Context {D A B : Type} `{CharDevice D} `{Streams}.
Implicit Types (m : SM D A).

Lemma phased_ret ph (a : A) (Q : A -> phase -> Prop) : Q a ph -> phased ph (mret a : SM D A) Q.
Proof. done. Qed.

Lemma phased_mono ph m (Q Q' : A -> phase -> Prop) :
  phased ph m Q -> (forall a ph', Q a ph' -> Q' a ph') -> phased ph m Q'.
Proof.
  unfold phased. revert ph. induction m as [a|X c k IH]; intros ph Hm HQ; simpl in *; [by apply HQ|].
  destruct (next_phase ph c); [|done]. intros x. by apply IH.
Qed.

Lemma phased_bind ph m (k : A -> SM D B) Q :
  phased ph m (fun a ph' => phased ph' (k a) Q) -> phased ph (mbind k m) Q.
Proof.
  unfold phased, mbind, SM_bind. revert ph. induction m as [a|X c k' IH]; intros ph Hm; simpl in *; [done|].
  destruct (next_phase ph c); [|done]. intros x. by apply IH.
Qed.

Lemma phased_quiet ph m Q : quiet m -> (forall a, Q a ph) -> phased ph m Q.
Proof. intros Hm HQ. eapply phased_mono; [apply Hm|]. by intros a ? ->. Qed.

Lemma quiet_ret (a : A) : quiet (mret a : SM D A).
Proof. by intros ph. Qed.
Lemma quiet_on_heap (m : M A) : quiet (on_heap m : SM D A).
Proof. by intros ph x. Qed.
Lemma quiet_exit code : quiet (exit code : SM D A).
Proof. intros ph. by intros []. Qed.
Lemma quiet_crash f : quiet (crash f : SM D A).
Proof. intros ph. by intros []. Qed.
Lemma quiet_null_deref : quiet (null_deref : SM D A).
Proof. apply quiet_crash. Qed.
Lemma quiet_unfinished : quiet (unfinished : SM D A).
Proof. intros ph. by intros []. Qed.

Lemma quiet_bind m (k : A -> SM D B) : quiet m -> (forall a, quiet (k a)) -> quiet (mbind k m).
Proof. intros Hm Hk ph. apply phased_bind, (phased_quiet _ _ _ Hm). intros a. apply Hk. Qed.
End phased.

(** A program that stays inside the critical section. *)
Definition inside {D} `{CharDevice D} `{Streams} {A} (m : SM D A) : Prop := phased Inside m (fun _ ph => ph = Inside).

(** A program that does not return, and may be anywhere. *)
Definition ending {D} `{CharDevice D} `{Streams} {A} (m : SM D A) : Prop := forall ph Q, phased ph m Q.

Section inside.
Context {D A B : Type} `{CharDevice D} `{Streams}.
Implicit Types (m : SM D A).

Lemma inside_quiet m : quiet m -> inside m.
Proof. intros Hm. apply Hm. Qed.
Lemma inside_ending m : ending m -> inside m.
Proof. intros Hm. apply Hm. Qed.
Lemma inside_open : inside (fopen : SM D bool).
Proof. by intros x. Qed.
Lemma inside_write data : inside (sys_write data : SM D Z).
Proof. by intros x. Qed.
Lemma inside_read count pos : inside (sys_read count pos : SM D _).
Proof. by intros x. Qed.
Lemma inside_seekto cmd pos : inside (sys_seekto cmd pos : SM D _).
Proof. by intros x. Qed.

Lemma inside_bind m (k : A -> SM D B) : inside m -> (forall a, inside (k a)) -> inside (mbind k m).
Proof. intros Hm Hk. eapply phased_bind, phased_mono; [exact Hm|]. intros a ? ->. apply Hk. Qed.

Lemma quiet_emit e : e <> Locked -> e <> Unlocked -> quiet (emit e : SM D ()).
Proof. intros Hl Hu ph. destruct e; try done; by intros []. Qed.

Lemma ending_exit code : ending (exit code : SM D A).
Proof. intros ph Q. by intros []. Qed.

Lemma ending_bind m (k : A -> SM D B) : quiet m -> (forall a, ending (k a)) -> ending (mbind k m).
Proof. intros Hm Hk ph Q. apply phased_bind, (phased_quiet _ _ _ Hm). intros a. apply Hk. Qed.

Lemma phased_lock (Q : () -> phase -> Prop) : Q () Inside -> phased Before (emit Locked : SM D ()) Q.
Proof. intros HQ. by intros []. Qed.
Lemma phased_unlock (Q : () -> phase -> Prop) : Q () After -> phased Inside (emit Unlocked : SM D ()) Q.
Proof. intros HQ. by intros []. Qed.

Lemma disciplined_quiet m : quiet m -> disciplined m.
Proof. intros Hm. by apply phased_quiet. Qed.
Lemma disciplined_ending m : ending m -> disciplined m.
Proof. intros Hm. apply Hm. Qed.

Lemma disciplined_after m (k : A -> SM D B) : quiet m -> (forall a, disciplined (k a)) -> disciplined (mbind k m).
Proof. intros Hm Hk. apply phased_bind, (phased_quiet _ _ _ Hm). intros a. apply Hk. Qed.

Lemma disciplined_before m (k : A -> SM D B) : disciplined m -> (forall a, quiet (k a)) -> disciplined (mbind k m).
Proof.
  intros Hm Hk. eapply phased_bind, phased_mono; [exact Hm|]. intros a ph Hph.
  by apply (phased_quiet _ _ _ (Hk a)).
Qed.
End inside.

Create HintDb phased.
#[export] Hint Resolve quiet_ret quiet_on_heap quiet_exit quiet_crash quiet_null_deref quiet_unfinished quiet_bind quiet_emit : phased.
#[export] Hint Resolve inside_open inside_write inside_read inside_seekto : phased.
#[export] Hint Resolve ending_exit : phased.

(** Programs that are anywhere, and those inside a critical section: along
    their structure. *)
Ltac solve_quiet :=
  repeat first [ solve [auto with phased; congruence] | (lazymatch goal with |- quiet (_ ≫= _) => apply quiet_bind; [|intros ?] end)
               | progress (cbn beta iota zeta) | case_match ].
Ltac solve_inside :=
  repeat first [ solve [auto with phased] | solve [apply inside_quiet; solve_quiet]
               | (lazymatch goal with |- inside (_ ≫= _) => apply inside_bind; [|intros ?] end) | progress (cbn beta iota zeta) | case_match ].
Ltac solve_disciplined :=
  repeat first [ solve [auto with phased] | solve [apply disciplined_quiet; solve_quiet]
               | apply disciplined_after; [solve [solve_quiet]|intros ?]
               | apply disciplined_before; [|intros ?; solve [solve_quiet]]
               | progress (cbn beta iota zeta) | case_match ].
