(* ===== verification/ConcurrencyFacts.v ===== *)
(** * Interleaved bodies are atomic

    [related a s] relates a state [s] of the interleaved system to the state
    [a] in which only the bodies that have left their critical section have
    run, each as a whole.  Every step keeps the relation: a step that leaves
    a critical section, or a body that has none, is the step of the atomic
    system.  It follows that no call fails, that a thread waits for nothing
    but the mutex of another, and, every schedule being finite, that all
    threads come to an end. *)

From S2P Require Import Prelude CInt CMem Footprint Common CircularBuffer TemporaryBuffer.
From S2P Require Import CharDevice DeviceInterface Process SocketFacts Concurrency.

Section calls.
Context {D : Type} `{CharDevice D} `{Streams}.

(** Calls that have nothing to do with the device. *)
Definition silent {X} (c : call X) : Prop :=
  match c with Open | Write _ | Read _ _ | SeekTo _ _ => False | _ => True end.

Lemma next_phase_silent ph {X} (c : call X) ph' : next_phase ph c = Some ph' -> ph <> Inside -> silent c.
Proof. destruct c; simpl; try done; by case_decide. Qed.

Lemma perform_silent {X} (c : call X) h (d : D) T x w :
  silent c -> perform c (World h d T) = Returns x w ->
  device_of w = d /\ forall d2, perform c (World h d2 T) = Returns x (World (uheap w) d2 (trace w)).
Proof.
  destruct c as [X m|e| | | | | | |]; simpl; intros Hs E; try done.
  - destruct (m h); by simplify_eq/=.
  - by simplify_eq/=.
Qed.

(** A program after its critical section does not depend on the device. *)
Lemma run_after {A} (p : SM D A) (Q : A -> phase -> Prop) h d T res w :
  phased After p Q -> p (World h d T) = Returns res w ->
  device_of w = d /\ forall d2, p (World h d2 T) = Returns res (World (uheap w) d2 (trace w)).
Proof.
  unfold run, phased. revert h d T. induction p as [a|X c k IH]; intros h d T Hp E; cbn [run_prog] in *.
  - by simplify_eq/=.
  - simpl in Hp. destruct (next_phase After c) as [ph'|] eqn:Eph; [|done].
    assert (ph' = After) as -> by (destruct c as [|[]| | | | | | |]; simpl in Eph; by simplify_eq).
    destruct (perform c (World h d T)) as [x w1| | |] eqn:Ec; try done.
    destruct (perform_silent c h d T x w1) as [Hd Hc]; [by eapply next_phase_silent|done|].
    destruct w1 as [h1 d1 T1]. simpl in Hd, Hc. subst d1.
    destruct (IH x h1 d T1 (Hp x) E) as [Hdw Hall]. split; [done|]. intros d2. rewrite Hc. apply Hall.
Qed.
End calls.

(** What a call that is allowed in a phase can be: one that leaves the phase
    and the mutex as they are, the lock, or the unlock. *)
Lemma next_phase_cases ph {X} (c : call X) ph' :
  next_phase ph c = Some ph' ->
  (ph' = ph /\ (ph <> Inside -> silent c) /\
     forall D (HD : CharDevice D) (HS : Streams) St Ev (s : @system D HD HS St Ev) i o,
       sync s i c = Some o -> o = owner s) \/
  (ph = Before /\ ph' = Inside /\ silent c /\
     forall D (HD : CharDevice D) (HS : Streams) St Ev (s : @system D HD HS St Ev) i o,
       sync s i c = Some o -> owner s = None /\ o = Some i) \/
  (ph = Inside /\ ph' = After /\ silent c /\
     forall D (HD : CharDevice D) (HS : Streams) St Ev (s : @system D HD HS St Ev) i o,
       sync s i c = Some o -> o = None).
Proof.
  intros E. assert (ph <> Inside -> silent c) as Hs by (by eapply next_phase_silent).
  destruct c as [X m|e| | | | | | |];
    [|destruct e; [right; left|right; right|..]|..]; try left; simpl in E; try (case_decide; [|done]); simplify_eq;
    split_and!; try done; intros ????? s i o Hsync; simpl in *; repeat case_decide; repeat case_match; by simplify_eq.
Qed.

(** ** Every schedule ends *)

(** One element of a list replaced by a smaller one. *)
Definition one_smaller {A} (R : A -> A -> Prop) (l' l : list A) : Prop :=
  exists i x y, l !! i = Some x /\ R y x /\ l' = <[i := y]> l.

Lemma one_smaller_acc {A} (R : A -> A -> Prop) l : Forall (Acc R) l -> Acc (one_smaller R) l.
Proof.
  induction 1 as [|x l Hx _ IHl].
  - constructor. intros l' (i & x & y & Hi & _). by rewrite lookup_nil in Hi.
  - revert l IHl. induction Hx as [x _ IHx]. intros l Hl. induction Hl as [l Hl IHl].
    constructor. intros l' ([|i] & z & y & Hi & HR & ->); simpl in Hi |- *.
    + simplify_eq. apply IHx; [done|]. by constructor.
    + apply IHl. by exists i, z, y.
Qed.

Section ends.
Context {D : Type} `{CharDevice D} `{Streams} {St Ev : Type} (body : nat -> Ev -> St -> SM D (bool * St)).
Implicit Types (t : @tstate D _ _ St Ev) (s : @system D _ _ St Ev).

(** What a call leaves of a program. *)
Definition child {A} (q p : SM D A) : Prop :=
  match p with Ret _ => False | Call _ k => exists x, q = k x end.

(** What a step does to its thread. *)
Inductive task_step : @tstate D _ _ St Ev -> @tstate D _ _ St Ev -> Prop :=
  | step_event t' t ev : todo t = ev :: todo t' -> task_step t' t
  | step_call t' t p q : todo t' = todo t -> at_ t = Busy p -> at_ t' = Busy q -> child q p -> task_step t' t
  | step_return t' t res :
      todo t' = todo t -> at_ t = Busy (Ret res) -> (forall p, at_ t' <> Busy p) -> task_step t' t.

Lemma step_task_step s i s' :
  step_task body s i = Some s' -> one_smaller task_step (tasks s') (tasks s).
Proof.
  unfold step_task. intros E. destruct (tasks s !! i) as [t|] eqn:Ht; [|done]. simpl in E.
  destruct (at_ t) as [st|[res|X c k]|st] eqn:Hat; [| | |done].
  - destruct (todo t) as [|ev evs] eqn:Htodo; [done|]. simplify_eq.
    eexists i, t, _. split_and!; [done| |done]. by apply (step_event _ _ ev).
  - simplify_eq. eexists i, t, _. split_and!; [done| |done]. eapply step_return; [done|exact Hat|].
    intros p. simpl. by destruct (res.1).
  - destruct (sync s i c) as [o|]; [|done]. simpl in E. destruct (perform c _) as [x w| | |]; [|done..]. simplify_eq.
    eexists i, t, _. split_and!; [done| |done]. eapply step_call; [done|exact Hat|done|by exists x].
Qed.

Lemma task_step_acc t : Acc task_step t.
Proof.
  remember (length (todo t)) as n eqn:Hn. revert t Hn. induction n as [n IH] using lt_wf_ind. intros t Hn.
  assert (forall t' t0 ev, todo t0 = ev :: todo t' -> length (todo t0) = n -> Acc task_step t') as Hev.
  { intros t' t0 ev E E0. rewrite E in E0. simpl in E0. apply (IH (length (todo t'))); [lia|done]. }
  assert (forall t', length (todo t') = n -> (forall p, at_ t' <> Busy p) -> Acc task_step t') as Hrest.
  { intros t' Hl Hr. constructor. intros t2 Hs. destruct Hs as [t2 t' ev E|t2 t' p q _ Hat|t2 t' res _ Hat];
      [by eapply Hev|by destruct (Hr p)|by destruct (Hr (Ret res))]. }
  destruct (at_ t) as [st|p|st] eqn:Hat; [apply Hrest; [done|by rewrite Hat]| |apply Hrest; [done|by rewrite Hat]].
  revert t Hn Hat. induction p as [res|X c k IHp]; intros t Hn Hat; constructor; intros t' Hs;
    destruct Hs as [t' t ev E|t' t p q Ht Hat1 Hat2 Hq|t' t res' Ht Hat1 Hr]; try (by eapply Hev);
    try (apply Hrest; [congruence|done]); rewrite Hat in Hat1; injection Hat1 as <-; [done|].
  destruct Hq as [x ->]. apply (IHp x); [congruence|done].
Qed.

(** No thread can go on for ever: each call uses up a part of a program, and
    each program an event. *)
Lemma steps_acc s : Acc (fun s2 s1 => exists i, step_task body s1 i = Some s2) s.
Proof.
  assert (Acc (one_smaller task_step) (tasks s)) as Hacc.
  { apply one_smaller_acc, Forall_forall. intros t _. apply task_step_acc. }
  remember (tasks s) as l eqn:El. revert s El. induction Hacc as [l _ IH]. intros s ->.
  constructor. intros s2 [i E]. by eapply IH; [eapply step_task_step|].
Qed.
End ends.

Section simulation.
Context {D : Type} `{CharDevice D} `{Streams} {St Ev : Type}.
Context (body : nat -> Ev -> St -> SM D (bool * St)).
Context (Hdisc : forall i ev st, disciplined (body i ev st)).
Implicit Types (t : @tstate D _ _ St Ev) (s a : @system D _ _ St Ev) (i j : nat).

Definition post (res : bool * St) (ph : phase) : Prop := ph <> Inside.

(** One thread [t] of the interleaved system and its counterpart [u]. *)
Inductive task_rel (i : nat) (da ds : D) (own : option nat) (u t : @tstate D _ _ St Ev) : Prop :=
  | rel_rest :
      (forall p, at_ t <> Busy p) -> own <> Some i -> u = t -> task_rel i da ds own u t
  | rel_before ev st h0 T0 p :
      at_ t = Busy p -> own <> Some i -> u = Tstate (ev :: todo t) (Idle st) h0 T0 -> phased Before p post ->
      (forall d, body i ev st (World h0 d T0) = run p (World (theap t) d (ttrace t))) ->
      task_rel i da ds own u t
  | rel_inside ev st h0 T0 p :
      at_ t = Busy p -> own = Some i -> u = Tstate (ev :: todo t) (Idle st) h0 T0 -> phased Inside p post ->
      body i ev st (World h0 da T0) = run p (World (theap t) ds (ttrace t)) ->
      task_rel i da ds own u t
  | rel_after p res w :
      at_ t = Busy p -> own <> Some i -> u = after_body (todo t) res w -> phased After p post ->
      (forall d, run p (World (theap t) d (ttrace t)) = Returns res (World (uheap w) d (trace w))) ->
      task_rel i da ds own u t.

Record related a s : Prop := {
  rel_length : length (tasks a) = length (tasks s);
  rel_tasks i u t : tasks a !! i = Some u -> tasks s !! i = Some t -> task_rel i (shared a) (shared s) (owner s) u t;
  rel_owner : owner a = None;
  rel_shared : owner s = None -> shared a = shared s;
  rel_holder i : owner s = Some i -> exists t p, tasks s !! i = Some t /\ at_ t = Busy p
}.

(** A step of thread [j] that keeps every other thread's relation. *)
Lemma related_set a s j u' t' da' ds' own' :
  related a s -> (own' = None -> da' = ds') ->
  (forall i, i <> j -> owner s <> Some i -> own' <> Some i) ->
  (forall i, i <> j -> owner s = Some i -> own' = owner s /\ da' = shared a /\ ds' = shared s) ->
  (forall i, own' = Some i -> i = j \/ owner s = Some i) -> (j < length (tasks s))%nat ->
  (own' = Some j -> exists p, at_ t' = Busy p) ->
  task_rel j da' ds' own' u' t' ->
  related (System (<[j := u']> (tasks a)) da' None) (System (<[j := t']> (tasks s)) ds' own').
Proof.
  intros [Hlen Htasks _ Hsh Hholder] Hnone Hno Hown Hwho Hjs Hbusy Hj.
  split; cbn [tasks shared owner]; [by rewrite !length_insert| |done|done|].
  2:{ intros i Hi. destruct (decide (i = j)) as [->|Hne].
      - destruct (Hbusy Hi) as [p Hp]. exists t', p. by rewrite list_lookup_insert_eq.
      - destruct (Hwho i Hi) as [|Ho]; [done|]. rewrite list_lookup_insert_ne by done. by apply Hholder. }
  intros i u t Hu Ht. destruct (decide (i = j)) as [->|Hne].
  - assert (j < length (tasks a))%nat as Hlt.
    { apply lookup_lt_Some in Hu. by rewrite length_insert in Hu. }
    rewrite list_lookup_insert_eq in Hu by done. rewrite list_lookup_insert_eq in Ht by lia. by simplify_eq.
  - rewrite list_lookup_insert_ne in Hu by done. rewrite list_lookup_insert_ne in Ht by done.
    destruct (Htasks i u t Hu Ht) as [Hat Ho Hut|ev st h0 T0 p Hat Ho Hu0 Hp Heq|ev st h0 T0 p Hat Ho Hu0 Hp Heq|
                                      p res w Hat Ho Hu0 Hp Heq].
    + by apply rel_rest; [|apply Hno|].
    + by eapply rel_before; [done|apply Hno| | |].
    + destruct (Hown i Hne Ho) as (-> & -> & ->). by eapply rel_inside.
    + by eapply rel_after; [done|apply Hno| | |].
Qed.

(** A quiescent state is its own counterpart. *)
Lemma related_refl s : quiescent s -> related s s.
Proof.
  intros [Hq Ho]. split; [done| |done|done|by rewrite Ho]. intros i u t Hu Ht. assert (u = t) as -> by congruence.
  apply rel_rest; [|by rewrite Ho|done].
  intros p Hp. pose proof (Forall_lookup_1 _ _ _ _ Hq Ht) as Hb. cbv beta in Hb. by rewrite Hp in Hb.
Qed.

Lemma related_quiescent a s : related a s -> quiescent s -> a = s.
Proof.
  intros [Hlen Htasks Hoa Hsh Hholder] [Hq Ho]. destruct a as [ta da oa], s as [ts ds os]. simpl in *.
  subst oa os. rewrite (Hsh eq_refl). f_equal. apply list_eq_same_length with (length ts); [done|done|].
  intros i u t _ Hu Ht. pose proof (Forall_lookup_1 _ _ _ _ Hq Ht) as Hb. cbv beta in Hb.
  destruct (Htasks i u t Hu Ht) as [_ _ ?|????? Hat|????? Hat|??? Hat]; [done|by rewrite Hat in Hb..].
Qed.

(** ** The atomic step of a body that is done with the device *)

(** A body that has returned, or that has nothing left to do but private
    calls, is the atomic step of its thread. *)
Lemma atomic_commit a i ev st evs h0 T0 res w :
  tasks a !! i = Some (Tstate (ev :: evs) (Idle st) h0 T0) ->
  body i ev st (World h0 (shared a) T0) = Returns res w ->
  atomic_step body a i = Some (System (<[i := after_body evs res w]> (tasks a)) (device_of w) (owner a)).
Proof. intros Ht Hb. unfold atomic_step. rewrite Ht. simpl. by rewrite Hb. Qed.

Context (Inv : @system D _ _ St Ev -> Prop).
Context (Hinv : forall a i t ev evs st, Inv a -> tasks a !! i = Some t -> todo t = ev :: evs -> at_ t = Idle st ->
                exists a', atomic_step body a i = Some a' /\ Inv a').

Lemma atomic_returns a i ev st evs h0 T0 :
  Inv a -> tasks a !! i = Some (Tstate (ev :: evs) (Idle st) h0 T0) ->
  exists res w, body i ev st (World h0 (shared a) T0) = Returns res w /\
    Inv (System (<[i := after_body evs res w]> (tasks a)) (device_of w) (owner a)).
Proof.
  intros Ha Ht. destruct (Hinv a i _ ev evs st Ha Ht eq_refl eq_refl) as (a' & E & Ha').
  unfold atomic_step in E. rewrite Ht in E. simpl in E.
  destruct (body i ev st _) as [res w| | |]; [|done..]. simplify_eq. by exists res, w.
Qed.

Definition keeps a s' : Prop :=
  exists order a', run_atomic body a order = Some a' /\ Inv a' /\ related a' s'.

Lemma keeps_here a s' : Inv a -> related a s' -> keeps a s'.
Proof. intros Ha Hr. by exists [], a. Qed.

Lemma keeps_commit a i s' a' : atomic_step body a i = Some a' -> Inv a' -> related a' s' -> keeps a s'.
Proof. intros E Ha Hr. exists [i], a'. split; [simpl; by rewrite E|done]. Qed.

(** Thread [i] takes its next event. *)
Lemma keeps_start a s i t st ev evs :
  Inv a -> related a s -> tasks s !! i = Some t -> at_ t = Idle st -> todo t = ev :: evs ->
  keeps a (set_task s i (Tstate evs (Busy (body i ev st)) (theap t) (ttrace t))).
Proof.
  intros Ha Hr Ht Hat Htodo. apply keeps_here; [done|]. pose proof Hr as [Hlen Htasks Hoa Hsh Hholder].
  destruct (lookup_lt_is_Some_2 (tasks a) i) as [u Hu]; [rewrite Hlen; by eapply lookup_lt_Some|].
  destruct (Htasks i u t Hu Ht) as [_ Ho Hut|????? Hb|????? Hb|??? Hb]; [|congruence..]. subst u.
  replace a with (System (<[i := t]> (tasks a)) (shared a) None) by (destruct a; simpl in *; subst; by rewrite list_insert_id).
  apply related_set; [done|exact Hsh|done|done|by right|by eapply lookup_lt_Some|done|].
  eapply rel_before; [done|exact Ho| |apply Hdisc|done]. destruct t. simpl in *. by subst.
Qed.

(** Thread [i] leaves a body. *)
Lemma keeps_finish a s i t res :
  Inv a -> related a s -> tasks s !! i = Some t -> at_ t = Busy (Ret res) ->
  keeps a (set_task s i (Tstate (todo t) (if res.1 then Ended res.2 else Idle res.2) (theap t) (ttrace t))).
Proof.
  intros Ha Hr Ht Hat. pose proof Hr as [Hlen Htasks Hoa Hsh Hholder].
  destruct (lookup_lt_is_Some_2 (tasks a) i) as [u Hu]; [rewrite Hlen; by eapply lookup_lt_Some|].
  set (t' := Tstate (todo t) _ (theap t) (ttrace t)).
  assert (forall p, at_ t' <> Busy p) as Hrest by (intros p; unfold t'; simpl; by destruct (res.1)).
  destruct (Htasks i u t Hu Ht) as [Hb|ev st h0 T0 p Hb Ho -> Hp Heq|ev st h0 T0 p Hb Ho -> Hp Heq|
                                    p r w Hb Ho -> Hp Heq].
  - by destruct (Hb (Ret res)).
  - rewrite Hat in Hb. injection Hb as <-.
    destruct (atomic_returns a i ev st _ h0 T0 Ha Hu) as (r & w & Er & Hi). pose proof Er as Er2.
    rewrite Heq in Er2. unfold run in Er2. simpl in Er2. simplify_eq. simpl in Hi.
    eapply keeps_commit; [by eapply atomic_commit|exact Hi|]. cbn [uheap device_of trace]. rewrite Hoa.
    apply related_set; [done|exact Hsh|done|done|by right|by eapply lookup_lt_Some|done|]. by apply rel_rest.
  - rewrite Hat in Hb. injection Hb as <-. by destruct Hp.
  - rewrite Hat in Hb. injection Hb as <-. apply keeps_here; [done|].
    pose proof (Heq (shared s)) as E. unfold run in E. simpl in E. simplify_eq.
    assert (after_body (todo t) r w = t') as Ew by (unfold after_body, t'; by destruct w; simplify_eq/=).
    rewrite Ew in Hu.
    replace a with (System (<[i := t']> (tasks a)) (shared a) None)
      by (destruct a; simpl in *; subst; by rewrite list_insert_id).
    apply related_set; [done|exact Hsh|done|done|by right|by eapply lookup_lt_Some|done|]. by apply rel_rest.
Qed.
(** Thread [i] makes a call. *)
Lemma keeps_call a s i t X (c : call X) k o x w :
  Inv a -> related a s -> tasks s !! i = Some t -> at_ t = Busy (Call c k) -> sync s i c = Some o ->
  perform c (World (theap t) (shared s) (ttrace t)) = Returns x w ->
  keeps a (System (<[i := Tstate (todo t) (Busy (k x)) (uheap w) (trace w)]> (tasks s)) (device_of w) o).
Proof.
  intros Ha Hr Ht Hat Hsync Hperf. pose proof Hr as [Hlen Htasks Hoa Hsh Hholder].
  destruct (lookup_lt_is_Some_2 (tasks a) i) as [u Hu]; [rewrite Hlen; by eapply lookup_lt_Some|].
  assert (a = System (<[i := u]> (tasks a)) (shared a) None) as Esame
    by (destruct a; simpl in *; subst; by rewrite list_insert_id).
  destruct (Htasks i u t Hu Ht) as [Hb|ev st h0 T0 p Hb Ho Eu Hp Heq|ev st h0 T0 p Hb Ho Eu Hp Heq|
                                    p r w' Hb Ho Eu Hp Heq]; [by destruct (Hb (Call c k))|..];
    rewrite Hat in Hb; injection Hb as <-; unfold phased in Hp; cbn [phased_prog] in Hp;
    (destruct (next_phase _ c) as [ph'|] eqn:Eph; [|done]); specialize (Hp x);
    destruct (next_phase_cases _ c ph' Eph) as
      [(-> & Hsil & Hown)|[(? & -> & Hsil & Hown)|(? & -> & Hsil & Hown)]]; try done; apply Hown in Hsync.
  - (* before the critical section *)
    subst o. destruct (perform_silent c _ _ _ _ _ (Hsil ltac:(done)) Hperf) as [Hd Hall].
    apply keeps_here; [done|]. rewrite Esame, Hd. apply related_set; [done|exact Hsh|done|done|by right|by eapply lookup_lt_Some|by eexists|].
    eapply rel_before; [done|exact Ho|exact Eu|exact Hp|]. intros d. cbn [theap ttrace].
    rewrite Heq. unfold run. simpl. by rewrite Hall.
  - (* the lock *)
    destruct Hsync as [Hnone ->]. destruct (perform_silent c _ _ _ _ _ Hsil Hperf) as [Hd Hall].
    apply keeps_here; [done|]. rewrite Esame, Hd.
    apply related_set; [done|done|by intros ??? [=]|by rewrite Hnone|by intros ? [=]; left|by eapply lookup_lt_Some|by eexists|].
    eapply rel_inside; [done|done|exact Eu|exact Hp|]. cbn [theap ttrace].
    rewrite Heq, (Hsh Hnone). unfold run. simpl. by rewrite Hall.
  - (* inside the critical section *)
    subst o. apply keeps_here; [done|]. rewrite Esame.
    apply related_set; [done|by rewrite Ho|done|by intros ??; rewrite Ho; intros [=]|by right|by eapply lookup_lt_Some|by eexists|].
    eapply rel_inside; [done|exact Ho|exact Eu|exact Hp|]. cbn [theap ttrace].
    rewrite Heq. unfold run. simpl. rewrite Hperf. by destruct w.
  - (* the unlock *)
    subst o. destruct (perform_silent c _ _ _ _ _ Hsil Hperf) as [Hd Hall].
    subst u. destruct (atomic_returns a i ev st _ h0 T0 Ha Hu) as (r & w1 & Er & Hi). pose proof Er as Er2.
    rewrite Heq in Er2. unfold run in Er2. simpl in Er2. rewrite Hperf in Er2. destruct w as [h1 d1 T1]. simpl in Hd. subst d1.
    destruct (run_after (k x) post h1 (shared s) T1 r w1 Hp Er2) as [Hd1 Hall1].
    eapply keeps_commit; [by eapply atomic_commit|exact Hi|]. rewrite Hoa, Hd1. cbn [uheap device_of trace].
    apply related_set; [done|done|done|by intros ??; rewrite Ho; intros [=]|done|by eapply lookup_lt_Some|done|].
    by eapply rel_after; [done|done|done|exact Hp|].
  - (* after the critical section *)
    subst o. destruct (perform_silent c _ _ _ _ _ (Hsil ltac:(done)) Hperf) as [Hd Hall].
    apply keeps_here; [done|]. rewrite Esame, Hd. apply related_set; [done|exact Hsh|done|done|by right|by eapply lookup_lt_Some|by eexists|].
    eapply rel_after; [done|exact Ho|exact Eu|exact Hp|]. intros d. cbn [theap ttrace].
    rewrite <- (Heq d). unfold run. simpl. by rewrite Hall.
Qed.

(** Every step of the interleaved system is matched. *)
Lemma step_keeps a s i s' : Inv a -> related a s -> step_task body s i = Some s' -> keeps a s'.
Proof.
  intros Ha Hr E. unfold step_task in E. destruct (tasks s !! i) as [t|] eqn:Ht; [|done]. simpl in E.
  destruct (at_ t) as [st|[res|X c k]|st] eqn:Hat; [|by simplify_eq; eapply keeps_finish| |done].
  - destruct (todo t) as [|ev evs] eqn:Htodo; [done|]. simplify_eq. by eapply keeps_start.
  - destruct (sync s i c) as [o|] eqn:Hsync; [|done]. simpl in E.
    destruct (perform c _) as [x w| | |] eqn:Hperf; [|done..]. simplify_eq. by eapply keeps_call.
Qed.

Lemma steps_keep a s sched s' : Inv a -> related a s -> run_steps body s sched = Some s' -> keeps a s'.
Proof.
  revert a s. induction sched as [|i sched IH]; intros a s Ha Hr E; simpl in E.
  - simplify_eq. by apply keeps_here.
  - destruct (step_task body s i) as [s1|] eqn:E1; [|done]. simpl in E.
    destruct (step_keeps a s i s1 Ha Hr E1) as (o1 & a1 & Eo1 & Ha1 & Hr1).
    destruct (IH a1 s1 Ha1 Hr1 E) as (o2 & a2 & Eo2 & Ha2 & Hr2).
    exists (o1 ++ o2), a2. by rewrite (run_atomic_app _ _ _ _ _ Eo1).
Qed.

(** ** No call fails *)

(** The body a busy thread is in returns, on the device of the atomic system
    while the thread has not locked, on the present one otherwise. *)
Lemma busy_returns a s i t p :
  Inv a -> related a s -> tasks s !! i = Some t -> at_ t = Busy p ->
  exists ph res w a1 t1, phased ph p post /\
    run p (World (theap t) (if decide (owner s = Some i) then shared s else shared a) (ttrace t)) = Returns res w /\
    (ph = Inside <-> owner s = Some i) /\ Inv a1 /\ tasks a1 !! i = Some t1 /\ ttrace t1 = trace w.
Proof.
  intros Ha Hr Ht Hat. pose proof Hr as [Hlen Htasks Hoa Hsh Hholder].
  destruct (lookup_lt_is_Some_2 (tasks a) i) as [u Hu]; [rewrite Hlen; by eapply lookup_lt_Some|].
  pose proof (lookup_lt_Some _ _ _ Hu) as Hlt.
  destruct (Htasks i u t Hu Ht) as [Hb|ev st h0 T0 p' Hb Ho -> Hp Heq|ev st h0 T0 p' Hb Ho -> Hp Heq|
                                    p' r w Hb Ho -> Hp Heq]; [by destruct (Hb p)|..];
    rewrite Hat in Hb; injection Hb as <-; case_decide as Hdec; try done.
  - destruct (atomic_returns a i ev st _ h0 T0 Ha Hu) as (r & w & Er & Hi). pose proof Er as Er2. rewrite Heq in Er2.
    eexists Before, r, w, _, _. split_and!; [done|exact Er2|done|exact Hi| |].
    + cbn [tasks]. by rewrite list_lookup_insert_eq.
    + done.
  - destruct (atomic_returns a i ev st _ h0 T0 Ha Hu) as (r & w & Er & Hi). pose proof Er as Er2. rewrite Heq in Er2.
    eexists Inside, r, w, _, _. split_and!; [done|exact Er2|done|exact Hi| |].
    + cbn [tasks]. by rewrite list_lookup_insert_eq.
    + done.
  - eexists After, r, _, a, _. split_and!; [done|apply Heq|done|exact Ha|exact Hu|done].
Qed.

Lemma call_returns a s i t X (c : call X) k :
  Inv a -> related a s -> tasks s !! i = Some t -> at_ t = Busy (Call c k) ->
  exists x w, perform c (World (theap t) (shared s) (ttrace t)) = Returns x w.
Proof.
  intros Ha Hr Ht Hat.
  destruct (busy_returns a s i t _ Ha Hr Ht Hat) as (ph & res & w & a1 & t1 & Hp & Erun & Hph & _).
  unfold run in Erun. cbn [run_prog] in Erun. destruct (perform c _) as [x w1| | |] eqn:Ec; try done.
  case_decide as Ho; [by eexists _, _|]. unfold phased in Hp. cbn [phased_prog] in Hp.
  destruct (next_phase ph c) as [ph'|] eqn:Eph; [|done].
  assert (silent c) as Hsil by (eapply next_phase_silent; [exact Eph|by intros E; apply Ho, Hph]).
  destruct (perform_silent c _ _ _ _ _ Hsil Ec) as [_ Hall]. by eexists _, _.
Qed.

(** ** Who waits for what *)

Context (Hjoin : forall a i t slot, Inv a -> tasks a !! i = Some t -> Joined slot ∉ ttrace t).

Lemma run_prog_trace {A} (p : prog A) (w : world D) res w' :
  run_prog p w = Returns res w' -> exists T, trace w' = trace w ++ T.
Proof.
  revert w. induction p as [x|X c k IH]; intros w E; simpl in E.
  - simplify_eq. exists []. by rewrite app_nil_r.
  - destruct (perform c w) as [x w1| | |] eqn:Ec; try done. destruct (IH x w1 E) as [T ->].
    assert (exists T1, trace w1 = trace w ++ T1) as [T1 ->]; [|exists (T1 ++ T); by rewrite app_assoc].
    destruct c; simpl in Ec; repeat case_match; simplify_eq/=; (by eexists) || (by exists []; rewrite app_nil_r).
Qed.

Lemma never_joins a s i t slot k :
  Inv a -> related a s -> tasks s !! i = Some t -> at_ t <> Busy (Call (Event (Joined slot)) k).
Proof.
  intros Ha Hr Ht Hat.
  destruct (busy_returns a s i t _ Ha Hr Ht Hat) as (ph & res & w & a1 & t1 & _ & Erun & _ & Ha1 & Ht1 & Etr).
  apply (Hjoin a1 i t1 slot Ha1 Ht1). rewrite Etr. unfold run in Erun. simpl in Erun.
  destruct (run_prog_trace _ _ _ _ Erun) as [T ->]. simpl. rewrite !elem_of_app. left. right.
  by apply list_elem_of_singleton.
Qed.

(** The only thing that stops a thread inside a body is the mutex of another. *)
Lemma busy_steps a s i t p :
  Inv a -> related a s -> tasks s !! i = Some t -> at_ t = Busy p ->
  (exists s', step_task body s i = Some s') \/
  (exists k j, p = Call (Event Locked) k /\ owner s = Some j /\ j <> i).
Proof.
  intros Ha Hr Ht Hat. unfold step_task. rewrite Ht. simpl. rewrite Hat.
  destruct p as [res|X c k]; [left; by eexists|].
  destruct (call_returns a s i t X c k Ha Hr Ht Hat) as (x & w & Ec).
  destruct (busy_returns a s i t _ Ha Hr Ht Hat) as (ph & res & w1 & a1 & t1 & Hp & Erun & Hph & Ha1 & Ht1 & Etr).
  unfold phased in Hp. cbn [phased_prog] in Hp. destruct (next_phase ph c) as [ph'|] eqn:Eph; [|done].
  assert (forall o, sync s i c = Some o -> exists s', (o ← sync s i c;
    match perform c (World (theap t) (shared s) (ttrace t)) with
    | Returns x w => Some (System (<[i := Tstate (todo t) (Busy (k x)) (uheap w) (trace w)]> (tasks s)) (device_of w) o)
    | _ => None
    end) = Some s') as Hgo by (intros o Ho; rewrite Ho; simpl; rewrite Ec; by eexists).
  destruct c as [X m|e| | | | | | |]; try (left; by eapply Hgo).
  destruct e; try (left; by eapply Hgo); simpl in Eph.
  - destruct (decide (ph = Before)) as [E|]; [|done]. destruct (owner s) as [j|] eqn:Ho.
    + right. exists k, j. split_and!; [done|done|]. intros ->. destruct Hph as [_ Hph]. specialize (Hph eq_refl). congruence.
    + left. eapply Hgo. simpl. by rewrite Ho.
  - destruct (decide (ph = Inside)) as [E|]; [|done]. apply Hph in E. left. eapply Hgo. simpl. by rewrite decide_True.
  - by destruct (never_joins a s i t slot k Ha Hr Ht Hat).
Qed.

(** Who touches the device holds the mutex. *)
Lemma device_call_locked a s i t X (c : call X) k :
  Inv a -> related a s -> tasks s !! i = Some t -> at_ t = Busy (Call c k) -> ~ silent c -> owner s = Some i.
Proof.
  intros Ha Hr Ht Hat Hc. destruct (busy_returns a s i t _ Ha Hr Ht Hat) as (ph & _ & _ & _ & _ & Hp & _ & Hph & _).
  unfold phased in Hp. cbn [phased_prog] in Hp. destruct (next_phase ph c) as [ph'|] eqn:Eph; [|done].
  apply Hph. destruct (decide (ph = Inside)) as [|Hne]; [done|]. by apply next_phase_silent in Eph.
Qed.

Definition resting t : Prop := forall p, at_ t <> Busy p.

(** A thread with nothing left to do. *)
Definition finished_task t : Prop := resting t /\ ((exists st, at_ t = Ended st) \/ todo t = []).

(** A state that has no step left is one in which all is done. *)
Lemma blocked_finished a s :
  Inv a -> related a s -> (forall i, step_task body s i = None) -> Forall finished_task (tasks s).
Proof.
  intros Ha Hr Hno. apply Forall_lookup_2. intros i t Ht. destruct (at_ t) as [st|p|st] eqn:Hat.
  - split; [intros p; congruence|right]. destruct (todo t) as [|ev evs] eqn:Htodo; [done|].
    specialize (Hno i). unfold step_task in Hno. rewrite Ht in Hno. simpl in Hno. by rewrite Hat, Htodo in Hno.
  - exfalso. destruct (busy_steps a s i t p Ha Hr Ht Hat) as [[s' E]|(k & j & _ & Ho & _)]; [by rewrite Hno in E|].
    destruct (rel_holder _ _ Hr j Ho) as (t2 & p2 & Ht2 & Hat2).
    destruct (busy_steps a s j t2 p2 Ha Hr Ht2 Hat2) as [[s' E]|(k2 & j2 & _ & Ho2 & Hne)]; [by rewrite Hno in E|].
    rewrite Ho in Ho2. by simplify_eq.
  - split; [intros p; congruence|left; by eexists].
Qed.
End simulation.
