(* ===== verification/ServeSpec.v ===== *)
(** * What the threads of the server promise together

    An executable specification of the server's threads: a step handles one
    event of one thread as a whole.  A client accumulates data; a line goes
    to the device and the whole text is the answer, a seek command is answered
    with the text from a position on; a timeout of the clock adds a line.  File ConcurrentProps shows that the interleaved threads do
    nothing else. *)

From S2P Require Import Prelude CInt CMem Footprint Common CircularBuffer TemporaryBuffer.
From S2P Require Import Ring CircularFacts CharDevice DeviceFacts WriteFacts DeviceSpec DeviceInterface Process CString SeekCommand Writer SocketServer SocketFacts HandlerFacts.
From S2P Require Import Timestamp.

(** An event of a thread of the process. *)
Inductive thread_event := OfClient (ev : poll_event) | OfClock (ev : clock_event).

(** The packet that a client's event completes, when [p] is pending. *)
Definition request (p : option (list byte)) (ev : poll_event) : option (list byte) :=
  match ev with
  | PollRecv (Some data) => if newline_seen (pending p ++ data) data then Some (pending p ++ data) else None
  | _ => None
  end.

(** Is a packet a line for the device, and not a command? *)
Definition is_data (d : list byte) : bool := match command_of d with Some None => true | _ => false end.

(** The packet that an event submits to the device. *)
Definition packet (p : option (list byte)) (ev : thread_event) : option (list byte) :=
  match ev with
  | OfClient ev =>
      match request p ev with
      | Some d => if is_data d then Some d else None
      | None => None
      end
  | OfClock (ClockTimeout (Some t)) => final_line t
  | OfClock _ => None
  end.

(** The packets there are: lines of the clock, and a client's data with a
    newline in it. *)
Definition whole_packet (d : list byte) : Prop := (exists t, final_line t = Some d) \/ ch_newline ∈ d.

Lemma packet_whole p ev d : packet p ev = Some d -> whole_packet d.
Proof.
  destruct ev as [[| |[data|]|]|[|[t|]| |]]; simpl; try done; [|by left; exists t].
  destruct (newline_seen _ _) eqn:Hnl; [|done]. destruct (is_data _); [|done]. intros [= <-]. right.
  apply bool_decide_eq_true in Hnl. rewrite <- (take_drop (length data) (pending p ++ data)). apply elem_of_app. by left.
Qed.

(** What is pending after it. *)
Definition pending_after (p : option (list byte)) (ev : thread_event) : option (list byte) :=
  match ev with OfClient ev => event_pending p ev | OfClock _ => p end.

(** Does it end its thread? *)
Definition ends (ev : thread_event) : bool :=
  match ev with
  | OfClient ev => ends_loop ev
  | OfClock (ClockFailed | ClockPipe) => true
  | OfClock _ => false
  end.

Record thread_spec := ThreadSpec {
  sp_todo : list thread_event;
  sp_pending : option (list byte);
  sp_ended : bool;
  answers : list byte
}.

Section serve.
Context {C : Type} `{DeviceModel C} `{Streams}.
Implicit Types (c : C).

Definition contents_after (p : option (list byte)) c (ev : thread_event) : C :=
  match packet p ev with Some d => store d c | None => c end.

(** Clients are answered, the clock is not. *)
Definition answer (p : option (list byte)) c (ev : thread_event) : list byte :=
  match ev with
  | OfClient ev => match request p ev with Some d => reply c d | None => [] end
  | OfClock _ => []
  end.

Lemma client_contents p c ev : contents_after p c (OfClient ev) = event_contents p c ev.
Proof.
  unfold contents_after. destruct ev as [| |[data|]|]; simpl; try done.
  destruct (newline_seen _ _); [|done]. unfold after_packet, is_data. by destruct (command_of _) as [[|]|].
Qed.

Record spec := Spec { threads : list thread_spec; held : C }.

Definition after_event (t : thread_spec) c (ev : thread_event) (evs : list thread_event) : thread_spec :=
  ThreadSpec evs (pending_after (sp_pending t) ev) (ends ev) (answers t ++ answer (sp_pending t) c ev).

Definition serve_step (x : spec) (i : nat) : option spec :=
  t ← threads x !! i;
  match sp_ended t, sp_todo t with
  | false, ev :: evs =>
      Some (Spec (<[i := after_event t (held x) ev evs]> (threads x)) (contents_after (sp_pending t) (held x) ev))
  | _, _ => None
  end.

Fixpoint serve (x : spec) (order : list nat) : option spec :=
  match order with
  | [] => Some x
  | i :: order' => x' ← serve_step x i; serve x' order'
  end.

Lemma serve_app x o1 o2 x1 : serve x o1 = Some x1 -> serve x (o1 ++ o2) = serve x1 o2.
Proof.
  revert x. induction o1 as [|i o1 IH]; intros x E; simpl in *; [by simplify_eq|].
  destruct (serve_step x i) as [x'|]; simpl in *; [by apply IH|done].
Qed.

(** The packets of an order of events, as they reach the device. *)
Fixpoint submissions (x : spec) (order : list nat) : list (list byte) :=
  match order with
  | [] => []
  | i :: order' =>
      match threads x !! i, serve_step x i with
      | Some (ThreadSpec (ev :: _) p _ _), Some x' => option_list (packet p ev) ++ submissions x' order'
      | _, _ => []
      end
  end.

(** The device holds what it held, and the packets. *)
Lemma serve_contents x order x' :
  serve x order = Some x' -> held x' = foldl (fun c d => store d c) (held x) (submissions x order).
Proof.
  revert x. induction order as [|i order IH]; intros x E; simpl in E |- *; [by simplify_eq|].
  destruct (serve_step x i) as [x1|] eqn:E1; [|done]. simpl in E. rewrite (IH x1 E). clear IH.
  unfold serve_step in E1. destruct (threads x !! i) as [[evs p e ans]|]; [|done]. simpl in E1.
  destruct e, evs as [|ev evs]; try done. simplify_eq. cbn [held]. rewrite foldl_app. f_equal.
  unfold contents_after. by destruct (packet p ev).
Qed.

Lemma submissions_whole x order : Forall whole_packet (submissions x order).
Proof.
  revert x. induction order as [|i order IH]; intros x; simpl; [constructor|].
  destruct (threads x !! i) as [[[|ev evs] p e ans]|]; [constructor| |constructor].
  destruct (serve_step x i); [|constructor]. apply Forall_app. split; [|apply IH].
  destruct (packet p ev) as [d|] eqn:E; simpl; [|constructor]. constructor; [by eapply packet_whole|constructor].
Qed.

(** ** Sizes *)

(** The bytes an event can bring. *)
Definition submitted (ev : thread_event) : nat :=
  match ev with
  | OfClient (PollRecv (Some data)) => length data
  | OfClock (ClockTimeout (Some t)) => length (default [] (final_line t))
  | _ => O
  end.

(** The bytes a thread has pending or may still bring. *)
Definition backlog (t : thread_spec) : nat := length (pending (sp_pending t)) + sum_list_with submitted (sp_todo t).

Definition load (x : spec) : nat := sum_list_with backlog (threads x).

(** One event: what reaches the device was pending or has just come. *)
Lemma event_size p c ev :
  let b := (length (pending p) + submitted ev)%nat in
  let b' := length (pending (pending_after p ev)) in
  (b' <= b)%nat /\ (model_hidden (contents_after p c ev) + b' <= model_hidden c + b)%nat /\
  text_size (contents_after p c ev) + Z.of_nat (model_hidden (contents_after p c ev)) + Z.of_nat b' <=
    text_size c + Z.of_nat (model_hidden c) + Z.of_nat b.
Proof.
  destruct ev as [ev|ev].
  - cbv zeta. rewrite client_contents. destruct ev as [| |[data|]|]; simpl; try lia.
    unfold next_pending. case_decide as Hd; [subst; rewrite newline_seen_nil; simpl; lia|].
    destruct (newline_seen _ _); simpl.
    + pose proof (after_packet_size c (pending p ++ data)). rewrite length_app in *. lia.
    + rewrite length_app. lia.
  - unfold contents_after. destruct ev as [|[t|]| |]; simpl; try lia.
    destruct (final_line t) as [d|]; simpl; [|lia]. pose proof (store_size d c). lia.
Qed.

Lemma serve_step_size x i x' :
  serve_step x i = Some x' ->
  (load x' <= load x)%nat /\ (model_hidden (held x') + load x' <= model_hidden (held x) + load x)%nat /\
  text_size (held x') + Z.of_nat (model_hidden (held x')) + Z.of_nat (load x') <=
    text_size (held x) + Z.of_nat (model_hidden (held x)) + Z.of_nat (load x).
Proof.
  unfold serve_step. intros E. destruct (threads x !! i) as [t|] eqn:Ht; [|done]. simpl in E.
  destruct (sp_ended t), (sp_todo t) as [|ev evs] eqn:Htodo; try done. simplify_eq. unfold load. cbn [threads held].
  pose proof (sum_list_with_insert backlog (threads x) i (after_event t (held x) ev evs) t Ht) as Hsum.
  assert (backlog t = length (pending (sp_pending t)) + (submitted ev + sum_list_with submitted evs))%nat as Ht1
    by (unfold backlog; by rewrite Htodo).
  assert (backlog (after_event t (held x) ev evs) =
          length (pending (pending_after (sp_pending t) ev)) + sum_list_with submitted evs)%nat as Ht2 by done.
  pose proof (event_size (sp_pending t) (held x) ev) as Hev. simpl in Hev. lia.
Qed.

(** ** Events that can be handled

    Whether a seek is refused depends on what the device holds when its turn
    comes, so on the order of events: in every order, the next event of every
    thread has to be one that its handler copes with. *)

Definition event_fits (t : thread_spec) c (ev : thread_event) : bool :=
  match ev with OfClient ev => event_ok (sp_pending t) c ev | OfClock _ => true end.

(** The event that thread [i] handles next, if any, is such. *)
Definition next_fits (x : spec) (i : nat) : bool :=
  match threads x !! i with
  | Some t => match sp_ended t, sp_todo t with false, ev :: _ => event_fits t (held x) ev | _, _ => true end
  | None => true
  end.

Definition manageable (x : spec) : Prop := forall order x', serve x order = Some x' -> forall i, next_fits x' i = true.

Lemma manageable_step x i x' : manageable x -> serve_step x i = Some x' -> manageable x'.
Proof. intros Hx E order x2 E2. apply (Hx (i :: order)). simpl. by rewrite E. Qed.

Lemma manageable_next x i t ev evs :
  manageable x -> threads x !! i = Some t -> sp_ended t = false -> sp_todo t = ev :: evs -> event_fits t (held x) ev = true.
Proof. intros Hx Ht He Hto. specialize (Hx [] x eq_refl i). unfold next_fits in Hx. by rewrite Ht, He, Hto in Hx. Qed.

(** All orders tried, [fuel] events long. *)
Fixpoint try_orders (fuel : nat) (x : spec) : bool :=
  forallb (fun i =>
    match serve_step x i with
    | None => true
    | Some x' => match fuel with O => false | S fuel' => next_fits x i && try_orders fuel' x' end
    end) (seq 0 (length (threads x))).

Lemma serve_step_lt x i x' : serve_step x i = Some x' -> (i < length (threads x))%nat.
Proof.
  unfold serve_step. intros E. destruct (threads x !! i) eqn:Ei; [by eapply lookup_lt_Some|done].
Qed.

Lemma next_fits_step x i : serve_step x i = None -> next_fits x i = true.
Proof.
  unfold serve_step, next_fits. destruct (threads x !! i) as [t|]; [|done]. simpl.
  by destruct (sp_ended t), (sp_todo t).
Qed.

Lemma try_orders_step fuel x i x' :
  try_orders fuel x = true -> serve_step x i = Some x' ->
  next_fits x i = true /\ exists fuel', try_orders fuel' x' = true.
Proof.
  intros Hx E. pose proof (serve_step_lt _ _ _ E).
  destruct fuel as [|fuel]; cbn [try_orders] in Hx; rewrite forallb_forall in Hx;
    specialize (Hx i ltac:(apply in_seq; lia)); rewrite E in Hx; [done|].
  apply andb_true_iff in Hx as [Hn Hx]. split; [done|by exists fuel].
Qed.

Lemma try_orders_manageable fuel x : try_orders fuel x = true -> manageable x.
Proof.
  intros Hx order. revert fuel x Hx. induction order as [|j order IH]; intros fuel x Hx x' E i; simpl in E.
  - simplify_eq. destruct (serve_step x' i) as [x1|] eqn:Ei; [|by apply next_fits_step].
    by destruct (try_orders_step _ _ _ _ Hx Ei).
  - destruct (serve_step x j) as [x1|] eqn:Ej; [|done]. simpl in E.
    destruct (try_orders_step _ _ _ _ Hx Ej) as (_ & fuel' & Hx1). by apply (IH fuel' x1 Hx1).
Qed.

(** Threads whose packets are data, whatever the device holds: then the order
    does not matter. *)
Definition plain_event (p : option (list byte)) (ev : thread_event) : bool :=
  match ev with
  | OfClient (PollRecv None) => false
  | OfClient (PollRecv (Some data)) =>
      (length data <=? 511)%nat &&
      implb (newline_seen (pending p ++ data) data) (is_data (pending p ++ data))
  | _ => true
  end.

Fixpoint plain_events (p : option (list byte)) (evs : list thread_event) : bool :=
  match evs with
  | [] => true
  | ev :: evs' => plain_event p ev && (ends ev || plain_events (pending_after p ev) evs')
  end.

Definition plain_thread (t : thread_spec) : Prop := sp_ended t = true \/ plain_events (sp_pending t) (sp_todo t) = true.

Lemma plain_event_fits t c ev : plain_event (sp_pending t) ev = true -> event_fits t c ev = true.
Proof.
  destruct ev as [[| |[data|]|]|ev]; simpl; try done. intros [-> Hok]%andb_true_iff. simpl.
  destruct (newline_seen _ _); [|done]. simpl in *. unfold packet_ok, is_data in *. by destruct (command_of _) as [[|]|].
Qed.

Lemma plain_manageable x : Forall plain_thread (threads x) -> manageable x.
Proof.
  intros Hx order. revert x Hx. induction order as [|j order IH]; intros x Hx x' E i; simpl in E.
  - simplify_eq. unfold next_fits. destruct (threads x' !! i) as [t|] eqn:Ei; [|done].
    destruct (Forall_lookup_1 _ _ _ _ Hx Ei) as [->|Ht]; [done|].
    destruct (sp_ended t), (sp_todo t) as [|ev evs]; try done. cbn [plain_events] in Ht.
    apply andb_true_iff in Ht as [Ht _]. by apply plain_event_fits.
  - destruct (serve_step x j) as [x1|] eqn:Ej; [|done]. simpl in E. apply (IH x1); [|done].
    unfold serve_step in Ej. destruct (threads x !! j) as [t|] eqn:Et; [|done]. simpl in Ej.
    pose proof (Forall_lookup_1 _ _ _ _ Hx Et) as Ht.
    destruct (sp_ended t) eqn:He, (sp_todo t) as [|ev evs] eqn:Hto; try done. simplify_eq. cbn [threads].
    apply Forall_insert; [done|]. destruct Ht as [Ht|Ht]; [congruence|]. rewrite Hto in Ht. cbn [plain_events] in Ht.
    apply andb_true_iff in Ht as [_ Ht]. unfold plain_thread, after_event. cbn [sp_ended sp_pending sp_todo].
    apply orb_true_iff in Ht as [->|Ht]; [by left|by right].
Qed.
End serve.
