(* ===== verification/ServerThreads.v ===== *)
(** * The threads of the server

    The server's threads as a system of [Concurrency]: the bodies are one
    iteration of the loop of [clientHandler] and one of the loop of
    [timestampWriterHandler].  Both keep to the discipline of [fileMutex]. *)

From Stdlib.Strings Require Import String.
From S2P Require Import Prelude CInt CMem Footprint Common CircularBuffer TemporaryBuffer.
From S2P Require Import Ring CircularFacts CharDevice DeviceFacts WriteFacts DeviceSpec.
From S2P Require Import DeviceInterface Process CString SeekCommand Writer SocketServer SocketFacts HandlerFacts Timestamp.
From S2P Require Import Concurrency ServeSpec.
Import TemporaryBuffer.Server.

(** The local variables of a thread. *)
Inductive local :=
  | ClientThread (clientData : ptr) (fields : clientData_t) (bufferString : aesd_temperary_buffer)
  | ClockThread.

Section threads.
Context {D : Type} `{CharDevice D} `{Allocator} `{Streams}.
Implicit Types (w : world D).

(** An iteration of a client's loop, and what follows the loop when it ends it. *)
Definition client_body (s : server) (n : nat) (cp : ptr) (cd : clientData_t) (ev : poll_event)
    (bufferString : aesd_temperary_buffer) : SM D (bool * aesd_temperary_buffer) :=
  res ← handler_iteration s n (newSockFd cd) ev bufferString;
  let '(stop, bufferString) := res in
  if (stop : bool) then
    _ ← cleanupClientHandler cp cd (Some bufferString);
    mret (true, bufferString)
  else mret (false, bufferString).

(** Events of another kind of thread do not happen to a thread. *)
Definition thread_body (s : server) (n : nat) (i : nat) (ev : thread_event) (st : local) : SM D (bool * local) :=
  match st, ev with
  | ClientThread cp cd bufferString, OfClient ev =>
      res ← client_body s n cp cd ev bufferString;
      mret (res.1, ClientThread cp cd res.2)
  | ClockThread, OfClock ev => stop ← timestamp_iteration ev; mret (stop, ClockThread)
  | _, _ => mret (false, st)
  end.

(** ** The loops are their bodies *)

Fixpoint client_bodies (s : server) (n : nat) (cp : ptr) (cd : clientData_t) (evs : list poll_event)
    (bufferString : aesd_temperary_buffer) : SM D (bool * aesd_temperary_buffer) :=
  match evs with
  | [] => mret (false, bufferString)
  | ev :: evs' =>
      res ← client_body s n cp cd ev bufferString;
      if (res.1 : bool) then mret (true, res.2) else client_bodies s n cp cd evs' res.2
  end.

Lemma client_bodies_loop s n cp cd evs b w :
  (res ← handler_loop s n (newSockFd cd) evs b;
   let '(stop, b) := res in
   if (stop : bool) then _ ← cleanupClientHandler cp cd (Some b); mret (true, b) else mret (false, b)) w =
  client_bodies s n cp cd evs b w.
Proof.
  revert b w. induction evs as [|ev evs IH]; intros b w; cbn [handler_loop client_bodies]; [done|].
  unfold client_body. rewrite !run_bind.
  destruct (handler_iteration s n (newSockFd cd) ev b w) as [[stop b1] w1| | |]; [|done..].
  destruct stop; cbn [fst snd].
  - unfold run at 1. cbn [mret SM_ret run_prog]. rewrite !run_bind.
    by destruct (cleanupClientHandler cp cd (Some b1) w1).
  - specialize (IH b1 w1). rewrite run_bind in IH. by rewrite IH.
Qed.

(** A client's thread is its bodies one after the other: running
    [clientHandler] alone is the same as running [client_body] for each event
    until one of them ends the thread. *)
Theorem clientHandler_is_bodies s n cp cd evs w :
  clientHandler s n cp cd evs w =
    (clientData ← deref_client cp cd;
     client_bodies s n cp clientData evs (aesd_temperary_buffer_init (Temporary NULL 0))) w.
Proof.
  unfold clientHandler, deref_client. rewrite !run_bind.
  destruct (on_heap (get_block cp) w) as [b w1| | |]; [|done..]. unfold run at 1 3. cbn [mret SM_ret run_prog].
  apply client_bodies_loop.
Qed.

(** ** The discipline *)

Lemma quiet_repeat_io n e i : (forall j, e j <> Locked /\ e j <> Unlocked) -> quiet (repeat_io n e i : SM D ()).
Proof.
  intros He. revert i. induction n as [|n IH]; intros i; cbn [repeat_io]; [solve_quiet|].
  apply quiet_bind; [by apply quiet_emit; apply He|intros _; apply IH].
Qed.

Lemma cleanupMain_quiet s : quiet (cleanupMain s : SM D ()).
Proof. unfold cleanupMain. solve_quiet; by apply quiet_repeat_io. Qed.

Lemma logAndExit_ending {A} s msg code : ending (logAndExit s msg code : SM D A).
Proof.
  unfold logAndExit. destruct (_ <=? _); [apply ending_exit|].
  apply ending_bind; [apply cleanupMain_quiet|intros _; apply ending_exit].
Qed.

#[local] Hint Resolve cleanupMain_quiet : phased.
#[local] Hint Resolve inside_ending logAndExit_ending : phased.

Lemma write_piece_inside n data : inside (write_piece n data : SM D bool).
Proof. revert data. induction n as [|n IH]; intros data; cbn [write_piece]; solve_inside. Qed.

Lemma write_pieces_inside ps : inside (write_pieces ps : SM D ()).
Proof.
  induction ps as [|p ps IH]; cbn [write_pieces]; [solve_inside|].
  apply inside_bind; [apply write_piece_inside|intros []; [apply IH|solve_inside]].
Qed.

Lemma fread_loop_inside n want f : inside (fread_loop n want f : SM D _).
Proof.
  revert want f. induction n as [|n IH]; intros want f; cbn [fread_loop]; solve_inside.
Qed.

Lemma send_file_inside s n sock f : inside (send_file s n sock f : SM D ()).
Proof.
  revert f. induction n as [|n IH]; intros f; cbn [send_file]; [solve_inside|].
  apply inside_bind; [apply fread_loop_inside|]. intros [data f']. solve_inside.
Qed.

#[local] Hint Resolve write_pieces_inside send_file_inside : phased.

Lemma seek_and_send_inside s n sock t cmd : inside (seek_and_send s n sock t cmd : SM D ()).
Proof.
  unfold seek_and_send. apply inside_bind; [apply inside_open|intros opened]. destruct (negb opened); [solve_inside|].
  apply inside_bind; [apply inside_seekto|intros res]. destruct (res.1 <? 0); [|unfold fclose_file; solve_inside].
  unfold inside. apply phased_bind, phased_unlock.
  apply phased_bind, phased_quiet; [solve_quiet|]. intros _. apply logAndExit_ending.
Qed.

Lemma write_and_send_inside s n sock t : inside (write_and_send s n sock t : SM D ()).
Proof. unfold write_and_send, fclose_file. solve_inside. Qed.

(** From the lock to the unlock. *)
Lemma process_packet_phased s n sock t : phased Before (process_packet s n sock t : SM D ()) (fun _ ph => ph = After).
Proof.
  unfold process_packet. apply phased_bind, phased_lock, phased_bind, phased_quiet; [solve_quiet|].
  intros res. apply phased_bind. eapply phased_mono.
  - instantiate (1 := fun _ ph => ph = Inside). destruct (res.1); [apply seek_and_send_inside|apply write_and_send_inside].
  - intros _ ? ->. by apply phased_unlock.
Qed.

Lemma process_packet_disciplined s n sock t : disciplined (process_packet s n sock t : SM D ()).
Proof. eapply phased_mono; [apply process_packet_phased|]. by intros _ ? ->. Qed.

#[local] Hint Resolve disciplined_ending process_packet_disciplined : phased.

Lemma receive_disciplined s n sock buffer r t : disciplined (receive s n sock buffer r t : SM D _).
Proof. unfold receive. solve_disciplined. Qed.

Lemma handler_iteration_disciplined s n sock ev t : disciplined (handler_iteration s n sock ev t : SM D _).
Proof. unfold handler_iteration. solve_disciplined; apply receive_disciplined. Qed.

Lemma cleanupClientHandler_quiet p c b : quiet (cleanupClientHandler p c b : SM D ()).
Proof. unfold cleanupClientHandler, deref_client. solve_quiet. Qed.

Lemma timestamp_iteration_disciplined ev : disciplined (timestamp_iteration ev : SM D bool).
Proof.
  destruct ev as [|[t|]| |]; cbn [timestamp_iteration]; [solve_disciplined| |solve_disciplined..].
  destruct (final_line t) as [l|]; [|solve_disciplined]. apply phased_bind, phased_lock, phased_bind.
  eapply phased_mono; [apply inside_open|]. intros opened ? ->. apply phased_bind.
  apply (phased_mono _ _ (fun _ ph => ph = Inside)); [|intros _ ? ->; by apply phased_bind, phased_unlock].
  destruct opened; unfold fclose_file; [|done].
  apply inside_bind; [apply write_pieces_inside|intros _; solve_inside].
Qed.

Lemma thread_body_disciplined s n i ev st : disciplined (thread_body s n i ev st).
Proof.
  destruct st as [cp cd b|], ev as [ev|ev]; cbn [thread_body]; [|solve_disciplined..|].
  - apply disciplined_before; [|intros res; solve_quiet]. unfold client_body.
    apply disciplined_before; [apply handler_iteration_disciplined|]. intros [stop b']. destruct stop; [|solve_quiet].
    apply quiet_bind; [apply cleanupClientHandler_quiet|solve_quiet].
  - apply disciplined_before; [apply timestamp_iteration_disciplined|solve_quiet].
Qed.
End threads.
