(* ===== verification/ThreadFacts.v ===== *)
(** * The server's threads against their specification

    [implements u t]: the thread [u] of the system is where the thread [t] of
    the specification is, and its memory is accounted for.  One body, run
    alone, keeps this and does to the device what one event of the
    specification does ([thread_body_serves]). *)

From Stdlib.Strings Require Import String.
From S2P Require Import Prelude CInt CMem Footprint Common CircularBuffer TemporaryBuffer.
From S2P Require Import Ring CircularFacts CharDevice DeviceFacts WriteFacts DeviceSpec.
From S2P Require Import DeviceInterface Process CString SeekCommand Writer SocketServer SocketFacts HandlerFacts SocketProps.
From S2P Require Import Timestamp Concrete Concurrency ServeSpec ServerThreads.
Import TemporaryBuffer.Server.

(** Events of the clock whose time is one [localtime] can give. *)
Definition clock_ok (ev : clock_event) : Prop :=
  match ev with ClockTimeout None => False | ClockTimeout (Some t) => tm_ok t | _ => True end.

Definition not_join (e : io_event) : Prop := match e with Joined _ => False | _ => True end.

Lemma device_events_no_join sock T : Forall (device_event sock) T -> Forall not_join T.
Proof. intros HT. eapply Forall_impl; [exact HT|]. by intros []. Qed.

Section client.
Context {C : Type} `{DeviceModel C} `{Streams}.
Implicit Types (c : C) (p : option (list byte)).

Lemma client_step_event sock p c data stop p' c' T :
  client_step sock p c data stop p' c' T ->
  let ev := OfClient (PollRecv (Some data)) in
  stop = ends ev /\ p' = pending_after p ev /\ c' = contents_after p c ev /\ sent T = answer p c ev /\
  Forall not_join T.
Proof.
  intros Hstep. cbv zeta. rewrite client_contents.
  pose proof (client_step_next _ _ _ _ _ _ _ _ Hstep) as Hp. destruct (client_step_contents _ _ _ _ _ _ _ _ Hstep) as [Hc Hs].
  split_and!; [exact Hs|exact Hp|exact Hc|..]; destruct Hstep as [|data Hne Hnl|data T Hne Hnl Hok HT Hsent]; cbn [answer request].
  - by rewrite newline_seen_nil.
  - by rewrite Hnl.
  - by rewrite Hnl, sent_locked.
  - by repeat constructor.
  - done.
  - constructor; [done|]. apply Forall_app. split; [by eapply device_events_no_join|by repeat constructor].
Qed.

(** One event of a client's run, as the specification has it. *)
Lemma client_run_event sock p c ev stop p' c' T k :
  client_run sock p c [ev] stop p' c' T k ->
  stop = ends (OfClient ev) /\ p' = pending_after p (OfClient ev) /\ c' = contents_after p c (OfClient ev) /\
  sent T = answer p c (OfClient ev) /\ Forall not_join T.
Proof.
  intros Hrun.
  inversion Hrun as [|? ? ? ? Hev|? ? ? ? ? ? ? ? Hrest|? ? ? ? ? ? ? Hstep|? ? ? ? ? ? T1 ? ? ? T2 ? Hstep Hrest]; subst.
  - by destruct Hev as [-> | ->].
  - by inversion Hrest; subst.
  - by apply client_step_event in Hstep.
  - inversion Hrest; subst. rewrite app_nil_r. by apply client_step_event in Hstep.
Qed.
End client.

Section bodies.
Context {D C : Type} `{CharDeviceLaws D C} `{Allocator} `{Streams}.
Context (srv : server) (n : nat).
Context (Hopen : forall k, fopen_ok k = true) (Hrel : reliable) (Hbuf : BUFFER_SIZE <= alloc_max).
Implicit Types (w : world D) (c : C) (p : option (list byte)) (t : thread_spec) (h : heap).
Implicit Types (u : @tstate D _ _ local thread_event).

(** What a thread that waits for its next event owns, and expects. *)
Definition local_ok (evs : list thread_event) p h (st : local) : Prop :=
  match st with
  | ClientThread cp cd b => exists es B k,
      evs = OfClient <$> es /\ own_ok cp client_block /\ 0 < newSockFd cd /\
      tmp_models b p /\ lost k B /\ holds h (tmp_chunks b p ++ own cp client_block ++ B)
  | ClockThread => p = None /\ exists es, evs = OfClock <$> es /\ Forall clock_ok es
  end.

(** What it leaves. *)
Definition left_ok h (st : local) : Prop :=
  match st with ClientThread _ _ _ => exists B k, lost k B /\ holds h B | ClockThread => True end.

Record implements u t : Prop := {
  im_todo : todo u = sp_todo t;
  im_answers : sent (ttrace u) = answers t;
  im_no_join : Forall not_join (ttrace u);
  im_at : match at_ u with
          | Idle st => sp_ended t = false /\ local_ok (todo u) (sp_pending t) (theap u) st
          | Ended st => sp_ended t = true /\ left_ok (theap u) st
          | Busy _ => False
          end
}.

(** Room for what a thread may bring. *)
Definition room_for (b : nat) c : Prop :=
  Z.of_nat (model_hidden c + b) <= dev_limit /\ text_size c + Z.of_nat (model_hidden c + b) < Z.of_nat n /\
  Z.of_nat b <= alloc_max.

Lemma lost_app k1 B1 k2 B2 : lost k1 B1 -> lost k2 B2 -> lost (k1 + k2) (B1 ++ B2).
Proof. intros [<- H1'] [<- H2']. split; [apply length_app|by apply Forall_app]. Qed.

(** One iteration of a client's loop. *)
Lemma handler_iteration_swp sock ev b p w c L :
  event_ok p c ev = true -> tmp_models b p -> holds (uheap w) (tmp_chunks b p ++ L) -> dev_abs (device_of w) c ->
  room_for (length (pending p) + received_bytes [ev]) c ->
  swp (handler_iteration srv n sock ev b)
      (fun res w' => exists p' c' T k B, client_run sock p c [ev] res.1 p' c' T k /\
         tmp_models res.2 p' /\ lost k B /\ holds (uheap w') (B ++ tmp_chunks res.2 p' ++ L) /\
         dev_abs (device_of w') c' /\ trace w' = trace w ++ T) no_exit w.
Proof.
  intros Hin Ht Hh Habs (Hlim & Hn & Hmax).
  assert (input_ok p c [ev] = true) as Hin1 by (cbn [input_ok]; by rewrite Hin, orb_true_r).
  pose proof (handler_loop_swp srv sock n [ev] b p w c L Hopen Hin1 Ht Hh Habs ltac:(lia) ltac:(lia)) as Hloop.
  unfold swp in *. cbn [handler_loop] in Hloop. rewrite run_bind in Hloop.
  destruct (handler_iteration srv n sock ev b w) as [[stop b'] w'|code w'| |]; [by destruct stop| |done..].
  by apply (no_memory_reliable _ _ _ _ _ _ _ _ Hrel Hmax Hbuf) in Hloop.
Qed.

Lemma received_one ev : received_bytes [ev] = submitted (OfClient ev).
Proof. destruct ev as [| |[data|]|]; simpl; lia. Qed.

(** A client's body. *)
Lemma client_body_serves cp cd ev es b h (d : D) T t c :
  implements (Tstate (OfClient ev :: (OfClient <$> es)) (Idle (ClientThread cp cd b)) h T) t ->
  sp_todo t = OfClient ev :: (OfClient <$> es) -> event_ok (sp_pending t) c ev = true ->
  dev_abs d c -> room_for (length (pending (sp_pending t)) + submitted (OfClient ev)) c ->
  swp (client_body srv n cp cd ev b)
      (fun res w' => implements (after_body (OfClient <$> es) (res.1, ClientThread cp cd res.2) w')
                       (after_event t c (OfClient ev) (OfClient <$> es)) /\
                     dev_abs (device_of w') (contents_after (sp_pending t) c (OfClient ev)))
      no_exit (World h d T).
Proof.
  intros [_ Hans Hnj [Hend Hlocal]] Htodo Hin Habs Hroom. cbn [todo theap ttrace at_] in *.
  destruct Hlocal as (es0 & B0 & k0 & Ees & Hcp & Hsock & Hb & HB0 & Hh).
  unfold client_body. apply swp_bind. rewrite <- received_one in Hroom.
  eapply swp_mono; [eapply (handler_iteration_swp (newSockFd cd) ev b (sp_pending t) _ c); done| |done].
  intros [stop b'] w1 (p' & c' & T' & k & B & Hrun & Hb' & HB & Hh' & Habs' & Htr). cbn [fst snd uheap device_of trace] in *.
  apply client_run_event in Hrun as (-> & -> & -> & Hsent & HT').
  assert (sent (trace w1) = answers t ++ answer (sp_pending t) c (OfClient ev)) as Hans1 by (by rewrite Htr, sent_app, Hans, Hsent).
  assert (Forall not_join (trace w1)) as Hnj1 by (rewrite Htr; by apply Forall_app).
  pose proof (lost_app _ _ _ _ HB HB0) as HBB. destruct (ends (OfClient ev)) eqn:Eend.
  - assert (holds (uheap w1) (tmp_chunks b' (pending_after (sp_pending t) (OfClient ev)) ++ own cp client_block ++ B ++ B0))
      as Hh1 by holds_perm Hh'.
    apply swp_bind. eapply swp_mono; [exact (cleanupClientHandler_swp cp cd b' _ w1 _ Hcp Hsock Hb' Hh1)| |done].
    intros _ w2 (Hh2 & Hd2 & Htr2). apply swp_ret.
    rewrite Hd2. split; [|done]. split; cbn [after_body after_event todo ttrace theap at_ fst snd sp_todo answers sp_ended].
    + done.
    + rewrite Htr2, sent_app, Hans1. by rewrite app_nil_r.
    + rewrite Htr2. apply Forall_app. by split; [|repeat constructor].
    + split; [exact Eend|]. by exists (B ++ B0), (k + k0)%nat.
  - apply swp_ret. split; [|done]. split; cbn [after_body after_event todo ttrace theap at_ fst snd sp_todo answers sp_ended].
    + done.
    + done.
    + done.
    + split; [exact Eend|]. cbn [local_ok sp_pending]. exists es, (B ++ B0), (k + k0)%nat.
      split_and!; [done..|]. holds_perm Hh'.
Qed.

(** The clock's. *)
Lemma timestamp_iteration_serves ev es h (d : D) T t c :
  implements (Tstate (OfClock ev :: (OfClock <$> es)) (Idle ClockThread) h T) t ->
  sp_pending t = None -> clock_ok ev -> Forall clock_ok es ->
  dev_abs d c -> room_for (submitted (OfClock ev)) c ->
  swp (timestamp_iteration ev)
      (fun stop w' => implements (after_body (OfClock <$> es) (stop, ClockThread) w')
                        (after_event t c (OfClock ev) (OfClock <$> es)) /\
                      dev_abs (device_of w') (contents_after None c (OfClock ev)))
      no_exit (World h d T).
Proof.
  intros [_ Hans Hnj [Hend _]] Hp Hev Hes Habs (Hlim & _). cbn [todo theap ttrace at_] in *.
  assert (forall stop w' T', trace w' = T ++ T' -> sent T' = [] -> Forall not_join T' ->
    stop = ends (OfClock ev) -> answer None c (OfClock ev) = [] ->
    implements (after_body (OfClock <$> es) (stop, ClockThread) w') (after_event t c (OfClock ev) (OfClock <$> es))) as Hdone.
  { intros stop w' T' Htr Hsent HT' -> Hno. split;
      cbn [after_body after_event todo ttrace theap at_ fst snd sp_todo answers sp_ended sp_pending]; [done|..].
    - by rewrite Htr, sent_app, Hans, Hp, Hno, Hsent.
    - rewrite Htr. by apply Forall_app.
    - destruct (ends (OfClock ev)); [done|]. split; [done|]. split; [by destruct ev as [|[]| |]|]. by exists es. }
  destruct ev as [|[tm_info|]| |]; [| |done|..];
    try (apply swp_ret; split; [by apply (Hdone _ _ []); rewrite ?app_nil_r|exact Habs]).
  cbn [timestamp_iteration]. destruct (final_line_ok tm_info Hev) as (s & _ & Ef & _).
  unfold contents_after, submitted, packet in *. rewrite Ef in Hlim |- *. set (line := bytes "timestamp:" ++ s ++ nl) in *. clearbody line.
  apply swp_bind, swp_emit, swp_bind. eapply swp_mono; [by apply (fopen_spec 0)| |done].
  intros ? w1 (-> & Hd1 & Hio1). cbn [uheap device_of trace default] in *.
  apply swp_bind, swp_bind. eapply swp_mono; [apply (write_pieces_spec 0 _ w1 c)| |done].
  { by rewrite Hd1. }
  { rewrite stdio_chunks_concat. unfold default, id in Hlim. lia. }
  intros _ w2 [Habs2 Hio2]. eapply swp_mono; [by apply (fclose_spec 0)| |done]. intros _ w3 [Hd3 Hio3].
  apply swp_bind, swp_emit, swp_ret. cbn [uheap device_of trace].
  split; [|by rewrite Hd3].
  destruct (io_rel_trans _ _ _ _ _ _ Hio1 (io_rel_trans _ _ _ _ _ _ Hio2 Hio3)) as [_ (U & Htr & HU & Hsent)].
  cbn [trace] in Htr. apply (Hdone _ _ (Locked :: U ++ [Unlocked])).
  - cbn [trace]. by rewrite Htr, <- !app_assoc.
  - by rewrite sent_locked, Hsent.
  - constructor; [done|]. apply Forall_app. split; [by eapply device_events_no_join|by repeat constructor].
  - done.
  - done.
Qed.

(** A body run alone does what an event of the specification does. *)
Lemma thread_body_serves i ev evs st h (d : D) T t c :
  implements (Tstate (ev :: evs) (Idle st) h T) t -> dev_abs d c -> room_for (backlog t) c -> event_fits t c ev = true ->
  exists res w, thread_body srv n i ev st (World h d T) = Returns res w /\
    implements (after_body evs res w) (after_event t c ev evs) /\
    dev_abs (device_of w) (contents_after (sp_pending t) c ev).
Proof.
  intros Him Habs Hroom Hfit. pose proof Him as [Htodo _ _ [_ Hlocal]]. cbn [todo at_ theap] in *.
  unfold backlog in Hroom. rewrite <- Htodo in Hroom. simpl in Hroom.
  assert (room_for (length (pending (sp_pending t)) + submitted ev) c) as Hroom1 by (unfold room_for in *; lia).
  destruct st as [cp cd b|].
  - destruct Hlocal as (es & B & k & Hes & _). destruct es as [|e es]; [done|]. simplify_eq/=.
    destruct (swp_returns _ _ _ (client_body_serves cp cd e es b h d T t c Him (eq_sym Htodo) Hfit Habs Hroom1))
      as (res & w & E & HQ).
    eexists _, w. cbn [thread_body]. rewrite (run_returns _ _ _ _ _ E). split; [done|exact HQ].
  - destruct Hlocal as (Hp & es & Hes & Hok). destruct es as [|e es]; [done|]. simplify_eq/=.
    apply Forall_cons in Hok as [He Hok]. rewrite Hp in Hroom1 |- *.
    destruct (swp_returns _ _ _ (timestamp_iteration_serves e es h d T t c Him Hp He Hok Habs Hroom1))
      as (stop & w & E & HQ).
    eexists _, w. cbn [thread_body]. rewrite (run_returns _ _ _ _ _ E). split; [done|exact HQ].
Qed.

(** ** The invariant of the atomic system *)

(** The system is where the specification is. *)
Record serving (a : @system D _ _ local thread_event) (x : @spec C) : Prop := {
  sv_device : dev_abs (shared a) (held x);
  sv_threads : Forall2 implements (tasks a) (threads x);
  sv_owner : owner a = None;
  sv_room : room_for (load x) (held x);
  sv_manageable : manageable x
}.

(** The step of a thread that has an event is the step of the specification. *)
Lemma serving_step a x i u ev evs st :
  serving a x -> tasks a !! i = Some u -> todo u = ev :: evs -> at_ u = Idle st ->
  exists a' x', atomic_step (thread_body srv n) a i = Some a' /\ serve_step x i = Some x' /\ serving a' x'.
Proof.
  intros [Hdev Hall Ho Hroom Hman] Hu Htodo Hat.
  destruct (Forall2_lookup_l _ _ _ _ _ Hall Hu) as (t & Ht & Him).
  assert (backlog t <= load x)%nat as Hle.
  { apply sum_list_with_in. by eapply list_elem_of_lookup_2. }
  assert (room_for (backlog t) (held x)) as Hroom1 by (unfold room_for in *; lia).
  assert (u = Tstate (ev :: evs) (Idle st) (theap u) (ttrace u)) as Eu by (destruct u; simpl in *; by subst).
  rewrite Eu in Him. pose proof (im_todo _ _ Him) as Hto. destruct (im_at _ _ Him) as [Hend _]. cbn [todo] in Hto.
  destruct (thread_body_serves i ev evs st _ (shared a) _ t (held x) Him Hdev Hroom1
    (manageable_next x i t ev evs Hman Ht Hend (eq_sym Hto))) as (res & w & E & Him' & Hdev').
  assert (serve_step x i = Some (Spec (<[i := after_event t (held x) ev evs]> (threads x))
                                   (contents_after (sp_pending t) (held x) ev))) as Es.
  { unfold serve_step. rewrite Ht. simpl. by rewrite Hend, <- Hto. }
  eexists _, _. split; [|split; [exact Es|]].
  - unfold atomic_step. rewrite Hu. simpl. by rewrite Hat, Htodo, E.
  - pose proof (serve_step_size _ _ _ Es) as Hsz. split; cbn [shared tasks owner held threads] in *; [done| |done| |by eapply manageable_step].
    + by apply Forall2_insert.
    + unfold room_for in *. lia.
Qed.

(** Every state of the atomic system is reached by the specification too. *)
Definition served_by (x0 : @spec C) (a : @system D _ _ local thread_event) : Prop :=
  exists order x, serve x0 order = Some x /\ serving a x.

Lemma served_by_step x0 a i u ev evs st :
  served_by x0 a -> tasks a !! i = Some u -> todo u = ev :: evs -> at_ u = Idle st ->
  exists a', atomic_step (thread_body srv n) a i = Some a' /\ served_by x0 a'.
Proof.
  intros (order & x & E & Hs) Hu Htodo Hat.
  destruct (serving_step a x i u ev evs st Hs Hu Htodo Hat) as (a' & x' & Ea & Ex & Hs').
  exists a'. split; [done|]. exists (order ++ [i]), x'. split; [|done].
  rewrite (serve_app _ _ _ _ E). simpl. by rewrite Ex.
Qed.

Lemma served_by_no_join x0 a i u slot : served_by x0 a -> tasks a !! i = Some u -> Joined slot ∉ ttrace u.
Proof.
  intros (order & x & _ & Hs) Hu Hin. destruct (Forall2_lookup_l _ _ _ _ _ (sv_threads _ _ Hs) Hu) as (t & _ & Him).
  by apply (proj1 (Forall_forall _ _) (im_no_join _ _ Him)) in Hin.
Qed.

Lemma serving_served a x : serving a x -> served_by x a.
Proof. intros Hs. by exists [], x. Qed.

Lemma serving_quiescent a x : serving a x -> quiescent a.
Proof.
  intros Hs. split; [|apply Hs]. apply Forall_lookup_2. intros i u Hu.
  destruct (Forall2_lookup_l _ _ _ _ _ (sv_threads _ _ Hs) Hu) as (t & _ & Him).
  pose proof (im_at _ _ Him) as Hat. by destruct (at_ u).
Qed.
End bodies.
