(* ===== verification/ConcurrentProps.v ===== *)
(** * Properties of the server's threads together

    Any number of clients' threads and the timestamp thread, their calls
    interleaved in any way: what they do together is what the specification of
    ServeSpec does in some order of events; none of them fails, none touches
    the device without the mutex, and they all come to an end. *)

From Stdlib.Strings Require Import String.
From S2P Require Import Prelude CInt CMem Footprint Common CircularBuffer TemporaryBuffer.
From S2P Require Import Ring CircularFacts CharDevice DeviceFacts WriteFacts DeviceSpec Scenario Concrete.
From S2P Require Import DeviceInterface DriverDevice Process CString SeekCommand Writer SocketServer SocketFacts HandlerFacts SocketProps.
From S2P Require Import FileDevice Timestamp Concurrency ConcurrencyFacts ServeSpec ServerThreads ThreadFacts.
Import TemporaryBuffer.Server.

(** [serving n s x], the hypothesis of what follows, says that the state [s]
    is where the specification [x] is, that there is memory and room for what
    the clients may bring, and ([manageable]) that in no order of the events
    a client brings what the server does not survive: an error of [recv], a
    malformed seek command, or a seek that the device refuses at that time.
    [SocketProps] shows what those do.  Every [fopen] succeeds. *)

Section together.
Context {D C : Type} `{CharDeviceLaws D C} `{Allocator} `{Streams}.
Context (srv : server) (n : nat).
Context (Hopen : forall k, fopen_ok k = true) (Hrel : reliable) (Hbuf : BUFFER_SIZE <= alloc_max).
Implicit Types (s : @system D _ _ local thread_event) (x : @spec C).


Lemma Inv_step x0 a i t ev evs st :
  served_by n x0 a -> tasks a !! i = Some t -> todo t = ev :: evs -> at_ t = Idle st ->
  exists a', atomic_step (thread_body srv n) a i = Some a' /\ served_by n x0 a'.
Proof. by apply served_by_step. Qed.

(** The state of the specification that a reachable state belongs to. *)
Lemma reachable_related s x sched s' :
  serving n s x -> run_steps (thread_body srv n) s sched = Some s' -> exists a, served_by n x a /\ related (thread_body srv n) a s'.
Proof.
  intros Hs E.
  destruct (steps_keep (thread_body srv n) (thread_body_disciplined srv n) (served_by n x) (Inv_step x) s s sched s') as (o & a & _ & Ha & Hr).
  - by apply serving_served.
  - apply related_refl. by eapply serving_quiescent.
  - done.
  - by exists a.
Qed.

(** C7: the threads are served one after the other: while the clients' events
    are manageable, whatever the scheduler does, a state between bodies is one the specification reaches by handling
    whole events in some order.  The device holds what the specification
    holds, every client has been sent the specification's answers, and every
    thread's memory is accounted for. *)
Theorem threads_are_serialised s x sched s' :
  serving n s x -> run_steps (thread_body srv n) s sched = Some s' -> quiescent s' ->
  exists order x', serve x order = Some x' /\ dev_abs (shared s') (held x') /\ Forall2 implements (tasks s') (threads x').
Proof.
  intros Hs E Hq. destruct (reachable_related s x sched s' Hs E) as (a & (order & x' & Ex & Hx) & Hr).
  rewrite <- (related_quiescent _ _ _ Hr Hq). exists order, x'. split; [done|]. split; apply Hx.
Qed.

(** C8: while no order of the clients' events brings an error of [recv], a
    malformed command or a refused seek ([serving]), no thread fails: in every
    state reachable from there, a thread inside its program can make its next
    call, which neither has undefined behaviour nor ends the process nor
    exceeds a loop bound, or it waits for [fileMutex], which another thread
    holds. *)
Theorem threads_never_fail s x sched s' i t p :
  serving n s x -> run_steps (thread_body srv n) s sched = Some s' -> tasks s' !! i = Some t -> at_ t = Busy p ->
  (exists s'', step_task (thread_body srv n) s' i = Some s'') \/
  (exists k j, p = Call (Event Locked) k /\ owner s' = Some j /\ j <> i).
Proof.
  intros Hs E Ht Hp. destruct (reachable_related s x sched s' Hs E) as (a & Ha & Hr).
  eapply (busy_steps (thread_body srv n) (served_by n x)); [apply Inv_step|apply served_by_no_join|done..].
Qed.

(** C12: the device is used under the lock only: in every state reachable
    while the clients' events are manageable, a thread about to open, write, read or seek the device is the owner of
    [fileMutex]; so two never do. *)
Theorem device_used_under_lock s x sched s' i t X (c : call X) k :
  serving n s x -> run_steps (thread_body srv n) s sched = Some s' -> tasks s' !! i = Some t -> at_ t = Busy (Call c k) -> ~ silent c ->
  owner s' = Some i.
Proof.
  intros Hs E Ht Hp Hc. destruct (reachable_related s x sched s' Hs E) as (a & Ha & Hr).
  by eapply (device_call_locked (thread_body srv n) (served_by n x)); [apply Inv_step|..].
Qed.

(** C9: while no order of the clients' events brings an error of [recv], a
    malformed command or a refused seek ([serving]), the threads come to an
    end however the scheduler chooses: a state in which no thread can make a
    step is one in which every thread has handled all its events or ended, so
    that no thread waits for ever for the mutex; and there is no infinite
    execution, the events being finitely many and the loops having bounds,
    which are never reached.  (A read that fails under the mutex is another
    matter: [ExitUnderLock].) *)
Theorem threads_terminate s x :
  serving n s x ->
  Acc (fun s2 s1 => exists i, step_task (thread_body srv n) s1 i = Some s2) s /\
  forall sched s', run_steps (thread_body srv n) s sched = Some s' ->
    (forall i, step_task (thread_body srv n) s' i = None) -> Forall finished_task (tasks s').
Proof.
  intros Hs. split; [apply steps_acc|]. intros sched s' E Hno.
  destruct (reachable_related s x sched s' Hs E) as (a & Ha & Hr).
  eapply (blocked_finished (thread_body srv n) (served_by n x)); [apply Inv_step|apply served_by_no_join|done..].
Qed.
End together.

(** ** The build on the file *)

Section on_file.
Context `{Allocator} `{Streams} (srv : server) (n : nat).
Context (Hopen : forall k, fopen_ok k = true) (Hrel : reliable) (Hbuf : BUFFER_SIZE <= alloc_max).

Lemma file_foldl ds (f : file_state) : foldl (fun c d => store d c) f ds = f ++ concat ds.
Proof.
  revert f. induction ds as [|d ds IH]; intros f; simpl; [by rewrite app_nil_r|].
  rewrite IH. unfold store. simpl. change (foldl (fun c w => c ++ w) f (stdio_chunks d)) with (foldl app f (stdio_chunks d)).
  by rewrite append_pieces, stdio_chunks_concat, <- app_assoc.
Qed.

(** C21: nothing on the file is ever torn: while the clients' events are
    manageable, and so hold no seek command, between bodies the file holds what
    it held at the beginning and whole packets, one after the other, each a
    line of the clock or all that a client had accumulated with its newline;
    they are those of the order in which the threads were served. *)
Theorem file_holds_whole_packets (s s' : @system file_state _ _ local thread_event) (x : @spec file_state) sched :
  serving n s x -> run_steps (thread_body srv n) s sched = Some s' -> quiescent s' ->
  exists order x', serve x order = Some x' /\ Forall2 implements (tasks s') (threads x') /\
    shared s' = shared s ++ concat (submissions x order) /\ Forall whole_packet (submissions x order).
Proof.
  intros Hs E Hq. destruct (reachable_related srv n Hopen Hrel Hbuf s x sched s' Hs E) as (a & (order & x' & Ex & Hx) & Hr).
  rewrite <- (related_quiescent _ _ _ Hr Hq). exists order, x'. split_and!; [done|apply Hx| |apply submissions_whole].
  destruct Hs as [Hd _ _ _], Hx as [Hd' _ _ _]. simpl in Hd, Hd'. rewrite Hd, Hd', (serve_contents _ _ _ Ex).
  apply file_foldl.
Qed.
End on_file.

(** ** Witnesses

    Two clients on the driver as it is after loading; and a client and the
    clock on the file.  The threads take turns, call by call. *)

#[local] Existing Instance one_write.

Definition client_task {D} {HD : CharDevice D} (cd : clientData_t) (evs : list poll_event) :
    @tstate D HD one_write local thread_event :=
  Tstate (OfClient <$> evs) (Idle (ClientThread (Ptr 1) cd (Temporary NULL 0))) client_heap [].

Definition client_spec (evs : list poll_event) : thread_spec := ThreadSpec (OfClient <$> evs) None false [].

Lemma client_task_implements {D} {HD : CharDevice D} cd evs :
  0 < newSockFd cd ->
  @implements D HD malloc one_write (client_task cd evs) (client_spec evs).
Proof.
  intros Hs. split; [done|done|constructor|]. split; [done|]. exists evs, [], O.
  split_and!; try done. apply client_heap_holds.
Qed.

Definition client8 : clientData_t := ClientData 8 16 (bytes "0123456789abcdef").

Definition driver_body := @thread_body driver_state (driver_device kmalloc) malloc one_write srv0 2000.

(** Two lines and a seek into one of them. *)
Definition seek_run : list poll_event :=
  [PollRecv (Some short_line); PollRecv (Some short_line); PollRecv (Some (format_command (Seekto 1 0))); PollRecv (Some [])].

Definition two_clients : @system driver_state (driver_device kmalloc) one_write local thread_event :=
  System [client_task client7 seek_run; client_task client8 one_client_run] (loaded_dev, loaded_heap) None.

Definition two_specs : spec := Spec [client_spec seek_run; client_spec one_client_run] nothing_stored.

Lemma two_clients_serving : @serving _ _ _ _ served malloc one_write 2000 two_clients two_specs.
Proof.
  split; [exact loaded_abs| |done| |].
  - repeat constructor; by apply client_task_implements.
  - unfold room_for. by vm_compute.
  - apply (try_orders_manageable 8). by vm_compute.
Qed.

(** A state that taking turns reaches, with a property that can be computed. *)
Lemma run_turns {D} {HD : CharDevice D} (body : nat -> thread_event -> local -> @SM D HD one_write (bool * local))
    s0 fuel (check : system -> bool) :
  match run_steps body s0 (round_robin body fuel 0 s0) with Some s' => check s' | None => false end = true ->
  exists s', run_steps body s0 (round_robin body fuel 0 s0) = Some s' /\ check s' = true.
Proof. destruct (run_steps _ _ _) as [s'|]; [|done]. intros Hq. by exists s'. Qed.

Definition between_bodies {D} {HD : CharDevice D} (s : @system D HD one_write local thread_event) : bool :=
  bool_decide (quiescent s).

(** Is thread [i] about to make a call that [ok] accepts? *)
Definition calling {D} {HD : CharDevice D} (ok : forall X, call X -> bool) (i : nat)
    (s : @system D HD one_write local thread_event) : bool :=
  match tasks s !! i with
  | Some (Tstate _ (Busy (Call c _)) _ _) => ok _ c
  | _ => false
  end.

Lemma calling_spec {D} {HD : CharDevice D} (ok : forall X, call X -> bool) i (s : @system D HD one_write local thread_event) :
  calling ok i s = true ->
  exists t X (c : call X) k, tasks s !! i = Some t /\ at_ t = Busy (Call c k) /\ ok X c = true.
Proof.
  unfold calling. destruct (tasks s !! i) as [t|]; [|done]. destruct t as [evs [st|[res|X c k]|st] h T]; try done.
  intros Hc. by eexists _, X, c, k.
Qed.

Definition is_lock X (c : call X) : bool := match c with Event Locked => true | _ => false end.
Definition is_write X (c : call X) : bool := match c with Write _ => true | _ => false end.

Lemma threads_are_serialised_witness :
  exists s' order x', run_steps driver_body two_clients (round_robin driver_body 300 0 two_clients) = Some s' /\
    quiescent s' /\ serve two_specs order = Some x' /\ @dev_abs _ _ _ _ served (shared s') (held x') /\
    Forall2 (@implements _ _ malloc _) (tasks s') (threads x').
Proof.
  destruct (run_turns driver_body two_clients 300 between_bodies) as (s' & E & Hq); [by vm_compute|].
  apply bool_decide_eq_true in Hq.
  destruct (@threads_are_serialised _ _ _ _ served malloc one_write srv0 2000 (fun _ => eq_refl) malloc_reliable
    ltac:(by vm_compute) two_clients two_specs _ s' two_clients_serving E Hq) as (order & x' & Ex & Hd & Hall).
  exists s', order, x'. exact (conj E (conj Hq (conj Ex (conj Hd Hall)))).
Defined.

(** In the middle: one client waits for the other's critical section. *)
Lemma threads_never_fail_witness :
  exists s' t X (c : call X) k, run_steps driver_body two_clients (round_robin driver_body 20 0 two_clients) = Some s' /\
    tasks s' !! 1%nat = Some t /\ at_ t = Busy (Call c k) /\ is_lock X c = true /\
    ((exists s'', step_task driver_body s' 1 = Some s'') \/
     (exists k' j, Call c k = Call (Event Locked) k' /\ owner s' = Some j /\ j <> 1%nat)).
Proof.
  destruct (run_turns driver_body two_clients 20 (calling is_lock 1)) as (s' & E & Hc); [by vm_compute|].
  destruct (calling_spec _ _ _ Hc) as (t & X & c & k & Ht & Hat & Hl). exists s', t, X, c, k.
  refine (conj E (conj Ht (conj Hat (conj Hl _)))).
  exact (@threads_never_fail _ _ _ _ served malloc one_write srv0 2000 (fun _ => eq_refl) malloc_reliable
    ltac:(by vm_compute) two_clients two_specs _ s' 1 t _ two_clients_serving E Ht Hat).
Defined.

Lemma device_used_under_lock_witness :
  exists s' t X (c : call X) k, run_steps driver_body two_clients (round_robin driver_body 23 0 two_clients) = Some s' /\
    tasks s' !! 0%nat = Some t /\ at_ t = Busy (Call c k) /\ is_write X c = true /\ owner s' = Some 0%nat.
Proof.
  destruct (run_turns driver_body two_clients 23 (calling is_write 0)) as (s' & E & Hc); [by vm_compute|].
  destruct (calling_spec _ _ _ Hc) as (t & X & c & k & Ht & Hat & Hl). exists s', t, X, c, k.
  refine (conj E (conj Ht (conj Hat (conj Hl _)))).
  refine (@device_used_under_lock _ _ _ _ served malloc one_write srv0 2000 (fun _ => eq_refl) malloc_reliable
    ltac:(by vm_compute) two_clients two_specs _ s' 0 t X c k two_clients_serving E Ht Hat _).
  clear - Hl. destruct c; simpl in *; try discriminate; by intros [].

Defined.

(** Two threads of which none can make a step. *)
Definition no_step {D} {HD : CharDevice D} (body : nat -> thread_event -> local -> @SM D HD one_write (bool * local))
    (s : @system D HD one_write local thread_event) : bool :=
  bool_decide (length (tasks s) = 2%nat) &&
  forallb (fun i => match step_task body s i with None => true | Some _ => false end) [0%nat; 1%nat].

Lemma no_step_spec {D} {HD : CharDevice D} (body : nat -> thread_event -> local -> @SM D HD one_write (bool * local)) s :
  no_step body s = true -> forall i, step_task body s i = None.
Proof.
  intros [Hlen Hno]%andb_true_iff i. apply bool_decide_eq_true in Hlen. simpl in Hno.
  destruct (step_task body s 0) eqn:E0; [done|]. destruct (step_task body s 1) eqn:E1; [done|].
  destruct i as [|[|i]]; [done|done|]. unfold step_task. by rewrite lookup_ge_None_2 by lia.
Qed.

Lemma threads_terminate_witness :
  Acc (fun s2 s1 => exists i, step_task driver_body s1 i = Some s2) two_clients /\
  exists s', run_steps driver_body two_clients (round_robin driver_body 300 0 two_clients) = Some s' /\
    Forall finished_task (tasks s').
Proof.
  destruct (run_turns driver_body two_clients 300 (no_step driver_body)) as (s' & E & Hno); [by vm_compute|].
  destruct (@threads_terminate _ _ _ _ served malloc one_write srv0 2000 (fun _ => eq_refl) malloc_reliable
    ltac:(by vm_compute) two_clients two_specs two_clients_serving) as [Hacc Hend].
  exact (conj Hacc (ex_intro _ s' (conj E (Hend _ s' E (no_step_spec driver_body s' Hno))))).
Defined.

(** The clock and a client on the file. *)
Definition file_body := @thread_body file_state file_device malloc one_write srv0 2000.

Definition clock_events : list clock_event := [ClockTimeout (Some some_time); ClockNothing; ClockPipe].

Definition with_clock : @system file_state file_device one_write local thread_event :=
  System [client_task client7 two_lines; Tstate (OfClock <$> clock_events) (Idle ClockThread) empty_heap []] [] None.

Definition with_clock_spec : spec :=
  Spec [client_spec two_lines; ThreadSpec (OfClock <$> clock_events) None false []] ([] : file_state).

Lemma with_clock_serving : @serving _ _ _ _ file_laws malloc one_write 2000 with_clock with_clock_spec.
Proof.
  split; [done| |done| |].
  - constructor; [by apply client_task_implements|]. repeat constructor.
    exists clock_events. split; [done|]. repeat constructor; vm_compute; discriminate.
  - unfold room_for. by vm_compute.
  - apply plain_manageable. repeat constructor; right; by vm_compute.
Qed.

Lemma file_holds_whole_packets_witness :
  exists s' order x', run_steps file_body with_clock (round_robin file_body 300 0 with_clock) = Some s' /\
    quiescent s' /\ serve with_clock_spec order = Some x' /\ Forall2 (@implements _ _ malloc _) (tasks s') (threads x') /\
    shared s' = [] ++ concat (submissions with_clock_spec order) /\ Forall whole_packet (submissions with_clock_spec order).
Proof.
  destruct (run_turns file_body with_clock 300 between_bodies) as (s' & E & Hq); [by vm_compute|].
  apply bool_decide_eq_true in Hq.
  destruct (@file_holds_whole_packets malloc one_write srv0 2000 (fun _ => eq_refl) malloc_reliable
    ltac:(by vm_compute) with_clock s' with_clock_spec _ with_clock_serving E Hq) as (order & x' & Ex & Hall & Hs & Hw).
  exists s', order, x'. exact (conj E (conj Hq (conj Ex (conj Hall (conj Hs Hw))))).
Defined.

(** ** A shutdown under the lock *)

Definition EIO : Z := 5.

(** A file on a disk that cannot be read. *)
Definition unreadable : CharDevice file_state := {|
  dev_write := file_write;
  dev_read s count pos := Some (- EIO, pos, []);
  dev_seekto := file_seekto
|}.

(** A server of two clients. *)
Definition srv2 : server := Server 2 (replicate 128 0) 3 5 None.
Definition unreadable_body := @thread_body file_state unreadable malloc one_write srv2 2000.
Definition two_unreadable : @system file_state unreadable one_write local thread_event :=
  System [client_task client7 two_lines; client_task client8 two_lines] [] None.

Definition is_join X (c : call X) : bool := match c with Event (Joined _) => true | _ => false end.

(** An error of [fread] in the critical section makes the thread shut the
    server down with [fileMutex] still locked: it joins the other threads, and
    one that waits for the mutex keeps it waiting for ever. *)
Theorem failing_read_deadlocks :
  exists sched s', run_steps unreadable_body two_unreadable sched = Some s' /\
    calling is_join 0 s' = true /\ calling is_lock 1 s' = true /\ owner s' = Some 0%nat /\
    forall i, step_task unreadable_body s' i = None.
Proof.
  destruct (run_turns unreadable_body two_unreadable 200 (fun s => no_step unreadable_body s &&
              (calling is_join 0 s && calling is_lock 1 s && bool_decide (owner s = Some 0%nat)))) as (s' & E & Hall);
    [by vm_compute|].
  apply andb_true_iff in Hall as [Hno Hall]. apply andb_true_iff in Hall as [Hall Ho].
  apply andb_true_iff in Hall as [Hjoin Hlock]. apply bool_decide_eq_true in Ho.
  eexists _, s'. exact (conj E (conj Hjoin (conj Hlock (conj Ho (no_step_spec unreadable_body s' Hno))))).
Qed.
