(* ===== verification/ExitUnderLock.v ===== *)
(** * Shutting down under the lock

    [clientHandler] calls [logAndExit] when [fread] fails, and [fileMutex] is
    still locked then.  [logAndExit] joins every client's thread before it
    ends the process, and a thread that waits for the mutex does not end.
    Here this is shown of every server, every schedule and every two threads;
    [ConcurrentProps.failing_read_deadlocks] is a run in which it happens. *)

From Stdlib.Strings Require Import String.
From S2P Require Import Prelude CInt CMem Footprint Common CircularBuffer TemporaryBuffer.
From S2P Require Import CharDevice DeviceInterface FileDevice Process SeekCommand SocketServer Concurrency.
From S2P Require Import Concrete SocketProps ServeSpec ServerThreads ConcurrentProps.

(** ** Programs that cannot leave the critical section *)

Section dooms.
Context {D : Type} `{CharDevice D} `{Streams}.

(** The answers of a device that cannot be read but takes every seek, while
    every [fopen] succeeds. *)
Definition possible {X} (c : call X) : X -> Prop :=
  match c in call X return X -> Prop with
  | Read _ _ => fun res => res.1.1 < 0
  | SeekTo _ _ => fun res => 0 <= res.1
  | Open => fun opened => opened = true
  | _ => fun _ => True
  end.

Definition is_unlock_or_exit {X} (c : call X) : bool :=
  match c with Event Unlocked | Exit _ => true | _ => false end.

(** Whatever the possible answers, the program joins thread [j] before it
    unlocks the mutex, ends the process or returns, unless it returns a value
    of [Q]. *)
Fixpoint dooms {A} (j : Z) (p : prog A) (Q : A -> Prop) : Prop :=
  match p with
  | Ret a => Q a
  | Call c k =>
      is_unlock_or_exit c = false /\
      (match c with Event (Joined i) => i = j | _ => False end \/ forall x, possible c x -> dooms j (k x) Q)
  end.

(** The program is doomed once it has the mutex. *)
Fixpoint doomed_by_lock {A} (j : Z) (p : prog A) : Prop :=
  match p with
  | Ret _ => True
  | Call c k =>
      (forall x, doomed_by_lock j (k x)) /\
      (match c with Event Locked => forall x, dooms j (k x) (fun _ => False) | _ => True end)
  end.

Section rules.
Context {A B : Type} (j : Z).
Implicit Types (m : SM D A).

Lemma dooms_mono m (Q Q' : A -> Prop) : dooms j m Q -> (forall a, Q a -> Q' a) -> dooms j m Q'.
Proof.
  intros Hm HQ. induction m as [a|X c k IH]; simpl in *; [by apply HQ|].
  destruct Hm as [Hc [Hj|Hk]]; (split; [done|]); [by left|right]. intros x Hx. by apply IH, Hk.
Qed.

Lemma dooms_bind m (k : A -> SM D B) Q : dooms j m (fun a => dooms j (k a) Q) -> dooms j (m ≫= k) Q.
Proof.
  unfold mbind, SM_bind. induction m as [a|X c k' IH]; simpl; [done|].
  intros [Hc [Hj|Hk]]; (split; [done|]); [by left|right]. intros x Hx. by apply IH, Hk.
Qed.

Lemma dooms_step {X} (c : call X) (k : X -> SM D B) Q :
  is_unlock_or_exit c = false -> (forall x, possible c x -> dooms j (k x) Q) -> dooms j ((Call c Ret : SM D X) ≫= k) Q.
Proof. intros Hc Hk. split; [done|]. by right. Qed.

Lemma dooms_on_heap (m : M A) (k : A -> SM D B) Q : (forall a, dooms j (k a) Q) -> dooms j (on_heap m ≫= k) Q.
Proof. intros Hk. split; [done|]. right. intros a _. apply Hk. Qed.

Lemma doomed_bind m (k : A -> SM D B) :
  doomed_by_lock j m -> (forall a, doomed_by_lock j (k a)) -> doomed_by_lock j (m ≫= k).
Proof.
  intros Hm Hk. unfold mbind, SM_bind. induction m as [a|X c k' IH]; simpl in *; [apply Hk|].
  destruct Hm as [Hall Hl]. split; [intros x; by apply IH|].
  destruct c; try done. destruct e; try done. intros x. apply dooms_bind.
  eapply dooms_mono; [apply Hl|done].
Qed.

(** A program that does not lock. *)
Lemma doomed_inside m Q : phased Inside m Q -> doomed_by_lock j m.
Proof.
  unfold phased. intros Hm. enough (forall ph, ph <> Before -> phased_prog ph m Q -> doomed_by_lock j m) as Hgen
    by by apply (Hgen Inside).
  clear Hm. induction m as [a|X c k IH]; intros ph Hph Hm; simpl in *; [done|].
  destruct (next_phase ph c) as [ph'|] eqn:En; [|done].
  assert (ph' <> Before /\ match c with Event Locked => False | _ => True end) as [Hph' Hc].
  { destruct c as [?? | [] | | | | | | |]; simpl in En; repeat case_decide; simplify_eq; done. }
  split; [intros x; by eapply IH|]. destruct c; try done. by destruct e.
Qed.

Lemma doomed_quiet m : quiet m -> doomed_by_lock j m.
Proof. intros Hm. eapply doomed_inside, Hm. Qed.
End rules.
End dooms.

(** ** The server's programs *)

Section server.
Context {D : Type} `{CharDevice D} `{Allocator} `{Streams}.
Context (srv : server) (j : Z) (Hj : 0 <= j < threadCount srv).

Lemma dooms_emit {B} e (k : () -> SM D B) Q :
  e <> Unlocked -> dooms j (k ()) Q -> dooms j (emit e ≫= k) Q.
Proof. intros He Hk. split; [by destruct e|]. right. by intros [] _. Qed.

Lemma dooms_never {A} (c : call Empty_set) (k : Empty_set -> prog A) Q :
  is_unlock_or_exit c = false -> dooms j (Call c k) Q.
Proof. intros Hc. split; [done|]. right. intros []. Qed.

Lemma dooms_wrote m i : dooms j (repeat_io m (fun _ => WrotePipe) i : SM D ()) (fun _ => True).
Proof. revert i. induction m as [|m IH]; intros i; cbn [repeat_io]; [done|]. apply dooms_emit; [done|apply IH]. Qed.

(** The loop of [pthread_join] comes to thread [j]. *)
Lemma dooms_joins m i Q :
  Z.of_nat i <= j < Z.of_nat (i + m) -> dooms j (repeat_io m (fun i => Joined (Z.of_nat i)) i : SM D ()) Q.
Proof.
  revert i. induction m as [|m IH]; intros i Hi; [lia|]. cbn [repeat_io].
  destruct (decide (Z.of_nat i = j)) as [<-|Hne]; [by split; [|left]|].
  apply dooms_emit; [done|]. apply IH. lia.
Qed.

Lemma dooms_cleanupMain Q : dooms j (cleanupMain srv : SM D ()) Q.
Proof.
  unfold cleanupMain. apply dooms_bind. apply (dooms_mono _ _ (fun _ => True)).
  { destruct (timestamp srv) as [ts|]; [|done]. destruct (_ && _); [|done].
    by apply dooms_emit; [|split; [|right]]. }
  intros _ _. apply dooms_bind. apply (dooms_mono _ _ (fun _ => True)).
  { destruct (_ && _); [apply dooms_wrote|done]. }
  intros _ _. apply dooms_bind. zdec. apply dooms_joins. lia.
Qed.

Lemma dooms_logAndExit {A} msg code (Q : A -> Prop) :
  Z.of_nat (String.length msg) < 192 -> dooms j (logAndExit srv msg code : SM D A) Q.
Proof.
  intros Hmsg. unfold logAndExit, sizeof_msgBuffer. zdec. apply dooms_bind, dooms_cleanupMain.
Qed.

Lemma dooms_write_piece n data : dooms j (write_piece n data : SM D bool) (fun _ => True).
Proof.
  revert data. induction n as [|n IH]; intros data; cbn [write_piece]; [by apply dooms_never|].
  apply dooms_step; [done|]. intros ret _. repeat case_match; done || apply IH.
Qed.

Lemma dooms_write_pieces ps : dooms j (write_pieces ps : SM D ()) (fun _ => True).
Proof.
  induction ps as [|p ps IH]; cbn [write_pieces]; [done|]. apply dooms_bind.
  eapply dooms_mono; [apply dooms_write_piece|]. by intros [] _.
Qed.

Lemma dooms_fread_loop n want pos :
  want <> O -> dooms j (fread_loop n want (RFile pos [] false) : SM D _) (fun res => res = ([], RFile pos [] false)).
Proof.
  intros Hw. destruct n as [|n]; cbn [fread_loop]; [by apply dooms_never|]. destruct want as [|want]; [done|].
  cbn [rf_buf rf_eof]. apply dooms_step; [done|]. intros [[ret pos'] data] Hret. cbn [possible fst] in Hret. by zdec.
Qed.

Lemma dooms_send_file n sock pos Q : dooms j (send_file srv n sock (RFile pos [] false) : SM D ()) Q.
Proof.
  destruct n as [|n]; cbn [send_file]; [by apply dooms_never|]. apply dooms_bind. unfold fread.
  apply (dooms_mono _ _ (fun res => res = ([], RFile pos [] false))).
  - by apply dooms_fread_loop.
  - intros res ->. cbn [length rf_eof]. rewrite decide_True by done. apply dooms_logAndExit. simpl. lia.
Qed.

Lemma dooms_fopen {B} (k : bool -> SM D B) Q : dooms j (k true) Q -> dooms j (fopen ≫= k) Q.
Proof. intros Hk. split; [done|]. right. by intros opened ->. Qed.

Lemma dooms_seek_and_send n sock t command Q : dooms j (seek_and_send srv n sock t command : SM D ()) Q.
Proof.
  unfold seek_and_send. apply dooms_fopen. cbn [negb]. apply dooms_step; [done|].
  intros [ret pos'] Hret. cbn [possible fst] in Hret |- *. zdec. apply dooms_bind, dooms_send_file.
Qed.

Lemma dooms_write_and_send n sock t Q : dooms j (write_and_send srv n sock t : SM D ()) Q.
Proof.
  unfold write_and_send. apply dooms_fopen. apply dooms_on_heap. intros data. cbn [negb].
  apply dooms_bind. eapply dooms_mono; [apply dooms_write_pieces|]. intros _ _. apply dooms_emit; [done|].
  apply dooms_fopen. cbn [negb]. apply dooms_bind, dooms_send_file.
Qed.

Lemma doomed_lock {B} (k : () -> SM D B) :
  doomed_by_lock j (k ()) -> dooms j (k ()) (fun _ => False) -> doomed_by_lock j (emit Locked ≫= k).
Proof. intros Hk Hd. by split; intros []. Qed.

(** A client's thread that locks the mutex has the reads of its packet before it. *)
Lemma process_packet_doomed n sock t : doomed_by_lock j (process_packet srv n sock t : SM D ()).
Proof.
  unfold process_packet. apply doomed_lock.
  - apply (doomed_inside j _ (fun _ ph => ph = After)). apply phased_bind, phased_quiet; [solve_quiet|]. intros res.
    apply phased_bind. eapply phased_mono.
    + instantiate (1 := fun _ ph => ph = Inside). destruct (res.1); [apply seek_and_send_inside|apply write_and_send_inside].
    + intros _ ? ->. by apply phased_unlock.
  - apply dooms_on_heap. intros res. apply dooms_bind.
    destruct (res.1); [apply dooms_seek_and_send|apply dooms_write_and_send].
Qed.

Lemma logAndExit_doomed {A} msg code : doomed_by_lock j (logAndExit srv msg code : SM D A).
Proof. apply (doomed_inside j _ (fun _ _ => True)), logAndExit_ending. Qed.

#[local] Hint Resolve process_packet_doomed logAndExit_doomed cleanupClientHandler_quiet : phased.

(** Along the structure of a program. *)
#[local] Ltac solve_doomed :=
  repeat first [ solve [auto with phased] | solve [apply doomed_quiet; solve_quiet]
               | apply doomed_bind; [|intros ?] | progress (cbn beta iota zeta) | case_match ].

Lemma receive_doomed n sock buffer r t : doomed_by_lock j (receive srv n sock buffer r t : SM D _).
Proof. unfold receive. solve_doomed. Qed.

Lemma client_body_doomed n cp cd ev t : doomed_by_lock j (client_body srv n cp cd ev t : SM D _).
Proof.
  unfold client_body, handler_iteration. apply doomed_bind; [|intros []; solve_doomed].
  apply doomed_bind; [solve_doomed|intros buffer]. destruct (is_null buffer); [solve_doomed|].
  destruct ev; [solve_doomed..|apply receive_doomed|solve_doomed].
Qed.
End server.

(** ** The threads together *)

Section system.
Context {D : Type} `{CharDevice D} `{Allocator} `{Streams}.
Context (srv : server) (n : nat).
Implicit Types (s : @system D _ _ local thread_event) (i j : nat).

Definition from_client (ev : thread_event) : Prop := exists e, ev = OfClient e.

(** Thread [j] is about to lock the mutex. *)
Definition waits_for_lock s j : Prop :=
  exists t k, tasks s !! j = Some t /\ at_ t = Busy (Call (Event Locked) k).

(** Thread [i] has ended, or joins [j] before it lets the mutex go. *)
Definition blocked_by s i j : Prop :=
  joinable s j = true \/ exists t p, tasks s !! i = Some t /\ at_ t = Busy p /\ dooms (Z.of_nat j) p (fun _ => False).

Record doomed_state s : Prop := {
  ds_events i t : tasks s !! i = Some t -> Forall from_client (todo t);
  ds_program i t p j : tasks s !! i = Some t -> at_ t = Busy p -> Z.of_nat j < threadCount srv -> doomed_by_lock (Z.of_nat j) p;
  ds_owner i j : owner s = Some i -> Z.of_nat j < threadCount srv -> j <> i -> blocked_by s i j
}.

Context (Hread : forall d count pos res, dev_read d count pos = Some res -> res.1.1 < 0).
Context (Hseek : forall d cmd pos res, dev_seekto d cmd pos = Some res -> 0 <= res.1).
Context (Hopen : forall k, fopen_ok k = true).

Lemma perform_possible {X} (c : call X) w x w' : perform c w = Returns x w' -> possible c x.
Proof using Hread Hseek Hopen.
  destruct c as [X m|e| |data|count pos|cmd pos|code|f|]; simpl; try done.
  - rewrite Hopen. by intros [= <- _].
  - destruct (dev_read (device_of w) count pos) as [[[ret pos'] data]|] eqn:E; [|done]. intros [= <- _].
    by apply Hread in E.
  - destruct (dev_seekto (device_of w) cmd pos) as [[ret pos']|] eqn:E; [|done]. intros [= <- _].
    by apply Hseek in E.
Qed.

Lemma thread_body_doomed i ev st j :
  from_client ev -> Z.of_nat j < threadCount srv -> doomed_by_lock (Z.of_nat j) (thread_body srv n i ev st : SM D _).
Proof.
  intros [e ->] Hj. destruct st as [cp cd b|]; [|done]. cbn [thread_body].
  apply doomed_bind; [|done]. apply client_body_doomed. lia.
Qed.

(** Who owns the mutex after a call. *)
Lemma owner_after s k X (c : call X) o i :
  sync s k c = Some o -> o = Some i -> (i = k /\ match c with Event Locked => True | _ => False end) \/ owner s = Some i.
Proof.
  intros Hs ->. destruct c as [Y m|e| |data|count pos|cmd pos|code|f|]; simpl in Hs; simplify_eq; try (by right).
  destruct e; simplify_eq; repeat case_match; repeat case_decide; simplify_eq; try (by right). by left.
Qed.

Lemma joinable_insert s i t t' d o j :
  tasks s !! i = Some t -> (forall st, at_ t <> Ended st) -> joinable s j = true ->
  joinable (System (<[i := t']> (tasks s)) d o) j = true.
Proof.
  unfold joinable. cbn [tasks]. intros Ht Hne Hj. destruct (decide (j = i)) as [->|Hji].
  - rewrite Ht in Hj. destruct t as [evs [st|p|st] h T]; try done. by destruct (Hne st).
  - by rewrite list_lookup_insert_ne.
Qed.
(** What a step of thread [k] leaves of the others' situation. *)
Lemma blocked_insert s k t t' d o i j :
  tasks s !! k = Some t -> (forall st, at_ t <> Ended st) -> i <> k -> blocked_by s i j ->
  blocked_by (System (<[k := t']> (tasks s)) d o) i j.
Proof.
  intros Ht Hne Hik [Hj|(t1 & p & Ht1 & Hp & Hd)]; [left; by eapply joinable_insert|right].
  exists t1, p. cbn [tasks]. by rewrite list_lookup_insert_ne.
Qed.

(** A call of thread [i] itself that leaves it the mutex. *)
Lemma blocked_call s i t X (c : call X) k x o t' d o' j :
  tasks s !! i = Some t -> at_ t = Busy (Call c k) -> sync s i c = Some o -> possible c x ->
  at_ t' = Busy (k x) -> j <> i -> blocked_by s i j ->
  blocked_by (System (<[i := t']> (tasks s)) d o') i j.
Proof.
  intros Ht Hat Hs Hx Hat' Hji Hb. assert (forall st, at_ t <> Ended st) as Hne by (intros st; by rewrite Hat).
  destruct Hb as [Hj|(t1 & p & Ht1 & Hp & Hd)]; [left; by eapply joinable_insert|].
  rewrite Ht in Ht1. simplify_eq. rewrite Hat in Hp. injection Hp as <-. destruct Hd as [_ [Hjoin|Hk]].
  - left. eapply joinable_insert; [done|done|]. destruct c; try done. destruct e; try done. subst slot.
    unfold sync in Hs. rewrite decide_False in Hs by lia. rewrite Nat2Z.id in Hs. by destruct (joinable s j).
  - right. exists t', (k x). cbn [tasks]. rewrite list_lookup_insert_eq by (by eapply lookup_lt_Some). by auto.
Qed.

Lemma doomed_step s k s' : doomed_state s -> step_task (thread_body srv n) s k = Some s' -> doomed_state s'.
Proof using Hread Hseek Hopen.
  intros [Hev Hprog Hown] E. unfold step_task in E. destruct (tasks s !! k) as [t|] eqn:Ht; [|done]. simpl in E.
  pose proof (lookup_lt_Some _ _ _ Ht) as Hlt.
  assert (forall t' i t1, <[k := t']> (tasks s) !! i = Some t1 -> i = k /\ t1 = t' \/ i <> k /\ tasks s !! i = Some t1) as Hins.
  { intros t' i t1 Hi. destruct (decide (i = k)) as [->|]; [left|right; by rewrite list_lookup_insert_ne in Hi].
    rewrite list_lookup_insert_eq in Hi by done. by simplify_eq. }
  destruct (at_ t) as [st|[res|X c kont]|st] eqn:Hat; [| | |done].
  - destruct (todo t) as [|ev evs] eqn:Htodo; [done|]. simplify_eq. pose proof (Hev k t Ht) as Hevs. rewrite Htodo in Hevs.
    apply Forall_cons in Hevs as [He Hes]. split; cbn [set_task tasks owner].
    + intros i t1 [[-> ->]|[_ Hi]]%Hins; [done|by eapply Hev].
    + intros i t1 p j [[-> ->]|[_ Hi]]%Hins; [|by eapply Hprog]. cbn [at_]. intros [= <-] Hj. by apply thread_body_doomed.
    + intros i j Ho Hj Hji. specialize (Hown i j Ho Hj Hji). destruct (decide (i = k)) as [->|Hne].
      * destruct Hown as [Hown|(t1 & p & Ht1 & Hp & _)]; [left; eapply joinable_insert; [done|by rewrite Hat|done]|].
        rewrite Ht in Ht1. simplify_eq. congruence.
      * eapply blocked_insert; [done|by rewrite Hat|done|done].
  - simplify_eq. split; cbn [set_task tasks owner].
    + intros i t1 [[-> ->]|[_ Hi]]%Hins; [exact (Hev k t Ht)|by eapply Hev].
    + intros i t1 p j [[-> ->]|[_ Hi]]%Hins; [|by eapply Hprog]. cbn [at_]. by destruct (res.1).
    + intros i j Ho Hj Hji. specialize (Hown i j Ho Hj Hji). destruct (decide (i = k)) as [->|Hne].
      * destruct Hown as [Hown|(t1 & p & Ht1 & Hp & Hd)]; [left; eapply joinable_insert; [done|by rewrite Hat|done]|].
        rewrite Ht in Ht1. simplify_eq. rewrite Hat in Hp. by simplify_eq.
      * eapply blocked_insert; [done|by rewrite Hat|done|done].
  - destruct (sync s k c) as [o|] eqn:Hs; [|done]. simpl in E.
    destruct (perform c _) as [x w| | |] eqn:Ex; try done. simplify_eq. pose proof (perform_possible _ _ _ _ Ex) as Hx.
    split; cbn [tasks owner].
    + intros i t1 [[-> ->]|[_ Hi]]%Hins; [exact (Hev k t Ht)|by eapply Hev].
    + intros i t1 p j [[-> ->]|[_ Hi]]%Hins; [|by eapply Hprog]. cbn [at_]. intros [= <-] Hj.
      by apply (Hprog k t _ j Ht Hat Hj).
    + intros i j Ho Hj Hji. destruct (owner_after s k _ c o i Hs Ho) as [[-> Hl]|Ho'].
      * right. eexists _, (kont x). cbn [tasks]. rewrite list_lookup_insert_eq by done. split; [done|]. split; [done|].
        destruct (Hprog k t _ j Ht Hat Hj) as [_ Hdoom]. destruct c; try done. by destruct e.
      * specialize (Hown i j Ho' Hj Hji). destruct (decide (i = k)) as [->|Hne].
        -- by eapply blocked_call.
        -- eapply blocked_insert; [done|by rewrite Hat|done|done].
Qed.
Lemma doomed_run s sched s' :
  doomed_state s -> run_steps (thread_body srv n) s sched = Some s' -> doomed_state s'.
Proof using Hread Hseek Hopen.
  revert s. induction sched as [|k sched IH]; intros s Hs E; simpl in E; [by simplify_eq|].
  destruct (step_task (thread_body srv n) s k) as [s1|] eqn:E1; [|done]. eapply IH; [by eapply doomed_step|done].
Qed.

(** Thread [i] has the mutex, thread [j] waits for it, and neither goes on. *)
Lemma locked_step s i j k s' :
  doomed_state s -> Z.of_nat j < threadCount srv -> i <> j -> owner s = Some i -> waits_for_lock s j ->
  step_task (thread_body srv n) s k = Some s' -> owner s' = Some i /\ waits_for_lock s' j.
Proof using Hread Hseek Hopen.
  intros Hs Hj Hij Ho (tj & kj & Htj & Hatj) E.
  assert (k <> j) as Hkj.
  { intros ->. unfold step_task in E. rewrite Htj in E. simpl in E. rewrite Hatj in E. simpl in E. by rewrite Ho in E. }
  assert (exists t p, tasks s !! i = Some t /\ at_ t = Busy p /\ dooms (Z.of_nat j) p (fun _ => False)) as (t & p & Ht & Hp & Hd).
  { destruct (ds_owner s Hs i j Ho Hj ltac:(done)) as [Hjoin|]; [|done]. unfold joinable in Hjoin. rewrite Htj in Hjoin.
    destruct tj as [evs [st|q|st] h T]; done. }
  assert (forall t' d o, waits_for_lock (System (<[k := t']> (tasks s)) d o) j) as Hwait.
  { intros t' d o. exists tj, kj. cbn [tasks]. by rewrite list_lookup_insert_ne. }
  unfold step_task in E. destruct (tasks s !! k) as [tk|] eqn:Htk; [|done]. simpl in E.
  destruct (at_ tk) as [st|[res|X c kont]|st] eqn:Hat; [| | |done].
  - destruct (todo tk); [done|]. simplify_eq. split; [done|apply Hwait].
  - simplify_eq. split; [done|apply Hwait].
  - destruct (sync s k c) as [o|] eqn:Hsync; [|done]. simpl in E. destruct (perform c _) as [x w| | |]; try done.
    simplify_eq. split; [|apply Hwait]. cbn [owner].
    destruct c as [Y m|e| |?|??|??|?|?|]; simpl in Hsync; simplify_eq; try done.
    destruct e; repeat case_match; repeat case_decide; simplify_eq; try done.
    rewrite Hat in Hp. injection Hp as <-. by destruct Hd.
Qed.

(** C38: on a device whose reads fail while it takes every seek (a refused one
    would unlock the mutex before the exit), and with every [fopen]
    succeeding, a client's thread that has [fileMutex] while another client's
    waits for it never lets it go: in [logAndExit] it waits for
    the end of every client's thread, with the mutex still locked.  Whatever
    the server, the clients and the schedule, from such a state on the thread
    keeps the mutex, neither thread ends, and so the server does not shut
    down. *)
Theorem exit_under_lock_deadlocks s0 s s' sched sched' i j :
  quiescent s0 -> Forall (fun t => Forall from_client (todo t)) (tasks s0) ->
  Z.of_nat j < threadCount srv -> i <> j ->
  run_steps (thread_body srv n) s0 sched = Some s -> owner s = Some i -> waits_for_lock s j ->
  run_steps (thread_body srv n) s sched' = Some s' ->
  owner s' = Some i /\ waits_for_lock s' j /\
  exists t p, tasks s' !! i = Some t /\ at_ t = Busy p /\ dooms (Z.of_nat j) p (fun _ => False).
Proof using Hread Hseek Hopen.
  intros [Hq Ho0] Hev Hj Hij E Ho Hw E'.
  assert (doomed_state s0) as Hs0.
  { split; [intros i0 t0 Ht; exact (Forall_lookup_1 _ _ _ _ Hev Ht)| |congruence].
    intros i0 t0 p j0 Ht Hp. pose proof (Forall_lookup_1 _ _ _ _ Hq Ht) as Hr. cbn beta in Hr. by rewrite Hp in Hr. }
  pose proof (doomed_run _ _ _ Hs0 E) as Hs. clear E Hs0 Hq Ho0 Hev.
  assert (doomed_state s' /\ owner s' = Some i /\ waits_for_lock s' j) as (Hs' & Ho' & Hw').
  { revert s Hs Ho Hw E'. induction sched' as [|k sched' IH]; intros s Hs Ho Hw E'; simpl in E'; [by simplify_eq|].
    destruct (step_task (thread_body srv n) s k) as [s1|] eqn:E1; [|done].
    destruct (locked_step s i j k s1 Hs Hj Hij Ho Hw E1) as [Ho1 Hw1].
    apply (IH s1); [by eapply doomed_step|done..]. }
  split_and!; [done..|]. destruct (ds_owner s' Hs' i j Ho' Hj ltac:(done)) as [Hjoin|]; [exfalso|done].
  destruct Hw' as (t & k & Ht & Hat). unfold joinable in Hjoin. rewrite Ht in Hjoin.
  by destruct t as [evs [st|q|st] h T].
Qed.
End system.

(** ** An instance *)

#[local] Existing Instance one_write.

(** A device that takes writes and seeks, and cannot be read. *)
Definition broken : CharDevice file_state := {|
  dev_write := file_write;
  dev_read s count pos := Some (- EIO, pos, []);
  dev_seekto s cmd pos := Some (0, pos)
|}.

Definition broken_body := @thread_body file_state broken malloc one_write srv2 2000.
Definition two_on_broken : @system file_state broken one_write local thread_event :=
  System [client_task client7 two_lines; client_task client8 two_lines] [] None.

Definition first_has_second_waits (s : @system file_state broken one_write local thread_event) : bool :=
  bool_decide (owner s = Some 0%nat) && calling is_lock 1 s.

Lemma calling_waits s : calling is_lock 1 s = true -> @waits_for_lock file_state broken one_write s 1.
Proof.
  unfold calling. destruct (tasks s !! 1%nat) as [t|] eqn:Ht; [|done]. destruct t as [evs [st|[res|X c k]|st] h T]; try done.
  intros Hl. destruct c; try done. destruct e; try done. by eexists _, k.
Qed.

(** The threads reach such a state, and all that they can do then ends with
    both of them waiting. *)
Lemma exit_under_lock_deadlocks_witness :
  exists sched sched' s s', run_steps broken_body two_on_broken sched = Some s /\
    owner s = Some 0%nat /\ @waits_for_lock _ broken one_write s 1 /\
    run_steps broken_body s sched' = Some s' /\ (forall i, step_task broken_body s' i = None) /\
    owner s' = Some 0%nat /\ @waits_for_lock _ broken one_write s' 1.
Proof.
  destruct (run_turns broken_body two_on_broken 20 first_has_second_waits) as (s & E & Hc); [by vm_compute|].
  apply andb_true_iff in Hc as [Ho%bool_decide_eq_true Hw%calling_waits].
  destruct (run_turns broken_body two_on_broken 20 (fun s => match run_steps broken_body s (round_robin broken_body 300 0 s) with
      Some s' => no_step broken_body s' | None => false end)) as (s1 & E1 & Hc1); [by vm_compute|].
  rewrite E in E1. injection E1 as <-.
  destruct (run_steps broken_body s (round_robin broken_body 300 0 s)) as [s'|] eqn:E'; [|discriminate].
  destruct (@exit_under_lock_deadlocks file_state broken malloc one_write srv2 2000
    ltac:(by intros ???? [= <-]) ltac:(by intros ???? [= <-]) (fun _ => eq_refl) two_on_broken s s' _ _ 0 1
    ltac:(split; [repeat constructor|done]) ltac:(repeat constructor; by eexists) ltac:(simpl; lia) ltac:(done) E Ho Hw E')
    as (Ho' & Hw' & _).
  eexists _, _, s, s'. exact (conj E (conj Ho (conj Hw (conj E' (conj (no_step_spec broken_body s' Hc1) (conj Ho' Hw')))))).
Defined.
