(* ===== verification/LineOrder.v ===== *)
(** * Many clients, the server and the driver together

    The clients' threads interleave on the driver, and every packet they make
    is one line: then the device holds the last ten lines of the order in
    which the mutex let the threads in, and in that order the lines of each
    client are in the order the client sent them. *)

From S2P Require Import Prelude CInt CMem Footprint Common CircularBuffer TemporaryBuffer.
From S2P Require Import Ring CircularFacts CharDevice DeviceFacts WriteFacts DeviceSpec Scenario Concrete.
From S2P Require Import DeviceInterface DriverDevice Process CString SeekCommand Writer SocketServer SocketFacts HandlerFacts SocketProps.
From S2P Require Import FileDevice Timestamp Concurrency ConcurrencyFacts ServeSpec ServerThreads ThreadFacts ConcurrentProps.

(** ** The packets of one thread *)

(** The packets of a list of events, up to the one that ends the thread. *)
Fixpoint packets_of (p : option (list byte)) (evs : list thread_event) : list (list byte) :=
  match evs with
  | [] => []
  | ev :: evs' =>
      option_list (packet p ev) ++ (if ends ev then [] else packets_of (pending_after p ev) evs')
  end.

(** What a thread is still going to submit. *)
Definition to_come (t : thread_spec) : list (list byte) :=
  if sp_ended t then [] else packets_of (sp_pending t) (sp_todo t).

(** The packets of an order of events, with the threads that send them. *)
Section tagged.
Context {C : Type} `{DeviceModel C} `{Streams}.

Fixpoint tagged (x : @spec C) (order : list nat) : list (nat * list byte) :=
  match order with
  | [] => []
  | i :: order' =>
      match threads x !! i, serve_step x i with
      | Some (ThreadSpec (ev :: _) p _ _), Some x' =>
          (pair i <$> option_list (packet p ev)) ++ tagged x' order'
      | _, _ => []
      end
  end.

Definition sent_by (i : nat) (l : list (nat * list byte)) : list (list byte) :=
  (filter (fun e => e.1 = i) l).*2.

Lemma tagged_submissions x order : (tagged x order).*2 = submissions x order.
Proof.
  revert x. induction order as [|i order IH]; intros x; simpl; [done|].
  destruct (threads x !! i) as [[[|ev evs] p e ans]|]; [done| |done].
  destruct (serve_step x i); [|done]. rewrite fmap_app, IH. by destruct (packet p ev).
Qed.

Lemma sent_by_app i l1 l2 : sent_by i (l1 ++ l2) = sent_by i l1 ++ sent_by i l2.
Proof. unfold sent_by. by rewrite filter_app, fmap_app. Qed.

Lemma sent_by_tag i j (o : option (list byte)) :
  sent_by i (pair j <$> option_list o) = if decide (j = i) then option_list o else [].
Proof. unfold sent_by. destruct o as [d|]; simpl; [|by case_decide]. rewrite filter_cons. simpl. by case_decide. Qed.

(** What a thread has sent, followed by what is still to come of it, is what
    was to come of it at first. *)
Lemma sent_in_order x order x' i t t' :
  serve x order = Some x' -> threads x !! i = Some t -> threads x' !! i = Some t' ->
  sent_by i (tagged x order) ++ to_come t' = to_come t.
Proof.
  revert x t. induction order as [|j order IH]; intros x t E Ht Ht'; simpl in E |- *; [by simplify_eq|].
  destruct (serve_step x j) as [x1|] eqn:E1; [|done]. simpl in E. unfold serve_step in E1.
  destruct (threads x !! j) as [[evs p e ans]|] eqn:Ej; [|done]. simpl in E1.
  destruct e, evs as [|ev evs]; try done. simplify_eq. rewrite sent_by_app, sent_by_tag, <- app_assoc.
  destruct (decide (j = i)) as [->|Hne].
  - rewrite Ht in Ej. simplify_eq. erewrite (IH _ _ E); [|simpl; apply list_lookup_insert_eq; by eapply lookup_lt_Some|done].
    done.
  - erewrite (IH _ _ E); [done|simpl; by rewrite list_lookup_insert_ne|done].
Qed.

Lemma tagged_whole (P : list byte -> Prop) x order :
  Forall (fun t => Forall P (to_come t)) (threads x) -> Forall P (tagged x order).*2.
Proof.
  revert x. induction order as [|i order IH]; intros x Hall; simpl; [constructor|].
  destruct (threads x !! i) as [t|] eqn:Ei; [|constructor]. pose proof (Forall_lookup_1 _ _ _ _ Hall Ei) as Ht.
  destruct t as [[|ev evs] p e ans]; [constructor|]. unfold serve_step. rewrite Ei. simpl. destruct e; [constructor|].
  unfold to_come in Ht. simpl in Ht. apply Forall_app in Ht as [Hp Ht]. rewrite fmap_app. apply Forall_app. split.
  - by destruct (packet p ev).
  - apply IH. simpl. apply Forall_insert; [done|]. unfold to_come, after_event. simpl. by destruct (ends ev).
Qed.
End tagged.

(** ** Lines on a device of lines *)

Lemma is_line_newline d : is_line d -> has_newline d = true.
Proof.
  intros (body & -> & _). rewrite has_newline_app. change (has_newline [ch_newline]) with true. by rewrite orb_true_r.
Qed.

Lemma store_line `{Streams} d (c : line_store) : is_line d -> store d c = store_write d c.
Proof.
  intros (body & E & Hnl). unfold store.
  rewrite (model_write_pieces _ body) by (by rewrite ?stdio_chunks_concat). by rewrite <- E.
Qed.

Lemma store_lines `{Streams} ds (c : line_store) :
  partial (kept c) = [] -> (length (lines (kept c)) <= 10)%nat -> Forall is_line ds ->
  kept (foldl (fun c d => store d c) c ds) = Contents (keep_last 10 (lines (kept c) ++ ds)) [].
Proof.
  intros Hp Hl Hds. revert c Hp Hl. induction Hds as [|d ds Hd _ IH]; intros c Hp Hl; simpl.
  - rewrite app_nil_r, keep_last_le by done. destruct c as [[l p] o]. simpl in *. by subst.
  - assert (kept (store d c) = Contents (keep_last 10 (lines (kept c) ++ [d])) []) as Ed.
    { rewrite store_line by done. unfold store_write, spec_write. by rewrite is_line_newline, Hp by done. }
    rewrite IH; rewrite Ed; cbn [lines partial]; [|done|unfold keep_last; rewrite length_drop; lia].
    by rewrite keep_last_app, <- app_assoc.
Qed.

Section on_lines.
Context {D : Type} `{CharDevice D, !CharDeviceLaws D line_store} `{Allocator} `{Streams}.
Context (srv : server) (n : nat).
Context (Hopen : forall k, fopen_ok k = true) (Hrel : reliable) (Hbuf : BUFFER_SIZE <= alloc_max).

(** C11: any number of clients, each of whose packets is one line or a seek
    command, with events that are manageable ([serving]), interleaved on the driver: between bodies the device holds the
    last ten of the lines it held and those submitted since, in the order in
    which the threads were served; in that order each client's lines are the
    first of its own, in the order it sends them. *)
Theorem device_holds_last_lines (s s' : @system D _ _ local thread_event) (x : @spec line_store) sched :
  serving n s x -> partial (kept (held x)) = [] -> (length (lines (kept (held x))) <= 10)%nat ->
  Forall (fun t => Forall is_line (to_come t)) (threads x) ->
  run_steps (thread_body srv n) s sched = Some s' -> quiescent s' ->
  exists order x', serve x order = Some x' /\ Forall2 implements (tasks s') (threads x') /\
    dev_abs (shared s') (held x') /\
    kept (held x') = Contents (keep_last 10 (lines (kept (held x)) ++ (tagged x order).*2)) [] /\
    forall i t t', threads x !! i = Some t -> threads x' !! i = Some t' ->
      sent_by i (tagged x order) ++ to_come t' = to_come t.
Proof.
  intros Hs Hp Hl Hall E Hq.
  destruct (reachable_related srv n Hopen Hrel Hbuf s x sched s' Hs E) as (a & (order & x' & Ex & Hx) & Hr).
  rewrite <- (related_quiescent _ _ _ Hr Hq). exists order, x'. split_and!; [done|apply Hx|apply Hx| |].
  - rewrite (serve_contents _ _ _ Ex), store_lines, tagged_submissions; [done|done|done|].
    rewrite <- tagged_submissions. by apply tagged_whole.
  - intros i t t' Ht Ht'. by eapply sent_in_order.
Qed.
End on_lines.

(** ** An instance: two clients on the driver as it is after loading *)

#[local] Existing Instance one_write.

Lemma device_holds_last_lines_witness :
  exists s' order x', run_steps driver_body two_clients (round_robin driver_body 300 0 two_clients) = Some s' /\
    serve two_specs order = Some x' /\
    @dev_abs _ _ _ _ served (shared s') (held x') /\
    kept (held x') = Contents (keep_last 10 ([] ++ (tagged two_specs order).*2)) [].
Proof.
  destruct (run_turns driver_body two_clients 300 between_bodies) as (s' & E & Hq); [by vm_compute|].
  apply bool_decide_eq_true in Hq.
  destruct (@device_holds_last_lines _ _ served malloc one_write srv0 2000 (fun _ => eq_refl) malloc_reliable
    ltac:(by vm_compute) two_clients s' two_specs (round_robin driver_body 300 0 two_clients) two_clients_serving eq_refl) as (order & x' & Ex & _ & Hd & Hk & _).
  - simpl. lia.
  - assert (is_line short_line) as Hline.
    { exists (removelast short_line). split; [done|]. apply (bool_decide_unpack _). by vm_compute. }
    repeat constructor; exact Hline.
  - exact E.
  - exact Hq.
  - exists s', order, x'. exact (conj E (conj Ex (conj Hd Hk))).
Defined.
