(* ===== verification/ServerProcess.v ===== *)
(** * The whole server process

    The accepting thread, [main], together with the threads it starts: the
    clients' and, in the build on the file, the clock's.  [workers] holds the
    threads that are ever started, each with the events that will happen to
    it; one makes steps from its [pthread_create] on.  The two pipes count
    their bytes: a thread whose next event is the byte in its pipe waits for
    it, and takes it.  The clock's thread, which the code starts before it
    creates the pipe of that thread, takes bytes from that pipe only: what it
    would find on descriptor 0 until then is left out.  [main] makes one call at a time; a [pthread_join] waits
    for the end of its thread. *)

From S2P Require Import Prelude CInt CMem Footprint Common CircularBuffer TemporaryBuffer.
From S2P Require Import CharDevice DeviceInterface Process SocketServer Timestamp Concurrency ServeSpec ServerThreads.
Import TemporaryBuffer.Server.

#[export] Instance clientData_eq_dec : EqDecision clientData_t.
Proof. solve_decision. Defined.

Section process.
Context {D : Type} `{CharDevice D} `{Allocator} `{Streams}.

Record process := ServerProcess {
  workers : @system D _ _ local thread_event;
  main_at : SM D (option Z);
  main_heap : heap;
  main_trace : list io_event;
  spawned : nat;
  clock_spawned : bool;
  pipe_bytes : nat;
  clock_bytes : nat
}.

(** The state that a thread that steps sees, and the number of the clock's. *)
Context (srv : server) (n clock : nat).
Implicit Types (s : process) (i : nat).

Definition is_started s i : bool :=
  if decide (i = clock) then clock_spawned s else bool_decide (i < spawned s)%nat.

(** ** The threads *)

Definition next_event (t : @tstate D _ _ local thread_event) : option thread_event :=
  match at_ t with Idle _ => head (todo t) | _ => None end.

(** [poll] and [read] on a pipe: the bytes left in the two pipes. *)
Definition take_byte (ev : option thread_event) (pipe clock_pipe : nat) : option (nat * nat) :=
  match ev with
  | Some (OfClient PollPipe) => match pipe with O => None | S pipe' => Some (pipe', clock_pipe) end
  | Some (OfClock ClockPipe) => match clock_pipe with O => None | S clock_pipe' => Some (pipe, clock_pipe') end
  | _ => Some (pipe, clock_pipe)
  end.

Definition worker_step s i : option process :=
  t ← tasks (workers s) !! i;
  if is_started s i then
    left ← take_byte (next_event t) (pipe_bytes s) (clock_bytes s);
    w ← step_task (thread_body srv n) (workers s) i;
    Some (ServerProcess w (main_at s) (main_heap s) (main_trace s) (spawned s) (clock_spawned s)
            (left : nat * nat).1 left.2)
  else None.

(** ** The accepting thread *)

(** Is [t] the thread of a client that is given [cd], before its start? *)
Definition awaits (t : option (@tstate D _ _ local thread_event)) (cd : clientData_t) : bool :=
  match t with
  | Some (Tstate _ (Idle (ClientThread _ cd' b)) _ _) =>
      bool_decide (cd = cd') && is_null (tmp_buffptr b) && (tmp_size b =? 0)
  | _ => false
  end.

Definition has_ended s i : bool :=
  match tasks (workers s) !! i with Some (Tstate _ (Ended _) _ _) => true | _ => false end.

(** What a call of [main] does to the threads and pipes; [None] when it waits.
    [main] does not use [fileMutex]. *)
Definition gate s {X} (c : call X) : option (nat * bool * nat * nat) :=
  match c with
  | Event (Spawned i cd) =>
      if (i =? Z.of_nat (spawned s)) && awaits (tasks (workers s) !! spawned s) cd
      then Some (S (spawned s), clock_spawned s, pipe_bytes s, clock_bytes s) else None
  | Event SpawnedTimestamp => Some (spawned s, true, pipe_bytes s, clock_bytes s)
  | Event WrotePipe => Some (spawned s, clock_spawned s, S (pipe_bytes s), clock_bytes s)
  | Event WroteTimestampPipe => Some (spawned s, clock_spawned s, pipe_bytes s, S (clock_bytes s))
  | Event (Joined i) =>
      if has_ended s (Z.to_nat i) then Some (spawned s, clock_spawned s, pipe_bytes s, clock_bytes s) else None
  | Event JoinedTimestamp =>
      if has_ended s clock then Some (spawned s, clock_spawned s, pipe_bytes s, clock_bytes s) else None
  | Event (Locked | Unlocked) => None
  | _ => Some (spawned s, clock_spawned s, pipe_bytes s, clock_bytes s)
  end.

Definition main_step s : option process :=
  match main_at s with
  | Ret _ => None
  | Call c k =>
      g ← gate s c;
      match perform c (World (main_heap s) (shared (workers s)) (main_trace s)) with
      | Returns x w =>
          let '(spawned', clock_spawned', pipe', clock_pipe') := (g : nat * bool * nat * nat) in
          Some (ServerProcess (System (tasks (workers s)) (device_of w) (owner (workers s)))
                  (k x) (uheap w) (trace w) spawned' clock_spawned' pipe' clock_pipe')
      | _ => None
      end
  end.

(** ** Schedules *)

Inductive agent := Main | Worker (i : nat).

Definition process_step s (a : agent) : option process :=
  match a with Main => main_step s | Worker i => worker_step s i end.

Fixpoint run_process s (sched : list agent) : option process :=
  match sched with
  | [] => Some s
  | a :: sched' => s' ← process_step s a; run_process s' sched'
  end.

Definition blocked s : Prop := forall a, process_step s a = None.

(** All in turn, each making a step when it can: [fuel] turns of [count]
    threads and [main]. *)
Fixpoint take_turns (fuel count i : nat) s : list agent :=
  match fuel with
  | O => []
  | S fuel' =>
      let a := match i with O => Main | S j => Worker j end in
      let next := if decide (i = count) then O else S i in
      match process_step s a with
      | Some s' => a :: take_turns fuel' count next s'
      | None => take_turns fuel' count next s
      end
  end.

(** The process before [main]'s first call. *)
Definition boot (ws : list (@tstate D _ _ local thread_event)) (d : D) (p : SM D (option Z)) (h : heap) : process :=
  ServerProcess (System ws d None) p h [] 0 false 0 0.
End process.
