(* ===== verification/ProcessFacts.v ===== *)
(** * Facts about the whole server process

    The threads of the process make steps of their own system only, and
    [main], which touches neither the device nor the mutex, leaves that system
    alone; so what is known of the threads together holds next to [main].
    [on_course] is what all reachable states have in common: where [main] is,
    by the calls it has made, which threads run, and where the bytes of the
    pipes are. *)

From Stdlib Require Import Relation_Operators Lexicographic_Product.
From S2P Require Import Prelude CInt CMem Footprint Common CircularBuffer TemporaryBuffer.
From S2P Require Import CharDevice DeviceInterface Process SocketServer Timestamp.
From S2P Require Import Concurrency ConcurrencyFacts ServeSpec ServerThreads ServerProcess.

(** ** Programs that leave the device and the mutex alone *)

Section quiet.
Context {D : Type} `{CharDevice D} `{Streams}.

Lemma quiet_call {A X} (c : call X) (k : X -> SM D A) :
  quiet (Call c k : SM D A) -> (forall ph, next_phase ph c = Some ph) /\ forall x, quiet (k x).
Proof.
  intros Hq. assert (forall ph, next_phase ph c = Some ph) as Hc.
  { pose proof (Hq Before) as Hb. pose proof (Hq After) as Ha. unfold phased in Hb, Ha. cbn [phased_prog] in Hb, Ha.
    intros ph. destruct c as [Y m|e| | | | | | |]; try done. by destruct e. }
  split; [exact Hc|]. intros x ph. specialize (Hq ph). unfold phased in Hq. cbn [phased_prog] in Hq.
  rewrite Hc in Hq. apply Hq.
Qed.

Lemma quiet_silent {X} (c : call X) : (forall ph, next_phase ph c = Some ph) -> silent c.
Proof. intros Hc. by apply (next_phase_silent After c After). Qed.

(** Such a program does not look at the device. *)
Lemma quiet_any_device {A} (m : SM D A) h d T res w :
  quiet m -> m (World h d T) = Returns res w ->
  forall d2, m (World h d2 T) = Returns res (World (uheap w) d2 (trace w)).
Proof. intros Hm E. by destruct (run_after m _ _ _ _ _ _ (Hm After) E). Qed.
End quiet.

(** ** One step *)

Section steps.
Context {D : Type} `{CharDevice D} `{Allocator} `{Streams} (srv : server) (n clock : nat).
Implicit Types (s : @process D _ _) (t : @tstate D _ _ local thread_event).

Lemma step_task_tasks (body : nat -> thread_event -> local -> SM D (bool * local)) a i a' :
  step_task body a i = Some a' -> exists t t', tasks a !! i = Some t /\ tasks a' = <[i := t']> (tasks a).
Proof.
  unfold step_task. intros E. destruct (tasks a !! i) as [t|]; [|done]. simpl in E. exists t.
  destruct (at_ t) as [st|[res|X c k]|st]; [| | |done].
  - destruct (todo t); [done|]. simplify_eq. by eexists.
  - simplify_eq. by eexists.
  - destruct (sync a i c); [|done]. simpl in E. destruct (perform c _); [|done..]. simplify_eq. by eexists.
Qed.

(** What a step does to the events of its thread. *)
Lemma step_task_todo (body : nat -> thread_event -> local -> SM D (bool * local)) a i a' t :
  step_task body a i = Some a' -> tasks a !! i = Some t ->
  exists t', tasks a' = <[i := t']> (tasks a) /\ todo t = option_list (next_event t) ++ todo t'.
Proof.
  unfold step_task, next_event. intros E Ht. rewrite Ht in E. simpl in E.
  destruct (at_ t) as [st|[res|X c k]|st] eqn:Hat; [| | |done].
  - destruct (todo t) as [|ev evs]; [done|]. simplify_eq. by eexists.
  - simplify_eq. by eexists.
  - destruct (sync a i c); [|done]. simpl in E. destruct (perform c _); [|done..]. simplify_eq. by eexists.
Qed.

Lemma worker_step_inv s i s' :
  worker_step srv n clock s i = Some s' ->
  exists t t' left, tasks (workers s) !! i = Some t /\ is_started clock s i = true /\
    take_byte (next_event t) (pipe_bytes s) (clock_bytes s) = Some left /\
    step_task (thread_body srv n) (workers s) i = Some (workers s') /\
    tasks (workers s') = <[i := t']> (tasks (workers s)) /\ todo t = option_list (next_event t) ++ todo t' /\
    s' = ServerProcess (workers s') (main_at s) (main_heap s) (main_trace s) (spawned s) (clock_spawned s) left.1 left.2.
Proof.
  unfold worker_step. intros E. destruct (tasks (workers s) !! i) as [t|] eqn:Ht; [|done]. simpl in E.
  destruct (is_started clock s i); [|done]. destruct (take_byte _ _ _) as [left|] eqn:Etake; [|done]. simpl in E.
  destruct (step_task _ _ i) as [w|] eqn:Ew; [|done]. simpl in E. simplify_eq. cbn [workers].
  destruct (step_task_todo _ _ _ _ _ Ew Ht) as (t' & Etasks & Etodo).
  by exists t, t', left.
Qed.

Lemma main_step_inv s s' :
  quiet (main_at s) -> main_step clock s = Some s' ->
  exists X (c : call X) k x w g, main_at s = Call c k /\ gate clock s c = Some g /\
    perform c (World (main_heap s) (shared (workers s)) (main_trace s)) = Returns x w /\
    s' = ServerProcess (workers s) (k x) (uheap w) (trace w) g.1.1.1 g.1.1.2 g.1.2 g.2.
Proof.
  unfold main_step. intros Hq E. destruct (main_at s) as [r|X c k] eqn:Em; [done|].
  destruct (gate clock s c) as [g|] eqn:Eg; [|done]. simpl in E.
  destruct (perform c _) as [x w| | |] eqn:Ec; [|done..].
  destruct (quiet_call _ _ Hq) as [Hc _].
  destruct (perform_silent c _ _ _ _ _ (quiet_silent _ Hc) Ec) as [Hd _].
  exists X, c, k, x, w, g. destruct g as [[[g1 g2] g3] g4]. simplify_eq. split_and!; [done..|]. cbn [fst snd]. f_equal.
  rewrite Hd. by destruct (workers s).
Qed.

(** ** Every schedule ends *)

Lemma child_acc {A} (p : SM D A) : Acc child p.
Proof.
  induction p as [a|X c k IH]; constructor; intros q Hq; [done|]. destruct Hq as [x ->]. apply IH.
Qed.

Lemma main_step_child s s' :
  main_step clock s = Some s' -> child (main_at s') (main_at s) /\ tasks (workers s') = tasks (workers s).
Proof.
  unfold main_step. intros E. destruct (main_at s) as [r|X c k]; [done|].
  destruct (gate clock s c) as [[[[g1 g2] g3] g4]|]; [|done]. simpl in E.
  destruct (perform c _) as [x w| | |]; [|done..]. simplify_eq. split; [by exists x|done].
Qed.

Lemma process_acc s : Acc (fun s2 s1 => exists a, process_step srv n clock s1 a = Some s2) s.
Proof.
  assert (Acc (symprod _ _ child (one_smaller task_step)) (main_at s, tasks (workers s))) as Hacc.
  { apply Acc_symprod; [apply child_acc|]. apply one_smaller_acc, Forall_forall. intros t _.
    by apply (task_step_acc (thread_body srv n)). }
  remember (main_at s, tasks (workers s)) as m eqn:Em. revert s Em. induction Hacc as [m _ IH]. intros s ->.
  constructor. intros s2 ([|i] & E); (eapply IH; [|done]); simpl in E.
  - destruct (main_step_child _ _ E) as [Hc ->]. by left.
  - destruct (worker_step_inv _ _ _ E) as (t & t' & left & _ & _ & _ & Ew & _ & _ & Es). rewrite Es. cbn [main_at workers].
    right. by eapply step_task_step.
Qed.
End steps.

(** ** Lists of events that a byte in a pipe ends *)

Definition closing {E} (inj : E -> thread_event) (final : E) (l : list thread_event) : Prop :=
  l = [] \/ exists es, l = inj <$> es ++ [final] /\ final ∉ es.

Lemma closing_tail {E} (inj : E -> thread_event) final ev l :
  closing inj final (ev :: l) -> closing inj final l /\ exists e, ev = inj e /\ (e = final <-> l = []).
Proof.
  intros [|([|e es] & El & Hf)]; [done|..]; simpl in El; simplify_eq.
  - split; [by left|]. by exists final.
  - apply not_elem_of_cons in Hf as [Hne Hf]. split; [right; by exists es|]. exists e. split; [done|].
    split; [congruence|]. intros Hn. apply (f_equal length) in Hn. rewrite length_fmap, length_app in Hn. simpl in Hn. lia.
Qed.

(** How many events of a trace satisfy [f]. *)
Definition count (f : io_event -> bool) (T : list io_event) : nat := sum_list_with (fun e => if f e then 1 else 0)%nat T.

Lemma count_app f T1 T2 : count f (T1 ++ T2) = (count f T1 + count f T2)%nat.
Proof. apply sum_list_with_app. Qed.

Definition is_spawn (e : io_event) : bool := match e with Spawned _ _ => true | _ => false end.
Definition is_clock_spawn (e : io_event) : bool := match e with SpawnedTimestamp => true | _ => false end.
Definition is_pipe_write (e : io_event) : bool := match e with WrotePipe => true | _ => false end.
Definition is_clock_write (e : io_event) : bool := match e with WroteTimestampPipe => true | _ => false end.

(** ** What all reachable states have in common *)

Section course.
Context {D : Type} `{CharDevice D} `{Allocator} `{Streams} (srv : server) (n clock : nat).
Context (w0 : @system D _ _ local thread_event) (res : option Z) (T_end : list io_event).
Implicit Types (s : @process D _ _) (t : @tstate D _ _ local thread_event).

(** Has the thread handled all its events, the last of which is its byte? *)
Definition took t : nat := match todo t with [] => 1 | _ => 0 end.

Record on_course s : Prop := {
  oc_workers : exists sched, run_steps (thread_body srv n) w0 sched = Some (workers s);
  oc_quiet : quiet (main_at s);
  oc_run : exists h, forall d, main_at s (World (main_heap s) d (main_trace s)) = Returns res (World h d T_end);
  oc_spawned : spawned s = count is_spawn (main_trace s);
  oc_clock_spawned : clock_spawned s = negb (count is_clock_spawn (main_trace s) =? 0)%nat;
  oc_waiting i : is_started clock s i = false -> tasks (workers s) !! i = tasks w0 !! i;
  oc_client i t : (i < clock)%nat -> tasks (workers s) !! i = Some t -> closing OfClient PollPipe (todo t);
  oc_clock i t : (clock <= i)%nat -> tasks (workers s) !! i = Some t -> closing OfClock ClockPipe (todo t);
  oc_pipe : (pipe_bytes s + sum_list_with took (take clock (tasks (workers s))) = count is_pipe_write (main_trace s))%nat;
  oc_clock_pipe :
    (clock_bytes s + sum_list_with took (drop clock (tasks (workers s))) = count is_clock_write (main_trace s))%nat
}.

(** The bytes that the step of a thread takes. *)
Lemma take_byte_client pipe cpipe t t' left :
  closing OfClient PollPipe (todo t) -> todo t = option_list (next_event t) ++ todo t' ->
  take_byte (next_event t) pipe cpipe = Some left ->
  closing OfClient PollPipe (todo t') /\ (left.1 + took t' = pipe + took t)%nat /\ left.2 = cpipe.
Proof.
  intros Hc Et Eb. unfold took. destruct (next_event t) as [ev|]; simpl in Et.
  - rewrite Et in Hc. apply closing_tail in Hc as [Hc (e & -> & He)]. split; [done|]. rewrite Et.
    destruct (todo t') as [|ev' l].
    + destruct He as [_ He]. specialize (He eq_refl) as ->. simpl in Eb. destruct pipe; simplify_eq/=. lia.
    + assert (e <> PollPipe) as Hne by (intros E; by apply He in E). simpl in Eb. destruct e; simplify_eq/=; lia.
  - simpl in Eb. simplify_eq/=. rewrite Et in Hc |- *. split; [done|]. lia.
Qed.

Lemma take_byte_clock pipe cpipe t t' left :
  closing OfClock ClockPipe (todo t) -> todo t = option_list (next_event t) ++ todo t' ->
  take_byte (next_event t) pipe cpipe = Some left ->
  closing OfClock ClockPipe (todo t') /\ left.1 = pipe /\ (left.2 + took t' = cpipe + took t)%nat.
Proof.
  intros Hc Et Eb. unfold took. destruct (next_event t) as [ev|]; simpl in Et.
  - rewrite Et in Hc. apply closing_tail in Hc as [Hc (e & -> & He)]. split; [done|]. rewrite Et.
    destruct (todo t') as [|ev' l].
    + destruct He as [_ He]. specialize (He eq_refl) as ->. simpl in Eb. destruct cpipe; simplify_eq/=. lia.
    + assert (e <> ClockPipe) as Hne by (intros E; by apply He in E). simpl in Eb. destruct e; simplify_eq/=; lia.
  - simpl in Eb. simplify_eq/=. rewrite Et in Hc |- *. split; [done|]. lia.
Qed.

Lemma on_course_worker s i s' : on_course s -> worker_step srv n clock s i = Some s' -> on_course s'.
Proof.
  intros [[sched Hw] Hq Hrun Hsp Hcs Hwait Hcl Hck Hp Hcp] E.
  destruct (worker_step_inv _ _ _ _ _ _ E) as (t & t' & left & Ht & Hst & Eb & Estep & Etasks & Etodo & ->).
  cbn [workers] in *. set (w' := workers s') in *. clearbody w'. clear E s'.
  pose proof (lookup_lt_Some _ _ _ Ht) as Hlt.
  assert (forall j u, tasks w' !! j = Some u -> (j = i /\ u = t') \/ tasks (workers s) !! j = Some u) as Hlook.
  { intros j u. rewrite Etasks. destruct (decide (j = i)) as [->|Hne];
      [rewrite list_lookup_insert_eq by done; intros; simplify_eq; by left|rewrite list_lookup_insert_ne by done; by right]. }
  assert (exists sched', run_steps (thread_body srv n) w0 sched' = Some w') as Hw'.
  { exists (sched ++ [i]). rewrite (run_steps_app _ _ _ _ _ Hw). simpl. by rewrite Estep. }
  destruct (decide (i < clock)%nat) as [Hi|Hi].
  - destruct (take_byte_client _ _ _ _ _ (Hcl i t Hi Ht) Etodo Eb) as (Hc' & Hleft & Hsame).
    split; cbn [workers main_at main_heap main_trace spawned clock_spawned pipe_bytes clock_bytes]; try done.
    + intros j Hj. rewrite Etasks, list_lookup_insert_ne; [by apply Hwait|]. intros ->. unfold is_started in *.
      cbn [clock_spawned spawned] in Hj. congruence.
    + intros j u Hj Hu. destruct (Hlook j u Hu) as [[-> ->]|]; [done|by eapply Hcl].
    + intros j u Hj Hu. destruct (Hlook j u Hu) as [[-> ->]|]; [lia|by eapply Hck].
    + rewrite Etasks, take_insert_lt by done.
      pose proof (sum_list_with_insert took (take clock (tasks (workers s))) i t' t) as Hsum.
      rewrite lookup_take_lt in Hsum by done. specialize (Hsum Ht). lia.
    + rewrite Etasks, drop_insert_lt by done. by rewrite Hsame.
  - destruct (take_byte_clock _ _ _ _ _ (Hck i t ltac:(lia) Ht) Etodo Eb) as (Hc' & Hsame & Hleft).
    split; cbn [workers main_at main_heap main_trace spawned clock_spawned pipe_bytes clock_bytes]; try done.
    + intros j Hj. rewrite Etasks, list_lookup_insert_ne; [by apply Hwait|]. intros ->. unfold is_started in *.
      cbn [clock_spawned spawned] in Hj. congruence.
    + intros j u Hj Hu. destruct (Hlook j u Hu) as [[-> ->]|]; [lia|by eapply Hcl].
    + intros j u Hj Hu. destruct (Hlook j u Hu) as [[-> ->]|]; [done|by eapply Hck].
    + rewrite Etasks, take_insert_ge by lia. by rewrite Hsame.
    + rewrite Etasks, drop_insert_ge by lia.
      pose proof (sum_list_with_insert took (drop clock (tasks (workers s))) (i - clock) t' t) as Hsum.
      rewrite lookup_drop in Hsum. replace (clock + (i - clock))%nat with i in Hsum by lia. specialize (Hsum Ht). lia.
Qed.

(** What a call of [main] adds to its trace, and what it does to the threads
    and the pipes. *)
Lemma gate_counts s {X} (c : call X) g h d T x w :
  (forall ph, next_phase ph c = Some ph) -> gate clock s c = Some g -> perform c (World h d T) = Returns x w ->
  exists T', trace w = T ++ T' /\
    g.1.1.1 = (spawned s + count is_spawn T')%nat /\
    g.1.1.2 = clock_spawned s || negb (count is_clock_spawn T' =? 0)%nat /\
    g.1.2 = (pipe_bytes s + count is_pipe_write T')%nat /\
    g.2 = (clock_bytes s + count is_clock_write T')%nat.
Proof.
  intros Hc Eg Ep. destruct c as [Y m|e| | | | | | |]; try (by specialize (Hc Before)); simpl in Ep; try done.
  - destruct (m h); [|done]. simplify_eq/=. exists []. rewrite app_nil_r, orb_false_r. split_and!; solve [done|cbn; lia].
  - simplify_eq/=. exists [e]. destruct e; simpl in Eg; repeat case_match; simplify_eq/=;
      rewrite ?orb_false_r, ?orb_true_r; split_and!; (done || lia).
Qed.

Lemma on_course_main s s' : on_course s -> main_step clock s = Some s' -> on_course s'.
Proof.
  intros [Hw Hq [h Hrun] Hsp Hcs Hwait Hcl Hck Hp Hcp] E.
  destruct (main_step_inv _ _ _ Hq E) as (X & c & k & x & w & g & Em & Eg & Ep & ->). clear E.
  rewrite Em in Hq, Hrun. destruct (quiet_call _ _ Hq) as [Hc Hqk].
  destruct (gate_counts s c g _ _ _ x w Hc Eg Ep) as (T' & Etr & G1 & G2 & G3 & G4).
  destruct (perform_silent c _ _ _ _ _ (quiet_silent _ Hc) Ep) as [_ Hany].
  split; cbn [workers main_at main_heap main_trace spawned clock_spawned pipe_bytes clock_bytes]; try done.
  - exists h. intros d. rewrite <- (Hrun d). unfold run. cbn [run_prog]. by rewrite Hany.
  - by rewrite Etr, count_app, G1, Hsp.
  - rewrite Etr, count_app, G2, Hcs. destruct (count is_clock_spawn (main_trace s)), (count is_clock_spawn T'); done.
  - intros i Hi. apply Hwait. unfold is_started in *. cbn [spawned clock_spawned] in Hi.
    destruct (decide (i = clock)); [by rewrite G2 in Hi; apply orb_false_iff in Hi as []|].
    apply bool_decide_eq_false in Hi. apply bool_decide_eq_false. lia.
  - rewrite Etr, count_app. lia.
  - rewrite Etr, count_app. lia.
Qed.

Lemma on_course_run s sched s' : on_course s -> run_process srv n clock s sched = Some s' -> on_course s'.
Proof.
  revert s. induction sched as [|a sched IH]; intros s Hs E; simpl in E; [by simplify_eq|].
  destruct (process_step srv n clock s a) as [s1|] eqn:E1; [|done]. simpl in E. apply (IH s1); [|done].
  destruct a; [by eapply on_course_main|by eapply on_course_worker].
Qed.

(** ** Where [main] waits *)

(** A call that [main] is about to make, at its place in the whole trace. *)
Lemma next_call s e k :
  on_course s -> main_at s = Call (Event e) k -> exists T, T_end = main_trace s ++ e :: T.
Proof.
  intros Hs Em. destruct (oc_run s Hs) as [h Hrun]. rewrite Em in Hrun. specialize (Hrun (shared (workers s))).
  unfold run in Hrun. cbn [run_prog perform uheap device_of trace] in Hrun.
  destruct (run_prog_trace _ _ _ _ Hrun) as [T E]. exists T. cbn [trace] in E. rewrite E. by rewrite <- app_assoc.
Qed.

(** When no step is possible, [main] has returned or is about to start a
    thread that is not the expected one, or to join one that has not ended. *)
Lemma main_blocked s :
  on_course s -> main_step clock s = None ->
  main_at s = Ret res \/
  exists e k, main_at s = Call (Event e) k /\
    match e with
    | Spawned i cd => (i =? Z.of_nat (spawned s)) && awaits (tasks (workers s) !! spawned s) cd = false
    | Joined i => has_ended s (Z.to_nat i) = false
    | JoinedTimestamp => has_ended s clock = false
    | _ => False
    end.
Proof.
  intros Hs E. pose proof (oc_quiet s Hs) as Hq. destruct (oc_run s Hs) as [h Hrun].
  specialize (Hrun (shared (workers s))). unfold main_step in E.
  destruct (main_at s) as [r|X c k] eqn:Em.
  { left. unfold run in Hrun. simpl in Hrun. by simplify_eq. }
  right. destruct (quiet_call _ _ Hq) as [Hc _]. unfold run in Hrun. cbn [run_prog] in Hrun.
  destruct (perform c _) as [x w| | |] eqn:Ep; try done.
  destruct (gate clock s c) as [[[[g1 g2] g3] g4]|] eqn:Eg; [done|]. clear E Ep Hrun.
  destruct c as [Y m|e| | | | | | |]; try done. exists e, k. split; [done|].
  destruct e; simpl in Eg; try done; try (by specialize (Hc After)); try (by specialize (Hc Before));
    by match type of Eg with (if ?b then _ else _) = _ => destruct b end.
Qed.
End course.
