(* ===== verification/ShutdownProps.v ===== *)
(** * The server process as a whole

    [main] accepts connections and starts the clients' threads, which are
    served while it goes on accepting; a signal makes it write to the pipes,
    wait for all threads and return.  However the calls of all these threads
    interleave, this comes to an end, in order. *)

From Stdlib.Strings Require Import String.
From S2P Require Import Prelude CInt CMem Footprint Common CircularBuffer TemporaryBuffer.
From S2P Require Import Ring CircularFacts CharDevice DeviceFacts WriteFacts DeviceSpec Scenario Concrete.
From S2P Require Import DeviceInterface DriverDevice Process CString SeekCommand Writer SocketServer SocketFacts HandlerFacts SocketProps.
From S2P Require Import FileDevice Timestamp Concurrency ConcurrencyFacts ServeSpec ServerThreads ThreadFacts ConcurrentProps.
From S2P Require Import AcceptProps ServerProcess ProcessFacts.
Import TemporaryBuffer.Server.

(** ** [main] leaves the device and the mutex alone *)

Section quiet_main.
Context {D : Type} `{CharDevice D} `{Allocator} `{Streams}.

Lemma logAndExit_quiet {A} s msg code : quiet (logAndExit s msg code : SM D A).
Proof.
  unfold logAndExit. destruct (_ <=? _); [apply quiet_exit|].
  apply quiet_bind; [apply cleanupMain_quiet|intros _; apply quiet_exit].
Qed.

#[local] Hint Resolve cleanupMain_quiet logAndExit_quiet : phased.

Lemma accept_loop_quiet s stop ts : quiet (accept_loop s stop ts : SM D (server * bool)).
Proof.
  revert s stop. induction ts as [|t ts IH]; intros s stop; cbn [accept_loop]; [solve_quiet|]. cbv zeta.
  destruct (negb _); [solve_quiet|]. destruct (_ <? 0); [solve_quiet|].
  apply quiet_bind; [unfold accept_client; solve_quiet|intros s'; apply IH].
Qed.

#[local] Hint Resolve accept_loop_quiet : phased.

Lemma server_main_quiet u ts : quiet (server_main u ts : SM D (option Z)).
Proof.
  unfold server_main, daemonize, setSignalSIGINTHandler, setSignalSIGTERMHandler, start_timestamps, open_timestamp_pipe.
  solve_quiet.
Qed.
End quiet_main.

(** ** Traces *)

(** Where an event that the first part of a list does not hold can be. *)
Lemma event_after (e : io_event) X Y P Q :
  X ++ e :: Y = P ++ Q -> e ∉ P -> exists Z, X = P ++ Z /\ Q = Z ++ e :: Y.
Proof.
  intros E He. destruct (app_eq_inv _ _ _ _ E) as [(Z & -> & HQ)|(Z & -> & HQ)]; [by exists Z|].
  destruct Z as [|e' Z]; simpl in HQ; [exists []; by rewrite !app_nil_r|].
  injection HQ as <- _. destruct He. apply elem_of_app. right. by left.
Qed.

Lemma count_none f T : Forall (fun e => f e = false) T -> count f T = O.
Proof. induction 1 as [|e T He _ IH]; [done|]. unfold count in *. simpl. by rewrite He. Qed.

Lemma count_all f T : Forall (fun e => f e = true) T -> count f T = length T.
Proof. induction 1 as [|e T He _ IH]; [done|]. unfold count in *. simpl. by rewrite He, IH. Qed.

(** The calls of [main] up to its last joins, and those from there on. *)
Definition before_joins (u : setup) (ts : list turn) : list io_event :=
  prepared u ++ started 0 ts ++ without_device u [WroteTimestampPipe; JoinedTimestamp] ++ replicate (length ts) WrotePipe.

Definition joins (u : setup) (ts : list turn) : list io_event :=
  map (fun i => Joined (Z.of_nat i)) (seq 0 (length ts)) ++ [ClosedSocket (socket_result u)] ++ without_device u [RemovedFile].

(** Events of kinds that the parts of the trace do not hold. *)
Definition of_kind (f : io_event -> bool) (T : list io_event) : Prop := Forall (fun e => f e = false) T.

Lemma prepared_none u f :
  (forall e, f e = true -> match e with Spawned _ _ | WrotePipe | WroteTimestampPipe | Joined _ | JoinedTimestamp => True | _ => False end) ->
  of_kind f (prepared u).
Proof.
  intros Hf. unfold of_kind, prepared, detached, without_device. repeat case_match; simpl; repeat constructor;
    match goal with |- f ?e = false => destruct (f e) eqn:E; [by apply Hf in E|done] end.
Qed.

Lemma started_spawns i ts : Forall (fun e => is_spawn e = true) (started i ts).
Proof.
  unfold started. apply Forall_lookup_2. intros j e He. apply lookup_zip_with_Some in He as (a & t & -> & _). done.
Qed.

Lemma started_none i ts f : (forall j cd, f (Spawned j cd) = false) -> of_kind f (started i ts).
Proof.
  intros Hf. eapply Forall_impl; [apply started_spawns|]. intros e He. by destruct e.
Qed.

Lemma started_lookup ts i e :
  started 0 ts !! i = Some e -> exists t, ts !! i = Some t /\ e = Spawned (Z.of_nat i) (client_of t).
Proof.
  unfold started. intros He. apply lookup_zip_with_Some in He as (a & t & -> & Ha & Ht). exists t. split; [done|].
  apply lookup_seqZ in Ha as [-> _]. by rewrite Z.add_0_l.
Qed.

Lemma started_length ts : length (started 0 ts) = length ts.
Proof. unfold started. rewrite length_zip_with, length_seqZ. lia. Qed.

Lemma joins_none u ts f :
  (forall e, f e = true -> match e with Joined _ | ClosedSocket _ | RemovedFile => False | _ => True end) -> of_kind f (joins u ts).
Proof.
  intros Hf. assert (forall e, match e with Joined _ | ClosedSocket _ | RemovedFile => f e = false | _ => True end) as Hf'.
  { intros e. specialize (Hf e). destruct e; try done; destruct (f _); try done; by destruct (Hf eq_refl). }
  unfold of_kind, joins. apply Forall_app. split.
  - apply Forall_fmap, Forall_forall. intros i _. apply (Hf' (Joined (Z.of_nat i))).
  - constructor; [apply (Hf' (ClosedSocket _))|]. unfold without_device. destruct (USE_AESD_CHAR_DEVICE u); [constructor|].
    constructor; [apply (Hf' RemovedFile)|constructor].
Qed.

(** The whole of it. *)
Definition all_calls (u : setup) (ts : list turn) : list io_event := before_joins u ts ++ joins u ts.

Definition is_join (e : io_event) : bool := match e with Joined _ => true | _ => false end.

Lemma of_kind_app f T1 T2 : of_kind f T1 -> of_kind f T2 -> of_kind f (T1 ++ T2).
Proof. intros. by apply Forall_app. Qed.

Lemma of_kind_not_in f T e : of_kind f T -> f e = true -> e ∉ T.
Proof. intros HT He Hin. unfold of_kind in HT. rewrite Forall_forall in HT. by rewrite HT in He. Qed.

Lemma count_writes u ts : count is_pipe_write (before_joins u ts) = length ts.
Proof.
  unfold before_joins. rewrite !count_app.
  rewrite (count_none _ (prepared u)) by (by apply prepared_none; intros []).
  rewrite (count_none _ (started 0 ts)) by (by apply started_none).
  rewrite (count_none _ (without_device u _)) by (unfold without_device; case_match; by repeat constructor).
  rewrite count_all by (by apply Forall_replicate). by rewrite length_replicate.
Qed.

Lemma count_spawns u ts : count is_spawn (before_joins u ts) = length ts.
Proof.
  unfold before_joins. rewrite !count_app.
  rewrite (count_none _ (prepared u)) by (by apply prepared_none; intros []).
  rewrite (count_all _ (started 0 ts)) by apply started_spawns.
  rewrite (count_none _ (without_device u _)) by (unfold without_device; case_match; by repeat constructor).
  rewrite (count_none _ (replicate _ _)) by (by apply Forall_replicate). rewrite started_length. lia.
Qed.

(** Before a join of a client's thread, all threads have been started and all
    bytes written. *)
Lemma before_join u ts X i Y :
  all_calls u ts = X ++ Joined i :: Y ->
  count is_spawn X = length ts /\ count is_pipe_write X = length ts /\ exists j, (j < length ts)%nat /\ i = Z.of_nat j.
Proof.
  intros E. destruct (event_after (Joined i) X Y (before_joins u ts) (joins u ts)) as (Z & -> & EZ); [by rewrite <- E| |].
  { apply (of_kind_not_in is_join); [|done]. unfold before_joins. apply of_kind_app; [|apply of_kind_app; [|apply of_kind_app]].
    - by apply prepared_none; intros [].
    - by apply started_none.
    - unfold without_device. case_match; by repeat constructor.
    - by apply Forall_replicate. }
  assert (of_kind is_spawn Z /\ of_kind is_pipe_write Z) as [Z1 Z2].
  { assert (of_kind is_spawn (joins u ts) /\ of_kind is_pipe_write (joins u ts)) as [J1 J2]
      by (split; by apply joins_none; intros []).
    rewrite EZ in J1, J2. apply Forall_app in J1 as [? _]. by apply Forall_app in J2 as [? _]. }
  rewrite !count_app, count_spawns, count_writes, !(count_none _ Z) by done. split_and!; [lia|lia|].
  assert (Joined i ∈ joins u ts) as Hin by (rewrite EZ, elem_of_app; right; by left).
  unfold joins in Hin. apply elem_of_app in Hin as [Hin|Hin].
  - apply list_elem_of_fmap in Hin as (j & [= ->] & Hj). apply elem_of_seq in Hj. exists j. lia.
  - exfalso. revert Hin. apply (of_kind_not_in is_join); [|done]. unfold without_device. case_match; by repeat constructor.
Qed.

(** Before the join of the clock's thread, it has been started and its byte
    written. *)
Lemma before_clock_join u ts X Y :
  all_calls u ts = X ++ JoinedTimestamp :: Y ->
  USE_AESD_CHAR_DEVICE u = false /\ count is_clock_spawn X = 1%nat /\ count is_clock_write X = 1%nat.
Proof.
  intros E. unfold all_calls, before_joins in E. rewrite <- !app_assoc in E.
  set (is_cj := fun e => match e with JoinedTimestamp => true | _ => false end).
  destruct (event_after JoinedTimestamp X Y (prepared u) _ (eq_sym E)) as (Z1 & -> & E1).
  { apply (of_kind_not_in is_cj); [|done]. by apply prepared_none; intros []. }
  destruct (event_after JoinedTimestamp Z1 Y (started 0 ts) _ (eq_sym E1)) as (Z2 & -> & E2).
  { apply (of_kind_not_in is_cj); [|done]. by apply started_none. }
  rewrite !count_app, !(count_none _ (started 0 ts)) by (by apply started_none).
  rewrite (count_none is_clock_write (prepared u)) by (by apply prepared_none; intros []).
  unfold without_device in E2. unfold prepared, without_device. destruct (USE_AESD_CHAR_DEVICE u) eqn:Eu.
  - exfalso. simpl in E2. assert (JoinedTimestamp ∈ replicate (length ts) WrotePipe ++ joins u ts) as Hin
      by (rewrite E2, elem_of_app; right; by left).
    revert Hin. apply (of_kind_not_in is_cj); [|done]. apply of_kind_app; [by apply Forall_replicate|].
    by apply joins_none; intros [].
  - destruct Z2 as [|e Z2]; simpl in E2; [done|]. injection E2 as <- E2.
    destruct Z2 as [|e Z2]; simpl in E2.
    + split; [done|]. split; [|done]. rewrite !count_app. unfold detached.
      repeat case_match; done.
    + exfalso. injection E2 as <- E2.
      assert (JoinedTimestamp ∈ replicate (length ts) WrotePipe ++ joins u ts) as Hin
        by (rewrite E2, elem_of_app; right; by left).
      revert Hin. apply (of_kind_not_in is_cj); [|done]. apply of_kind_app; [by apply Forall_replicate|].
      by apply joins_none; intros [].
Qed.

(** The threads are started in order. *)
Lemma before_spawn u ts X i cd Y :
  all_calls u ts = X ++ Spawned i cd :: Y ->
  i = Z.of_nat (count is_spawn X) /\ exists t, ts !! count is_spawn X = Some t /\ cd = client_of t.
Proof.
  intros E. unfold all_calls, before_joins in E. rewrite <- !app_assoc in E.
  destruct (event_after (Spawned i cd) X Y (prepared u) _ (eq_sym E)) as (Z & -> & E1).
  { apply (of_kind_not_in is_spawn); [|done]. by apply prepared_none; intros []. }
  destruct (app_eq_inv _ _ _ _ E1) as [(Z' & E2 & E3)|(Z' & -> & E3)].
  - destruct Z' as [|e Z']; simpl in E3.
    { exfalso. assert (Spawned i cd ∈ without_device u [WroteTimestampPipe; JoinedTimestamp] ++
        replicate (length ts) WrotePipe ++ joins u ts) as Hin by (rewrite <- E3; by left).
      revert Hin. apply (of_kind_not_in is_spawn); [|done]. apply of_kind_app; [|apply of_kind_app].
      - unfold without_device. case_match; by repeat constructor.
      - by apply Forall_replicate.
      - by apply joins_none; intros []. }
    injection E3 as <- _. pose proof (started_spawns 0 ts) as Hsp. rewrite E2 in Hsp. apply Forall_app in Hsp as [Hsp _].
    rewrite count_app, (count_none is_spawn (prepared u)), (count_all _ _ Hsp) by (by apply prepared_none; intros []).
    simpl. destruct (started_lookup ts (length Z) (Spawned i cd)) as (t & Ht & [= -> ->]).
    { by rewrite E2, list_lookup_middle. }
    split; [done|]. by exists t.
  - exfalso. assert (Spawned i cd ∈ without_device u [WroteTimestampPipe; JoinedTimestamp] ++
      replicate (length ts) WrotePipe ++ joins u ts) as Hin by (rewrite E3, elem_of_app; right; by left).
    revert Hin. apply (of_kind_not_in is_spawn); [|done]. apply of_kind_app; [|apply of_kind_app].
    + unfold without_device. case_match; by repeat constructor.
    + by apply Forall_replicate.
    + by apply joins_none; intros [].
Qed.

(** ** The threads that will be started *)

(** The thread of the connection of a turn: what its client sends before the
    byte of the shutdown reaches it. *)
Inductive client_future `{CharDevice D} `{Streams} (t : turn) : @tstate D _ _ local thread_event -> Prop :=
  | ClientFuture es cp h T :
      PollPipe ∉ es ->
      client_future t (Tstate (OfClient <$> es ++ [PollPipe]) (Idle (ClientThread cp (client_of t) (Temporary NULL 0))) h T).

Inductive clock_future `{CharDevice D} `{Streams} : @tstate D _ _ local thread_event -> Prop :=
  | ClockFuture es h T : ClockPipe ∉ es -> clock_future (Tstate (OfClock <$> es ++ [ClockPipe]) (Idle ClockThread) h T).

(** One for each turn that accepts, and the clock in the build on the file. *)
Definition workers_of `{CharDevice D} `{Streams} (u : setup) (ts : list turn)
    (ws : list (@tstate D _ _ local thread_event)) : Prop :=
  exists clients clocks, ws = clients ++ clocks /\ Forall2 client_future ts clients /\ Forall clock_future clocks /\
    length clocks = (if USE_AESD_CHAR_DEVICE u then 0 else 1)%nat.

(** A thread of the specification that has ended, or has its byte to come. *)
Definition spec_open (t : thread_spec) : Prop :=
  sp_ended t = true \/
  (sp_todo t <> [] /\ (closing OfClient PollPipe (sp_todo t) \/ closing OfClock ClockPipe (sp_todo t))).

Section spec.
Context {C : Type} `{DeviceModel C} `{Streams}.
Implicit Types (x : @spec C).

Lemma spec_open_event t (c : C) ev evs : sp_todo t = ev :: evs -> spec_open t -> sp_ended t = false -> spec_open (after_event t c ev evs).
Proof.
  intros Et [He|[_ Hc]] Hend; [congruence|]. unfold spec_open, after_event. cbn [sp_ended sp_todo]. rewrite Et in Hc.
  destruct Hc as [Hc|Hc]; apply closing_tail in Hc as [Hc (e & -> & He)];
    (destruct evs as [|ev' evs]; [left; by rewrite (proj2 He eq_refl)|right; split; [done|auto]]).
Qed.

Lemma serve_open x order x' : serve x order = Some x' -> Forall spec_open (threads x) -> Forall spec_open (threads x').
Proof.
  revert x. induction order as [|i order IH]; intros x E Hx; simpl in E; [by simplify_eq|].
  destruct (serve_step x i) as [x1|] eqn:E1; [|done]. simpl in E. apply (IH x1 E). clear IH E.
  unfold serve_step in E1. destruct (threads x !! i) as [t|] eqn:Et; [|done]. simpl in E1.
  destruct (sp_ended t) eqn:He, (sp_todo t) as [|ev evs] eqn:Hto; try done. simplify_eq. cbn [threads].
  apply Forall_insert; [done|]. apply spec_open_event; [done|by eapply Forall_lookup_1|done].
Qed.
End spec.

Lemma closing_snoc {E} (inj : E -> thread_event) final es : final ∉ es -> closing inj final (inj <$> es ++ [final]).
Proof. right. by exists es. Qed.

Lemma fmap_snoc_nonempty {E} (inj : E -> thread_event) es e : inj <$> es ++ [e] <> [].
Proof. rewrite fmap_app. by destruct (inj <$> es). Qed.

Section futures.
Context `{CharDevice D} `{Streams} (u : setup) (ts : list turn) (ws : list (@tstate D _ _ local thread_event)).
Context (Hws : workers_of u ts ws).

(** The threads as they are at the beginning. *)
Lemma client_at i t : (i < length ts)%nat -> ws !! i = Some t -> exists t0, ts !! i = Some t0 /\ client_future t0 t.
Proof.
  destruct Hws as (cs & ks & -> & Hcs & _). intros Hi Ht. pose proof (Forall2_length _ _ _ Hcs) as Hl.
  rewrite lookup_app_l in Ht by lia. destruct (Forall2_lookup_r _ _ _ _ _ Hcs Ht) as (t0 & ? & ?). by exists t0.
Qed.

Lemma clock_at i t : (length ts <= i)%nat -> ws !! i = Some t -> clock_future t.
Proof.
  destruct Hws as (cs & ks & -> & Hcs & Hks & _). intros Hi Ht. pose proof (Forall2_length _ _ _ Hcs) as Hl.
  rewrite lookup_app_r in Ht by lia. by eapply Forall_lookup_1.
Qed.

Lemma workers_length : length ws = (length ts + if USE_AESD_CHAR_DEVICE u then 0 else 1)%nat.
Proof.
  destruct Hws as (cs & ks & -> & Hcs & _ & Hl). pose proof (Forall2_length _ _ _ Hcs). rewrite length_app. lia.
Qed.

End futures.

(** ** A process in which no step is possible *)

Section shutdown.
Context {D C : Type} `{CharDeviceLaws D C} `{Allocator} `{Streams}.
Context (srv : server) (n : nat).
Context (Hopen : forall k, fopen_ok k = true) (Hrel : reliable) (Hbuf : BUFFER_SIZE <= alloc_max).
Context (u : setup) (ts : list turn) (ws : list (@tstate D _ _ local thread_event)) (d0 : D) (x0 : @spec C).
Context (Hws : workers_of u ts ws) (Hserve : serving n (System ws d0 None) x0).
Context (res : option Z) (T_end : list io_event).
Implicit Types (s : @process D _ _).

Let clock := length ts.
Let course := on_course srv n clock (System ws d0 None) res T_end.

(** Threads inside a body are started, and can go on unless they wait for the
    mutex; so all are between bodies. *)
Lemma blocked_quiescent s : course s -> blocked srv n clock s -> quiescent (workers s).
Proof.
  intros Hs Hb. pose proof (serving_quiescent _ _ _ Hserve) as [Hq0 _].
  destruct (oc_workers _ _ _ _ _ _ _ Hs) as [sched Hrun].
  destruct (reachable_related srv n Hopen Hrel Hbuf _ x0 sched _ Hserve Hrun) as (a & Ha & Hr).
  assert (forall i t p, tasks (workers s) !! i = Some t -> at_ t = Busy p ->
            exists k j, p = Call (Event Locked) k /\ owner (workers s) = Some j /\ j <> i) as Hwait.
  { intros i t p Ht Hat.
    destruct (busy_steps (thread_body srv n) (served_by n x0)
                (Inv_step srv n Hopen Hrel Hbuf x0) (served_by_no_join n x0) a (workers s) i t p Ha Hr Ht Hat)
      as [[s'' E]|Hl]; [|done]. exfalso.
    assert (is_started clock s i = true) as Hst.
    { destruct (is_started clock s i) eqn:Hst; [done|]. rewrite (oc_waiting _ _ _ _ _ _ _ Hs i Hst) in Ht. cbn [tasks] in Ht.
      pose proof (Forall_lookup_1 _ _ _ _ Hq0 Ht) as Hidle. simpl in Hidle. by rewrite Hat in Hidle. }
    specialize (Hb (Worker i)). simpl in Hb. unfold worker_step in Hb. rewrite Ht, Hst in Hb. simpl in Hb.
    unfold next_event in Hb. rewrite Hat in Hb. simpl in Hb. by rewrite E in Hb. }
  assert (owner (workers s) = None) as Ho.
  { destruct (owner (workers s)) as [j|] eqn:Ho; [|done]. exfalso.
    destruct (rel_holder _ _ _ Hr j Ho) as (t & p & Ht & Hat).
    destruct (Hwait j t p Ht Hat) as (k & j' & _ & Ho' & Hne). congruence. }
  split; [|done]. apply Forall_lookup_2. intros i t Ht. destruct (at_ t) as [|p|] eqn:Hat; [done| |done].
  destruct (Hwait i t p Ht Hat) as (k & j & _ & Ho' & _). congruence.
Qed.

(** What the threads have done then. *)
Lemma blocked_served s :
  course s -> blocked srv n clock s ->
  exists order x, serve x0 order = Some x /\ serving n (workers s) x.
Proof.
  intros Hs Hb. destruct (oc_workers _ _ _ _ _ _ _ Hs) as [sched Hrun].
  destruct (reachable_related srv n Hopen Hrel Hbuf _ x0 sched _ Hserve Hrun) as (a & (order & x & Ex & Hx) & Hr).
  exists order, x. by rewrite <- (related_quiescent _ _ _ Hr (blocked_quiescent s Hs Hb)).
Qed.

Lemma specs_open : Forall spec_open (threads x0).
Proof.
  apply Forall_lookup_2. intros i t Ht.
  destruct (Forall2_lookup_r _ _ _ _ _ (sv_threads _ _ _ Hserve) Ht) as (w & Hw & Him). cbn [tasks] in Hw.
  unfold spec_open. rewrite <- (im_todo _ _ Him). right. destruct (decide (i < clock)%nat) as [Hi|Hi].
  - destruct (client_at u ts ws Hws i w Hi Hw) as (t0 & _ & []). split; [apply fmap_snoc_nonempty|left; by apply closing_snoc].
  - destruct (clock_at u ts ws Hws i w ltac:(unfold clock in *; lia) Hw) as []. split; [apply fmap_snoc_nonempty|right; by apply closing_snoc].
Qed.

Lemma run_steps_length (a a' : @system D _ _ local thread_event) sched :
  run_steps (thread_body srv n) a sched = Some a' -> length (tasks a') = length (tasks a).
Proof.
  revert a. induction sched as [|i sched IH]; intros a E; simpl in E; [by simplify_eq|].
  destruct (step_task (thread_body srv n) a i) as [a1|] eqn:E1; [|done]. simpl in E. rewrite (IH _ E).
  destruct (step_task_tasks _ _ _ _ E1) as (t & t' & _ & ->). apply length_insert.
Qed.

Lemma took_lt (l : list (@tstate D _ _ local thread_event)) i t :
  l !! i = Some t -> todo t <> [] -> (sum_list_with took l < length l)%nat.
Proof.
  assert (forall l : list (@tstate D _ _ local thread_event), (sum_list_with took l <= length l)%nat) as Hle.
  { induction l0 as [|t0 l0 IH]; simpl; [lia|]. unfold took at 1. destruct (todo t0); lia. }
  intros Ht Hne. revert i Ht. induction l as [|t0 l IH]; intros [|i] Ht; simplify_eq/=.
  - unfold took at 1. specialize (Hle l). destruct (todo t); [done|lia].
  - specialize (IH i Ht). unfold took at 1. destruct (todo t0); lia.
Qed.

(** A started thread has ended, unless it waits for its byte. *)
Lemma blocked_waits s i :
  course s -> blocked srv n clock s -> (i < length ws)%nat -> is_started clock s i = true ->
  has_ended s i = true \/
  exists t ev, tasks (workers s) !! i = Some t /\ todo t = [ev] /\ take_byte (Some ev) (pipe_bytes s) (clock_bytes s) = None.
Proof.
  intros Hs Hb Hi Hst. destruct (oc_workers _ _ _ _ _ _ _ Hs) as [sched Hrun].
  destruct (lookup_lt_is_Some_2 (tasks (workers s)) i) as [t Ht]; [by rewrite (run_steps_length _ _ _ Hrun)|].
  destruct (blocked_served s Hs Hb) as (order & x & Ex & Hx).
  destruct (Forall2_lookup_l _ _ _ _ _ (sv_threads _ _ _ Hx) Ht) as (tx & Htx & Him). pose proof (im_at _ _ Him) as Hat.
  unfold has_ended. rewrite Ht. destruct t as [evs [st|p|st] h T]; cbn [at_] in Hat; [|done|by left]. right.
  destruct (Forall_lookup_1 _ _ _ _ (serve_open _ _ _ Ex specs_open) Htx) as [He|[Hne Hc]]; [destruct Hat; congruence|].
  rewrite <- (im_todo _ _ Him) in Hne, Hc. cbn [todo] in Hne, Hc. destruct evs as [|ev evs]; [done|].
  eexists _, ev. split; [done|]. cbn [todo].
  assert (take_byte (Some ev) (pipe_bytes s) (clock_bytes s) = None) as Hnone.
  { specialize (Hb (Worker i)). unfold process_step, worker_step in Hb. rewrite Ht in Hb. cbn [mbind option_bind] in Hb.
    rewrite Hst in Hb. change (next_event _) with (Some ev) in Hb.
    destruct (take_byte _ _ _); [|done]. unfold step_task in Hb. by rewrite Ht in Hb. }
  split; [|done]. f_equal.
  destruct Hc as [Hc|Hc]; apply closing_tail in Hc as [_ (e & -> & He)]; apply He; simpl in Hnone;
    destruct e; try done; by destruct (pipe_bytes s) || by destruct (clock_bytes s).
Qed.

(** The byte for each client's thread has been written: all have ended. *)
Lemma client_ended s i :
  course s -> blocked srv n clock s -> (i < clock)%nat -> is_started clock s i = true ->
  count is_pipe_write (main_trace s) = clock -> has_ended s i = true.
Proof.
  intros Hs Hb Hi Hst Hcount. pose proof (workers_length u ts ws Hws).
  destruct (blocked_waits s i Hs Hb ltac:(lia) Hst) as [|(t & ev & Ht & Etodo & Hnone)]; [done|].
  pose proof (oc_client _ _ _ _ _ _ _ Hs i t Hi Ht) as Hc. rewrite Etodo in Hc. apply closing_tail in Hc as [_ (e & -> & He)].
  rewrite (proj2 He eq_refl) in Hnone. simpl in Hnone. pose proof (oc_pipe _ _ _ _ _ _ _ Hs) as Hp.
  destruct (pipe_bytes s); [|done]. destruct (oc_workers _ _ _ _ _ _ _ Hs) as [sched Hrun].
  pose proof (took_lt (take clock (tasks (workers s))) i t) as Hlt. rewrite lookup_take_lt in Hlt by done.
  specialize (Hlt Ht ltac:(by rewrite Etodo)). rewrite length_take in Hlt. lia.
Qed.

Lemma clock_ended s :
  course s -> blocked srv n clock s -> USE_AESD_CHAR_DEVICE u = false -> clock_spawned s = true ->
  count is_clock_write (main_trace s) = 1%nat -> has_ended s clock = true.
Proof.
  intros Hs Hb Hu Hst Hcount. pose proof (workers_length u ts ws Hws) as Hl. rewrite Hu in Hl.
  destruct (blocked_waits s clock Hs Hb ltac:(lia)) as [|(t & ev & Ht & Etodo & Hnone)];
    [by unfold is_started; rewrite decide_True|done|].
  pose proof (oc_clock _ _ _ _ _ _ _ Hs clock t ltac:(lia) Ht) as Hc. rewrite Etodo in Hc.
  apply closing_tail in Hc as [_ (e & -> & He)].
  rewrite (proj2 He eq_refl) in Hnone. simpl in Hnone. pose proof (oc_clock_pipe _ _ _ _ _ _ _ Hs) as Hp.
  destruct (clock_bytes s); [|done]. destruct (oc_workers _ _ _ _ _ _ _ Hs) as [sched Hrun].
  pose proof (took_lt (drop clock (tasks (workers s))) 0 t) as Hlt. rewrite lookup_drop, Nat.add_0_r in Hlt.
  specialize (Hlt Ht ltac:(by rewrite Etodo)). rewrite length_drop, (run_steps_length _ _ _ Hrun) in Hlt. cbn [tasks] in Hlt. lia.
Qed.
End shutdown.

(** ** The process from [main]'s first call on *)

Section process.
Context {D C : Type} `{CharDeviceLaws D C} `{Allocator} `{Streams}.
Context (srv : server) (n : nat).
Context (Hopen : forall k, fopen_ok k = true) (Hrel : reliable) (Hbuf : BUFFER_SIZE <= alloc_max).
Context (Hmin : sizeof_clientData <= alloc_max).
Context (u : setup) (ts : list turn) (t : turn).
Context (Hu : setup_ok u) (Hts : Forall ordinary ts) (Hlen : (0 < length ts <= 128)%nat) (Hstop : stops t).
Context (ws : list (@tstate D _ _ local thread_event)) (d : D) (x : @spec C) (h : heap) (K : list chunk).
Context (Hws : workers_of u ts ws) (Hserve : serving n (System ws d None) x) (Hh : holds h K).
Implicit Types (s : @process D _ _).

Let started_process := boot ws d (server_main u (ts ++ [t])) h.
Let course := on_course srv n (length ts) (System ws d None) (Some EXIT_SUCCESS) (all_calls u ts).

Lemma took_nothing (l : list (@tstate D _ _ local thread_event)) :
  (forall t, t ∈ l -> todo t <> []) -> sum_list_with took l = O.
Proof.
  induction l as [|t0 l IH]; intros Hl; simpl; [done|]. rewrite IH by (intros; apply Hl; by right).
  unfold took. specialize (Hl t0 ltac:(by left)). by destruct (todo t0).
Qed.

Lemma boot_on_course : course started_process.
Proof.
  destruct (server_shuts_down Hrel Hmin u ts t (World h d []) K Hu Hts Hlen Hstop Hh) as (w' & E & Etr).
  assert (forall t0, t0 ∈ ws -> todo t0 <> []) as Hne.
  { intros t0 [i Ht]%list_elem_of_lookup. destruct (decide (i < length ts)%nat) as [Hi|Hi].
    - destruct (client_at u ts ws Hws i t0 Hi Ht) as (? & _ & []). apply fmap_snoc_nonempty.
    - destruct (clock_at u ts ws Hws i t0 ltac:(lia) Ht) as []. apply fmap_snoc_nonempty. }
  split; cbn [started_process boot workers main_at main_heap main_trace spawned clock_spawned pipe_bytes clock_bytes tasks].
  - by exists [].
  - apply server_main_quiet.
  - exists (uheap w'). intros d2. rewrite (quiet_any_device _ _ _ _ _ _ (server_main_quiet u (ts ++ [t])) E d2).
    rewrite Etr. unfold all_calls, before_joins, joins. by rewrite <- !app_assoc.
  - done.
  - done.
  - done.
  - intros i t0 Hi Ht. destruct (client_at u ts ws Hws i t0 Hi Ht) as (? & _ & []). by apply closing_snoc.
  - intros i t0 Hi Ht. destruct (clock_at u ts ws Hws i t0 Hi Ht) as []. by apply closing_snoc.
  - rewrite took_nothing; [done|]. intros t0 Ht. apply Hne. rewrite <- (take_drop (length ts) ws). apply elem_of_app. by left.
  - rewrite took_nothing; [done|]. intros t0 Ht. apply Hne. rewrite <- (take_drop (length ts) ws). apply elem_of_app. by right.
Qed.

(** [main] does not wait for ever. *)
Lemma main_done s : course s -> blocked srv n (length ts) s -> main_at s = Ret (Some EXIT_SUCCESS).
Proof.
  intros Hs Hb. destruct (main_blocked srv n (length ts) _ _ _ s Hs (Hb Main)) as [|(e & k & Em & He)]; [done|exfalso].
  destruct (next_call srv n (length ts) _ _ _ s e k Hs Em) as [Y EY].
  destruct e; try done.
  - destruct (before_spawn u ts _ _ _ _ EY) as [Ei (t0 & Ht0 & Ecd)].
    rewrite <- (oc_spawned _ _ _ _ _ _ _ Hs) in Ei, Ht0. pose proof (lookup_lt_Some _ _ _ Ht0) as Hlt.
    rewrite (proj2 (Z.eqb_eq _ _) Ei) in He.
    rewrite (oc_waiting _ _ _ _ _ _ _ Hs) in He.
    2:{ unfold is_started. rewrite decide_False by lia. apply bool_decide_eq_false. lia. }
    cbn [tasks] in He. destruct (lookup_lt_is_Some_2 ws (spawned s)) as [w Hw]; [rewrite (workers_length u ts ws Hws); lia|].
    destruct (client_at u ts ws Hws _ _ Hlt Hw) as (t1 & Ht1 & Hf). assert (t1 = t0) as -> by congruence.
    rewrite Hw in He. destruct Hf. unfold awaits in He. cbn [tmp_buffptr tmp_size] in He.
    rewrite Ecd, bool_decide_eq_true_2 in He by done. done.
  - destruct (before_join u ts _ _ _ EY) as (Hsp & Hwr & j & Hj & ->). rewrite Nat2Z.id in He.
    rewrite (client_ended srv n Hopen Hrel Hbuf u ts ws d x Hws Hserve _ _ s j Hs Hb Hj) in He; [done| |done].
    unfold is_started. rewrite decide_False by lia. apply bool_decide_eq_true. rewrite (oc_spawned _ _ _ _ _ _ _ Hs). lia.
  - destruct (before_clock_join u ts _ _ EY) as (Hdev & Hsp & Hwr).
    rewrite (clock_ended srv n Hopen Hrel Hbuf u ts ws d x Hws Hserve _ _ s Hs Hb Hdev) in He; [done| |done].
    by rewrite (oc_clock_spawned _ _ _ _ _ _ _ Hs), Hsp.
Qed.

(** C10: the server shuts down in order under load.  The clients' events are
    such that in no order of serving them there is an error of [recv], a
    malformed command or a seek the device refuses ([serving]); memory is
    available, every [fopen] succeeds and the calls that set the server up do
    too.  It accepts up to 128 connections while the clients accepted before
    are being served, and then gets a signal.  However the calls of [main], of the clients' threads and
    of the clock interleave, they come to an end, and where no call is
    possible, [main] has made all its calls in order and returned 0, after
    every thread had ended; what the clients were sent, and what the device
    holds, is what serving them event by event in some order gives. *)
Theorem server_process_shuts_down :
  let s0 := boot ws d (server_main u (ts ++ [t])) h in
  Acc (fun s2 s1 => exists a, process_step srv n (length ts) s1 a = Some s2) s0 /\
  forall sched s, run_process srv n (length ts) s0 sched = Some s -> blocked srv n (length ts) s ->
    main_at s = Ret (Some EXIT_SUCCESS) /\ main_trace s = all_calls u ts /\
    Forall (fun w => exists st, at_ w = Ended st) (tasks (workers s)) /\
    exists order x', serve x order = Some x' /\ dev_abs (shared (workers s)) (held x') /\
      Forall2 implements (tasks (workers s)) (threads x').
Proof.
  intros s0. split; [apply process_acc|]. intros sched s E Hb.
  pose proof (on_course_run srv n (length ts) _ _ _ _ _ _ boot_on_course E) as Hs.
  pose proof (main_done s Hs Hb) as Hmain.
  assert (main_trace s = all_calls u ts) as Htr.
  { destruct (oc_run _ _ _ _ _ _ _ Hs) as [h' Hrun]. rewrite Hmain in Hrun. specialize (Hrun d).
    unfold run in Hrun. simpl in Hrun. by simplify_eq. }
  destruct (blocked_served srv n Hopen Hrel Hbuf ts ws d x Hserve _ _ s Hs Hb) as (order & x' & Ex & Hx).
  split; [done|]. split; [done|]. split; [|exists order, x'; split; [done|split; apply Hx]].
  apply Forall_lookup_2. intros i w Hw. destruct (oc_workers _ _ _ _ _ _ _ Hs) as [sched' Hrun].
  pose proof (lookup_lt_Some _ _ _ Hw) as Hi. rewrite (run_steps_length _ _ _ _ _ Hrun) in Hi. cbn [tasks] in Hi.
  assert (has_ended s i = true) as Hend.
  2:{ unfold has_ended in Hend. rewrite Hw in Hend. destruct w as [evs [st|p|st] h0 T0]; try done. by exists st. }
  rewrite (workers_length u ts ws Hws) in Hi. destruct (decide (i < length ts)%nat) as [Hlt|Hge].
  - apply (client_ended srv n Hopen Hrel Hbuf u ts ws d x Hws Hserve _ _ s i Hs Hb Hlt).
    + unfold is_started. rewrite decide_False by lia. apply bool_decide_eq_true.
      rewrite (oc_spawned _ _ _ _ _ _ _ Hs), Htr. unfold all_calls. rewrite count_app, count_spawns. lia.
    + rewrite Htr. unfold all_calls. rewrite count_app, count_writes, (count_none _ (joins u ts)); [lia|]. by apply joins_none; intros [].
  - destruct (USE_AESD_CHAR_DEVICE u) eqn:Hdev; [lia|]. assert (i = length ts) as -> by lia.
    assert (count is_clock_spawn (all_calls u ts) = 1%nat /\ count is_clock_write (all_calls u ts) = 1%nat) as [C1 C2].
    { unfold all_calls, before_joins, prepared, detached, without_device. rewrite Hdev, !count_app.
      rewrite !(count_none _ (started 0 ts)) by (by apply started_none).
      rewrite !(count_none _ (replicate _ _)) by (by apply Forall_replicate).
      rewrite !(count_none _ (joins u ts)) by (by apply joins_none; intros []).
      repeat case_match; done. }
    apply (clock_ended srv n Hopen Hrel Hbuf u ts ws d x Hws Hserve _ _ s Hs Hb Hdev).
    + by rewrite (oc_clock_spawned _ _ _ _ _ _ _ Hs), Htr, C1.
    + by rewrite Htr.
Qed.
End process.

(** ** An instance: two clients on the driver *)

#[local] Existing Instance one_write.

Section instance.
Context {D : Type} `{HD : CharDevice D}.

(** No agent can make a step. *)
Definition all_blocked (clock : nat) (s : @process D HD one_write) : bool :=
  forallb (fun a => match @process_step D HD malloc one_write srv0 2000 clock s a with None => true | Some _ => false end)
    (Main :: (Worker <$> seq 0 (length (tasks (workers s))))).

Lemma all_blocked_spec clock s : all_blocked clock s = true -> @blocked D HD malloc one_write srv0 2000 clock s.
Proof.
  unfold all_blocked. rewrite forallb_forall. intros Hall a.
  assert (forall b, In b (Main :: (Worker <$> seq 0 (length (tasks (workers s))))) ->
            @process_step D HD malloc one_write srv0 2000 clock s b = None) as Hin
    by (intros b Hb; specialize (Hall b Hb); by destruct (process_step _ _ _ _ _)).
  destruct a as [|i]; [apply Hin; by left|]. destruct (decide (i < length (tasks (workers s)))%nat) as [Hi|Hi].
  - apply Hin. right. apply list_elem_of_In, list_elem_of_fmap. exists i. split; [done|]. apply elem_of_seq. lia.
  - simpl. unfold worker_step. by rewrite lookup_ge_None_2 by lia.
Qed.

Lemma run_all clock s0 fuel k :
  (let sched := @take_turns D HD malloc one_write srv0 2000 clock fuel k 0 s0 in
   match @run_process D HD malloc one_write srv0 2000 clock s0 sched with Some s => all_blocked clock s | None => false end) = true ->
  exists sched s, @run_process D HD malloc one_write srv0 2000 clock s0 sched = Some s /\
    @blocked D HD malloc one_write srv0 2000 clock s.
Proof.
  simpl. set (sched := take_turns _ _ _ _ _ _ _). intros Hall. exists sched.
  destruct (run_process _ _ _ _ sched) as [s|]; [|done]. exists s. split; [done|by apply all_blocked_spec].
Qed.

Lemma future_of cd es p :
  cd = client_of p -> PollPipe ∉ es -> client_future p (@client_task D HD cd (es ++ [PollPipe])).
Proof. intros -> Hes. exact (ClientFuture p es (Ptr 1) client_heap [] Hes). Qed.
End instance.

#[local] Existing Instance malloc.

Definition connect8 : turn := Turn [] [] 8 (clientAddr client8) 0 0 98.

Definition served7 : list poll_event := [PollRecv (Some short_line); PollNothing].
Definition served8 : list poll_event := [PollRecv (Some short_line); PollRecv (Some (format_command (Seekto 0 1)))].

Lemma served7_no_pipe : PollPipe ∉ served7.
Proof. intros [?|[?|?%not_elem_of_nil]%elem_of_cons]%elem_of_cons; done. Qed.
Lemma served8_no_pipe : PollPipe ∉ served8.
Proof. intros [?|[?|?%not_elem_of_nil]%elem_of_cons]%elem_of_cons; done. Qed.

Definition driver_workers :=
  [@client_task driver_state (driver_device kmalloc) client7 (served7 ++ [PollPipe]);
   @client_task driver_state (driver_device kmalloc) client8 (served8 ++ [PollPipe])].

Definition driver_specs : spec :=
  Spec [client_spec (served7 ++ [PollPipe]); client_spec (served8 ++ [PollPipe])] nothing_stored.

Lemma driver_workers_of : workers_of good_setup [connect; connect8] driver_workers.
Proof.
  exists driver_workers, []. split; [done|]. split; [|by split].
  simpl. constructor; [apply future_of; [done|apply served7_no_pipe]|].
  constructor; [apply future_of; [done|apply served8_no_pipe]|constructor].
Qed.

Lemma driver_workers_serving :
  @serving _ _ _ _ served malloc one_write 2000 (System driver_workers (loaded_dev, loaded_heap) None) driver_specs.
Proof.
  split; [exact loaded_abs| |done| |].
  - repeat constructor; by apply client_task_implements.
  - unfold room_for. by vm_compute.
  - apply (try_orders_manageable 6). by vm_compute.
Qed.

Lemma server_process_shuts_down_witness :
  exists sched s order x',
    @run_process _ _ malloc one_write srv0 2000 2
      (boot driver_workers (loaded_dev, loaded_heap) (server_main good_setup [connect; connect8; signalled]) empty_heap) sched = Some s /\
    main_at s = Ret (Some EXIT_SUCCESS) /\ main_trace s = all_calls good_setup [connect; connect8] /\
    serve driver_specs order = Some x' /\ @dev_abs _ _ _ _ served (shared (workers s)) (held x').
Proof.
  destruct (run_all 2 (boot driver_workers (loaded_dev, loaded_heap)
    (server_main good_setup [connect; connect8; signalled]) empty_heap) 400 2) as (sched & s & E & Hb); [by vm_compute|].
  assert (Forall ordinary [connect; connect8]) as Hord by (constructor; [|constructor; [|constructor]]; by vm_compute).
  destruct (@server_process_shuts_down _ _ _ _ served malloc one_write srv0 2000 (fun _ => eq_refl) malloc_reliable
    ltac:(by vm_compute) ltac:(by vm_compute) good_setup [connect; connect8] signalled good_setup_ok Hord
    ltac:(simpl; lia) signalled_stops driver_workers (loaded_dev, loaded_heap) driver_specs empty_heap []
    driver_workers_of driver_workers_serving (@holds_empty malloc)) as [_ Hend].
  destruct (Hend sched s E Hb) as (Hmain & Htr & _ & order & x' & Ex & Hd & _).
  exists sched, s, order, x'. exact (conj E (conj Hmain (conj Htr (conj Ex Hd)))).
Defined.
