(* ===== verification/BufferPacket.v ===== *)
(** * [server/src/aesdsocket.c]: the packet array

    [bufferPacketCreate], [bufferPacketDelete] and [bufferPacketFree]: an
    array of pointers to received buffers, which the calls that are commented
    out in [clientHandler] used before the accumulation buffer.  The array's
    block and its pointers are kept apart. *)

From Stdlib.Strings Require Import String.
From S2P Require Import Prelude CInt CMem Footprint Common CircularBuffer TemporaryBuffer.
From S2P Require Import Concrete DeviceInterface Process Writer SocketServer.

Definition sizeof_pointer : Z := 8.

(** The [calloc]ed array and the pointers in it. *)
Record packet_array := PacketArray { array : ptr; packets : list ptr }.

Section packet.
Context {D : Type} `{CharDevice D} `{Allocator} `{Streams}.

Definition bufferPacketCreate (s : server) : SM D packet_array :=
  packet ← on_heap (p ← alloc (BUFFER_SIZE * sizeof_pointer);
                    if is_null p then mret p
                    else _ ← store_bytes p 0 (replicate (Z.to_nat (BUFFER_SIZE * sizeof_pointer)) (Some ch_nul)); mret p);
  if is_null packet then logAndExit s "Failed to allocate buffer packet array" EXIT_FAILURE
  else mret (PacketArray packet (replicate (Z.to_nat BUFFER_SIZE) NULL)).

Definition bufferPacketDelete (bufferPacket : packet_array) : M () :=
  if negb (is_null (array bufferPacket)) then free (array bufferPacket) else mret ().

(** [for (uint8_t i = 0; i < *bufferPacketIndex; i++)], from [i] on. *)
Fixpoint packet_free_loop (n : nat) (bufferPacket : list ptr) (bufferPacketIndex i : Z) : M (list ptr) :=
  if i <? bufferPacketIndex then
    match n with
    | O => stuck OutOfBounds
    | S n' =>
        p ← arr_get bufferPacket i;
        bufferPacket' ← (if negb (is_null p) then _ ← free p; mret (arr_set bufferPacket i NULL)
                         else mret bufferPacket);
        packet_free_loop n' bufferPacket' bufferPacketIndex (u8 (i + 1))
    end
  else mret bufferPacket.

(** The pointers and the index it leaves; [uint8_t] bounds the iterations. *)
Definition bufferPacketFree (bufferPacket : packet_array) (bufferPacketIndex : Z) : M (packet_array * Z) :=
  ps ← packet_free_loop 256 (packets bufferPacket) bufferPacketIndex 0;
  mret (PacketArray (array bufferPacket) ps, 0).
End packet.

Section facts.
Context `{Allocator}.

(** The buffers of some entries. *)
Definition entry_chunks (es : list (ptr * block)) : list chunk := es ≫= fun e => own e.1 e.2.

Lemma packet_free_loop_spec n es i k h L :
  (i <= k)%nat -> (k <= length es)%nat -> (k <= 255)%nat -> (k - i <= n)%nat ->
  holds h (entry_chunks (drop i (take k es)) ++ L) ->
  wp (packet_free_loop n (replicate i NULL ++ (drop i es).*1) (Z.of_nat k) (Z.of_nat i))
     (fun ps h' => ps = replicate k NULL ++ (drop k es).*1 /\ holds h' L) h.
Proof.
  revert i h. induction n as [|n IH]; intros i h Hik Hk H255 Hn Hh; cbn [packet_free_loop].
  - assert (i = k) as -> by lia. rewrite Z.ltb_irrefl. apply wp_ret. split; [done|].
    by rewrite drop_ge in Hh by lia_len.
  - destruct (Z.ltb_spec (Z.of_nat i) (Z.of_nat k)) as [Hlt|Hge].
    2:{ assert (i = k) as -> by lia. apply wp_ret. split; [done|]. by rewrite drop_ge in Hh by lia_len. }
    destruct (lookup_lt_is_Some_2 es i) as [[p b] He]; [lia|].
    assert (drop i (take k es) = (p, b) :: drop (S i) (take k es)) as Ed.
    { apply drop_S. rewrite lookup_take_lt by lia. done. }
    rewrite Ed in Hh. cbn [entry_chunks mbind list_bind fst snd] in Hh. rewrite <- app_assoc in Hh.
    rewrite (drop_S _ _ _ He). cbn [fmap list_fmap fst].
    set (ps := replicate i NULL ++ p :: (drop (S i) es).*1).
    assert (ps !! i = Some p) as Hp by (unfold ps; rewrite lookup_app_r, length_replicate, Nat.sub_diag by lia_len; done).
    assert (arr_set ps (Z.of_nat i) NULL = replicate (S i) NULL ++ (drop (S i) es).*1) as Eset.
    { unfold arr_set, ps. rewrite Nat2Z.id. rewrite <- (length_replicate i NULL) at 1.
      rewrite insert_app_r_alt, Nat.sub_diag by lia. cbn [insert list_insert].
      by rewrite replicate_S_end, <- app_assoc. }
    apply wp_bind. unfold arr_get, wp at 1. zdec. rewrite Nat2Z.id, Hp. cbn [mret M_ret].
    assert (u8 (Z.of_nat i + 1) = Z.of_nat (S i)) as -> by (rewrite u8_small by lia; lia).
    apply wp_bind. apply (wp_mono _ (fun ps' h' => ps' = replicate (S i) NULL ++ (drop (S i) es).*1 /\
      holds h' (entry_chunks (drop (S i) (take k es)) ++ L))).
    + destruct (is_null p) eqn:En; cbn [negb].
      * apply wp_ret. destruct p; [|done..]. split; [|exact Hh].
        unfold ps. by rewrite replicate_S_end, <- app_assoc.
      * apply wp_bind. eapply wp_mono; [by eapply wp_free|]. intros _ h1 [Hh1 _]. by apply wp_ret.
    + intros ? h1 [-> Hh1]. apply IH; [lia|done|done|lia|exact Hh1].
Qed.

(** Freeing a packet array frees the first [bufferPacketIndex] buffers,
    each once and nothing else, and leaves their entries NULL and the index 0;
    so freeing again does nothing. *)
Theorem bufferPacketFree_frees a es k h L :
  (k <= length es)%nat -> (k <= 255)%nat -> holds h (entry_chunks (take k es) ++ L) ->
  exists h', bufferPacketFree (PacketArray a es.*1) (Z.of_nat k) h =
      Done (PacketArray a (replicate k NULL ++ (drop k es).*1), 0) h' /\ holds h' L.
Proof.
  intros Hk H255 Hh.
  destruct (wp_done _ _ _ (packet_free_loop_spec 256 es 0 k h L ltac:(lia) Hk H255 ltac:(lia) Hh))
    as (ps & h' & E & -> & Hh'). exists h'. split; [|done].
  unfold bufferPacketFree. cbn [packets array]. by rewrite (bind_done _ _ _ _ _ E).
Qed.
End facts.

Definition packet_heap : heap :=
  heap_of [(1%positive, [Some ch_nul]); (2%positive, [Some ch_newline]); (3%positive, [None])] 4.
Definition packet_entries : list (ptr * block) :=
  [(Ptr 1, [Some ch_nul]); (NULL, []); (Ptr 2, [Some ch_newline]); (Ptr 3, [None])].

Lemma bufferPacketFree_frees_witness :
  exists h', bufferPacketFree (PacketArray (Ptr 9) [Ptr 1; NULL; Ptr 2; Ptr 3]) 3 packet_heap =
      Done (PacketArray (Ptr 9) [NULL; NULL; NULL; Ptr 3], 0) h' /\ @holds malloc h' [(3%positive, [None])].
Proof.
  apply (@bufferPacketFree_frees malloc (Ptr 9) packet_entries 3 packet_heap [(3%positive, [None])]);
    [simpl; lia|lia|by apply heap_of_holds].
Defined.
