(* ===== verification/IoctlTest.v ===== *)
(** * [aesd-char-driver/testing/ioctl_test/ioctl_test.c]

    The program that tries the seek ioctl out, as a process on the device:
    four lines are written, the file is positioned in the second of them and
    read to the end.  The driver's [write] leaves the position of the file
    alone.  The result is the exit code and what is printed as read. *)

From Stdlib.Strings Require Import String.
From S2P Require Import Prelude CInt CMem Footprint Common CircularBuffer TemporaryBuffer Concrete.
From S2P Require Import Ring CircularFacts CharDevice DeviceFacts WriteFacts DeviceSpec Scenario.
From S2P Require Import DeviceInterface DriverDevice Process CString SeekCommand SocketFacts SocketProps.

(** [char buffer[100]] *)
Definition sizeof_buffer : Z := 100.

(** What [%s] prints of a buffer. *)
Fixpoint printed (buffer : list byte) : list byte :=
  match buffer with
  | [] => []
  | c :: cs => if decide (c = ch_nul) then [] else c :: printed cs
  end.

Section test.
Context {D : Type} `{CharDevice D} `{Streams}.

(** [buffer[bytes_read] = '\0'] *)
Definition terminate (buffer : list byte) (bytes_read : Z) : SM D (list byte) :=
  if (0 <=? bytes_read) && (bytes_read <? Z.of_nat (length buffer)) then
    mret (<[Z.to_nat bytes_read := ch_nul]> buffer)
  else crash OutOfBounds.

(** [read(fd, buffer, sizeof(buffer) - 1)]: -1 for an error; the new position
    and buffer. *)
Definition read_buffer (buffer : list byte) (pos : Z) : SM D (Z * Z * list byte) :=
  res ← sys_read (sizeof_buffer - 1) pos;
  let '(ret, pos', data) := res in
  mret (if ret <? 0 then -1 else ret, pos', data ++ drop (length data) buffer).

(** The loop that reads, [n] times at most: the last result, the buffer, and
    what has been printed. *)
Fixpoint read_loop (n : nat) (buffer : list byte) (pos : Z) : SM D (Z * list byte * list (list byte)) :=
  match n with
  | O => unfinished
  | S n' =>
      res ← read_buffer buffer pos;
      let '(bytes_read, pos', buffer) := res in
      if 0 <? bytes_read then
        buffer ← terminate buffer bytes_read;
        rest ← read_loop n' buffer pos';
        mret ((rest : Z * list byte * list (list byte)).1, printed buffer :: rest.2)
      else mret (bytes_read, buffer, [])
  end.

Definition ioctl_test_main (n : nat) : SM D (Z * list (list byte)) :=
  opened ← fopen;
  if negb opened then mret (1, [])
  else
    _ ← sys_write (bytes "test1" ++ nl);
    _ ← sys_write (bytes "test2" ++ nl);
    _ ← sys_write (bytes "test3" ++ nl);
    _ ← sys_write (bytes "test4" ++ nl);
    let seekto := Seekto 1 3 in
    res ← sys_seekto seekto 0;
    if (res : Z * Z).1 <? 0 then mret (1, [])
    else
      out ← read_loop n (replicate (Z.to_nat sizeof_buffer) ch_nul) res.2;
      let '(bytes_read, buffer, prints) := out in
      buffer ← terminate buffer bytes_read;
      _ ← emit ClosedFile;
      mret (0, prints ++ [printed buffer]).
End test.

(** ** Reading to the end *)

Lemma printed_prefix data rest : ch_nul ∉ data -> printed (data ++ ch_nul :: rest) = data.
Proof.
  induction data as [|c data IH]; intros Hnul; cbn [printed app].
  { by rewrite decide_True. }
  apply not_elem_of_cons in Hnul as [Hc Hnul]. rewrite decide_False by (by apply not_eq_sym). by rewrite IH.
Qed.

Section facts.
Context {D C : Type} `{CharDeviceLaws D C} `{Streams}.
Implicit Types (w : world D) (c : C).

Lemma terminate_spec data buffer w :
  (length data < length buffer)%nat ->
  swp (terminate (data ++ drop (length data) buffer) (Z.of_nat (length data)))
      (fun b w' => exists rest, b = data ++ ch_nul :: rest /\ length b = length buffer /\ w' = w) no_exit w.
Proof.
  intros Hlen. unfold terminate. rewrite length_app, length_drop, (proj2 (Z.leb_le 0 _)), (proj2 (Z.ltb_lt _ _)) by lia.
  apply swp_ret. rewrite Nat2Z.id.
  destruct (drop (length data) buffer) as [|x rest] eqn:E; [apply (f_equal length) in E; rewrite length_drop in E; simpl in E; lia|].
  exists rest. rewrite insert_app_r_alt, Nat.sub_diag by lia. split_and!; [done| |done].
  apply (f_equal length) in E. rewrite length_drop in E. simpl in E. rewrite length_app. simpl. lia.
Qed.

(** The loop prints what is left of the text, when no byte of it is NUL. *)
Lemma read_loop_spec n buffer pos w c :
  dev_abs (device_of w) c -> 0 <= pos <= text_size c -> length buffer = 100%nat -> ch_nul ∉ model_text c ->
  (length (drop (Z.to_nat pos) (model_text c)) < n)%nat ->
  swp (read_loop n buffer pos)
      (fun out w' => out.1.1 = 0 /\ length out.1.2 = 100%nat /\ concat out.2 = drop (Z.to_nat pos) (model_text c) /\
         device_of w' = device_of w) no_exit w.
Proof.
  revert buffer pos w. induction n as [|n IH]; intros buffer pos w Habs Hpos Hbuf Hnul Hn; [lia|].
  cbn [read_loop]. apply swp_bind. unfold read_buffer. apply swp_bind.
  destruct (dev_read_law (device_of w) c (sizeof_buffer - 1) pos Habs ltac:(done) Hpos)
    as (data & Eread & Hle & Hend & Hdrop). unfold sizeof_buffer in Hle.
  eapply swp_read; [exact Eread|]. apply swp_ret. zdec.
  assert (length (data ++ drop (length data) buffer) = 100%nat) as Hlen by (rewrite length_app, length_drop; lia).
   destruct (Z.ltb_spec 0 (Z.of_nat (length data))) as [Hpos0|Hz].
  2:{ assert (data = []) as -> by (destruct data; [done|simpl in Hz; lia]). apply swp_ret. cbn [fst snd device_of].
      split_and!; [done|done| |done]. rewrite (Hend eq_refl). symmetry. apply (drop_text_end c). }
  apply swp_bind. eapply swp_mono; [apply terminate_spec; lia| |done]. intros b ? (rest & -> & Hb & ->).
  assert (drop (Z.to_nat (pos + Z.of_nat (length data))) (model_text c) = drop (Z.to_nat pos + length data) (model_text c)) as Hnext
    by (f_equal; lia).
  assert (ch_nul ∉ data) as Hnd.
  { intros Hin. apply Hnul. rewrite <- (take_drop (Z.to_nat pos) (model_text c)), Hdrop, !elem_of_app. auto. }
  apply swp_bind. eapply swp_mono.
  { apply (IH _ (pos + Z.of_nat (length data))); [exact Habs| |lia|done|].
    - split; [lia|]. apply (f_equal length) in Hdrop. rewrite length_app, !length_drop in Hdrop. unfold text_size in *. lia.
    - rewrite Hnext. rewrite Hdrop, length_app in Hn. lia. }
  2: done. intros [[r b'] outs] w' (Hr & Hb' & Hout & Hd). cbn [fst snd device_of] in *. apply swp_ret. cbn [fst snd].
  split_and!; [done|done| |done]. cbn [concat]. by rewrite (printed_prefix _ _ Hnd), Hout, Hnext, <- Hdrop.
Qed.
End facts.

(** ** The program on a device of lines *)

Definition test_lines : list (list byte) :=
  [bytes "test1" ++ nl; bytes "test2" ++ nl; bytes "test3" ++ nl; bytes "test4" ++ nl].

Section program.
Context {D : Type} {HD : CharDevice D} {HL : CharDeviceLaws D line_store} `{Streams}.
Implicit Types (w : world D) (c : line_store).

(** One of the writes, to a device that is not full, and the rest. *)
Lemma then_write {A} line (k : SM D A) (Q : A -> world D -> Prop) w c :
  dev_abs (device_of w) c -> oldest c = O -> partial (kept c) = [] -> (length (lines (kept c)) < 10)%nat ->
  has_newline line = true -> Z.of_nat (length line) <= dev_limit ->
  (forall w', dev_abs (device_of w') (Stored (Contents (lines (kept c) ++ [line]) []) 0) -> swp k Q no_exit w') ->
  swp (_ ← sys_write line; k) Q no_exit w.
Proof.
  intros Habs Ho Hp Hlen Hnl Hlim Hk.
  assert (Z.of_nat (model_hidden c + length line) <= dev_limit) as Hlim' by (simpl; by rewrite Hp).
  destruct (dev_write_law (device_of w) c line Habs Hlim') as (d & E & Habs').
  apply swp_bind. eapply swp_write; [exact E|]. apply Hk; cbn [device_of].
  simpl in Habs'. unfold store_write, spec_write in Habs'.
  rewrite Hp, Hnl, Ho, bool_decide_eq_false_2, keep_last_le in Habs' by lia_len. exact Habs'.
Qed.

(** C23: the program does what it is there to show: on an empty device it finds
    the fourth byte of its second line, prints the text from there to the end
    and exits with 0, leaving its four lines on the device. *)
Theorem ioctl_test_prints n w :
  (forall k, fopen_ok k = true) -> dev_abs (device_of w) nothing_stored ->
  6 <= dev_limit -> (15 < n)%nat ->
  exists prints w', ioctl_test_main n w = Returns (0, prints) w' /\
    concat prints = bytes "t2" ++ nl ++ bytes "test3" ++ nl ++ bytes "test4" ++ nl /\
    dev_abs (device_of w') (Stored (Contents test_lines []) 0).
Proof.
  intros Hopen Habs Hlim Hn.
  assert (Forall (fun l => has_newline l = true /\ length l = 6%nat) test_lines) as Hl.
  { apply (bool_decide_unpack _). by vm_compute. }
  unfold test_lines in Hl. rewrite !Forall_cons in Hl. destruct Hl as ([N1 L1] & [N2 L2] & [N3 L3] & [N4 L4] & _).
  destruct (swp_returns (ioctl_test_main n) (fun res w' => res.1 = 0 /\
    concat res.2 = drop 9 (text (Contents test_lines [])) /\ dev_abs (device_of w') (Stored (Contents test_lines []) 0)) w)
    as ([code prints] & w' & E & Hc & Hp & Hd).
  2:{ simpl in Hc, Hp. subst code. exists prints, w'. split_and!; [done| |done]. rewrite Hp. by vm_compute. }
  unfold ioctl_test_main. apply swp_bind, swp_fopen. rewrite Hopen. cbn [negb].
  eapply then_write; [exact Habs|done|done|simpl; lia|exact N1|by rewrite L1|]. intros w1 H1.
  eapply then_write; [exact H1|done|done|simpl; lia|exact N2|by rewrite L2|]. intros w2 H2.
  eapply then_write; [exact H2|done|done|simpl; lia|exact N3|by rewrite L3|]. intros w3 H3.
  eapply then_write; [exact H3|done|done|simpl; lia|exact N4|by rewrite L4|]. intros w4 H4.
  change (Stored _ 0) with (Stored (Contents test_lines []) 0) in H4.
  assert (dev_seekto (device_of w4) (Seekto 1 3) 0 = Some (0, 9)) as Es
    by (apply (dev_seek_accepted _ _ _ 0 _ H4); by vm_compute).
  apply swp_bind. eapply swp_seekto; [exact Es|]. cbn [fst snd]. change (0 <? 0) with false. cbv iota.
  apply swp_bind. eapply swp_mono.
  { apply (read_loop_spec n _ 9 _ (Stored (Contents test_lines []) 0)); [exact H4|done|done| |].
    - apply (bool_decide_unpack _). by vm_compute.
    - change (length _) with 15%nat. done. }
  2: done. intros [[r b] outs] w5 (Hr & Hb & Hout & Hd5). cbn [fst snd device_of] in *. subst r.
  apply swp_bind. eapply swp_mono; [exact (terminate_spec [] b w5 ltac:(simpl; lia))| |done].
  intros ? ? (rest & -> & _ & ->). apply swp_bind, swp_emit, swp_ret. cbn [fst snd device_of].
  split_and!; [done| |by rewrite Hd5]. rewrite concat_app, Hout. cbn [concat app printed].
  by rewrite decide_True, app_nil_r.
Qed.

End program.

Section unreadable.
Context {D : Type} `{CharDevice D} `{Streams}.
Context (Hwrite : forall (s : D) data, exists ret s', dev_write s data = Some (ret, s')).
Context (Hseek : forall (s : D) cmd, exists pos, dev_seekto s cmd 0 = Some (0, pos)).
Context (Hread : forall (s : D) count pos, exists ret pos' data, dev_read s count pos = Some (ret, pos', data) /\ ret < 0).

Lemma write_goes_on {A} line (k : SM D A) w r :
  (forall w', k w' = r) -> (_ ← sys_write line; k) w = r.
Proof.
  intros Hk. rewrite run_bind. unfold run at 1, sys_write. cbn [run_prog perform].
  destruct (Hwrite (device_of w) line) as (ret & d & ->). apply Hk.
Qed.

(** When [read] fails, [bytes_read] is -1 at the end of the loop, and the
    program stores its terminating NUL in front of the buffer. *)
Theorem ioctl_test_read_error n (w : world D) :
  (forall k, fopen_ok k = true) -> (0 < n)%nat -> ioctl_test_main n w = Faults (UserFault OutOfBounds).
Proof.
  intros Hopen Hn. unfold ioctl_test_main. rewrite run_bind. unfold run at 1, fopen. cbn [run_prog perform].
  rewrite Hopen. cbn [negb]. apply write_goes_on. intros w1. apply write_goes_on. intros w2. apply write_goes_on. intros w3.
  apply write_goes_on. intros w4. rewrite run_bind. unfold run at 1, sys_seekto.
  cbn [run_prog perform]. destruct (Hseek (device_of w4) (Seekto 1 3)) as [pos ->]. cbn [fst snd].
  change (0 <? 0) with false. cbv iota. destruct n as [|n]; [lia|]. cbn [read_loop].
  assert (forall buffer w', exists pos' b w'', read_buffer buffer pos w' = Returns (-1, pos', b) w'') as Hfail.
  { intros buffer w'. unfold read_buffer. rewrite run_bind. unfold run at 1, sys_read. cbn [run_prog perform].
    destruct (Hread (device_of w') (sizeof_buffer - 1) pos) as (ret & pos' & data & -> & Hret).
    rewrite (proj2 (Z.ltb_lt ret 0) Hret). by eexists _, _, _. }
  match goal with |- context [read_buffer ?b pos] => set (buffer := b) end.
  match goal with |- run _ ?w' = _ => destruct (Hfail buffer w') as (pos' & b & w'' & E) end.
  rewrite run_bind, (run_returns _ _ _ _ _ E). done.
Qed.
End unreadable.

Lemma ioctl_test_prints_witness :
  exists prints w',
    @ioctl_test_main driver_state (driver_device kmalloc) one_write 100 (idle_world (loaded_dev, loaded_heap)) =
      Returns (0, prints) w' /\
    concat prints = bytes "t2" ++ nl ++ bytes "test3" ++ nl ++ bytes "test4" ++ nl /\
    @dev_abs _ _ _ _ served (device_of w') (Stored (Contents test_lines []) 0).
Proof.
  apply (@ioctl_test_prints driver_state (driver_device kmalloc) served one_write 100);
    [done|exact loaded_abs|by vm_compute|apply Nat.ltb_lt; by vm_compute].
Defined.

(** A device that takes what is written, and gives nothing back. *)
Definition write_only : CharDevice () := {|
  dev_write s data := Some (Z.of_nat (length data), s);
  dev_read s count pos := Some (-5, pos, []);
  dev_seekto s cmd pos := Some (0, 0)
|}.

Lemma ioctl_test_read_error_witness :
  @ioctl_test_main () write_only one_write 100 (World empty_heap tt []) = Faults (UserFault OutOfBounds).
Proof.
  apply (@ioctl_test_read_error () write_only one_write).
  - intros s data. by eexists _, _.
  - intros s cmd. by eexists.
  - intros s count pos. by eexists (-5), _, _.
  - done.
  - lia.
Defined.
