(* ===== verification/DriverSteps.v ===== *)
(** * The driver's calls as sequences of memory accesses

    [main.c] takes no lock: two processes can be inside its handlers at the
    same time, on the one device.  Here every handler, and every function it
    calls, is a program [kprog] over the fields of the device: each read and
    each write of a field of the two shared structures is one step, and so is
    each call of the allocator or of a copy function.  [CharDevice] has the
    same handlers as single operations; [DriverAlone] shows that they agree
    when nobody interferes.

    The steps follow the C statements, with every re-read of a field that the
    text has, except in the arguments of debug messages, whose values go
    nowhere else; accesses are sequentially consistent.  The buffer structures
    live from [aesd_init_module] to [aesd_cleanup_module], which the kernel
    runs only without open files, so an access to a field can fail in two
    ways: through [NULL], and with an index outside the array. *)

From S2P Require Import Prelude CInt CMem Footprint Common CircularBuffer TemporaryBuffer.
From S2P Require Import CharDevice.

(** ** Fields and accesses *)

Inductive field : Type -> Type :=
  | BufferTemperary : field ptr
  | BufferCircular : field ptr
  | TmpBuffptr : field ptr
  | TmpSize : field Z
  | EntryBuffptr (i : Z) : field ptr
  | EntrySize (i : Z) : field Z
  | InOffs : field Z
  | OutOffs : field Z
  | IsFull : field bool
  | CircSize : field Z.

(** [p->...] *)
Definition through (p : ptr) : M () := if is_null p then stuck NullDeref else mret ().

Definition load_field {X} (d : aesd_dev) (f : field X) : M X :=
  match f with
  | BufferTemperary => mret (bufferTemperary d)
  | BufferCircular => mret (bufferCircular d)
  | TmpBuffptr => _ ← through (bufferTemperary d); mret (tmp_buffptr (tmp d))
  | TmpSize => _ ← through (bufferTemperary d); mret (tmp_size (tmp d))
  | EntryBuffptr i =>
      _ ← through (bufferCircular d); e ← arr_get (entry (circ d)) i; mret (buffptr e)
  | EntrySize i =>
      _ ← through (bufferCircular d); e ← arr_get (entry (circ d)) i; mret (entry_size e)
  | InOffs => _ ← through (bufferCircular d); mret (in_offs (circ d))
  | OutOffs => _ ← through (bufferCircular d); mret (out_offs (circ d))
  | IsFull => _ ← through (bufferCircular d); mret (full (circ d))
  | CircSize => _ ← through (bufferCircular d); mret (circ_size (circ d))
  end.

Definition store_field {X} (d : aesd_dev) (f : field X) : X -> M aesd_dev :=
  let b := circ d in
  match f with
  | BufferTemperary => fun p => mret (Dev p (tmp d) (bufferCircular d) b)
  | BufferCircular => fun p => mret (Dev (bufferTemperary d) (tmp d) p b)
  | TmpBuffptr => fun p =>
      _ ← through (bufferTemperary d); mret (set_tmp d (Temporary p (tmp_size (tmp d))))
  | TmpSize => fun n =>
      _ ← through (bufferTemperary d); mret (set_tmp d (Temporary (tmp_buffptr (tmp d)) n))
  | EntryBuffptr i => fun p =>
      _ ← through (bufferCircular d); e ← arr_get (entry b) i;
      mret (set_circ d (set_entry b i (Entry p (entry_size e))))
  | EntrySize i => fun n =>
      _ ← through (bufferCircular d); e ← arr_get (entry b) i;
      mret (set_circ d (set_entry b i (Entry (buffptr e) n)))
  | InOffs => fun n =>
      _ ← through (bufferCircular d);
      mret (set_circ d (Circular (entry b) n (out_offs b) (full b) (circ_size b)))
  | OutOffs => fun n =>
      _ ← through (bufferCircular d);
      mret (set_circ d (Circular (entry b) (in_offs b) n (full b) (circ_size b)))
  | IsFull => fun x =>
      _ ← through (bufferCircular d);
      mret (set_circ d (Circular (entry b) (in_offs b) (out_offs b) x (circ_size b)))
  | CircSize => fun n =>
      _ ← through (bufferCircular d);
      mret (set_circ d (Circular (entry b) (in_offs b) (out_offs b) (full b) n))
  end.

(** ** Programs *)

Inductive access : Type -> Type :=
  | Load {X} (f : field X) : access X
  | Store {X} (f : field X) (x : X) : access ()
  | Memory {X} (m : M X) : access X.

Inductive kprog (A : Type) : Type :=
  | KRet (a : A)
  | KStep {X} (c : access X) (k : X -> kprog A).
Arguments KRet {A} a.
Arguments KStep {A X} c k.

Fixpoint kbind {A B} (k : A -> kprog B) (p : kprog A) : kprog B :=
  match p with
  | KRet a => k a
  | KStep c k' => KStep c (fun x => kbind k (k' x))
  end.

#[export] Instance kprog_ret : MRet kprog := fun A a => KRet a.
#[export] Instance kprog_bind : MBind kprog := fun A B k p => kbind k p.

Definition load {X} (f : field X) : kprog X := KStep (Load f) KRet.
Definition store {X} (f : field X) (x : X) : kprog () := KStep (Store f x) KRet.
Definition memory {X} (m : M X) : kprog X := KStep (Memory m) KRet.

(** One access to the device and the heap. *)
Definition do_access {X} (c : access X) (d : aesd_dev) : M (X * aesd_dev) :=
  match c with
  | Load f => x ← load_field d f; mret (x, d)
  | Store f x => d' ← store_field d f x; mret ((), d')
  | Memory m => x ← m; mret (x, d)
  end.

(** A program with the device to itself. *)
Fixpoint krun {A} (p : kprog A) (d : aesd_dev) : M (A * aesd_dev) :=
  match p with
  | KRet a => mret (a, d)
  | KStep c k => r ← do_access c d; krun (k r.1) r.2
  end.

(** ** [aesd_circular_buffer.c] *)

Fixpoint find_fpos_loop_steps (n : nat) (char_offset current_offset buffer_index : Z)
    (rtn : option Z) : kprog (option Z * option Z) :=
  match n with
  | O => mret (None, rtn)
  | S n' =>
      p ← load (EntryBuffptr buffer_index);
      if is_null p then mret (None, rtn)
      else
        inside ← (if current_offset <=? char_offset then
                    size ← load (EntrySize buffer_index);
                    mret (char_offset <? u64 (current_offset + size))
                  else mret false);
        if (inside : bool) then
          let rtn' := match rtn with
                      | Some _ => Some (u64 (char_offset - current_offset))
                      | None => None
                      end in
          _ ← memory (debug_rtn rtn');
          mret (Some buffer_index, rtn')
        else
          size ← load (EntrySize buffer_index);
          find_fpos_loop_steps n' char_offset (u64 (current_offset + size))
            (next_index buffer_index) rtn
  end.

Definition find_fpos_steps (buffer : ptr) (char_offset : Z) (rtn : option Z)
    : kprog (option Z * option Z) :=
  if is_null buffer || (char_offset <? 0) then mret (None, rtn)
  else
    buffer_index ← load OutOffs;
    find_fpos_loop_steps 10 char_offset 0 buffer_index rtn.

Fixpoint find_ioctl_loop_steps (n : nat) (write_cmd write_cmd_offset i current_offset buffer_index : Z)
    (rtn : option Z) : kprog (option Z * option Z) :=
  match n with
  | O => rtn' ← memory (store_rtn rtn 0); mret (None, rtn')
  | S n' =>
      p ← load (EntryBuffptr buffer_index);
      if is_null p then rtn' ← memory (store_rtn rtn 0); mret (None, rtn')
      else if i =? write_cmd then
        size ← load (EntrySize buffer_index);
        if size <=? write_cmd_offset then rtn' ← memory (store_rtn rtn 0); mret (None, rtn')
        else
          mret (Some buffer_index,
                match rtn with
                | Some _ => Some (u64 (current_offset + write_cmd_offset))
                | None => None
                end)
      else
        size ← load (EntrySize buffer_index);
        find_ioctl_loop_steps n' write_cmd write_cmd_offset (i + 1) (u64 (current_offset + size))
          (next_index buffer_index) rtn
  end.

Definition find_ioctl_steps (buffer : ptr) (write_cmd write_cmd_offset : Z) (rtn : option Z)
    : kprog (option Z * option Z) :=
  if is_null buffer || (AESDCHAR_MAX_WRITE_OPERATIONS_SUPPORTED <=? write_cmd) || (write_cmd_offset <? 0)
  then mret (None, rtn)
  else
    buffer_index ← load OutOffs;
    find_ioctl_loop_steps 10 write_cmd write_cmd_offset 0 0 buffer_index rtn.

Section handlers.
Context `{Allocator}.

(** The body of [if (buffer->full)]. *)
Definition release_oldest_steps : kprog () :=
  out ← load OutOffs;
  oldest ← load (EntryBuffptr out);
  _ ← memory (my_free oldest);
  out ← load OutOffs;
  gone ← load (EntrySize out);
  size ← load CircSize;
  _ ← store CircSize (u64 (size - gone));
  out ← load OutOffs;
  _ ← store (EntryBuffptr out) NULL;
  out ← load OutOffs;
  _ ← store (EntrySize out) 0;
  out ← load OutOffs;
  store OutOffs (u8 (next_index out)).

(** From the end of the copy on: the sizes, the offset and the flag. *)
Definition complete_entry_steps (n : Z) : kprog () :=
  size ← load CircSize;
  _ ← store CircSize (u64 (size + n));
  in_ ← load InOffs;
  _ ← store (EntrySize in_) n;
  in_ ← load InOffs;
  _ ← store InOffs (u8 (next_index in_));
  in_ ← load InOffs;
  out ← load OutOffs;
  store IsFull (in_ =? out).

(** The copy of the data. *)
Definition store_newest_steps (add_entry : aesd_buffer_entry) : kprog () :=
  fresh ← memory (my_malloc (entry_size add_entry));
  in_ ← load InOffs;
  _ ← store (EntryBuffptr in_) fresh;
  in_ ← load InOffs;
  p ← load (EntryBuffptr in_);
  if is_null p then mret ()
  else
    in_ ← load InOffs;
    p ← load (EntryBuffptr in_);
    _ ← memory (my_memcpy p (buffptr add_entry) (entry_size add_entry));
    complete_entry_steps (entry_size add_entry).

(** [add_entry] is a local variable of every caller, never [NULL]. *)
Definition add_entry_steps (buffer : ptr) (add_entry : aesd_buffer_entry) : kprog () :=
  if is_null buffer then mret ()
  else
    is_full ← load IsFull;
    _ ← (if (is_full : bool) then release_oldest_steps else mret ());
    store_newest_steps add_entry.

(** ** [aesd_temperaty_buffer.c] *)

(** [&&] and [||] evaluate their second operand when they need it. *)
Definition tmp_is_empty_steps : kprog bool :=
  p ← load TmpBuffptr;
  if is_null p then mret true else size ← load TmpSize; mret (size =? 0).

Definition tmp_add_steps (data : ptr) (size : Z) : kprog bool :=
  buffptrLast ← load TmpBuffptr;
  if is_null buffptrLast then
    fresh ← memory (alloc size);
    if is_null fresh then mret false
    else
      _ ← memory (memcpy fresh 0 data 0 size);
      _ ← store TmpBuffptr fresh;
      _ ← store TmpSize size;
      mret true
  else
    n ← load TmpSize;
    buffptrNew ← memory (alloc (u64 (n + size)));
    if is_null buffptrNew then mret false
    else
      n ← load TmpSize;
      _ ← memory (memcpy buffptrNew 0 buffptrLast 0 n);
      n ← load TmpSize;
      _ ← memory (memcpy buffptrNew n data 0 size);
      _ ← memory (free buffptrLast);
      _ ← store TmpBuffptr buffptrNew;
      n ← load TmpSize;
      _ ← store TmpSize (u64 (n + size));
      mret true.

Definition tmp_delete_steps : kprog () :=
  p ← load TmpBuffptr;
  if is_null p then mret ()
  else
    p ← load TmpBuffptr;
    _ ← memory (free p);
    _ ← store TmpBuffptr NULL;
    store TmpSize 0.

(** ** [main.c] *)

(** [to_copy] bytes at [entry->buffptr + entry_offset] go to user memory. *)
Definition copy_out (u : user_buffer) (f_pos to_copy : Z) (data : list byte) : Z * Z * list byte :=
  let left := user_store u to_copy in
  if negb (left =? 0) then (- EFAULT, f_pos, take (Z.to_nat (to_copy - left)) data)
  else (s64 to_copy, s64 (f_pos + to_copy), data).

Definition aesd_read_steps (u : user_buffer) (count f_pos : Z) : kprog (Z * Z * list byte) :=
  bufferCircular ← load BufferCircular;
  found ← find_fpos_steps bufferCircular (u64 f_pos) (Some 0);
  match found with
  | (None, _) => mret (0, f_pos, [])
  | (Some idx, rtn) =>
      let entry_offset := default 0 rtn in
      size ← load (EntrySize idx);
      let to_copy := Z.min count (u64 (size - entry_offset)) in
      p ← load (EntryBuffptr idx);
      data ← memory (load_init p entry_offset to_copy);
      mret (copy_out u f_pos to_copy data)
  end.

(** [for (i = 0; i < count; i++) if (kbuf[i] == '\n') ...] *)
Fixpoint scan_newline_steps (n : nat) (kbuf : ptr) (i : Z) : kprog bool :=
  match n with
  | O => mret false
  | S n' =>
      c ← memory (load_byte kbuf i);
      if decide (c = ch_newline) then mret true else scan_newline_steps n' kbuf (i + 1)
  end.

Definition free_and_return (kbuf : ptr) (ret : Z) : kprog Z :=
  _ ← memory (free kbuf); mret ret.

Definition write_line_steps (bufferCircular kbuf : ptr) (count : Z) : kprog Z :=
  _ ← add_entry_steps bufferCircular (Entry kbuf count);
  free_and_return kbuf (s64 count).

Definition write_rest_of_line_steps (bufferCircular kbuf : ptr) (count : Z) : kprog Z :=
  added ← tmp_add_steps kbuf count;
  if negb (added : bool) then free_and_return kbuf (- ENOMEM)
  else
    p ← load TmpBuffptr;
    n ← load TmpSize;
    _ ← add_entry_steps bufferCircular (Entry p n);
    _ ← tmp_delete_steps;
    free_and_return kbuf (s64 count).

Definition write_fragment_steps (kbuf : ptr) (count : Z) : kprog Z :=
  added ← tmp_add_steps kbuf count;
  free_and_return kbuf (if (added : bool) then s64 count else - ENOMEM).

(** The emptiness of the partial line is tested a second time when the first
    test says no. *)
Definition aesd_write_steps (u : user_buffer) (count : Z) : kprog Z :=
  _ ← load BufferTemperary;
  bufferCircular ← load BufferCircular;
  kbuf ← memory (alloc count);
  if is_null kbuf then mret (- ENOMEM)
  else
    let fetched := user_fetch u count in
    _ ← memory (store_bytes kbuf 0 (Some <$> fetched.1));
    if negb (fetched.2 =? 0) then free_and_return kbuf (- EFAULT)
    else
      newline ← scan_newline_steps (Z.to_nat count) kbuf 0;
      if (newline : bool) then
        empty ← tmp_is_empty_steps;
        if (empty : bool) then write_line_steps bufferCircular kbuf count
        else
          empty ← tmp_is_empty_steps;
          if (empty : bool) then write_fragment_steps kbuf count
          else write_rest_of_line_steps bufferCircular kbuf count
      else write_fragment_steps kbuf count.

Definition aesd_llseek_steps (f_pos offset whence : Z) : kprog (Z * Z) :=
  _ ← load BufferCircular;
  if whence =? SEEK_SET then
    if offset <? 0 then mret (- EINVAL, f_pos) else mret (offset, offset)
  else if whence =? SEEK_CUR then
    if s64 (f_pos + offset) <? 0 then mret (- EINVAL, f_pos)
    else mret (s64 (f_pos + offset), s64 (f_pos + offset))
  else if whence =? SEEK_END then
    size ← load CircSize;
    let pos := s64 (u64 (size + u64 offset)) in
    mret (pos, pos)
  else mret (f_pos, f_pos).

Definition aesd_ioctl_steps (cmd : Z) (arg : user_buffer) (f_pos : Z) : kprog (Z * Z) :=
  bufferCircular ← load BufferCircular;
  if negb (IOC_TYPE cmd =? AESD_IOC_MAGIC) then mret (- EINVAL, f_pos)
  else if AESDCHAR_IOC_MAXNR <? IOC_NR cmd then mret (- EINVAL, f_pos)
  else if cmd =? AESDCHAR_IOCSEEKTO then
    let fetched := user_fetch arg sizeof_seekto in
    if negb (fetched.2 =? 0) then mret (- EFAULT, f_pos)
    else
      let seekto := seekto_decode fetched.1 in
      if AESDCHAR_MAX_WRITE_OPERATIONS_SUPPORTED <=? write_cmd seekto then mret (- EINVAL, f_pos)
      else
        size ← load (EntrySize (write_cmd seekto));
        if size <=? write_cmd_offset seekto then mret (- EINVAL, f_pos)
        else
          found ← find_ioctl_steps bufferCircular (write_cmd seekto) (write_cmd_offset seekto) (Some 0);
          mret (0, s64 (default 0 found.2))
  else mret (- EINVAL, f_pos).

(** ** One call of a process *)

Inductive driver_call :=
  | DRead (u : user_buffer) (count f_pos : Z)
  | DWrite (u : user_buffer) (count : Z)
  | DSeek (f_pos offset whence : Z)
  | DIoctl (cmd : Z) (arg : user_buffer) (f_pos : Z).

Inductive answer :=
  | ReadAnswer (res : Z * Z * list byte)
  | WriteAnswer (ret : Z)
  | PosAnswer (res : Z * Z).

Definition call_steps (c : driver_call) : kprog answer :=
  match c with
  | DRead u count f_pos => res ← aesd_read_steps u count f_pos; mret (ReadAnswer res)
  | DWrite u count => ret ← aesd_write_steps u count; mret (WriteAnswer ret)
  | DSeek f_pos offset whence => res ← aesd_llseek_steps f_pos offset whence; mret (PosAnswer res)
  | DIoctl cmd arg f_pos => res ← aesd_ioctl_steps cmd arg f_pos; mret (PosAnswer res)
  end.

(** The same call as one operation. *)
Definition call_at_once (c : driver_call) (d : aesd_dev) : M (answer * aesd_dev) :=
  match c with
  | DRead u count f_pos => res ← aesd_read d u count f_pos; mret (ReadAnswer res, d)
  | DWrite u count => res ← aesd_write d u count; mret (WriteAnswer res.1, res.2)
  | DSeek f_pos offset whence => res ← aesd_llseek d f_pos offset whence; mret (PosAnswer res, d)
  | DIoctl cmd arg f_pos => res ← aesd_ioctl d cmd arg f_pos; mret (PosAnswer res, d)
  end.
End handlers.

(** ** Processes on one device *)

Record kstate := Kstate { procs : list (kprog answer); kdev : aesd_dev; kheap : heap }.

(** One access of process [i]; a process that has its answer does nothing. *)
Definition kstep (s : kstate) (i : nat) : kstate + fault :=
  match procs s !! i with
  | Some (KStep c k) =>
      match do_access c (kdev s) (kheap s) with
      | Done (x, d) h => inl (Kstate (<[i := k x]> (procs s)) d h)
      | Stuck f => inr f
      end
  | _ => inl s
  end.

Fixpoint krun_sched (s : kstate) (sched : list nat) : kstate + fault :=
  match sched with
  | [] => inl s
  | i :: sched' => match kstep s i with inl s' => krun_sched s' sched' | inr f => inr f end
  end.

(** The answer of process [i], when it has one. *)
Definition answer_of (s : kstate) (i : nat) : option answer :=
  match procs s !! i with Some (KRet a) => Some a | _ => None end.

Definition start `{Allocator} (cs : list driver_call) (d : aesd_dev) (h : heap) : kstate :=
  Kstate (call_steps <$> cs) d h.

(** [i] as often as [n] says, for schedules. *)
Definition turns (n i : nat) : list nat := replicate n i.
