(* ===== verification/DriverAlone.v ===== *)
(** * The steps of a call, run without interference, are the call

    Each step program of [DriverSteps], run by [krun] with the device to
    itself, returns what the function of [CircularBuffer], [TemporaryBuffer]
    or [CharDevice] returns and leaves the same device and heap.  The lemmas
    hold of any device on which the function returns. *)

From S2P Require Import Prelude CInt CMem Footprint Common CircularBuffer TemporaryBuffer.
From S2P Require Import CharDevice DriverSteps.
Import TemporaryBuffer.Driver.

(** ** Running programs *)

Lemma krun_bind {A B} (p : kprog A) (k : A -> kprog B) (d : aesd_dev) (h : heap) :
  krun (p ≫= k) d h =
  match krun p d h with Done (a, d') h' => krun (k a) d' h' | Stuck f => Stuck f end.
Proof.
  revert d h. induction p as [a|Y c k' IH]; intros d h; [done|].
  change (krun (KStep c k' ≫= k) d) with (r ← do_access c d; krun (k' r.1 ≫= k) r.2).
  change (krun (KStep c k') d) with (r ← do_access c d; krun (k' r.1) r.2).
  unfold mbind at 1 3, M_bind. destruct (do_access c d h) as [[x d'] h'|f]; [apply IH|done].
Qed.

Lemma krun_pure {A} (a : A) d h : krun (mret a) d h = Done (a, d) h.
Proof. done. Qed.

Lemma krun_then {A B} (p : kprog A) (k : A -> kprog B) (d d' : aesd_dev) (h h' : heap) a :
  krun p d h = Done (a, d') h' -> krun (p ≫= k) d h = krun (k a) d' h'.
Proof. intros E. by rewrite krun_bind, E. Qed.

Section rules.
Context {B X : Type}.
Implicit Types (d : aesd_dev) (h : heap).

Lemma krun_load (f : field X) (k : X -> kprog B) d h x :
  load_field d f = mret x -> krun (load f ≫= k) d h = krun (k x) d h.
Proof. intros E. apply krun_then. simpl. by rewrite E. Qed.

Lemma krun_store (f : field X) x (k : () -> kprog B) d h d' :
  store_field d f x = mret d' -> krun (store f x ≫= k) d h = krun (k ()) d' h.
Proof. intros E. apply krun_then. simpl. by rewrite E. Qed.

Lemma krun_store_last (f : field X) x d h d' :
  store_field d f x = mret d' -> krun (store f x) d h = Done ((), d') h.
Proof. intros E. simpl. by rewrite E. Qed.

Lemma krun_memory (m : M X) (k : X -> kprog B) d h x h' :
  m h = Done x h' -> krun (memory m ≫= k) d h = krun (k x) d h'.
Proof. intros E. apply krun_then. simpl. unfold mbind, M_bind. by rewrite E. Qed.
End rules.

(** ** What a computation that returned has done *)

Lemma bind_done_inv {A B} (m : M A) (k : A -> M B) h b h' :
  mbind k m h = Done b h' -> exists a h1, m h = Done a h1 /\ k a h1 = Done b h'.
Proof. unfold mbind, M_bind. destruct (m h) as [a h1|f] eqn:E; [|done]. by exists a, h1. Qed.

Lemma arr_get_inv {A} (l : list A) i h e h' :
  arr_get l i h = Done e h' -> arr_get l i = mret e /\ h' = h.
Proof. unfold arr_get. case_match; [|done]. by intros [= -> ->]. Qed.

Lemma arr_get_lookup {A} (l : list A) i e :
  arr_get l i = mret e -> 0 <= i /\ l !! Z.to_nat i = Some e.
Proof.
  unfold arr_get. intros E. apply (f_equal (fun m => m empty_heap)) in E. revert E.
  destruct (Z.leb_spec 0 i); [|done]. by destruct (l !! _) eqn:El; intros [= ->].
Qed.

Lemma arr_get_set {A} (l : list A) i e e' : arr_get l i = mret e -> arr_get (arr_set l i e') i = mret e'.
Proof.
  intros [Hi Hl]%arr_get_lookup. unfold arr_get, arr_set. zdec.
  by rewrite list_lookup_insert_eq by (by eapply lookup_lt_Some).
Qed.

Lemma arr_set_set {A} (l : list A) i e e' : arr_set (arr_set l i e) i e' = arr_set l i e'.
Proof. unfold arr_set. apply list_insert_insert_eq. Qed.

Lemma get_block_inv p h b h' : get_block p h = Done b h' -> is_null p = false /\ h' = h.
Proof. destruct p as [| |i]; simpl; [done|by intros [= <- <-]|]. case_match; [|done]. by intros [= _ <-]. Qed.

Lemma deref_circ_inv d h b h' : deref_circ d h = Done b h' -> b = circ d /\ h' = h /\ is_null (bufferCircular d) = false.
Proof.
  unfold deref_circ. intros (bs & h1 & [Hn ->]%get_block_inv & [= -> ->])%bind_done_inv. done.
Qed.

Lemma deref_tmp_inv d h t h' : deref_tmp d h = Done t h' -> t = tmp d /\ h' = h /\ is_null (bufferTemperary d) = false.
Proof.
  unfold deref_tmp. intros (bs & h1 & [Hn ->]%get_block_inv & [= -> ->])%bind_done_inv. done.
Qed.

Lemma arg_circ_inv d h ob h' :
  arg_circ d h = Done ob h' ->
  h' = h /\ ob = if is_null (bufferCircular d) then None else Some (circ d).
Proof.
  unfold arg_circ. destruct (is_null _); [by intros [= <- <-]|].
  intros (b & h1 & (-> & -> & _)%deref_circ_inv & [= <- <-])%bind_done_inv. done.
Qed.

(** Takes a computation that returned apart. *)
Ltac inv_done :=
  repeat match goal with
  | H : mbind _ _ _ = Done _ _ |- _ => apply bind_done_inv in H; destruct H as (? & ? & ? & H)
  | H : mret _ _ = Done _ _ |- _ => injection H as; subst
  | H : stuck _ _ = Done _ _ |- _ => discriminate H
  | H : arr_get _ _ _ = Done _ _ |- _ => apply arr_get_inv in H; destruct H as [? ->]
  | H : deref_circ _ _ = Done _ _ |- _ => apply deref_circ_inv in H; destruct H as (-> & -> & ?)
  | H : deref_tmp _ _ = Done _ _ |- _ => apply deref_tmp_inv in H; destruct H as (-> & -> & ?)
  | H : arg_circ _ _ = Done _ _ |- _ => apply arg_circ_inv in H; destruct H as [-> ->]
  end.

(** ** Accesses through a pointer that is not [NULL] *)

Lemma through_not_null p : is_null p = false -> through p = mret ().
Proof. unfold through. by intros ->. Qed.

(** Evaluates one access whose structure is there. *)
Ltac eval_access :=
  unfold load_field, store_field; cbn [bufferCircular bufferTemperary set_circ set_tmp circ tmp];
  (rewrite through_not_null by assumption); rewrite ?bind_ret;
  cbn [entry set_entry out_offs in_offs full circ_size tmp_buffptr tmp_size];
  first [reflexivity
        | erewrite arr_get_set by eassumption; rewrite bind_ret; reflexivity
        | erewrite arr_get_set by (eapply arr_get_set; eassumption); rewrite bind_ret; reflexivity
        | (match goal with H : arr_get _ _ = mret _ |- _ => rewrite H end); rewrite bind_ret; reflexivity].

Ltac run_load := erewrite krun_load by eval_access.
Ltac run_store := first [erewrite krun_store by eval_access | erewrite krun_store_last by eval_access].
Ltac run_memory := erewrite krun_memory by eassumption.

(** The program tests a pointer. *)
Ltac case_null :=
  match goal with |- krun (if is_null ?p then _ else _) _ _ = _ => destruct (is_null p) eqn:? end.

(** ** The searches *)

Section searches.
Implicit Types (d : aesd_dev) (h : heap) (rtn : option Z).

Lemma find_fpos_loop_alone d n off cur idx rtn h r h' :
  is_null (bufferCircular d) = false ->
  find_fpos_loop n (circ d) off cur idx rtn h = Done r h' ->
  krun (find_fpos_loop_steps n off cur idx rtn) d h = Done (r, d) h'.
Proof.
  intros Hn. revert cur idx. induction n as [|n IH]; intros cur idx E; simpl in E; [by inv_done|].
  inv_done. cbn [find_fpos_loop_steps]. run_load.
  case_null; [by inv_done|].
  destruct (cur <=? off) eqn:Ec; rewrite krun_bind.
  - rewrite krun_load with (x := entry_size x) by eval_access.
    rewrite krun_pure. simpl in E.
    destruct (off <? _) eqn:Eo; [|run_load; by apply IH].
    inv_done. by run_memory.
  - rewrite krun_pure. simpl in E. run_load. by apply IH.
Qed.

Lemma find_fpos_alone d off rtn h r h' :
  aesd_circular_buffer_find_entry_offset_for_fpos
    (if is_null (bufferCircular d) then None else Some (circ d)) off rtn h = Done r h' ->
  krun (find_fpos_steps (bufferCircular d) off rtn) d h = Done (r, d) h'.
Proof.
  unfold find_fpos_steps. destruct (is_null _) eqn:En; cbn [orb]; intros E; simpl in E; [by inv_done|].
  destruct (off <? 0); [by inv_done|]. run_load. by apply find_fpos_loop_alone.
Qed.

Lemma find_ioctl_loop_alone d n c o i cur idx rtn h r h' :
  is_null (bufferCircular d) = false ->
  find_ioctl_loop n (circ d) c o i cur idx rtn h = Done r h' ->
  krun (find_ioctl_loop_steps n c o i cur idx rtn) d h = Done (r, d) h'.
Proof.
  intros Hn. revert i cur idx. induction n as [|n IH]; intros i cur idx E; simpl in E.
  { inv_done. cbn [find_ioctl_loop_steps]. by run_memory. }
  inv_done. cbn [find_ioctl_loop_steps]. run_load.
  case_null; [inv_done; by run_memory|].
  destruct (i =? c); run_load; [|by apply IH].
  destruct (_ <=? o); inv_done; [by run_memory|done].
Qed.

Lemma find_ioctl_alone d c o rtn h r h' :
  aesd_circular_buffer_find_entry_for_ioctl
    (if is_null (bufferCircular d) then None else Some (circ d)) c o rtn h = Done r h' ->
  krun (find_ioctl_steps (bufferCircular d) c o rtn) d h = Done (r, d) h'.
Proof.
  unfold find_ioctl_steps. destruct (is_null _) eqn:En; cbn [orb]; intros E; simpl in E; [by inv_done|].
  destruct (_ || _); [by inv_done|]. run_load. by apply find_ioctl_loop_alone.
Qed.
End searches.

(** ** Changes of the two buffers *)

Section buffers.
Context `{Allocator}.
Implicit Types (d : aesd_dev) (h : heap).

Lemma set_circ_set_circ d b b' : set_circ (set_circ d b) b' = set_circ d b'.
Proof. done. Qed.
Lemma set_tmp_set_tmp d t t' : set_tmp (set_tmp d t) t' = set_tmp d t'.
Proof. done. Qed.

Lemma release_oldest_alone d h b' h' :
  is_null (bufferCircular d) = false -> release_oldest (circ d) h = Done b' h' ->
  krun release_oldest_steps d h = Done ((), set_circ d b') h'.
Proof.
  intros Hn E. unfold release_oldest in E. inv_done.
  unfold release_oldest_steps. run_load. run_load. run_memory. run_load. run_load. run_load.
  run_store. run_load. run_store. run_load. run_store. run_load. run_store.
  do 3 f_equal. unfold set_circ, set_entry. cbn [bufferTemperary tmp bufferCircular circ entry in_offs out_offs full circ_size].
  by rewrite arr_set_set.
Qed.

Lemma store_newest_alone d e h b' h' :
  is_null (bufferCircular d) = false -> store_newest (circ d) e h = Done b' h' ->
  krun (store_newest_steps e) d h = Done ((), set_circ d b') h'.
Proof.
  intros Hn E. unfold store_newest in E. inv_done.
  unfold store_newest_steps. run_memory. run_load. run_store. run_load. run_load. cbn [buffptr].
  case_null; inv_done; [done|].
  run_load. run_load. cbn [buffptr]. run_memory. unfold complete_entry_steps. run_load. run_store. run_load. run_store.
  run_load. run_store. run_load. run_load. run_store.
  do 3 f_equal. unfold set_circ, set_entry. cbn [bufferTemperary tmp bufferCircular circ entry in_offs out_offs full circ_size buffptr].
  by rewrite arr_set_set.
Qed.

Lemma add_entry_alone d e h ob h' :
  aesd_circular_buffer_add_entry (if is_null (bufferCircular d) then None else Some (circ d)) (Some e) h = Done ob h' ->
  krun (add_entry_steps (bufferCircular d) e) d h = Done ((), update_circ d ob) h'.
Proof.
  unfold add_entry_steps. destruct (is_null _) eqn:En; intros E; simpl in E; [by inv_done|]. inv_done.
  run_load. destruct (full (circ d)).
  - erewrite krun_then by (by apply release_oldest_alone).
    erewrite store_newest_alone; [|done|eassumption]. done.
  - inv_done. erewrite krun_then by reflexivity. by erewrite store_newest_alone.
Qed.

Lemma tmp_is_empty_alone d h :
  is_null (bufferTemperary d) = false ->
  krun tmp_is_empty_steps d h = Done (aesd_temperary_buffer_is_empty (tmp d), d) h.
Proof.
  intros Hn. unfold tmp_is_empty_steps, aesd_temperary_buffer_is_empty. run_load.
  case_null; [done|]. by run_load.
Qed.

Lemma tmp_add_alone d data size h res h' :
  is_null (bufferTemperary d) = false ->
  aesd_temperary_buffer_add (tmp d) data size h = Done res h' ->
  krun (tmp_add_steps data size) d h = Done (res.1, set_tmp d res.2) h'.
Proof.
  intros Hn E. unfold aesd_temperary_buffer_add in E. unfold tmp_add_steps. run_load.
  assert (set_tmp d (tmp d) = d) as Hd by by destruct d.
  destruct (is_null (tmp_buffptr (tmp d))) eqn:Et.
  - inv_done. run_memory. case_null; inv_done; [by cbn [fst snd]; rewrite Hd|].
    run_memory. run_store. by run_store.
  - inv_done. run_load. run_memory. case_null; inv_done; [by cbn [fst snd]; rewrite Hd|].
    run_load. run_memory. run_load. run_memory. run_memory. run_store. run_load. by run_store.
Qed.

Lemma tmp_delete_alone d h t h' :
  is_null (bufferTemperary d) = false ->
  aesd_temperary_buffer_delete (tmp d) h = Done t h' ->
  krun tmp_delete_steps d h = Done ((), set_tmp d t) h'.
Proof.
  intros Hn E. unfold aesd_temperary_buffer_delete in E. unfold tmp_delete_steps. run_load.
  destruct (is_null (tmp_buffptr (tmp d))) eqn:Et; simpl in E; inv_done; [by destruct d|].
  run_load. run_memory. run_store. by run_store.
Qed.
End buffers.

(** ** The handlers *)

Section handlers.
Context `{Allocator}.
Implicit Types (d : aesd_dev) (h : heap) (u : user_buffer).

Lemma scan_newline_alone d n kbuf i h b h' :
  scan_newline n kbuf i h = Done b h' -> krun (scan_newline_steps n kbuf i) d h = Done (b, d) h'.
Proof.
  revert i h. induction n as [|n IH]; intros i h E; simpl in E; [by inv_done|].
  inv_done. cbn [scan_newline_steps]. run_memory. destruct (decide _); [by inv_done|]. by apply IH.
Qed.

Lemma free_alone d kbuf ret h x h' :
  free kbuf h = Done x h' -> krun (free_and_return kbuf ret) d h = Done (ret, d) h'.
Proof. intros E. unfold free_and_return. by run_memory. Qed.

Lemma aesd_read_alone d u count f_pos h res h' :
  aesd_read d u count f_pos h = Done res h' ->
  krun (aesd_read_steps u count f_pos) d h = Done (res, d) h'.
Proof.
  intros E. unfold aesd_read in E. inv_done. unfold aesd_read_steps.
  rewrite (krun_load _ _ _ _ (bufferCircular d)) by done. erewrite krun_then by (by eapply find_fpos_alone).
  match goal with |- context [match ?f with pair _ _ => _ end] => destruct f as [[idx|] rtn] end; [|by inv_done].
  inv_done. run_load. run_load. run_memory. unfold copy_out.
  destruct (negb _); by inv_done.
Qed.

Lemma write_line_alone d kbuf count h res h' :
  write_line d kbuf count h = Done res h' ->
  krun (write_line_steps (bufferCircular d) kbuf count) d h = Done res h'.
Proof.
  intros E. unfold write_line in E. inv_done. unfold write_line_steps.
  erewrite krun_then by (by apply add_entry_alone). by eapply free_alone.
Qed.

Lemma write_fragment_alone d kbuf count h res h' :
  write_fragment d kbuf count h = Done res h' ->
  krun (write_fragment_steps kbuf count) d h = Done res h'.
Proof.
  intros E. unfold write_fragment in E. inv_done. unfold write_fragment_steps.
  erewrite krun_then by (by apply tmp_add_alone).
  match goal with x : bool * _ |- _ => destruct x as [[|] t] end; simpl in E; inv_done; cbn [fst snd]; by eapply free_alone.
Qed.

Lemma write_rest_alone d kbuf count h res h' :
  write_rest_of_line d kbuf count h = Done res h' ->
  krun (write_rest_of_line_steps (bufferCircular d) kbuf count) d h = Done res h'.
Proof.
  intros E. unfold write_rest_of_line in E. inv_done. unfold write_rest_of_line_steps.
  erewrite krun_then by (by apply tmp_add_alone).
  match goal with x : bool * _ |- _ => destruct x as [[|] t] end; simpl in E; inv_done; [|by eapply free_alone].
  cbn [fst snd negb]. run_load. run_load.
  change (bufferCircular d) with (bufferCircular (set_tmp d t)).
  erewrite krun_then by (by apply add_entry_alone).
  match goal with |- context [update_circ _ ?ob] => assert (tmp (update_circ (set_tmp d t) ob) = t /\
    bufferTemperary (update_circ (set_tmp d t) ob) = bufferTemperary d) as [Ht Hb] by (by destruct ob) end.
  erewrite krun_then by (by apply tmp_delete_alone; [rewrite Hb|rewrite Ht]). by eapply free_alone.
Qed.

Lemma aesd_write_alone d u count h res h' :
  aesd_write d u count h = Done res h' ->
  krun (aesd_write_steps u count) d h = Done res h'.
Proof.
  intros E. unfold aesd_write in E. inv_done. unfold aesd_write_steps.
  rewrite (krun_load _ _ _ _ (bufferTemperary d)) by done.
  rewrite (krun_load _ _ _ _ (bufferCircular d)) by done. run_memory.
  case_null; inv_done; [done|]. run_memory.
  destruct (negb _); inv_done; [by eapply free_alone|].
  erewrite krun_then by (by apply scan_newline_alone).
  match goal with |- krun (if ?nl then _ else _) _ _ = _ => destruct nl end; simpl andb in E; cbv iota in E.
  - erewrite krun_then by (by apply tmp_is_empty_alone).
    destruct (aesd_temperary_buffer_is_empty (tmp d)) eqn:Ee; simpl negb in E; cbv iota in E; [by apply write_line_alone|].
    erewrite krun_then by (by apply tmp_is_empty_alone). rewrite Ee. by apply write_rest_alone.
  - by apply write_fragment_alone.
Qed.

Lemma aesd_llseek_alone d f_pos offset whence h res h' :
  aesd_llseek d f_pos offset whence h = Done res h' ->
  krun (aesd_llseek_steps f_pos offset whence) d h = Done (res, d) h'.
Proof.
  intros E. unfold aesd_llseek in E. unfold aesd_llseek_steps.
  rewrite (krun_load _ _ _ _ (bufferCircular d)) by done.
  repeat case_match; inv_done; try done. by run_load.
Qed.

Lemma aesd_ioctl_alone d cmd arg f_pos h res h' :
  aesd_ioctl d cmd arg f_pos h = Done res h' ->
  krun (aesd_ioctl_steps cmd arg f_pos) d h = Done (res, d) h'.
Proof.
  intros E. unfold aesd_ioctl in E. unfold aesd_ioctl_steps.
  rewrite (krun_load _ _ _ _ (bufferCircular d)) by done.
  destruct (negb _); [by inv_done|]. destruct (_ <? _); [by inv_done|].
  destruct (cmd =? _); [|by inv_done]. destruct (negb _); [by inv_done|].
  cbv zeta in E |- *. destruct (_ <=? _); [by inv_done|]. inv_done. run_load.
  destruct (_ <=? _); [by inv_done|]. inv_done.
  erewrite krun_then by (by eapply find_ioctl_alone). done.
Qed.

(** The four handlers at once. *)
Lemma call_alone c d h res h' :
  call_at_once c d h = Done res h' -> krun (call_steps c) d h = Done res h'.
Proof.
  intros E. destruct c; simpl in E; inv_done; unfold call_steps.
  - erewrite krun_then by (by apply aesd_read_alone). done.
  - erewrite krun_then by (apply aesd_write_alone; rewrite <- surjective_pairing; eassumption). done.
  - erewrite krun_then by (by apply aesd_llseek_alone). done.
  - erewrite krun_then by (by apply aesd_ioctl_alone). done.
Qed.
End handlers.
