(* ===== verification/RelyGuarantee.v ===== *)
(** * Processes that observe and one that changes

    A logic for the processes of [DriverSteps].  The shared state goes through
    phases, [I ph d h] for phase [ph], and never back: [later] orders them.  One process may change
    the state ([changes]: each of its steps keeps the phase or moves on); the
    others observe ([observes]: whatever phase the state is in by then, their
    next step succeeds and leaves the state as it is).  [rg_run]: then no
    schedule faults, the changing process does what it does alone, and every
    answer of an observer satisfies its postcondition.

    [steps_within n p] bounds the steps of a process, so a schedule that gives
    each process its bound finishes them all. *)

From S2P Require Import Prelude CInt CMem Footprint Common CircularBuffer TemporaryBuffer.
From S2P Require Import CharDevice DriverSteps DriverAlone.

(** ** Bounds *)

Fixpoint steps_within {A} (n : nat) (p : kprog A) {struct p} : Prop :=
  match p with
  | KRet _ => True
  | KStep c k => match n with O => False | S n' => forall x, steps_within n' (k x) end
  end.

Lemma within_weaken {A} n m (p : kprog A) : steps_within n p -> (n <= m)%nat -> steps_within m p.
Proof.
  revert n m. induction p as [a|Y c k IH]; intros [|n] [|m] Hp Hle; simpl in *; try done; [lia|].
  intros x. apply (IH x n); [done|lia].
Qed.

Section bounds.
Context {A B X : Type}.

Lemma within_ret n (a : A) : steps_within n (mret a).
Proof. done. Qed.

Lemma within_bind n m (p : kprog A) (k : A -> kprog B) :
  steps_within n p -> (forall a, steps_within m (k a)) -> steps_within (n + m) (p ≫= k).
Proof.
  unfold mbind, kprog_bind. revert n. induction p as [a|Y c k' IH]; intros n Hp Hk.
  - simpl. eapply within_weaken; [by apply Hk|lia].
  - destruct n as [|n]; [done|]. intros x. by apply IH.
Qed.

Lemma within_load n (f : field X) (k : X -> kprog B) :
  (forall x, steps_within n (k x)) -> steps_within (S n) (load f ≫= k).
Proof. done. Qed.
Lemma within_store n (f : field X) y (k : () -> kprog B) :
  steps_within n (k ()) -> steps_within (S n) (store f y ≫= k).
Proof. by intros Hk []. Qed.
Lemma within_store_last n (f : field X) y : steps_within (S n) (store f y).
Proof. by intros []. Qed.
Lemma within_memory n (m : M X) (k : X -> kprog B) :
  (forall x, steps_within n (k x)) -> steps_within (S n) (memory m ≫= k).
Proof. done. Qed.
End bounds.

(** Along the structure of a program without loops. *)
Ltac solve_within :=
  cbn beta iota zeta;
  lazymatch goal with
  | |- steps_within _ (mret _) => apply within_ret
  | |- steps_within _ (load _ ≫= _) => apply within_load; intros ?; solve_within
  | |- steps_within _ (store _ _ ≫= _) => apply within_store; solve_within
  | |- steps_within _ (store _ _) => apply within_store_last
  | |- steps_within _ (memory _ ≫= _) => apply within_memory; intros ?; solve_within
  | |- _ => case_match; solve_within
  end.

(** A process that has had its bound of turns has its answer. *)
Lemma kstep_other s s' i j : kstep s i = inl s' -> i <> j -> procs s' !! j = procs s !! j.
Proof.
  unfold kstep. intros E Hij. repeat case_match; simplify_eq; simpl; [done| |done].
  by apply list_lookup_insert_ne.
Qed.

Lemma kstep_self s s' i A' (c : access A') k :
  kstep s i = inl s' -> procs s !! i = Some (KStep c k) -> exists x, procs s' !! i = Some (k x).
Proof.
  unfold kstep. intros E Hp. rewrite Hp in E. case_match; [|done]. case_match. simplify_eq. simpl.
  eexists. apply list_lookup_insert_eq. by eapply lookup_lt_Some.
Qed.

Lemma turns_finish s s' sched i p n :
  krun_sched s sched = inl s' -> procs s !! i = Some p -> steps_within n p ->
  (n <= count_occ Nat.eq_dec sched i)%nat -> exists a, answer_of s' i = Some a.
Proof.
  revert s p n. induction sched as [|j sched IH]; intros s p n E Hp Hn Hle; simpl in E.
  - simplify_eq. simpl in Hle. destruct n; [|lia]. unfold answer_of. rewrite Hp.
    destruct p; [by eexists|done].
  - destruct (kstep s j) as [s1|f] eqn:Es; [|done]. simpl in Hle.
    destruct (Nat.eq_dec j i) as [->|Hne].
    + destruct p as [a|Y c k].
      * apply (IH s1 (KRet a) O); [done| |done|lia].
        unfold kstep in Es. rewrite Hp in Es. by simplify_eq.
      * destruct n as [|n]; [done|]. destruct (kstep_self _ _ _ _ _ _ Es Hp) as [x Hx].
        apply (IH s1 (k x) n); [done|done|apply Hn|lia].
    + apply (IH s1 p n); [done|by rewrite (kstep_other _ _ _ _ Es)|done|done].
Qed.

(** ** The logic *)

Section logic.
Context {Ph : Type} (later : relation Ph) `{!PreOrder later} (I : Ph -> aesd_dev -> heap -> Prop).
Implicit Types (ph : Ph) (d : aesd_dev) (h : heap).

Fixpoint observes {A} ph (p : kprog A) (Q : A -> Ph -> Prop) : Prop :=
  match p with
  | KRet a => Q a ph
  | KStep c k =>
      forall ph' d h, later ph ph' -> I ph' d h ->
        exists x, do_access c d h = Done (x, d) h /\ observes ph' (k x) Q
  end.

Fixpoint changes {A} ph (p : kprog A) d h (Q : A -> Ph -> aesd_dev -> heap -> Prop) : Prop :=
  I ph d h /\
  match p with
  | KRet a => Q a ph d h
  | KStep c k =>
      exists x ph' d' h', later ph ph' /\ do_access c d h = Done (x, d') h' /\ changes ph' (k x) d' h' Q
  end.

Lemma changes_inv {A} ph (p : kprog A) d h Q : changes ph p d h Q -> I ph d h.
Proof. destruct p; by intros []. Qed.

Section rules.
Context {A B X : Type}.

Lemma observes_later ph ph' (p : kprog A) (Q : A -> Ph -> Prop) :
  observes ph p Q -> later ph ph' -> (forall a m n, Q a m -> later m n -> Q a n) -> observes ph' p Q.
Proof.
  destruct p as [a|Y c k]; simpl; intros Hp Hle HQ; [by eapply HQ|].
  intros ph'' d h Hle' HI. apply Hp; [by etrans|done].
Qed.

Lemma observes_mono ph (p : kprog A) (Q Q' : A -> Ph -> Prop) :
  observes ph p Q -> (forall a ph', Q a ph' -> Q' a ph') -> observes ph p Q'.
Proof.
  revert ph. induction p as [a|Y c k IH]; intros ph Hp HQ; simpl in *; [by apply HQ|].
  intros ph' d h Hle HI. destruct (Hp ph' d h Hle HI) as (x & Hx & Hk). exists x. split; [done|by apply IH].
Qed.

Lemma observes_bind ph (p : kprog A) (k : A -> kprog B) Q :
  observes ph p (fun a ph' => observes ph' (k a) Q) -> observes ph (p ≫= k) Q.
Proof.
  unfold mbind, kprog_bind. revert ph. induction p as [a|Y c k' IH]; intros ph Hp; simpl in *; [done|].
  intros ph' d h Hle HI. destruct (Hp ph' d h Hle HI) as (x & Hx & Hk). exists x. split; [done|by apply IH].
Qed.

(** A load: what it brings may depend on the phase it happens in. *)
Lemma observes_load ph (f : field X) (k : X -> kprog B) Q :
  (forall ph' d h, later ph ph' -> I ph' d h ->
     exists x, load_field d f = mret x /\ observes ph' (k x) Q) ->
  observes ph (load f ≫= k) Q.
Proof.
  intros Hf ph' d h Hle HI. destruct (Hf ph' d h Hle HI) as (x & Hx & Hk). exists x.
  split; [|done]. simpl. by rewrite Hx.
Qed.

Lemma observes_memory ph (m : M X) (k : X -> kprog B) Q :
  (forall ph' d h, later ph ph' -> I ph' d h -> exists x, m h = Done x h /\ observes ph' (k x) Q) ->
  observes ph (memory m ≫= k) Q.
Proof.
  intros Hm ph' d h Hle HI. destruct (Hm ph' d h Hle HI) as (x & Hx & Hk). exists x.
  split; [|done]. simpl. unfold mbind, M_bind. by rewrite Hx.
Qed.

Lemma changes_ret ph (a : A) d h (Q : A -> Ph -> aesd_dev -> heap -> Prop) :
  I ph d h -> Q a ph d h -> changes ph (mret a) d h Q.
Proof. done. Qed.

Lemma changes_mono ph (p : kprog A) d h (Q Q' : A -> Ph -> aesd_dev -> heap -> Prop) :
  changes ph p d h Q -> (forall a ph' d' h', I ph' d' h' -> Q a ph' d' h' -> Q' a ph' d' h') -> changes ph p d h Q'.
Proof.
  revert ph d h. induction p as [a|Y c k IH]; intros ph d h [HI Hp] HQ; simpl; (split; [done|]); [by apply HQ|].
  destruct Hp as (x & ph' & d' & h' & Hle & Hx & Hk). exists x, ph', d', h'. split_and!; [done..|by apply IH].
Qed.

Lemma changes_bind ph (p : kprog A) (k : A -> kprog B) d h Q :
  changes ph p d h (fun a ph' d' h' => changes ph' (k a) d' h' Q) -> changes ph (p ≫= k) d h Q.
Proof.
  unfold mbind, kprog_bind. revert ph d h. induction p as [a|Y c k' IH]; intros ph d h [HI Hp]; simpl; [done|].
  split; [done|]. destruct Hp as (x & ph' & d' & h' & Hle & Hx & Hk).
  exists x, ph', d', h'. split_and!; [done..|by apply IH].
Qed.

Lemma changes_load ph (f : field X) (k : X -> kprog B) d h x Q :
  load_field d f = mret x -> changes ph (k x) d h Q -> changes ph (load f ≫= k) d h Q.
Proof.
  intros Hx Hk. split; [by eapply changes_inv|]. exists x, ph, d, h. split; [done|]. split; [|done].
  simpl. by rewrite Hx.
Qed.

Lemma changes_store ph ph' (f : field X) x (k : () -> kprog B) d d' h Q :
  I ph d h -> later ph ph' -> store_field d f x = mret d' -> changes ph' (k ()) d' h Q ->
  changes ph (store f x ≫= k) d h Q.
Proof.
  intros HI Hle Hx Hk. split; [done|]. exists (), ph', d', h. split; [done|]. split; [|done]. simpl. by rewrite Hx.
Qed.

(** The last store of a function. *)
Lemma changes_store_last ph ph' (f : field X) x d d' h Q :
  I ph d h -> later ph ph' -> store_field d f x = mret d' -> I ph' d' h -> Q () ph' d' h ->
  changes ph (store f x) d h Q.
Proof.
  intros HI Hle Hx HI' HQ. split; [done|]. exists (), ph', d', h. split; [done|]. split; [|done]. simpl. by rewrite Hx.
Qed.

Lemma changes_memory ph (m : M X) (k : X -> kprog B) d h Q :
  I ph d h -> wp m (fun x h' => changes ph (k x) d h' Q) h -> changes ph (memory m ≫= k) d h Q.
Proof.
  intros HI (x & h' & Hx & Hk)%wp_done. split; [done|]. exists x, ph, d, h'. split; [done|]. split; [|done].
  simpl. unfold mbind, M_bind. by rewrite Hx.
Qed.
End rules.

(** ** Soundness *)

(** Process [w] changes the state and ends with [res] in [dw], [hw]; process
    [i] observes and its answer satisfies [Q i]. *)
Record rg_ok (w : nat) (res : answer) (dw : aesd_dev) (hw : heap) (Q : nat -> answer -> Prop)
    (s : kstate) (ph : Ph) : Prop := {
  rg_state : I ph (kdev s) (kheap s);
  rg_changes p : procs s !! w = Some p ->
    changes ph p (kdev s) (kheap s) (fun _ _ _ _ => True) /\ krun p (kdev s) (kheap s) = Done (res, dw) hw;
  rg_observes i p : i <> w -> procs s !! i = Some p -> observes ph p (fun a _ => Q i a)
}.

Lemma rg_step w res dw hw Q s ph i :
  rg_ok w res dw hw Q s ph -> exists s' ph', kstep s i = inl s' /\ rg_ok w res dw hw Q s' ph'.
Proof.
  intros [HI Hw Ho]. unfold kstep. destruct (procs s !! i) as [[a|Y c k]|] eqn:Ep; [by exists s, ph| |by exists s, ph].
  pose proof (lookup_lt_Some _ _ _ Ep) as Hlt. destruct (decide (i = w)) as [->|Hne].
  - destruct (Hw _ Ep) as [[_ (x & ph' & d' & h' & Hle & Hx & Hk)] Hrun].
    assert (krun (k x) d' h' = Done (res, dw) hw) as Hrun'.
    { rewrite <- Hrun. simpl. unfold mbind, M_bind. by rewrite Hx. }
    rewrite Hx. eexists _, ph'. split; [done|]. split; simpl; [by eapply changes_inv| |].
    + rewrite list_lookup_insert_eq by done. by intros p [= <-].
    + intros j p Hj. rewrite list_lookup_insert_ne by done. intros Hp.
      apply (observes_later ph); [by apply Ho|done|done].
  - destruct (Ho _ _ Hne Ep ph (kdev s) (kheap s) (reflexivity _) HI) as (x & Hx & Hk).
    rewrite Hx. eexists _, ph. split; [done|]. split; simpl; [done| |].
    + rewrite list_lookup_insert_ne by done. apply Hw.
    + intros j p Hj. destruct (decide (j = i)) as [->|]; [|rewrite list_lookup_insert_ne by done; by apply Ho].
      rewrite list_lookup_insert_eq by done. by intros [= <-].
Qed.

Lemma rg_run w res dw hw Q s ph sched :
  rg_ok w res dw hw Q s ph -> exists s' ph', krun_sched s sched = inl s' /\ rg_ok w res dw hw Q s' ph'.
Proof.
  revert s ph. induction sched as [|i sched IH]; intros s ph Hs; simpl; [by exists s, ph|].
  destruct (rg_step _ _ _ _ _ _ _ i Hs) as (s1 & ph1 & -> & Hs1). by eapply IH.
Qed.

(** What has been answered. *)
Lemma rg_answer w res dw hw Q s ph i a :
  rg_ok w res dw hw Q s ph -> answer_of s i = Some a ->
  if decide (i = w) then a = res /\ kdev s = dw /\ kheap s = hw else Q i a.
Proof.
  intros [_ Hw Ho] Ha. unfold answer_of in Ha. destruct (procs s !! i) as [[a'|]|] eqn:Ep; simplify_eq.
  case_decide as Hi; [|exact (Ho _ _ Hi Ep)]. subst i.
  destruct (Hw _ Ep) as [_ E]. injection E as -> -> ->. done.
Qed.
End logic.

(** ** Programs that only observe *)

(** A computation that leaves the heap as it was. *)
Definition reads_only {X} (m : M X) : Prop := forall h x h', m h = Done x h' -> h' = h.

Lemma load_reads_only {X} d (f : field X) : reads_only (load_field d f).
Proof.
  assert (forall p, reads_only (through p)) as Ht.
  { intros p h x h'. unfold through. destruct (is_null p); [done|]. by intros [= _ <-]. }
  intros h x h' E.
  destruct f; simpl in E; inv_done; try done;
    repeat match goal with H : through _ _ = Done _ _ |- _ => apply Ht in H; subst end; done.
Qed.

Fixpoint read_only {A} (p : kprog A) : Prop :=
  match p with
  | KRet _ => True
  | KStep c k =>
      match c with
      | Load _ => True
      | Store _ _ => False
      | Memory m => reads_only m
      end /\ forall x, read_only (k x)
  end.

Section read_only.
Context {A B X : Type}.

Lemma ro_ret (a : A) : read_only (mret a).
Proof. done. Qed.
Lemma ro_load (f : field X) (k : X -> kprog B) : (forall x, read_only (k x)) -> read_only (load f ≫= k).
Proof. done. Qed.
Lemma ro_memory (m : M X) (k : X -> kprog B) :
  reads_only m -> (forall x, read_only (k x)) -> read_only (memory m ≫= k).
Proof. done. Qed.
Lemma ro_bind (p : kprog A) (k : A -> kprog B) :
  read_only p -> (forall a, read_only (k a)) -> read_only (p ≫= k).
Proof.
  unfold mbind, kprog_bind. induction p as [a|Y c k' IH]; simpl; [auto|]. intros [Hc Hk'] Hk. split; [done|].
  intros x. by apply IH.
Qed.
End read_only.

(** One phase: nothing changes. *)
Definition still : relation () := fun _ _ => True.

#[export] Instance still_preorder : PreOrder still.
Proof. split; by repeat intro. Qed.

(** Observers alone do what they do one at a time. *)
Lemma read_only_observes {A} (p : kprog A) d h a d' h' ph :
  read_only p -> krun p d h = Done (a, d') h' ->
  d' = d /\ h' = h /\ observes still (fun _ d1 h1 => d1 = d /\ h1 = h) ph p (fun b _ => b = a).
Proof.
  revert ph. induction p as [b|Y c k IH]; intros ph Hp E; simpl in *.
  - injection E as -> -> ->. done.
  - destruct Hp as [Hc Hk]. unfold mbind, M_bind in E.
    destruct (do_access c d h) as [[x d1] h1|f] eqn:Ex; [|done].
    assert (d1 = d /\ h1 = h) as [-> ->].
    { destruct c as [X f|X f y|X m]; [|done|]; simpl in Ex; unfold mbind, M_bind in Ex.
      - destruct (load_field d f h) as [x' h2|] eqn:Em; [|done]. injection Ex as -> -> <-.
        by apply load_reads_only in Em.
      - destruct (m h) as [x' h2|] eqn:Em; [|done]. injection Ex as -> -> <-. by apply Hc in Em. }
    destruct (IH x ph (Hk x) E) as (-> & -> & _). split_and!; [done..|].
    intros ph' d1 h1 _ [-> ->]. exists x. split; [done|]. by destruct (IH x ph' (Hk x) E) as (_ & _ & ?).
Qed.

(** A part of the changing process that changes nothing, in its phase. *)
Lemma read_only_changes {A Ph : Type} (later : relation Ph) `{!PreOrder later} (I : Ph -> aesd_dev -> heap -> Prop)
    (p : kprog A) d h a d' h' ph :
  read_only p -> krun p d h = Done (a, d') h' -> I ph d h ->
  changes later I ph p d h (fun b ph' d1 h1 => b = a /\ ph' = ph /\ d1 = d /\ h1 = h).
Proof.
  intros Hp E HI. revert Hp E. induction p as [b|Y c k IH]; intros Hp E; [by injection E as -> _ _|].
  destruct (read_only_observes (KStep c k) d h a d' h' () Hp E) as (-> & -> & Ho).
  destruct (Ho () d h) as (x & Hx & _); [done|done|]. split; [done|].
  exists x, ph, d, h. split; [done|]. split; [done|]. apply IH; [by apply Hp|].
  rewrite <- E. simpl. unfold mbind, M_bind. by rewrite Hx.
Qed.
