(* ===== verification/DriverRaces.v ===== *)
(** * Calls of several processes on the device without a lock

    What [main.c] does when its handlers run at the same time.  Alone, the
    steps of a call are the call; calls that change nothing do not disturb
    each other; every call ends within a bound of its own steps, whatever the
    others do.  A call that changes the device is another matter: two writers
    free one entry twice, a reader copies from freed memory, and the data of
    a writer is lost.  [DriverReaders] shows what still holds next to one
    writer. *)

From S2P Require Import Prelude CInt CMem Footprint Common CircularBuffer TemporaryBuffer.
From S2P Require Import Ring CircularFacts CircularSearch CharDevice DeviceFacts WriteFacts SeekFacts.
From S2P Require Import ModuleFacts DeviceSpec Scenario DriverSteps DriverAlone RelyGuarantee.

(** What the kernel guarantees of a call's arguments. *)
Definition driver_call_ok (c : driver_call) : Prop :=
  match c with
  | DRead u count f_pos => user_ok u /\ 0 <= count < 2 ^ 63 /\ pos_ok f_pos
  | DWrite u count => user_ok u /\ 0 <= count < 2 ^ 63
  | DSeek f_pos offset whence => pos_ok f_pos /\ - 2 ^ 63 <= offset < 2 ^ 63
  | DIoctl cmd arg f_pos => user_ok arg /\ pos_ok f_pos
  end.

(** Calls that do not change the device. *)
Definition looks (c : driver_call) : bool :=
  match c with DWrite _ _ => false | _ => true end.

(** How many steps a call makes at most. *)
Definition call_bound (c : driver_call) : nat :=
  match c with DWrite _ count => (Z.to_nat count + 80)%nat | _ => 40%nat end.

(** ** Bounds *)

Section bounds.
Context `{Allocator}.

Lemma find_fpos_within n off cur idx rtn : steps_within (3 * n) (find_fpos_loop_steps n off cur idx rtn).
Proof.
  revert cur idx. induction n as [|n IH]; intros cur idx; [apply within_ret|].
  replace (3 * S n)%nat with (S (1 + S (3 * n)))%nat by lia. cbn [find_fpos_loop_steps].
  apply within_load. intros p. case_match; [apply within_ret|]. apply within_bind; [solve_within|].
  intros []; [apply within_memory; intros _; apply within_ret|]. apply within_load. intros size. apply IH.
Qed.

Lemma find_ioctl_within n c o i cur idx rtn : steps_within (2 * n + 1) (find_ioctl_loop_steps n c o i cur idx rtn).
Proof.
  revert i cur idx. induction n as [|n IH]; intros i cur idx.
  - cbn [find_ioctl_loop_steps]. solve_within.
  - replace (2 * S n + 1)%nat with (S (S (2 * n + 1))) by lia. cbn [find_ioctl_loop_steps].
    apply within_load. intros p. case_match; [solve_within|]. case_match; [|apply within_load; intros ?; apply IH].
    apply within_load. intros size. rewrite Nat.add_1_r. case_match; solve_within.
Qed.

Lemma scan_within n kbuf i : steps_within n (scan_newline_steps n kbuf i).
Proof.
  revert i. induction n as [|n IH]; intros i; [apply within_ret|]. cbn [scan_newline_steps].
  apply within_memory. intros c. case_match; [apply within_ret|apply IH].
Qed.

Lemma add_entry_within buffer e : steps_within 31 (add_entry_steps buffer e).
Proof.
  unfold add_entry_steps. case_match; [apply within_ret|]. apply within_load. intros is_full.
  apply (within_bind 13 17).
  - case_match; [|apply within_ret]. unfold release_oldest_steps. solve_within.
  - intros _. unfold store_newest_steps, complete_entry_steps. solve_within.
Qed.

Lemma tmp_add_within data size : steps_within 11 (tmp_add_steps data size).
Proof. unfold tmp_add_steps. solve_within. Qed.
Lemma tmp_is_empty_within : steps_within 2 tmp_is_empty_steps.
Proof. unfold tmp_is_empty_steps. solve_within. Qed.
Lemma tmp_delete_within : steps_within 5 tmp_delete_steps.
Proof. unfold tmp_delete_steps. solve_within. Qed.
Lemma free_within kbuf ret : steps_within 1 (free_and_return kbuf ret).
Proof. unfold free_and_return. solve_within. Qed.

Lemma write_line_within bc kbuf count : steps_within 32 (write_line_steps bc kbuf count).
Proof.
  apply (within_bind 31 1); [apply add_entry_within|]. intros _. apply free_within.
Qed.
Lemma write_fragment_within kbuf count : steps_within 12 (write_fragment_steps kbuf count).
Proof. apply (within_bind 11 1); [apply tmp_add_within|]. intros added. apply free_within. Qed.

Lemma write_rest_within bc kbuf count : steps_within 50 (write_rest_of_line_steps bc kbuf count).
Proof.
  apply (within_bind 11 39); [apply tmp_add_within|]. intros added.
  case_match; [eapply within_weaken; [apply free_within|lia]|].
  do 2 (apply within_load; intros ?). apply (within_bind 31 6); [apply add_entry_within|]. intros _.
  apply (within_bind 5 1); [apply tmp_delete_within|]. intros _. apply free_within.
Qed.

Lemma aesd_write_within u count : steps_within (Z.to_nat count + 79) (aesd_write_steps u count).
Proof.
  unfold aesd_write_steps. replace (Z.to_nat count + 79)%nat with (4 + (Z.to_nat count + 75))%nat by lia.
  do 2 (apply within_load; intros ?). apply within_memory. intros kbuf. case_match; [apply within_ret|].
  cbv zeta. apply within_memory. intros _.
  case_match; [eapply within_weaken; [apply free_within|lia]|].
  apply within_bind; [apply scan_within|]. intros [].
  - apply (within_bind 2 73); [apply tmp_is_empty_within|].
    intros []; [eapply within_weaken; [apply write_line_within|lia]|].
    apply (within_bind 2 71); [apply tmp_is_empty_within|].
    intros []; eapply within_weaken; [apply write_fragment_within|lia|apply write_rest_within|lia].
  - eapply within_weaken; [apply write_fragment_within|lia].
Qed.

Lemma aesd_read_within u count f_pos : steps_within 39 (aesd_read_steps u count f_pos).
Proof.
  unfold aesd_read_steps. apply within_load. intros bc. apply (within_bind 31 7).
  - unfold find_fpos_steps. case_match; [apply within_ret|]. apply within_load. intros idx.
    apply (find_fpos_within 10).
  - intros [[idx|] rtn]; solve_within.
Qed.

Lemma aesd_ioctl_within cmd arg f_pos : steps_within 39 (aesd_ioctl_steps cmd arg f_pos).
Proof.
  unfold aesd_ioctl_steps. apply within_load. intros bc. cbv zeta.
  do 2 (case_match; [apply within_ret|]). case_match; [|apply within_ret].
  do 2 (case_match; [apply within_ret|]). apply within_load. intros size. case_match; [apply within_ret|].
  apply (within_bind 22 15).
  - unfold find_ioctl_steps. case_match; [apply within_ret|]. apply within_load. intros idx.
    apply (find_ioctl_within 10).
  - intros found. apply within_ret.
Qed.

Lemma call_within c : steps_within (call_bound c) (call_steps c).
Proof.
  destruct c as [u count f_pos|u count|f_pos offset whence|cmd arg f_pos]; unfold call_steps, call_bound.
  - apply (within_bind 39 1); [apply aesd_read_within|]. intros res. apply within_ret.
  - replace (Z.to_nat count + 80)%nat with (Z.to_nat count + 79 + 1)%nat by lia.
    apply within_bind; [apply aesd_write_within|]. intros res. apply within_ret.
  - apply (within_bind 39 1); [|intros res; apply within_ret]. unfold aesd_llseek_steps. solve_within.
  - apply (within_bind 39 1); [apply aesd_ioctl_within|]. intros res. apply within_ret.
Qed.
End bounds.

(** ** Alone *)

Section alone.
Context `{Allocator}.
Implicit Types (d : aesd_dev) (h : heap).

(** On a device in good order every call returns. *)
Lemma driver_call_returns d r p c h L :
  dev_models d r p -> holds h (dev_chunks d r p ++ L) -> driver_call_ok c ->
  exists a d' h', call_at_once c d h = Done (a, d') h' /\ (looks c = true -> d' = d /\ h' = h).
Proof.
  intros Hd Hh Hc. destruct c as [u count f_pos|u count|f_pos offset whence|cmd arg f_pos]; simpl in Hc |- *.
  - erewrite bind_done by (eapply aesd_read_exact; [done..|lia|unfold pos_ok in *; lia]). by do 3 eexists.
  - destruct (wp_done _ _ _ (wp_aesd_write d u r p count h L Hd ltac:(apply Hc) ltac:(lia) Hh))
      as (res & h' & E & _). erewrite bind_done by exact E. by do 3 eexists.
  - erewrite bind_done by (by eapply aesd_llseek_exact). by do 3 eexists.
  - destruct (aesd_ioctl_pos d r p cmd arg f_pos h L Hd Hh ltac:(apply Hc)) as (res & E & _).
    erewrite bind_done by exact E. by do 3 eexists.
Qed.

(** On every device in good order, the steps of a call run without
    interference give the answer, the device and the heap that the call gives
    as one operation. *)
Theorem steps_alone_are_the_call d r p c h L :
  dev_models d r p -> holds h (dev_chunks d r p ++ L) -> driver_call_ok c ->
  krun (call_steps c) d h = call_at_once c d h.
Proof.
  intros Hd Hh Hc. destruct (driver_call_returns d r p c h L Hd Hh Hc) as (a & d' & h' & E & _).
  rewrite E. by apply call_alone.
Qed.

(** ** Observers *)

Lemma ro_find_fpos n off cur idx rtn : read_only (find_fpos_loop_steps n off cur idx rtn).
Proof.
  revert cur idx. induction n as [|n IH]; intros cur idx; [apply ro_ret|]. cbn [find_fpos_loop_steps].
  apply ro_load. intros p. case_match; [apply ro_ret|].
  apply ro_bind; [case_match; [by apply ro_load|apply ro_ret]|]. intros [].
  - apply ro_memory; [|by intros]. intros h x h'. unfold debug_rtn. case_match; by intros [= _ <-].
  - by apply ro_load.
Qed.

Lemma store_rtn_reads_only rtn v : reads_only (store_rtn rtn v).
Proof. intros h x h'. unfold store_rtn. case_match; by intros [= _ <-]. Qed.

Lemma ro_find_ioctl n c o i cur idx rtn : read_only (find_ioctl_loop_steps n c o i cur idx rtn).
Proof.
  revert i cur idx. induction n as [|n IH]; intros i cur idx; cbn [find_ioctl_loop_steps];
    [apply ro_memory; [apply store_rtn_reads_only|by intros]|].
  apply ro_load. intros p. case_match; [apply ro_memory; [apply store_rtn_reads_only|by intros]|].
  case_match; apply ro_load; intros size; [|apply IH].
  case_match; [apply ro_memory; [apply store_rtn_reads_only|by intros]|apply ro_ret].
Qed.

Lemma load_init_reads_only p off n : reads_only (load_init p off n).
Proof.
  intros h x h' E. unfold load_init, load_bytes in E. inv_done.
  repeat match goal with H : get_block _ _ = Done _ _ |- _ => apply get_block_inv in H as [_ ->] end.
  repeat case_match; inv_done; done.
Qed.

Lemma call_read_only c : looks c = true -> read_only (call_steps c).
Proof.
  destruct c as [u count f_pos|u count|f_pos offset whence|cmd arg f_pos]; intros Hl; [|done|..];
    (apply ro_bind; [|intros; apply ro_ret]).
  - apply ro_load. intros bc. apply ro_bind.
    + unfold find_fpos_steps. case_match; [apply ro_ret|]. apply ro_load. intros idx. apply ro_find_fpos.
    + intros [[idx|] rtn]; [|apply ro_ret]. do 2 (apply ro_load; intros ?).
      apply ro_memory; [apply load_init_reads_only|by intros].
  - apply ro_load. intros bc. repeat (case_match; try apply ro_ret). by apply ro_load.
  - apply ro_load. intros bc. cbv zeta. repeat (case_match; try apply ro_ret).
    apply ro_load. intros size. case_match; [apply ro_ret|]. apply ro_bind; [|intros; apply ro_ret].
    unfold find_ioctl_steps. case_match; [apply ro_ret|]. apply ro_load. intros idx. apply ro_find_ioctl.
Qed.

(** Each process has had its bound of turns. *)
Definition enough_turns (cs : list driver_call) (sched : list nat) : Prop :=
  forall i c, cs !! i = Some c -> (call_bound c <= count_occ Nat.eq_dec sched i)%nat.

Lemma all_answered cs d h sched s' :
  enough_turns cs sched -> krun_sched (start cs d h) sched = inl s' ->
  forall i c, cs !! i = Some c -> exists a, answer_of s' i = Some a.
Proof.
  intros Hs E i c Hi. apply (turns_finish _ _ _ i (call_steps c) (call_bound c) E).
  - simpl. by rewrite list_lookup_fmap, Hi.
  - apply call_within.
  - by apply (Hs i).
Qed.

(** C17: any number of processes that read, seek and use the ioctl, interleaved
    access by access in any order: none faults, the device and the heap stay
    as they are, and each call returns, within its bound of turns, what it
    returns alone. *)
Theorem observers_do_not_disturb d r p cs h L sched :
  dev_models d r p -> holds h (dev_chunks d r p ++ L) ->
  Forall (fun c => driver_call_ok c /\ looks c = true) cs -> enough_turns cs sched ->
  exists s', krun_sched (start cs d h) sched = inl s' /\ kdev s' = d /\ kheap s' = h /\
    forall i c, cs !! i = Some c ->
      exists a, answer_of s' i = Some a /\ call_at_once c d h = Done (a, d) h.
Proof.
  intros Hd Hh Hcs Hs.
  set (Inv := fun (_ : ()) d1 h1 => d1 = d /\ h1 = h).
  set (Q := fun i a => forall c, cs !! i = Some c -> call_at_once c d h = Done (a, d) h).
  assert (rg_ok still Inv (length cs) (WriteAnswer 0) d h Q (start cs d h) ()) as Hok.
  { split; [done| |].
    - intros p0 Hp. apply lookup_lt_Some in Hp. simpl in Hp. rewrite length_fmap in Hp. lia.
    - intros i p0 _ Hp. simpl in Hp. rewrite list_lookup_fmap in Hp.
      destruct (cs !! i) as [c|] eqn:Ei; simplify_eq/=.
      destruct (Forall_lookup_1 _ _ _ _ Hcs Ei) as [Hc Hl].
      destruct (driver_call_returns d r p c h L Hd Hh Hc) as (a & d' & h' & E & Hsame).
      destruct (Hsame Hl) as [-> ->].
      destruct (read_only_observes (call_steps c) d h a d h () (call_read_only _ Hl) (call_alone _ _ _ _ _ E)) as (_ & _ & Ho).
      eapply observes_mono; [exact Ho|]. intros b _ -> c' Hc'. rewrite Ei in Hc'. by simplify_eq. }
  destruct (rg_run still Inv _ _ _ _ _ _ _ sched Hok) as (s' & ph' & E & Hok'). exists s'.
  destruct (rg_state _ _ _ _ _ _ _ _ _ Hok') as [Hd' Hh']. split_and!; [done..|].
  intros i c Hi. destruct (all_answered _ _ _ _ _ Hs E i c Hi) as [a Ha]. exists a. split; [done|].
  pose proof (rg_answer still Inv _ _ _ _ _ _ _ i a Hok' Ha) as HQ.
  apply lookup_lt_Some in Hi as Hlt. rewrite decide_False in HQ by lia. by apply HQ.
Qed.
End alone.

(** ** Calls that do not overlap *)

Section serial.
Context `{Allocator}.
Implicit Types (d : aesd_dev) (h : heap) (order : list nat).

(** A process runs to its answer while the others wait. *)
Lemma run_turns_alone s i p n a d' h' :
  procs s !! i = Some p -> steps_within n p -> krun p (kdev s) (kheap s) = Done (a, d') h' ->
  krun_sched s (turns n i) = inl (Kstate (<[i := KRet a]> (procs s)) d' h').
Proof.
  revert s p. induction n as [|n IH]; intros s p Hi Hn E.
  - destruct p as [b|Y c k]; [|done]. simpl in E. injection E as <- <- <-. simpl.
    rewrite list_insert_id by done. by destruct s.
  - simpl. unfold kstep. rewrite Hi. destruct p as [b|Y c k].
    + by apply (IH s (KRet b)).
    + simpl in E. unfold mbind, M_bind in E. destruct (do_access c _ _) as [[x d1] h1|f]; [|done].
      rewrite (IH (Kstate (<[i := k x]> (procs s)) d1 h1) (k x)); simpl; [by rewrite list_insert_insert_eq| | |done].
      * apply list_lookup_insert_eq. by eapply lookup_lt_Some.
      * apply Hn.
Qed.

(** The calls of [order], each as one operation. *)
Fixpoint calls_at_once (cs : list driver_call) order d : M (list answer * aesd_dev) :=
  match order with
  | [] => mret ([], d)
  | i :: order' =>
      match cs !! i with
      | Some c =>
          r ← call_at_once c d;
          rest ← calls_at_once cs order' r.2;
          mret (r.1 :: rest.1, rest.2)
      | None => calls_at_once cs order' d
      end
  end.

(** The turns that let the processes through one after the other. *)
Definition one_by_one (cs : list driver_call) order : list nat :=
  concat ((fun i => turns (match cs !! i with Some c => call_bound c | None => O end) i) <$> order).

Lemma krun_sched_app s o1 o2 s1 : krun_sched s o1 = inl s1 -> krun_sched s (o1 ++ o2) = krun_sched s1 o2.
Proof.
  revert s. induction o1 as [|i o1 IH]; intros s E; simpl in *; [by simplify_eq|].
  destruct (kstep s i); [by apply IH|done].
Qed.

(** A call keeps the device in good order. *)
Lemma call_keeps d r p c h L :
  dev_models d r p -> holds h (dev_chunks d r p ++ L) -> driver_call_ok c ->
  exists a d' h' r' p', call_at_once c d h = Done (a, d') h' /\ dev_models d' r' p' /\ holds h' (dev_chunks d' r' p' ++ L).
Proof.
  intros Hd Hh Hc. destruct (looks c) eqn:El.
  - destruct (driver_call_returns d r p c h L Hd Hh Hc) as (a & d' & h' & E & Hsame).
    destruct (Hsame El) as [-> ->]. by exists a, d, h, r, p.
  - destruct c as [|u count| |]; try done. destruct Hc as [Hu Hcount].
    destruct (wp_done _ _ _ (wp_aesd_write d u r p count h L Hd Hu ltac:(lia) Hh))
      as ([ret d'] & h' & E & r' & p' & _ & Hd' & _ & _ & Hh').
    exists (WriteAnswer ret), d', h', r', p'. split_and!; [|done|done]. simpl. by erewrite bind_done by exact E.
Qed.

(** Processes whose calls do not overlap, as the server's threads do not
    under [fileMutex]: running the accesses of one call after those of
    another is the same as the calls as single operations, in that order. *)
Theorem calls_without_overlap_are_atomic d r p cs order h L :
  dev_models d r p -> holds h (dev_chunks d r p ++ L) -> Forall driver_call_ok cs ->
  NoDup order -> Forall (fun i => (i < length cs)%nat) order ->
  exists s' answers, krun_sched (start cs d h) (one_by_one cs order) = inl s' /\
    calls_at_once cs order d h = Done (answers, kdev s') (kheap s') /\
    forall k i, order !! k = Some i -> answer_of s' i = answers !! k.
Proof.
  intros Hd Hh Hcs Hnd Hlt.
  assert (forall ps, length ps = length cs ->
    (forall i c, i ∈ order -> cs !! i = Some c -> ps !! i = Some (call_steps c)) ->
    exists s' answers, krun_sched (Kstate ps d h) (one_by_one cs order) = inl s' /\
      calls_at_once cs order d h = Done (answers, kdev s') (kheap s') /\
      (forall i, i ∉ order -> procs s' !! i = ps !! i) /\
      forall k i, order !! k = Some i -> answer_of s' i = answers !! k) as Hgen.
  2:{ destruct (Hgen (call_steps <$> cs)) as (s' & answers & E & Ea & _ & Hk); [by rewrite length_fmap| |].
      - intros i c _ Hi. by rewrite list_lookup_fmap, Hi.
      - by exists s', answers. }
  revert d r p h Hd Hh. induction order as [|i order IH]; intros d r p h Hd Hh ps Hlen Hps.
  { exists (Kstate ps d h), []. split; [done|]. split; [done|]. split; [done|]. by intros []. }
  apply NoDup_cons in Hnd as [Hni Hnd]. apply Forall_cons in Hlt as [Hi Hlt].
  destruct (lookup_lt_is_Some_2 cs i Hi) as [c Hc].
  destruct (call_keeps d r p c h L Hd Hh ltac:(by eapply Forall_lookup_1))
    as (a & d1 & h1 & r1 & p1 & E & Hd1 & Hh1).
  assert (ps !! i = Some (call_steps c)) as Hpi by (apply Hps; [by apply list_elem_of_here|done]).
  destruct (IH Hnd Hlt d1 r1 p1 h1 Hd1 Hh1 (<[i := KRet a]> ps)) as (s' & answers & Er & Ea & Hout & Hk).
  { by rewrite length_insert. }
  { intros j c' Hj Hc'. rewrite list_lookup_insert_ne by (by intros ->). apply Hps; [by apply list_elem_of_further|done]. }
  exists s', (a :: answers). split_and!.
  - unfold one_by_one. simpl. rewrite Hc. erewrite krun_sched_app; [exact Er|].
    apply (run_turns_alone (Kstate ps d h) i (call_steps c)); [done|apply call_within|by apply call_alone].
  - simpl. rewrite Hc. erewrite bind_done by exact E. simpl. by erewrite bind_done by exact Ea.
  - intros j [Hji Hj]%not_elem_of_cons. rewrite Hout by done. by apply list_lookup_insert_ne.
  - intros [|k] j Hkj; simplify_eq/=; [|by apply Hk]. unfold answer_of.
    by rewrite Hout, list_lookup_insert_eq by (by rewrite ?Hlen).
Qed.
End serial.

(** ** Races *)

Definition line_x : list byte := bytes "x" ++ nl.
Definition line_y : list byte := bytes "y" ++ nl.

(** Two writers of a line to a full device. *)
Definition two_writers : list driver_call :=
  [DWrite (user_bytes line_x) 2; DWrite (user_bytes line_y) 2].

Definition full_start (cs : list driver_call) : kstate := @start kmalloc cs wrapped_dev wrapped_heap.
Definition empty_start (cs : list driver_call) : kstate := @start kmalloc cs loaded_dev loaded_heap.

(** Two writers of a line to a full device: one after the other they
    both succeed; when the second goes through the release of the oldest
    entry while the first is about to free it, the entry is freed twice. *)
Theorem writers_free_twice :
  krun_sched (full_start two_writers) (turns 10 0 ++ turns 11 1 ++ turns 1 0) = inr Dangling /\
  exists s', krun_sched (full_start two_writers) (turns 82 0 ++ turns 82 1) = inl s' /\
    answer_of s' 0 = Some (WriteAnswer 2) /\ answer_of s' 1 = Some (WriteAnswer 2).
Proof.
  split; [vm_compute; reflexivity|]. eexists. split; [vm_compute; reflexivity|]. done.
Qed.

(** A reader that has found its entry on a full device copies from freed
    memory when a writer releases that entry first. *)
Theorem reader_copies_freed_memory :
  krun_sched (full_start [DRead (user_bytes []) 100 0; DWrite (user_bytes line_x) 2])
    (turns 7 0 ++ turns 11 1 ++ turns 1 0) = inr Dangling /\
  exists s', krun_sched (full_start [DRead (user_bytes []) 100 0; DWrite (user_bytes line_x) 2])
      (turns 40 0 ++ turns 82 1) = inl s' /\
    answer_of s' 0 = Some (ReadAnswer (3, 3, short_line)) /\ answer_of s' 1 = Some (WriteAnswer 2).
Proof.
  split; [vm_compute; reflexivity|]. eexists. split; [vm_compute; reflexivity|]. done.
Qed.

(** Two writers of a line to an empty device can use one slot: both
    report success, one entry is stored, and reading it reads memory that was
    never written; the other line is in a block nothing points to. *)
Theorem writers_share_a_slot :
  exists s', krun_sched (empty_start two_writers) (turns 10 0 ++ turns 82 1 ++ turns 82 0) = inl s' /\
    answer_of s' 0 = Some (WriteAnswer 2) /\ answer_of s' 1 = Some (WriteAnswer 2) /\
    aesd_read (kdev s') (user_bytes []) 100 0 (kheap s') = Stuck Uninitialised /\
    blocks (kheap s') !! 6%positive = Some (Some <$> line_y) /\
    Forall (fun e => buffptr e <> Ptr 6) (entry (circ (kdev s'))) /\ tmp_buffptr (tmp (kdev s')) = NULL.
Proof.
  eexists. split; [vm_compute; reflexivity|]. split_and!; [done|done|vm_compute; reflexivity|done| |done].
  repeat constructor; done.
Qed.

(** Two writers of a fragment to an empty partial line: both report
    success, and one fragment is gone and its memory lost. *)
Theorem fragment_is_lost :
  exists s', krun_sched (empty_start [DWrite (user_bytes (bytes "a")) 1; DWrite (user_bytes (bytes "b")) 1])
      (turns 6 0 ++ turns 81 1 ++ turns 81 0) = inl s' /\
    answer_of s' 0 = Some (WriteAnswer 1) /\ answer_of s' 1 = Some (WriteAnswer 1) /\
    tmp_buffptr (tmp (kdev s')) = Ptr 6 /\ tmp_size (tmp (kdev s')) = 1 /\
    blocks (kheap s') !! 6%positive = Some (Some <$> bytes "a") /\
    blocks (kheap s') !! 5%positive = Some (Some <$> bytes "b") /\ entry (circ (kdev s')) = replicate 10 null_entry.
Proof. eexists. split; [vm_compute; reflexivity|]. split_and!; done. Qed.

(** ** Instances *)

Lemma steps_alone_are_the_call_witness :
  exists a d' h', @krun answer (@call_steps kmalloc (DWrite (user_bytes short_line) 3)) wrapped_dev wrapped_heap =
                  Done (a, d') h' /\ a = WriteAnswer 3.
Proof.
  rewrite (@steps_alone_are_the_call kmalloc wrapped_dev wrapped_ring None (DWrite (user_bytes short_line) 3)
             wrapped_heap [] wrapped_models wrapped_holds).
  - do 3 eexists. split; [vm_compute; reflexivity|reflexivity].
  - split; [apply user_bytes_ok|lia].
Defined.

(** Two readers, a seek to the end and the ioctl on a full device. *)
Definition lookers : list driver_call :=
  [DRead (user_bytes []) 100 0; DRead (user_bytes []) 2 28; DSeek 0 0 SEEK_END;
   DIoctl AESDCHAR_IOCSEEKTO (user_bytes (seekto_encode (Seekto 1 1))) 0].

Lemma observers_do_not_disturb_witness :
  exists s', krun_sched (full_start lookers) (concat (replicate 40 [3; 1; 0; 2]%nat)) = inl s' /\
    kdev s' = wrapped_dev /\ answer_of s' 1 = Some (ReadAnswer (2, 30, take 2 (drop 1 long_line))).
Proof.
  destruct (@observers_do_not_disturb kmalloc wrapped_dev wrapped_ring None lookers wrapped_heap []
              (concat (replicate 40 [3; 1; 0; 2]%nat)) wrapped_models wrapped_holds) as (s' & Hrun & Hd & _ & Ha).
  - unfold lookers. repeat constructor; simpl; try (unfold pos_ok; lia); apply user_bytes_ok.
  - intros [|[|[|[|i]]]] c Hc; [..|done]; injection Hc as <-; vm_compute; lia.
  - exists s'. split; [exact Hrun|]. split; [exact Hd|].
    destruct (Ha 1%nat _ eq_refl) as (a & Hans & Hcall). rewrite Hans. f_equal.
    revert Hcall. vm_compute. congruence.
Defined.

Lemma calls_without_overlap_are_atomic_witness :
  let cs := [DRead (user_bytes []) 100 0; DWrite (user_bytes long_line) 7] in
  exists s' answers, krun_sched (full_start cs) (one_by_one cs [1; 0]%nat) = inl s' /\
    @calls_at_once kmalloc cs [1; 0]%nat wrapped_dev wrapped_heap = Done (answers, kdev s') (kheap s') /\
    answer_of s' 0 = answers !! 1%nat.
Proof.
  intros cs.
  destruct (@calls_without_overlap_are_atomic kmalloc wrapped_dev wrapped_ring None cs [1; 0]%nat wrapped_heap []
              wrapped_models wrapped_holds) as (s' & answers & Hrun & Hat & Hk).
  - unfold cs. repeat constructor; simpl; try (unfold pos_ok; lia); apply user_bytes_ok.
  - apply (bool_decide_unpack _). by vm_compute.
  - repeat constructor; simpl; lia.
  - exists s', answers. split; [exact Hrun|]. split; [exact Hat|]. exact (Hk 1%nat 0%nat eq_refl).
Defined.
