(* ===== verification/DriverReaders.v ===== *)
(** * Readers next to one writer

    A write that completes no line only touches the partial line, and while
    fewer than ten lines are stored a write releases nothing: it fills the
    first vacant slot, pointer first and size after the copy.  [serving]
    says what a search can meet during that: the old entries as they were,
    and the slot vacant (phase 0), with a pointer and size zero (phase 1), or
    complete (phase 2); the total size grows before the entry's.  So a read,
    a seek or an ioctl that runs next to the write, access by access and
    without a lock, gives what it gives before the write or what it gives
    after it. *)

From S2P Require Import Prelude CInt CMem Footprint Common CircularBuffer TemporaryBuffer.
From S2P Require Import Ring CircularFacts CircularSearch CharDevice DeviceFacts WriteFacts SeekFacts.
From S2P Require Import ModuleFacts DeviceSpec Scenario DriverSteps DriverAlone RelyGuarantee DriverRaces.

(** How far the write is with the slot, and the block it put there. *)
Inductive filling := Vacant | Pointed (p : ptr) | Filled (p : ptr).

Definition later (a b : filling) : Prop :=
  match a, b with
  | Vacant, _ => True
  | Pointed p, Pointed p' | Pointed p, Filled p' | Filled p, Filled p' => p = p'
  | _, _ => False
  end.

#[export] Instance later_preorder : PreOrder later.
Proof. split; [by intros []|]. intros [|p|p] [|p'|p'] [|p''|p'']; naive_solver. Qed.

Section serving.
Context `{Allocator} (d0 : aesd_dev) (r : ring) (q : list (list byte)) (new : list byte) (adds : bool).
Implicit Types (d : aesd_dev) (h : heap) (ph : filling).

(** The slot of entry [k], oldest first. *)
Definition slot_at (k : nat) : Z := Z.of_nat ((r_out r + k) mod 10).

Definition fresh_entry ph (e : aesd_buffer_entry) h : Prop :=
  match ph with
  | Vacant => e = null_entry
  | Pointed p => buffptr e = p /\ is_null p = false /\ entry_size e = 0
  | Filled p => buffptr e = p /\ entry_size e = Z.of_nat (length new) /\ own_ok p (Some <$> new) /\
                exists F, holds h (own p (Some <$> new) ++ F)
  end.

Record serving ph d h : Prop := {
  sv_ptr : is_null (bufferCircular d) = false;
  sv_out : out_offs (circ d) = Z.of_nat (r_out r);
  sv_old k : (k < 10)%nat -> k <> length q ->
    arr_get (entry (circ d)) (slot_at k) = arr_get (entry (circ d0)) (slot_at k);
  sv_new : (length q < 10)%nat -> exists e, arr_get (entry (circ d)) (slot_at (length q)) = mret e /\ fresh_entry ph e h;
  sv_adds : ph <> Vacant -> adds = true;
  sv_size : circ_size (circ d) = total q \/ (adds = true /\ circ_size (circ d) = total (q ++ [new]));
  sv_heap : exists F, holds h (circ_chunks (circ d0) r ++ F)
}.

Hypothesis Hcirc : circ_models (circ d0) r.
Hypothesis Hlay : layout r q.
Hypothesis Hsmall : total q + Z.of_nat (length new) < 2 ^ 62.

(** ** What a search meets *)

(** An old entry, whatever the phase. *)
Lemma serving_old k bs :
  q !! k = Some bs ->
  exists e, entry_size e = Z.of_nat (length bs) /\ own_ok (buffptr e) (Some <$> bs) /\
    forall ph d h, serving ph d h ->
      arr_get (entry (circ d)) (slot_at k) = mret e /\ exists F, holds h (own (buffptr e) (Some <$> bs) ++ F).
Proof.
  intros Hk. pose proof (lookup_lt_Some _ _ _ Hk). pose proof (lay_len _ _ Hlay).
  assert (slots r !! ((r_out r + k) mod 10)%nat = Some (Some bs)) as Hs.
  { rewrite (lay_at _ _ Hlay) by lia. by rewrite Hk. }
  destruct (arr_get_models _ _ _ _ (cm_entries _ _ Hcirc) Hs) as (e & He & [Hsz Hok] & Hget).
  exists e. split_and!; [done|done|]. intros ph d h Hsv. split.
  - rewrite (sv_old _ _ _ Hsv) by lia. exact Hget.
  - destruct (sv_heap _ _ _ Hsv) as [F Hh]. unfold circ_chunks in Hh.
    rewrite (circ_chunks_take _ _ _ _ _ He Hs), <- app_assoc in Hh. by eexists.
Qed.

(** The slots behind the one that is being filled. *)
Lemma serving_behind k ph d h :
  serving ph d h -> (length q < k < 10)%nat -> arr_get (entry (circ d)) (slot_at k) = mret null_entry.
Proof.
  intros Hsv Hlt. rewrite (sv_old _ _ _ Hsv) by lia.
  assert (slots r !! ((r_out r + k) mod 10)%nat = Some None) as Hs.
  { rewrite (lay_at _ _ Hlay) by lia. by rewrite (lookup_ge_None_2 q) by lia. }
  destruct (arr_get_models _ _ _ _ (cm_entries _ _ Hcirc) Hs) as (e & He & Hm & Hget). simpl in Hm. by subst e.
Qed.

Lemma slot_at_next k : next_index (slot_at k) = slot_at (S k).
Proof. unfold slot_at. rewrite next_index_nat. unfold succ10. f_equal. lia_mod. Qed.

Lemma load_entry_ptr ph d h i e :
  serving ph d h -> arr_get (entry (circ d)) i = mret e -> load_field d (EntryBuffptr i) = mret (buffptr e).
Proof. intros Hsv He. pose proof (sv_ptr _ _ _ Hsv). eval_access. Qed.
Lemma load_entry_size ph d h i e :
  serving ph d h -> arr_get (entry (circ d)) i = mret e -> load_field d (EntrySize i) = mret (entry_size e).
Proof. intros Hsv He. pose proof (sv_ptr _ _ _ Hsv). eval_access. Qed.

(** Loads of an old entry. *)
Lemma observes_old_ptr {B} k bs e ph (kont : ptr -> kprog B) Q :
  (forall ph' d h, serving ph' d h -> arr_get (entry (circ d)) (slot_at k) = mret e /\
     exists F, holds h (own (buffptr e) (Some <$> bs) ++ F)) ->
  (forall ph', later ph ph' -> observes later serving ph' (kont (buffptr e)) Q) ->
  observes later serving ph (load (EntryBuffptr (slot_at k)) ≫= kont) Q.
Proof.
  intros He Hk. apply observes_load. intros ph' d h Hle Hsv. exists (buffptr e).
  split; [eapply load_entry_ptr; [done|by eapply He]|by apply Hk].
Qed.

Lemma observes_old_size {B} k bs e ph (kont : Z -> kprog B) Q :
  (forall ph' d h, serving ph' d h -> arr_get (entry (circ d)) (slot_at k) = mret e /\
     exists F, holds h (own (buffptr e) (Some <$> bs) ++ F)) ->
  (forall ph', later ph ph' -> observes later serving ph' (kont (entry_size e)) Q) ->
  observes later serving ph (load (EntrySize (slot_at k)) ≫= kont) Q.
Proof.
  intros He Hk. apply observes_load. intros ph' d h Hle Hsv. exists (entry_size e).
  split; [eapply load_entry_size; [done|by eapply He]|by apply Hk].
Qed.

(** ** The search *)

Definition found (off : Z) (res : option Z * option Z) ph : Prop :=
  match locate q off with
  | Some (j, o) => res = (Some (slot_at j), Some o)
  | None =>
      res = (None, Some 0) \/
      (exists p, ph = Filled p /\ own_ok p (Some <$> new) /\ adds = true /\
       (length q < 10)%nat /\ off < total q + Z.of_nat (length new) /\ res = (Some (slot_at (length q)), Some (off - total q)))
  end.

(** Behind the old entries there is nothing that ends the search otherwise. *)
Lemma observes_behind n off cur ph :
  (n + S (length q) = 10)%nat -> total q <= off ->
  observes later serving ph (find_fpos_loop_steps n off cur (slot_at (S (length q))) (Some 0)) (found off).
Proof.
  intros Hn Hoff. pose proof (total_nonneg q).
  assert (locate q off = None) as Hl by (apply locate_None; lia).
  assert (forall ph', found off (None, Some 0) ph') as HQ by (intros ph'; unfold found; rewrite Hl; by left).
  destruct n as [|n]; cbn [find_fpos_loop_steps]; [apply HQ|].
  apply observes_load. intros ph' d h Hle Hsv. exists NULL.
  split; [eapply (load_entry_ptr _ _ _ _ null_entry); [done|apply (serving_behind _ _ _ _ Hsv); lia]|apply HQ].
Qed.

(** The slot that is being filled. *)
Lemma observes_fresh n off ph :
  (S n + length q = 10)%nat -> total q <= off < 2 ^ 64 ->
  observes later serving ph (find_fpos_loop_steps (S n) off (total q) (slot_at (length q)) (Some 0)) (found off).
Proof.
  intros Hn Hoff. pose proof (total_nonneg q). cbn [find_fpos_loop_steps].
  assert (locate q off = None) as Hl by (apply locate_None; lia).
  apply observes_load. intros ph1 d1 h1 _ Hsv1. destruct (sv_new _ _ _ Hsv1 ltac:(lia)) as (e1 & He1 & Hf1).
  exists (buffptr e1). split; [by eapply load_entry_ptr|].
  destruct (is_null (buffptr e1)) eqn:E1; [simpl; unfold found; rewrite Hl; by left|].
  zdec. apply observes_bind, observes_load. intros ph2 d2 h2 Hle2 Hsv2.
  destruct (sv_new _ _ _ Hsv2 ltac:(lia)) as (e2 & He2 & Hf2). exists (entry_size e2). split; [by eapply load_entry_size|].
  assert (forall ph', observes later serving ph' (size ← load (EntrySize (slot_at (length q)));
      find_fpos_loop_steps n off (u64 (total q + size)) (next_index (slot_at (length q))) (Some 0)) (found off)) as Hgo.
  { intros ph'. apply observes_load. intros ph3 d3 h3 _ Hsv3. destruct (sv_new _ _ _ Hsv3 ltac:(lia)) as (e3 & He3 & _).
    exists (entry_size e3). split; [by eapply load_entry_size|]. rewrite slot_at_next. apply observes_behind; lia. }
  destruct ph2 as [|p|p]; simpl in Hf2; simpl observes.
  - exfalso. destruct ph1; [|done|done]. simpl in Hf1. by rewrite Hf1 in E1.
  - destruct Hf2 as (_ & _ & ->). rewrite u64_small by lia. zdec. apply Hgo.
  - destruct Hf2 as (_ & -> & Hok & _). rewrite u64_small by lia. destruct (off <? _) eqn:Eo; [|apply Hgo]. zbool.
    apply observes_memory. intros ph3 d3 h3 Hle3 Hsv3. exists (). split; [done|].
    simpl. unfold found. rewrite Hl. right. rewrite u64_small by lia. exists p.
    destruct ph3 as [|p3|p3]; [done..|]. simpl in Hle3; subst p3.
    split_and!; [done|done|by apply (sv_adds _ _ _ Hsv3)|lia|done|done].
Qed.

Lemma observes_search n k off ph :
  (n + k = 10)%nat -> (k <= length q)%nat -> total (take k q) <= off < 2 ^ 64 ->
  observes later serving ph (find_fpos_loop_steps n off (total (take k q)) (slot_at k) (Some 0)) (found off).
Proof.
  pose proof (lay_len _ _ Hlay). pose proof (total_nonneg q).
  revert k ph. induction n as [|n IH]; intros k ph Hn Hk Hoff.
  { rewrite take_ge in Hoff by lia. simpl. unfold found. rewrite (proj2 (locate_None q off ltac:(lia))) by lia. by left. }
  destruct (decide (k = length q)) as [->|Hne].
  { rewrite take_ge in Hoff |- * by done. by apply observes_fresh. }
  destruct (lookup_lt_is_Some_2 q k) as [bs Hbs]; [lia|].
  destruct (serving_old _ _ Hbs) as (e & Hsz & Hok & He). pose proof (total_nonneg (take k q)).
  pose proof (total_take_le q (S k)) as Hle. rewrite (total_take_S _ _ _ Hbs) in Hle.
  cbn [find_fpos_loop_steps]. eapply observes_old_ptr; [exact He|]. intros ph1 _.
  rewrite (own_ok_not_null _ _ Hok). zdec. apply observes_bind. eapply observes_old_size; [exact He|]. intros ph2 _.
  rewrite Hsz. rewrite u64_small by lia. simpl observes. destruct (off <? _) eqn:Eo; zbool.
  - apply observes_memory. intros ph3 d3 h3 _ _. exists (). split; [done|]. simpl. unfold found.
    assert (locate q off = Some (k, off - total (take k q))) as ->.
    { rewrite <- (locate_at _ _ (off - total (take k q)) _ Hbs) by lia. f_equal. lia. }
    by rewrite u64_small by lia.
  - eapply observes_old_size; [exact He|]. intros ph3 _. rewrite Hsz, slot_at_next, u64_small by lia.
    rewrite <- (total_take_S _ _ _ Hbs). apply IH; [lia|lia|]. rewrite (total_take_S _ _ _ Hbs). lia.
Qed.

(** ** [aesd_read] *)

Lemma copy_out_read u q' count f_pos j o bs :
  locate q' f_pos = Some (j, o) -> q' !! j = Some bs -> 0 <= count -> 0 <= f_pos < 2 ^ 62 ->
  0 <= o < Z.of_nat (length bs) -> Z.of_nat (length bs) < 2 ^ 62 ->
  let n := Z.min count (Z.of_nat (length bs) - o) in
  copy_out u f_pos n (take (Z.to_nat n) (drop (Z.to_nat o) bs)) = read_result u q' count f_pos.
Proof.
  intros Hl Hj Hc Hf Ho Hb n. unfold read_result, copy_out. rewrite u64_loff, Hl, Hj by lia.
  change (default [] (Some bs)) with bs. fold n. assert (0 <= n < 2 ^ 62) as Hn by (unfold n; lia).
  rewrite !s64_small by (clearbody n; lia). by destruct (user_store u n =? 0).
Qed.

Definition old_or_new (u : user_buffer) (count f_pos : Z) (a : Z * Z * list byte) : Prop :=
  a = read_result u q count f_pos \/ (adds = true /\ a = read_result u (q ++ [new]) count f_pos).

(** A position that is found is small. *)
Lemma position_small f_pos : pos_ok f_pos -> u64 f_pos < 2 ^ 62 -> u64 f_pos = f_pos /\ 0 <= f_pos.
Proof.
  unfold pos_ok. intros Hp Hu. destruct (decide (0 <= f_pos)); [split; [apply u64_loff; lia|done]|].
  exfalso. assert (u64 f_pos = f_pos + 2 ^ 64); [|lia].
  unfold u64. Z.to_euclidean_division_equations. lia.
Qed.

(** The last accesses of a read, once its entry is known. *)
Lemma observes_copy u q' count f_pos i o j bs p ph :
  locate q' (u64 f_pos) = Some (j, o) -> q' !! j = Some bs -> 0 <= count -> pos_ok f_pos -> total q' < 2 ^ 62 ->
  own_ok p (Some <$> bs) ->
  (forall ph' d h, later ph ph' -> serving ph' d h ->
     exists e, arr_get (entry (circ d)) i = mret e /\ entry_size e = Z.of_nat (length bs) /\ buffptr e = p /\
     exists F, holds h (own p (Some <$> bs) ++ F)) ->
  observes later serving ph
    (size ← load (EntrySize i);
     let to_copy := Z.min count (u64 (size - o)) in
     p ← load (EntryBuffptr i);
     data ← memory (load_init p o to_copy);
     mret (copy_out u f_pos to_copy data)) (fun a _ => a = read_result u q' count f_pos).
Proof.
  intros Hl Hj Hc Hp Htot Hok He.
  destruct (locate_Some q' _ _ _ (proj1 (u64_range f_pos)) Hl) as (bs' & Hj' & Ho & Hoff). simplify_eq.
  pose proof (total_take_le q' (S j)) as Hle. rewrite (total_take_S _ _ _ Hj) in Hle.
  pose proof (total_nonneg (take j q')).
  destruct (position_small f_pos Hp ltac:(lia)) as [Hu Hf]. rewrite Hu in *.
  apply observes_load. intros ph1 d1 h1 H1 Hsv1. destruct (He _ _ _ H1 Hsv1) as (e1 & He1 & Hs1 & _).
  exists (entry_size e1). split; [by eapply load_entry_size|]. rewrite Hs1. cbv zeta.
  apply observes_load. intros ph2 d2 h2 H2 Hsv2.
  destruct (He ph2 d2 h2 ltac:(by etrans) Hsv2) as (e2 & He2 & _ & Hp2 & _).
  exists (buffptr e2). split; [by eapply load_entry_ptr|]. rewrite Hp2.
  apply observes_memory. intros ph3 d3 h3 H3 Hsv3.
  destruct (He ph3 d3 h3 ltac:(by etrans; [|etrans]) Hsv3) as (e3 & _ & _ & _ & F & HF).
  rewrite u64_small by lia.
  eexists. split; [eapply load_init_own; [exact HF|done|lia..]|].
  simpl. eapply copy_out_read; [done|done|done|lia|lia|lia].
Qed.

Lemma observes_read u count f_pos ph :
  0 <= count -> pos_ok f_pos ->
  observes later serving ph (aesd_read_steps u count f_pos) (fun a _ => old_or_new u count f_pos a).
Proof.
  intros Hc Hp. pose proof (u64_range f_pos) as Hu. pose proof (total_nonneg q).
  unfold aesd_read_steps. apply observes_load. intros ph1 d1 h1 H1 Hsv1. eexists. split; [done|].
  apply observes_bind. unfold find_fpos_steps. rewrite (sv_ptr _ _ _ Hsv1), (proj2 (Z.ltb_ge _ _)) by lia. cbn [orb].
  apply observes_load. intros ph2 d2 h2 H2 Hsv2. exists (Z.of_nat (r_out r)). split.
  { pose proof (sv_ptr _ _ _ Hsv2). rewrite <- (sv_out _ _ _ Hsv2). eval_access. }
  eapply observes_mono.
  { pose proof (observes_search 10 0 (u64 f_pos) ph2) as Hs. rewrite take_0 in Hs. change (total []) with 0 in Hs.
    unfold slot_at in Hs. rewrite (Nat.add_0_r (r_out r)), Nat.mod_small in Hs by apply (lay_out _ _ Hlay). apply Hs; lia. }
  intros res ph3 Hf. unfold found in Hf. destruct (locate q (u64 f_pos)) as [[j o]|] eqn:El.
  - subst res. destruct (locate_Some q _ _ _ (proj1 Hu) El) as (bs & Hj & _).
    destruct (serving_old _ _ Hj) as (e & Hsz & Hok & He). eapply observes_mono.
    { eapply (observes_copy u q); [exact El|exact Hj|done|done|lia|exact Hok|].
      intros ph4 d4 h4 _ Hsv4. destruct (He _ _ _ Hsv4) as [Hg HF]. by exists e. }
    intros a _ ->. by left.
  - destruct Hf as [->|(p & -> & Hok & Hadds & Hroom & Hlt & ->)].
    { left. unfold read_result. by rewrite El. }
    apply locate_None in El; [|lia].
    assert (locate (q ++ [new]) (u64 f_pos) = Some (length q, u64 f_pos - total q)) as Hl.
    { rewrite <- (locate_at (q ++ [new]) (length q) (u64 f_pos - total q) new).
      - f_equal. rewrite take_app_length. lia.
      - by apply list_lookup_middle.
      - lia. }
    eapply observes_mono.
    { eapply (observes_copy u (q ++ [new])); [exact Hl|by apply list_lookup_middle|done|done| |exact Hok|].
      - rewrite total_app, total_cons. change (total []) with 0. lia.
      - intros ph4 d4 h4 H4 Hsv4. destruct (sv_new _ _ _ Hsv4 Hroom) as (e & He & Hfe).
        destruct ph4 as [|p4|p4]; [done..|]. simpl in H4; subst p4. simpl in Hfe.
        destruct Hfe as (Hp4 & Hs4 & _ & F & HF). exists e. split_and!; [done..|by exists F]. }
    intros a _ ->. by right.
Qed.
(** ** [aesd_llseek] *)

Lemma observes_llseek f_pos offset whence ph :
  observes later serving ph (aesd_llseek_steps f_pos offset whence)
    (fun a _ => a = llseek_result (total q) f_pos offset whence \/
       (adds = true /\ a = llseek_result (total (q ++ [new])) f_pos offset whence)).
Proof.
  unfold aesd_llseek_steps. apply observes_load. intros ph1 d1 h1 _ _. eexists. split; [done|].
  unfold llseek_result.
  destruct (whence =? SEEK_SET); [destruct (offset <? 0); by left|].
  destruct (whence =? SEEK_CUR); [destruct (s64 (f_pos + offset) <? 0); by left|].
  destruct (whence =? SEEK_END); [|by left]. apply observes_load. intros ph2 d2 h2 _ Hsv.
  exists (circ_size (circ d2)). split; [pose proof (sv_ptr _ _ _ Hsv); eval_access|].
  cbv zeta. rewrite u64_add_r, s64_u64.
  destruct (sv_size _ _ _ Hsv) as [->|[Ha ->]]; [by left|right]. by split.
Qed.

(** ** [aesd_ioctl] *)

(** The answer of the seek search when it starts in phase [ph0]: that of the
    lines with the new one, or, while the slot is not complete or is not asked
    for, that without it. *)
Definition sought (w : nat) (off : Z) ph0 (res : option Z * option Z) : Prop :=
  ((w = length q -> ~ exists p, ph0 = Filled p) /\ res.2 = Some (seek_position q w off)) \/
  (adds = true /\ res.2 = Some (seek_position (q ++ [new]) w off)).

Lemma sought_later w off ph0 ph1 res : later ph0 ph1 -> sought w off ph1 res -> sought w off ph0 res.
Proof.
  intros Hle [[Hw Hres]|Hres]; [left|by right]. split; [|done]. intros Eq [p ->]. apply (Hw Eq).
  destruct ph1; [done..|by eexists].
Qed.

Lemma observes_nothing w off ph0 ph z :
  (w = length q -> ~ exists p, ph0 = Filled p) -> seek_position q w off = 0 ->
  observes later serving ph (rtn' ← memory (store_rtn (Some z) 0); mret (@None Z, rtn')) (fun res _ => sought w off ph0 res).
Proof.
  intros Hw Hs. apply observes_memory. intros ph' d h _ _. exists (Some 0). split; [done|]. left. by rewrite Hs.
Qed.

(** The slot that is being filled, and those behind it. *)
Lemma observes_seek_fresh n w off ph :
  (S n + length q = 10)%nat -> (length q <= w < 10)%nat -> 0 <= off ->
  observes later serving ph
    (find_ioctl_loop_steps (S n) (Z.of_nat w) off (Z.of_nat (length q)) (total q) (slot_at (length q)) (Some 0))
    (fun res _ => sought w off ph res).
Proof.
  intros Hn Hw Hoff. pose proof (total_nonneg q).
  assert (seek_position q w off = 0) as Hzero by (unfold seek_position; by rewrite lookup_ge_None_2 by lia).
  cbn [find_ioctl_loop_steps]. apply observes_load. intros ph1 d1 h1 Hle1 Hsv1.
  destruct (sv_new _ _ _ Hsv1 ltac:(lia)) as (e1 & He1 & Hf1). exists (buffptr e1). split; [by eapply load_entry_ptr|].
  destruct (is_null (buffptr e1)) eqn:E1.
  { apply observes_nothing; [|done]. intros _ [p ->]. destruct ph1 as [| |p1]; [done..|].
    destruct Hf1 as (Hp & _ & Hok & _). rewrite Hp, (own_ok_not_null _ _ Hok) in E1. done. }
  destruct (Z.eqb_spec (Z.of_nat (length q)) (Z.of_nat w)) as [Eq|Hne].
  - apply observes_load. intros ph2 d2 h2 Hle2 Hsv2. destruct (sv_new _ _ _ Hsv2 ltac:(lia)) as (e2 & He2 & Hf2).
    exists (entry_size e2). split; [by eapply load_entry_size|]. apply Nat2Z.inj in Eq. subst w.
    destruct ph2 as [|p|p]; simpl in Hf2.
    + destruct ph1; [|done..]. simpl in Hf1. by rewrite Hf1 in E1.
    + destruct Hf2 as (_ & _ & ->). zdec. apply observes_nothing; [|done]. intros _ [p' ->]. by destruct ph1.
    + destruct Hf2 as (_ & -> & _). assert (adds = true) as Ha by (by apply (sv_adds _ _ _ Hsv2)).
      assert (forall x, seek_position (q ++ [new]) (length q) x = if x <? Z.of_nat (length new) then total q + x else 0) as Hs.
      { intros x. unfold seek_position. rewrite list_lookup_middle by done. by rewrite take_app_length. }
      destruct (Z.leb_spec (Z.of_nat (length new)) off).
      * apply observes_memory. intros ph' d h _ _. exists (Some 0). split; [done|]. right. split; [done|].
        cbn [snd]. rewrite Hs. by zdec.
      * right. split; [done|]. cbn [snd]. rewrite Hs, u64_small by lia. by zdec.
  - apply observes_load. intros ph2 d2 h2 _ Hsv2. destruct (sv_new _ _ _ Hsv2 ltac:(lia)) as (e2 & He2 & _).
    exists (entry_size e2). split; [by eapply load_entry_size|]. rewrite slot_at_next.
    destruct n as [|n]; cbn [find_ioctl_loop_steps]; [lia|].
    apply observes_load. intros ph3 d3 h3 _ Hsv3. exists NULL.
    split; [eapply (load_entry_ptr _ _ _ _ null_entry); [done|apply (serving_behind _ _ _ _ Hsv3); lia]|].
    apply observes_nothing; [lia|done].
Qed.

Lemma observes_seek_search n k w off ph :
  (n + k = 10)%nat -> (k <= length q)%nat -> (k <= w < 10)%nat -> 0 <= off ->
  observes later serving ph
    (find_ioctl_loop_steps n (Z.of_nat w) off (Z.of_nat k) (total (take k q)) (slot_at k) (Some 0))
    (fun res _ => sought w off ph res).
Proof.
  revert k ph. induction n as [|n IH]; intros k ph Hn Hk Hw Hoff; [lia|].
  destruct (decide (k = length q)) as [->|Hne].
  { rewrite take_ge by done. by apply observes_seek_fresh. }
  destruct (lookup_lt_is_Some_2 q k) as [bs Hbs]; [lia|].
  destruct (serving_old _ _ Hbs) as (e & Hsz & Hok & He). pose proof (total_nonneg (take k q)).
  pose proof (total_take_le q (S k)) as Hle. rewrite (total_take_S _ _ _ Hbs) in Hle.
  cbn [find_ioctl_loop_steps]. eapply observes_old_ptr; [exact He|]. intros ph1 Hle1.
  rewrite (own_ok_not_null _ _ Hok). destruct (Z.eqb_spec (Z.of_nat k) (Z.of_nat w)) as [Eq|Hkw].
  - apply Nat2Z.inj in Eq. subst w. eapply observes_old_size; [exact He|]. intros ph2 _. rewrite Hsz.
    destruct (Z.leb_spec (Z.of_nat (length bs)) off).
    + apply observes_nothing; [lia|]. unfold seek_position. rewrite Hbs. by zdec.
    + left. split; [lia|]. cbn [snd]. unfold seek_position. rewrite Hbs, u64_small by lia. by zdec.
  - eapply observes_old_size; [exact He|]. intros ph2 Hle2. rewrite Hsz, slot_at_next, u64_small by lia.
    rewrite <- (total_take_S _ _ _ Hbs). replace (Z.of_nat k + 1) with (Z.of_nat (S k)) by lia.
    eapply observes_mono; [apply IH; lia|]. intros res ph3. apply sought_later. by etrans.
Qed.

(** The entry in a physical slot. *)
Lemma serving_slot w :
  (w < 10)%nat -> let k := ((w + 10 - r_out r) mod 10)%nat in
  Z.of_nat w = slot_at k /\
  forall ph d h, serving ph d h -> exists e, arr_get (entry (circ d)) (Z.of_nat w) = mret e /\
    (k <> length q -> entry_size e = Z.of_nat (length (default [] (q !! k)))) /\
    (k = length q -> fresh_entry ph e h).
Proof.
  intros Hw k. pose proof (lay_out _ _ Hlay). assert (Z.of_nat w = slot_at k) as Ek.
  { unfold slot_at, k. rewrite Nat.Div0.add_mod_idemp_r. f_equal.
    replace (r_out r + (w + 10 - r_out r))%nat with (w + 1 * 10)%nat by lia.
    by rewrite Nat.Div0.mod_add, Nat.mod_small. }
  split; [done|]. intros ph d h Hsv. rewrite Ek. assert (k < 10)%nat by (by apply Nat.mod_upper_bound).
  destruct (lt_eq_lt_dec k (length q)) as [[Hlt|Heq]|Hgt].
  - destruct (lookup_lt_is_Some_2 q k Hlt) as [bs Hbs]. destruct (serving_old _ _ Hbs) as (e & Hsz & _ & He).
    exists e. destruct (He _ _ _ Hsv) as [-> _]. rewrite Hbs. split_and!; [done|done|lia].
  - rewrite Heq. destruct (sv_new _ _ _ Hsv ltac:(lia)) as (e & He & Hf). exists e. by split_and!.
  - exists null_entry. rewrite (serving_behind _ _ _ _ Hsv) by lia. rewrite lookup_ge_None_2 by lia.
    split_and!; [done|done|lia].
Qed.

Lemma observes_find_ioctl w off ph d h ph' :
  serving ph d h -> (w < 10)%nat -> 0 <= off ->
  observes later serving ph' (find_ioctl_steps (bufferCircular d) (Z.of_nat w) off (Some 0)) (fun res _ => sought w off ph' res).
Proof.
  intros Hsv Hw Hoff. unfold find_ioctl_steps, AESDCHAR_MAX_WRITE_OPERATIONS_SUPPORTED.
  rewrite (sv_ptr _ _ _ Hsv). zdec. cbn [orb].
  apply observes_load. intros ph2 d2 h2 Hle2 Hsv2. exists (Z.of_nat (r_out r)). split.
  { pose proof (sv_ptr _ _ _ Hsv2). rewrite <- (sv_out _ _ _ Hsv2). eval_access. }
  pose proof (observes_seek_search 10 0 w off ph2) as Hs. change (total (take 0 q)) with 0 in Hs.
  unfold slot_at in Hs. rewrite (Nat.add_0_r (r_out r)), Nat.mod_small in Hs by apply (lay_out _ _ Hlay).
  eapply observes_mono; [apply Hs; lia|]. intros res ph3. by apply sought_later.
Qed.

(** Only the position of the new line depends on whether it is there. *)
Lemma seek_position_app w off : w <> length q -> seek_position (q ++ [new]) w off = seek_position q w off.
Proof.
  intros Hw. unfold seek_position. destruct (decide (w < length q)%nat).
  - by rewrite lookup_app_l, take_app_le by lia.
  - by rewrite !lookup_ge_None_2 by (rewrite ?length_app; simpl; lia).
Qed.

Lemma seek_position_small w off :
  0 <= off -> 0 <= seek_position q w off < 2 ^ 62 /\ 0 <= seek_position (q ++ [new]) w off < 2 ^ 62.
Proof.
  intros Hoff. pose proof (seek_position_range q w off Hoff). pose proof (seek_position_range (q ++ [new]) w off Hoff) as Hr.
  rewrite total_app, total_cons in Hr. change (total []) with 0 in Hr. lia.
Qed.

Lemma observes_ioctl cmd arg f_pos ph :
  observes later serving ph (aesd_ioctl_steps cmd arg f_pos)
    (fun a _ => a = ioctl_reply (r_out r) q cmd arg f_pos \/
       (adds = true /\ a = ioctl_reply (r_out r) (q ++ [new]) cmd arg f_pos)).
Proof.
  unfold aesd_ioctl_steps, ioctl_reply. apply observes_load. intros ph1 d1 h1 _ Hsv1. eexists. split; [done|].
  destruct (Z.eqb_spec cmd AESDCHAR_IOCSEEKTO) as [->|Hne].
  2:{ repeat case_match; by left. }
  change (IOC_TYPE AESDCHAR_IOCSEEKTO =? AESD_IOC_MAGIC) with true.
  change (AESDCHAR_IOC_MAXNR <? IOC_NR AESDCHAR_IOCSEEKTO) with false. cbn [negb]. cbv zeta.
  destruct (_ =? 0); cbn [negb]; [|by left]. set (bs := (user_fetch arg sizeof_seekto).1).
  pose proof (le32_decode_u32 bs) as Hcmd. pose proof (le32_decode_u32 (drop 4 bs)) as Hoff.
  change (le32_decode (take 4 bs)) with (write_cmd (seekto_decode bs)) in Hcmd.
  change (le32_decode (take 4 (drop 4 bs))) with (write_cmd_offset (seekto_decode bs)) in Hoff.
  destruct (seekto_decode bs) as [z off]. unfold seek_reply, AESDCHAR_MAX_WRITE_OPERATIONS_SUPPORTED.
  cbn [write_cmd write_cmd_offset] in *. destruct (Z.leb_spec 10 z) as [|Hz]; [by left|].
  destruct (Z_of_nat_complete z ltac:(lia)) as [w ->]. rewrite Nat2Z.id. assert (w < 10)%nat as Hw by lia.
  destruct (serving_slot w Hw) as [Hslot Hent]. set (k := ((w + 10 - r_out r) mod 10)%nat) in *.
  apply observes_load. intros ph2 d2 h2 _ Hsv2. destruct (Hent _ _ _ Hsv2) as (e & He & Hold & Hnew).
  exists (entry_size e). split; [by eapply load_entry_size|].
  (* what the search adds to a range check that is passed *)
  assert ((k = length q -> exists p, ph2 = Filled p) ->
    observes later serving ph2 (found ← find_ioctl_steps (bufferCircular d1) (Z.of_nat w) off (Some 0);
      mret (0, s64 (default 0 found.2)))
      (fun a _ => (k <> length q /\ a = (0, seek_position q w off)) \/
         (adds = true /\ a = (0, seek_position (q ++ [new]) w off)))) as Hgo.
  { intros Hk. apply observes_bind. eapply observes_mono; [apply (observes_find_ioctl w off ph1 d1 h1 ph2 Hsv1); lia|].
    intros res ph3 Hres. pose proof (seek_position_small w off ltac:(lia)) as [Hs Hs'].
    destruct Hres as [[Hne ->]|[Ha ->]]; simpl default; [|right; split; [done|by rewrite s64_small by lia]].
    rewrite s64_small by lia. destruct (decide (k = length q)) as [Ek|]; [right|by left].
    destruct (Hk Ek) as [p ->]. split; [by apply (sv_adds _ _ _ Hsv2)|].
    rewrite seek_position_app; [done|]. intros Ew. by destruct (Hne Ew); exists p. }
  clearbody k. destruct (decide (k = length q)) as [Ek|Ek].
  - rewrite Ek. rewrite !lookup_ge_None_2, list_lookup_middle by done. cbn [default length].
    rewrite (proj2 (Z.leb_le (Z.of_nat 0) off)) by lia. specialize (Hnew Ek).
    destruct ph2 as [|p|p]; simpl in Hnew; [subst e|destruct Hnew as (_ & _ & ->)|destruct Hnew as (_ & -> & _)];
      [cbn [entry_size null_entry]; zdec; by left..|].
    destruct (_ <=? off); [by left|]. eapply observes_mono; [apply Hgo; by exists p|].
    intros a ph3 [[? _]|Ha]; [done|by right].
  - rewrite (Hold Ek). destruct (Z.leb_spec (Z.of_nat (length (default [] (q !! k)))) off) as [|Hlt]; [by left|].
    assert (k < length q)%nat as Hk.
    { destruct (decide (k < length q)%nat); [done|]. rewrite lookup_ge_None_2 in Hlt by lia. simpl in Hlt. lia. }
    eapply observes_mono; [by apply Hgo|]. intros a ph3. rewrite lookup_app_l by done. zdec. intros [[_ ?]|?]; [by left|by right].
Qed.
End serving.
