(* ===== verification/DriverWriter.v ===== *)
(** * The writer next to the readers

    [aesd_write], on a device with room or with bytes that complete no line,
    step by step: every state in between
    is one that [DriverReaders.serving] describes, so other calls may look at
    any of them.  [writes_are_atomic_for_readers] puts the two together. *)

From S2P Require Import Prelude CInt CMem Footprint Common CircularBuffer TemporaryBuffer.
From S2P Require Import Ring CircularFacts CircularSearch CharDevice DeviceFacts WriteFacts SeekFacts.
From S2P Require Import ModuleFacts DeviceSpec Scenario DriverSteps DriverAlone RelyGuarantee DriverRaces.
From S2P Require Import DriverReaders.

(** The parts of a write that only look. *)
Lemma ro_scan n kbuf i : read_only (scan_newline_steps n kbuf i).
Proof.
  revert i. induction n as [|n IH]; intros i; [apply ro_ret|]. cbn [scan_newline_steps]. apply ro_memory.
  - intros h x h' E. unfold load_byte, load_bytes in E. inv_done.
    repeat match goal with H : get_block _ _ = Done _ _ |- _ => apply get_block_inv in H as [_ ->] end.
    repeat case_match; inv_done; done.
  - intros c. case_match; [apply ro_ret|apply IH].
Qed.

Lemma ro_tmp_is_empty : read_only tmp_is_empty_steps.
Proof. apply ro_load. intros p. case_match; [apply ro_ret|by apply ro_load]. Qed.

Section writer.
Context `{Allocator} (d0 : aesd_dev) (r : ring) (q : list (list byte)) (new : list byte) (adds : bool).
Implicit Types (d : aesd_dev) (b : aesd_circular_buffer) (h : heap) (ph : filling) (K F : list chunk).

Hypothesis Hcirc : circ_models (circ d0) r.
Hypothesis Hlay : layout r q.
Hypothesis Hroom : adds = true -> (length q < 10)%nat.
Hypothesis Hsmall : total q + Z.of_nat (length new) < 2 ^ 62.
Hypothesis Hsize : circ_size (circ d0) = total q.

Abbreviation serving_now := (serving d0 r q new adds).
Abbreviation slot_no := (slot_at r).

(** ** The state in parts: the structure and the heap *)

Definition slot_entry ph : aesd_buffer_entry :=
  match ph with
  | Vacant => null_entry
  | Pointed p => Entry p 0
  | Filled p => Entry p (Z.of_nat (length new))
  end.

Record served ph b : Prop := {
  sd_out : out_offs b = Z.of_nat (r_out r);
  sd_old k : (k < 10)%nat -> k <> length q ->
    arr_get (entry b) (slot_no k) = arr_get (entry (circ d0)) (slot_no k);
  sd_new : (length q < 10)%nat -> arr_get (entry b) (slot_no (length q)) = mret (slot_entry ph);
  sd_size : circ_size b = total q \/ (adds = true /\ circ_size b = total (q ++ [new]))
}.

Definition needed ph : list chunk :=
  circ_chunks (circ d0) r ++ match ph with Filled p => own p (Some <$> new) | _ => [] end.

Definition allowed ph : Prop :=
  match ph with
  | Vacant => True
  | Pointed p => is_null p = false /\ adds = true
  | Filled p => own_ok p (Some <$> new) /\ adds = true
  end.

Lemma serving_intro ph d h K :
  is_null (bufferCircular d) = false -> served ph (circ d) -> allowed ph ->
  holds h K -> needed ph ⊆+ K -> serving_now ph d h.
Proof.
  intros Hn [Ho Hold Hnew Hsz] Ha Hh HK. unfold needed in HK.
  destruct (holds_split _ _ _ Hh HK) as [F HF]. split; [done..| | | |].
  - intros Hlt. eexists. split; [by apply Hnew|]. destruct ph as [|p|p]; simpl in Ha |- *; [done|by destruct Ha|].
    destruct Ha as [Hok _]. split_and!; [done..|]. exists (circ_chunks (circ d0) r ++ F). holds_perm HF.
  - destruct ph; simpl in Ha; [done|by destruct Ha..].
  - exact Hsz.
  - eexists. rewrite <- app_assoc in HF. exact HF.
Qed.

Lemma vacant_slot : (length q < 10)%nat -> arr_get (entry (circ d0)) (slot_no (length q)) = mret null_entry.
Proof.
  intros Hlt.
  assert (slots r !! ((r_out r + length q) mod 10)%nat = Some None) as Hs.
  { rewrite (lay_at _ _ Hlay) by lia. by rewrite (lookup_ge_None_2 q) by lia. }
  destruct (arr_get_models _ _ _ _ (cm_entries _ _ Hcirc) Hs) as (e & He & Hm & Hget). simpl in Hm. by subst e.
Qed.

Lemma served_start : served Vacant (circ d0).
Proof. split; [apply (cm_out _ _ Hcirc)|done|apply vacant_slot|by left]. Qed.

(** [in_offs] is the slot that is being filled. *)
Lemma in_slot : in_offs (circ d0) = slot_no (length q).
Proof. rewrite (cm_in _ _ Hcirc), (lay_in _ _ Hlay). done. Qed.

Lemma served_other ph b b' :
  entry b' = entry b -> out_offs b' = out_offs b ->
  circ_size b' = circ_size b \/ (adds = true /\ circ_size b' = total (q ++ [new])) -> served ph b -> served ph b'.
Proof. intros He Ho Hc [? ? ? ?]. split; rewrite ?He, ?Ho; [done..|]. destruct Hc as [->|]; [done|by right]. Qed.

Lemma arr_get_set_ne {A} (l : list A) i j (e : A) : 0 <= i -> 0 <= j -> i <> j -> arr_get (arr_set l i e) j = arr_get l j.
Proof. intros ???. unfold arr_get, arr_set. zdec. by rewrite list_lookup_insert_ne by lia. Qed.

Lemma served_set ph ph' b :
  (length q < 10)%nat -> served ph b -> served ph' (set_entry b (slot_no (length q)) (slot_entry ph')).
Proof.
  intros Hlt [Ho Hold Hnew Hsz]. split; [done| | |done].
  - intros k Hk Hne. simpl. rewrite arr_get_set_ne; [by apply Hold|unfold slot_at; lia..|].
    unfold slot_at. lia_mod.
  - intros _. simpl. by erewrite arr_get_set by (by apply Hnew).
Qed.

(** ** The three functions that change something *)

(** What a step program leaves: the phase, the structure, and the heap with
    [K] besides what the phase needs. *)
Record left_with ph d h K : Prop := {
  lw_ptr : bufferCircular d = bufferCircular d0;
  lw_served : served ph (circ d);
  lw_allowed : allowed ph;
  lw_holds : holds h (needed ph ++ K)
}.

Hypothesis Hptr : is_null (bufferCircular d0) = false.

Lemma left_serving ph d h K : left_with ph d h K -> serving_now ph d h.
Proof. intros [Hp Hs Ha Hh]. eapply serving_intro; [by rewrite Hp|done|done|exact Hh|solve_submseteq]. Qed.

Lemma changes_free kbuf blk ph d h K (ret : Z) :
  left_with ph d h (own kbuf blk ++ K) ->
  changes later serving_now ph (free_and_return kbuf ret) d h (fun _ _ _ _ => True).
Proof.
  intros Hl. apply (changes_memory later); [by eapply left_serving|]. destruct Hl as [Hp Hs Ha Hh].
  eapply wp_mono; [eapply (wp_free h kbuf blk (needed ph ++ K)); holds_perm Hh|]. intros _ h' [Hh' _].
  apply (changes_ret later); [|done]. by eapply left_serving.
Qed.

#[local] Ltac serve :=
  match goal with Hs : forall d1 h1 X, _ -> _ -> holds h1 X -> _ |- _ =>
    eapply Hs; [done|done|eassumption|solve_submseteq] end.

(** [aesd_temperary_buffer_add], with nothing done to the slot yet. *)
Lemma changes_tmp_add d p kbuf bs h K :
  bufferCircular d = bufferCircular d0 -> circ d = circ d0 -> is_null (bufferTemperary d) = false ->
  tmp_models (tmp d) p -> own_ok kbuf (Some <$> bs) ->
  holds h (needed Vacant ++ tmp_chunks (tmp d) p ++ own kbuf (Some <$> bs) ++ K) ->
  changes later serving_now Vacant (tmp_add_steps kbuf (Z.of_nat (length bs))) d h
    (fun added ph d' h' =>
       ph = Vacant /\ bufferCircular d' = bufferCircular d /\ circ d' = circ d /\
       bufferTemperary d' = bufferTemperary d /\
       let p' := if added : bool then Some (pending p ++ bs) else p in
       tmp_models (tmp d') p' /\ holds h' (needed Vacant ++ tmp_chunks (tmp d') p' ++ own kbuf (Some <$> bs) ++ K)).
Proof.
  intros Hb Hc Ht Hm Hok Hh.
  assert (forall d1 h1 X, bufferCircular d1 = bufferCircular d0 -> circ d1 = circ d0 ->
            holds h1 X -> needed Vacant ⊆+ X -> serving_now Vacant d1 h1) as Hserve.
  { intros d1 h1 X Hb1 Hc1 Hh1 HX. eapply serving_intro; [by rewrite Hb1|rewrite Hc1; apply served_start|done|exact Hh1|done]. }
  destruct (tmp_models_bounds (tmp d) p kbuf (Some <$> bs) h (needed Vacant ++ K) Hm Hok ltac:(holds_perm Hh)) as [Hbs Hold].
  rewrite length_fmap in Hbs. pose proof alloc_max_addressable.
  unfold tmp_add_steps. eapply (changes_load later); [eval_access|]. rewrite (tmp_models_null _ _ Hm).
  destruct p as [old|].
  - rewrite bool_decide_eq_false_2 by done. destruct Hm as [Hsz Hold_ok]. simpl tmp_chunks in *.
    eapply (changes_load later); [eval_access|]. rewrite u64_small by lia.
    apply (changes_memory later); [serve|].
    eapply wp_mono; [apply (wp_alloc _ _ _ Hh); lia|]. intros fresh h1 [Hh1 Hfresh].
    rewrite (alloc_serves_not_null _ _ _ _ Hfresh). rewrite Hsz in *.
    replace (Z.to_nat _) with (length (Some <$> old) + length (Some <$> bs))%nat in Hh1, Hfresh by (lia_len).
    destruct (alloc_serves _ _); simpl negb; cbv iota.
    2:{ subst fresh. apply (changes_ret later); [serve|].
        split_and!; [done..|exact Hh1]. }
    eapply (changes_load later); [eval_access|]. rewrite Hsz, <- (length_fmap Some old).
    apply (changes_memory later); [serve|].
    eapply wp_mono; [eapply (wp_memcpy_prefix h1 fresh (tmp_buffptr (tmp d)) (Some <$> old) (length (Some <$> bs))
      (needed Vacant ++ own kbuf (Some <$> bs) ++ K)); [holds_perm Hh1|done..]|]. intros _ h2 [Hh2 Hf2].
    eapply (changes_load later); [eval_access|]. rewrite Hsz, <- (length_fmap Some old), <- (length_fmap Some bs).
    apply (changes_memory later); [serve|].
    eapply wp_mono; [eapply (wp_memcpy_suffix h2 fresh kbuf (Some <$> old) (Some <$> bs) []
      (needed Vacant ++ own (tmp_buffptr (tmp d)) (Some <$> old) ++ K)); rewrite ?app_nil_r; [holds_perm Hh2|done..]|].
    rewrite !app_nil_r. intros _ h3 [Hh3 Hf3].
    apply (changes_memory later); [serve|].
    eapply wp_mono; [eapply (wp_free h3 (tmp_buffptr (tmp d)) (Some <$> old)
      (needed Vacant ++ own fresh ((Some <$> old) ++ (Some <$> bs)) ++ own kbuf (Some <$> bs) ++ K)); holds_perm Hh3|].
    intros _ h4 [Hh4 _].
    eapply (changes_store later); [serve|reflexivity|eval_access|].
    eapply (changes_load later); [eval_access|].
    eapply (changes_store later); [serve|reflexivity|eval_access|].
    apply (changes_ret later); [serve|]. simpl. rewrite fmap_app, length_app, Hsz, length_fmap, u64_small by lia.
    split_and!; [done..|lia|done|done].
  - rewrite bool_decide_eq_true_2 by done. simpl tmp_chunks in *.
    apply (changes_memory later); [serve|].
    eapply wp_mono; [apply (wp_alloc _ _ _ Hh); lia|]. intros fresh h1 [Hh1 Hfresh].
    rewrite (alloc_serves_not_null _ _ _ _ Hfresh). rewrite Nat2Z.id, <- (length_fmap Some bs) in *.
    destruct (alloc_serves _ _); simpl negb; cbv iota.
    2:{ subst fresh. apply (changes_ret later); [serve|].
        split_and!; [done..|exact Hh1]. }
    apply (changes_memory later); [serve|].
    eapply wp_mono; [eapply (wp_memcpy_whole h1 fresh kbuf (Some <$> bs) (needed Vacant ++ K)); [holds_perm Hh1|done..]|].
    intros _ h2 [Hh2 Hf2].
    eapply (changes_store later); [serve|reflexivity|eval_access|].
    eapply (changes_store later); [serve|reflexivity|eval_access|].
    apply (changes_ret later); [serve|]. simpl. rewrite length_fmap.
    split_and!; [done..|holds_perm Hh2].
Qed.

(** ** Filling the slot *)

(** The device while the slot is worked on, next to a [d] whose other parts
    it keeps. *)
Record filling_at d ph d1 : Prop := {
  fa_room : (length q < 10)%nat;
  fa_ptr : bufferCircular d1 = bufferCircular d0;
  fa_served : served ph (circ d1);
  fa_tmp : tmp d1 = tmp d;
  fa_tptr : bufferTemperary d1 = bufferTemperary d
}.

Lemma fa_not_null d ph d1 : filling_at d ph d1 -> is_null (bufferCircular d1) = false.
Proof. intros Hf. by rewrite (fa_ptr _ _ _ Hf). Qed.

Lemma fa_load_ptr d ph d1 :
  filling_at d ph d1 -> load_field d1 (EntryBuffptr (slot_no (length q))) = mret (buffptr (slot_entry ph)).
Proof. intros Hf. pose proof (fa_not_null _ _ _ Hf). pose proof (sd_new _ _ (fa_served _ _ _ Hf) (fa_room _ _ _ Hf)). eval_access. Qed.

Lemma fa_load_in d ph d1 i : filling_at d ph d1 -> in_offs (circ d1) = i -> load_field d1 InOffs = mret i.
Proof. intros Hf <-. pose proof (fa_not_null _ _ _ Hf). eval_access. Qed.

(** A store to the slot itself. *)
Lemma fa_set_entry d ph ph' d1 :
  filling_at d ph d1 -> filling_at d ph' (set_circ d1 (set_entry (circ d1) (slot_no (length q)) (slot_entry ph'))).
Proof. intros [? ? Hs ? ?]. split; [done|done|by eapply served_set|done|done]. Qed.

Lemma fa_store_ptr d d1 p :
  filling_at d Vacant d1 ->
  store_field d1 (EntryBuffptr (slot_no (length q))) p =
  mret (set_circ d1 (set_entry (circ d1) (slot_no (length q)) (Entry p 0))).
Proof. intros Hf. pose proof (fa_not_null _ _ _ Hf). pose proof (sd_new _ _ (fa_served _ _ _ Hf) (fa_room _ _ _ Hf)). eval_access. Qed.

Lemma fa_store_size d d1 p :
  filling_at d (Pointed p) d1 ->
  store_field d1 (EntrySize (slot_no (length q))) (Z.of_nat (length new)) =
  mret (set_circ d1 (set_entry (circ d1) (slot_no (length q)) (slot_entry (Filled p)))).
Proof. intros Hf. pose proof (fa_not_null _ _ _ Hf). pose proof (sd_new _ _ (fa_served _ _ _ Hf) (fa_room _ _ _ Hf)). eval_access. Qed.

(** A store to another field of the structure. *)
Lemma fa_other d ph d1 b' :
  filling_at d ph d1 -> entry b' = entry (circ d1) -> out_offs b' = out_offs (circ d1) ->
  circ_size b' = circ_size (circ d1) \/ (adds = true /\ circ_size b' = total (q ++ [new])) ->
  filling_at d ph (set_circ d1 b').
Proof. intros [? ? Hs ? ?] He Ho Hc. split; [done|done|by eapply served_other|done|done]. Qed.

Lemma fa_left d ph d1 h K :
  filling_at d ph d1 -> allowed ph -> holds h (needed ph ++ K) -> left_with ph d1 h K.
Proof. by intros [] ??. Qed.

Lemma fa_serving d ph d1 h K :
  filling_at d ph d1 -> allowed ph -> holds h K -> needed ph ⊆+ K -> serving_now ph d1 h.
Proof. intros Hf Ha Hh HK. eapply serving_intro; [by eapply fa_not_null|apply Hf|done|exact Hh|done]. Qed.

Lemma size_with_new size : size = total q -> u64 (size + Z.of_nat (length new)) = total (q ++ [new]).
Proof.
  intros ->. pose proof (total_nonneg q). rewrite u64_small by lia.
  rewrite total_app, total_cons. change (total []) with 0. lia.
Qed.

(** The slot is complete when its size is stored. *)
Lemma changes_complete d d1 fresh p h K :
  filling_at d (Pointed fresh) d1 -> in_offs (circ d1) = slot_no (length q) -> circ_size (circ d1) = total q ->
  allowed (Pointed fresh) -> own_ok fresh (Some <$> new) ->
  holds h (own fresh (Some <$> new) ++ own p (Some <$> new) ++ needed Vacant ++ K) ->
  changes later serving_now (Pointed fresh) (complete_entry_steps (Z.of_nat (length new))) d1 h
    (fun _ ph' d' h' => left_with ph' d' h' (own p (Some <$> new) ++ K) /\
       tmp d' = tmp d /\ bufferTemperary d' = bufferTemperary d).
Proof.
  intros Hf1 Hin1 Hsz1 Ha Hok Hh. unfold complete_entry_steps.
  eapply (changes_load later); [pose proof (fa_not_null _ _ _ Hf1); eval_access|].
  eapply (changes_store later); [eapply fa_serving; [exact Hf1|done|exact Hh|solve_submseteq]|reflexivity
    |pose proof (fa_not_null _ _ _ Hf1); eval_access|].
  match goal with |- changes _ _ _ _ ?d2 _ _ => assert (filling_at d (Pointed fresh) d2) as Hf2
    by (apply (fa_other _ _ _ _ Hf1); [done|done|right]; split; [apply Ha|by apply size_with_new]); assert (in_offs (circ d2) = slot_no (length q)) as Hin2 by exact Hin1;
    set (d2' := d2) in *; clearbody d2' end.
  eapply (changes_load later); [by eapply fa_load_in|].
  eapply (changes_store later) with (ph' := Filled fresh);
    [eapply fa_serving; [exact Hf2|done|exact Hh|solve_submseteq]|done|by eapply fa_store_size|].
  pose proof (fa_set_entry _ _ (Filled fresh) _ Hf2) as Hf3.
  match goal with |- changes _ _ _ _ ?d3 _ _ => assert (in_offs (circ d3) = slot_no (length q)) as Hin3 by exact Hin2;
    set (d3' := d3) in *; clearbody d3' end.
  assert (allowed (Filled fresh)) as Ha3 by (by destruct Ha).
  assert (holds h (needed (Filled fresh) ++ own p (Some <$> new) ++ K)) as Hh3.
  { unfold needed in Hh |- *. holds_perm Hh. }
  eapply (changes_load later); [by eapply fa_load_in|].
  eapply (changes_store later); [eapply fa_serving; [exact Hf3|done|exact Hh3|solve_submseteq]|reflexivity
    |pose proof (fa_not_null _ _ _ Hf3); eval_access|].
  match goal with |- changes _ _ _ _ ?d4 _ _ => assert (filling_at d (Filled fresh) d4) as Hf4
    by (apply (fa_other _ _ _ _ Hf3); [done|done|by left]); set (d4' := d4) in *; clearbody d4' end.
  pose proof (fa_not_null _ _ _ Hf4).
  eapply (changes_load later); [eval_access|]. eapply (changes_load later); [eval_access|].
  assert (left_with (Filled fresh) d4' h (own p (Some <$> new) ++ K)) as Hl4 by (by eapply fa_left).
  eapply (changes_store_last later); [by eapply left_serving|reflexivity|eval_access| |].
  - by eapply left_serving, fa_left; [apply (fa_other _ _ _ _ Hf4); [done|done|by left]|..].
  - split; [by eapply fa_left; [apply (fa_other _ _ _ _ Hf4); [done|done|by left]|..]|]. by split; apply Hf4.
Qed.

(** [aesd_circular_buffer_add_entry]: the slot is pointed to, then filled. *)
Lemma changes_add_entry d p h K :
  bufferCircular d = bufferCircular d0 -> circ d = circ d0 -> r_full r = false -> adds = true ->
  own_ok p (Some <$> new) -> holds h (needed Vacant ++ own p (Some <$> new) ++ K) ->
  changes later serving_now Vacant (add_entry_steps (bufferCircular d) (Entry p (Z.of_nat (length new)))) d h
    (fun _ ph' d' h' => left_with ph' d' h' (own p (Some <$> new) ++ K) /\
       tmp d' = tmp d /\ bufferTemperary d' = bufferTemperary d).
Proof.
  intros Hb Hc Hfull Hadds Hok Hh. assert (is_null (bufferCircular d) = false) as Hn by by rewrite Hb.
  assert (filling_at d Vacant d) as Hf by (split; [by apply Hroom|done|rewrite Hc; apply served_start|done|done]).
  assert (in_offs (circ d) = slot_no (length q)) as Hin by (rewrite Hc; apply in_slot).
  unfold add_entry_steps. rewrite Hn. eapply (changes_load later); [eval_access|].
  rewrite Hc, (cm_full _ _ Hcirc), Hfull. apply (changes_bind later), (changes_ret later).
  { eapply fa_serving; [exact Hf|done|exact Hh|solve_submseteq]. }
  unfold store_newest_steps. apply (changes_memory later); [eapply fa_serving; [exact Hf|done|exact Hh|solve_submseteq]|].
  cbn [entry_size buffptr].
  eapply wp_mono; [apply (wp_alloc _ _ _ Hh); lia|]. intros fresh h1 [Hh1 Hfresh].
  pose proof (alloc_serves_not_null _ _ _ _ Hfresh) as Hnull.
  rewrite Nat2Z.id, <- (length_fmap Some new) in Hh1, Hfresh. rewrite <- (length_fmap Some new) in Hnull.
  eapply (changes_load later); [by eapply fa_load_in|].
  set (d1 := set_circ d (set_entry (circ d) (slot_no (length q)) (Entry fresh 0))).
  pose proof (fa_set_entry _ _ (if is_null fresh then Vacant else Pointed fresh) _ Hf) as Hf1.
  assert (set_circ d (set_entry (circ d) (slot_no (length q))
            (slot_entry (if is_null fresh then Vacant else Pointed fresh))) = d1) as E1.
  { destruct (is_null fresh) eqn:E; [|done]. apply bool_decide_eq_true in E. by subst fresh. }
  rewrite E1 in Hf1. clear E1.
  eapply (changes_store later) with (d' := d1) (ph' := if is_null fresh then Vacant else Pointed fresh);
    [eapply fa_serving; [exact Hf|done|exact Hh1|solve_submseteq]| |by eapply fa_store_ptr|]; [done|].
  assert (in_offs (circ d1) = slot_no (length q) /\ circ_size (circ d1) = total q) as [Hin1 Hsz1]
    by (split; [exact Hin|unfold d1; rewrite <- Hsize, <- Hc; done]).
  clearbody d1.
  eapply (changes_load later); [by eapply fa_load_in|].
  eapply (changes_load later); [by eapply fa_load_ptr|].
  rewrite Hnull in *. destruct (alloc_serves _ _); simpl negb in *; cbv iota in *; cbn [slot_entry buffptr null_entry].
  2:{ subst fresh. change (is_null NULL) with true. cbv iota.
      assert (left_with Vacant d1 h1 (own p (Some <$> new) ++ K)) as Hl by (by eapply fa_left).
      apply (changes_ret later); [by eapply left_serving|]. split; [done|by split; apply Hf1]. }
  rewrite Hnull.
  assert (allowed (Pointed fresh)) as Ha by done.
  eapply (changes_load later); [by eapply fa_load_in|].
  eapply (changes_load later); [by eapply fa_load_ptr|]. cbn [slot_entry buffptr].
  apply (changes_memory later); [eapply fa_serving; [exact Hf1|done|exact Hh1|solve_submseteq]|].
  rewrite <- (length_fmap Some new).
  eapply wp_mono; [eapply (wp_memcpy_whole h1 fresh p (Some <$> new) (needed Vacant ++ K)); [holds_perm Hh1|done..]|].
  intros _ h2 [Hh2 Hok2]. rewrite length_fmap.
  by eapply changes_complete.
Qed.

(** [aesd_temperary_buffer_delete], after the entry is in. *)
Lemma changes_tmp_delete ph d blk h K :
  left_with ph d h (own (tmp_buffptr (tmp d)) blk ++ K) -> is_null (bufferTemperary d) = false ->
  is_null (tmp_buffptr (tmp d)) = false ->
  changes later serving_now ph tmp_delete_steps d h (fun _ ph' d' h' => ph' = ph /\ left_with ph d' h' K).
Proof.
  intros Hl Ht Hp. unfold tmp_delete_steps. eapply (changes_load later); [eval_access|]. rewrite Hp.
  eapply (changes_load later); [eval_access|]. apply (changes_memory later); [by eapply left_serving|].
  destruct Hl as [Hb Hs Ha Hh].
  eapply wp_mono; [eapply (wp_free h (tmp_buffptr (tmp d)) blk (needed ph ++ K)); holds_perm Hh|]. intros _ h' [Hh' _].
  assert (forall t, left_with ph (set_tmp d t) h' K) as Hl' by (intros t; by split).
  eapply (changes_store later) with (d' := set_tmp d _);
    [eapply left_serving; by split|reflexivity|eval_access|].
  eapply (changes_store_last later) with (d' := set_tmp d _);
    [eapply left_serving, Hl'|reflexivity|eval_access|eapply left_serving, Hl'|by split].
Qed.

(** ** [aesd_write] *)

Context (p0 : option (list byte)) (data : list byte).
Hypothesis Hd0 : dev_models d0 r p0.
Hypothesis Hfull : adds = true -> r_full r = false.
Hypothesis Hnew : new = pending p0 ++ data.
Hypothesis Hadds : adds = has_newline data.

Definition write_chunks (kbuf : ptr) (L : list chunk) : list chunk :=
  own kbuf (Some <$> data) ++ own (bufferCircular d0) circ_block ++ own (bufferTemperary d0) tmp_block ++ L.

Lemma tmp_not_null : is_null (bufferTemperary d0) = false.
Proof. exact (own_ok_not_null _ _ (dm_tptr _ _ _ Hd0)). Qed.

Lemma changes_write_fragment kbuf h L :
  own_ok kbuf (Some <$> data) -> holds h (needed Vacant ++ tmp_chunks (tmp d0) p0 ++ write_chunks kbuf L) ->
  changes later serving_now Vacant (write_fragment_steps kbuf (Z.of_nat (length data))) d0 h (fun _ _ _ _ => True).
Proof.
  intros Hok Hh. unfold write_fragment_steps. apply (changes_bind later). eapply changes_mono.
  { eapply changes_tmp_add; [done|done|apply tmp_not_null|apply Hd0|exact Hok|exact Hh]. }
  intros added ph d' h' _ (-> & Hb & Hc & _ & Hm & Hh'). eapply changes_free. split; [done|rewrite Hc; apply served_start|done|].
  simpl in Hh'. rewrite (Permutation_app_swap_app (tmp_chunks _ _)) in Hh'. exact Hh'.
Qed.

Lemma changes_write_line kbuf h L :
  adds = true -> pending p0 = [] -> own_ok kbuf (Some <$> data) ->
  holds h (needed Vacant ++ tmp_chunks (tmp d0) p0 ++ write_chunks kbuf L) ->
  changes later serving_now Vacant (write_line_steps (bufferCircular d0) kbuf (Z.of_nat (length data))) d0 h (fun _ _ _ _ => True).
Proof.
  intros Ha Hp Hok Hh. assert (data = new) as E by by rewrite Hnew, Hp. rewrite E in *.
  unfold write_line_steps. apply (changes_bind later). eapply changes_mono.
  { eapply changes_add_entry; [done|done|by apply Hfull|done|exact Hok|].
    unfold write_chunks in Hh. rewrite E, (Permutation_app_swap_app (tmp_chunks _ _)) in Hh. exact Hh. }
  intros [] ph d' h' _ (Hl & _). by eapply changes_free.
Qed.

Lemma changes_write_rest kbuf h L :
  adds = true -> own_ok kbuf (Some <$> data) ->
  holds h (needed Vacant ++ tmp_chunks (tmp d0) p0 ++ write_chunks kbuf L) ->
  changes later serving_now Vacant (write_rest_of_line_steps (bufferCircular d0) kbuf (Z.of_nat (length data))) d0 h (fun _ _ _ _ => True).
Proof.
  intros Ha Hok Hh. unfold write_rest_of_line_steps. apply (changes_bind later). eapply changes_mono.
  { eapply changes_tmp_add; [done|done|apply tmp_not_null|apply Hd0|exact Hok|exact Hh]. }
  intros added ph d' h' _ (-> & Hb & Hc & Ht & Hm & Hh'). destruct added; simpl negb; cbv iota.
  2:{ eapply changes_free. split; [done|rewrite Hc; apply served_start|done|].
      rewrite (Permutation_app_swap_app (tmp_chunks _ _)) in Hh'. exact Hh'. }
  pose proof tmp_not_null as Hn. rewrite <- Ht in Hn. rewrite <- Hnew in *. destruct Hm as [Hsz Hokt].
  eapply (changes_load later); [eval_access|]. eapply (changes_load later); [eval_access|]. rewrite Hsz, <- Hb.
  apply (changes_bind later). eapply changes_mono.
  { eapply changes_add_entry; [done|done|by apply Hfull|done|exact Hokt|exact Hh']. }
  intros [] ph d2 h2 _ (Hl & Htm & Htp). rewrite <- Htm in Hl, Hokt. apply (changes_bind later). eapply changes_mono.
  { eapply changes_tmp_delete; [exact Hl|by rewrite Htp|by eapply own_ok_not_null]. }
  intros [] ph3 d3 h3 _ (-> & Hl3). by eapply changes_free.
Qed.

(** Each state of a write is one the readers can be served in. *)
Lemma changes_aesd_write u h L :
  user_ok u -> supplies u data -> holds h (dev_chunks d0 r p0 ++ L) ->
  changes later serving_now Vacant (aesd_write_steps u (Z.of_nat (length data))) d0 h (fun _ _ _ _ => True).
Proof.
  intros Hu Hsup Hh. unfold supplies in Hsup.
  assert (holds h (needed Vacant ++ tmp_chunks (tmp d0) p0 ++ own (bufferCircular d0) circ_block ++
            own (bufferTemperary d0) tmp_block ++ L)) as Hh0 by (unfold needed, dev_chunks in *; holds_perm Hh).
  assert (forall h1 X, holds h1 X -> needed Vacant ⊆+ X -> serving_now Vacant d0 h1) as Hserve.
  { intros h1 X Hh1 HX. by eapply serving_intro; [|apply served_start|..]. }
  unfold aesd_write_steps. do 2 (eapply (changes_load later); [done|]).
  apply (changes_memory later); [eapply Hserve; [exact Hh0|solve_submseteq]|].
  eapply wp_mono; [apply (wp_alloc _ _ _ Hh0); lia|]. intros kbuf h1 [Hh1 Hk].
  rewrite (alloc_serves_not_null _ _ _ _ Hk). destruct (alloc_serves _ _); simpl negb; cbv iota.
  2:{ apply (changes_ret later); [eapply Hserve; [exact Hh1|solve_submseteq]|done]. }
  cbv zeta. apply (changes_memory later); [eapply Hserve; [exact Hh1|solve_submseteq]|].
  eapply wp_mono; [eapply wp_fetch; [exact Hu|lia|exact Hh1|exact Hk]|]. intros _ h2 (b & Hh2 & Hb & Hdata).
  rewrite Hsup in Hdata |- *. specialize (Hdata eq_refl). simpl in Hdata. subst b. cbn [snd Z.eqb negb].
  assert (holds h2 (needed Vacant ++ tmp_chunks (tmp d0) p0 ++ write_chunks kbuf L)) as Hh3.
  { unfold write_chunks. holds_perm Hh2. }
  assert (serving_now Vacant d0 h2) as Hs2 by (eapply Hserve; [exact Hh3|solve_submseteq]).
  pose proof (scan_newline_own (Z.to_nat (Z.of_nat (length data))) kbuf data 0 _ _ Hh2 Hb ltac:(lia)) as Hscan.
  rewrite drop_0, <- Hadds in Hscan.
  apply (changes_bind later). eapply changes_mono.
  { eapply (read_only_changes later); [apply ro_scan|by apply scan_newline_alone|exact Hs2]. }
  intros newline ph d h' _ (Enl & -> & -> & ->). destruct newline; [|by eapply changes_write_fragment].
  pose proof (tmp_is_empty_alone d0 h2 tmp_not_null) as Hemp. rewrite (is_empty_spec _ _ (dm_tmp _ _ _ Hd0)) in Hemp.
  apply (changes_bind later). eapply changes_mono; [by eapply (read_only_changes later); [apply ro_tmp_is_empty|..]|].
  intros empty ph d h' _ (-> & -> & -> & ->). case_bool_decide as Hp; [by eapply changes_write_line|].
  apply (changes_bind later). eapply changes_mono; [by eapply (read_only_changes later); [apply ro_tmp_is_empty|..]|].
  intros empty ph d h' _ (-> & -> & -> & ->). by eapply changes_write_rest.
Qed.
End writer.

(** ** A write and any number of other calls at once *)

Section overlap.
Context `{Allocator}.
Implicit Types (d : aesd_dev) (h : heap) (c : contents).

(** What a call that changes nothing returns, for the lines [q] of a device
    whose oldest line is in slot [out]. *)
Definition reply (out : nat) (q : list (list byte)) (call : driver_call) : option answer :=
  match call with
  | DRead u count f_pos => Some (ReadAnswer (read_result u q count f_pos))
  | DWrite _ _ => None
  | DSeek f_pos offset whence => Some (PosAnswer (llseek_result (total q) f_pos offset whence))
  | DIoctl cmd arg f_pos => Some (PosAnswer (ioctl_reply out q cmd arg f_pos))
  end.

Lemma reply_alone d r p q call h L a :
  dev_models d r p -> layout r q -> holds h (dev_chunks d r p ++ L) -> driver_call_ok call ->
  reply (r_out r) q call = Some a -> call_at_once call d h = Done (a, d) h.
Proof.
  intros Hd Hlay Hh Hok Ha. destruct call as [u count f_pos| |f_pos offset whence|cmd arg f_pos]; simplify_eq/=.
  - erewrite bind_done by (eapply aesd_read_exact; [done..|lia|unfold pos_ok in *; lia]).
    by rewrite (layout_queue_of _ _ Hlay).
  - erewrite bind_done by (by eapply aesd_llseek_exact).
    by rewrite (circ_size_total _ _ _ _ _ (dm_circ _ _ _ Hd) Hlay (dev_circ_holds _ _ _ _ _ Hh)).
  - by erewrite bind_done by (by eapply aesd_ioctl_exact).
Qed.

(** Next to the write a call answers for the lines before it or after it. *)
Lemma observes_call d r q new adds call ph :
  circ_models (circ d) r -> layout r q -> total q + Z.of_nat (length new) < 2 ^ 62 ->
  driver_call_ok call -> looks call = true ->
  observes later (serving d r q new adds) ph (call_steps call)
    (fun a _ => reply (r_out r) q call = Some a \/ (adds = true /\ reply (r_out r) (q ++ [new]) call = Some a)).
Proof.
  intros Hm Hlay Hsmall Hok Hl.
  destruct call as [u count f_pos| |f_pos offset whence|cmd arg f_pos]; [|done|..]; apply observes_bind;
    (eapply observes_mono; [first [apply observes_read|apply observes_llseek|apply observes_ioctl]; try done|]).
  1, 2: apply Hok || (simpl in Hok; lia).
  all: intros a ph' [->|[Ha ->]]; [by left|by right].
Qed.

(** C5: while fewer than ten lines are stored, and on a full device as long as
    the write completes no line, one process that writes and any number of
    processes that read, seek and use the ioctl need no lock: whatever the order of their accesses, none faults; each ends within its
    bound of turns; the write does what it does alone; and each other call
    returns what it returns as one operation on the device before the write,
    or on the device after it. *)
Theorem writes_are_atomic_for_readers d c u data rs h L sched :
  dev_holds h d c L -> reliable -> user_ok u -> supplies u data ->
  Z.of_nat (length (partial c ++ data)) <= alloc_max -> (length (lines c) < 10)%nat \/ has_newline data = false ->
  Forall (fun call => driver_call_ok call /\ looks call = true) rs ->
  let calls := DWrite u (Z.of_nat (length data)) :: rs in
  enough_turns calls sched ->
  exists d' h' s', krun_sched (start calls d h) sched = inl s' /\ kdev s' = d' /\ kheap s' = h' /\
    answer_of s' 0 = Some (WriteAnswer (Z.of_nat (length data))) /\
    call_at_once (DWrite u (Z.of_nat (length data))) d h = Done (WriteAnswer (Z.of_nat (length data)), d') h' /\
    dev_holds h' d' (spec_write data c) L /\
    forall i call, rs !! i = Some call ->
      exists a, answer_of s' (S i) = Some a /\
        (call_at_once call d h = Done (a, d) h \/ call_at_once call d' h' = Done (a, d') h').
Proof.
  intros Hd Hrel Hu Hsup Hsz Hroom Hrs calls Hturns. pose proof alloc_max_addressable as Hmax.
  destruct (wp_done _ _ _ (wp_write_refines d c u data h L Hd Hrel Hu Hsup Hsz)) as ([ret dw] & hw & Hrun & Hret & Hdw).
  simpl in Hret, Hdw. subst ret. destruct Hd as (r & p & Hm & Hlay & Hflag & Hp & Hh).
  assert (has_newline data = true -> (length (lines c) < 10)%nat /\ r_full r = false) as Hspace.
  { intros Hnl. destruct Hroom as [Hlt|]; [|congruence]. split; [done|]. unfold flag_exact in Hflag. rewrite Hflag.
    apply bool_decide_eq_false_2. lia. }
  pose proof (dev_circ_holds _ _ _ _ _ Hh) as Hc.
  assert (total (lines c) + Z.of_nat (length (partial c ++ data)) < 2 ^ 62) as Hsmall.
  { pose proof (view_total_bound _ _ _ _ _ (dm_circ _ _ _ Hm) (layout_view _ _ Hlay) Hc). lia. }
  set (Inv := serving d r (lines c) (partial c ++ data) (has_newline data)).
  set (Q := fun i a => exists call, rs !! (i - 1)%nat = Some call /\ (reply (r_out r) (lines c) call = Some a \/
              (has_newline data = true /\ reply (r_out r) (lines c ++ [partial c ++ data]) call = Some a))).
  assert (changes later Inv Vacant (aesd_write_steps u (Z.of_nat (length data))) d h (fun _ _ _ _ => True)) as Hw.
  { eapply changes_aesd_write; try done; [apply Hm|by apply Hspace|by eapply circ_size_total, Hc; [apply Hm|]
      |by eapply own_ok_not_null, Hm|by apply Hspace|by rewrite Hp]. }
  assert (call_at_once (DWrite u (Z.of_nat (length data))) d h = Done (WriteAnswer (Z.of_nat (length data)), dw) hw) as Hat.
  { simpl. by erewrite bind_done by exact Hrun. }
  assert (rg_ok later Inv 0 (WriteAnswer (Z.of_nat (length data))) dw hw Q (start calls d h) Vacant) as Hok.
  { split; [by eapply changes_inv| |].
    - intros p0 Hp0. assert (p0 = call_steps (DWrite u (Z.of_nat (length data)))) as -> by (by injection Hp0).
      split; [|by apply (call_alone (DWrite u _))].
      apply (changes_bind later). eapply changes_mono; [exact Hw|]. intros a ph d' h' HI _. by apply (changes_ret later).
    - intros [|i] p0 Hi Hp0; [done|]. simpl in Hp0. rewrite list_lookup_fmap in Hp0.
      destruct (rs !! i) as [call|] eqn:Ei; simplify_eq/=. destruct (Forall_lookup_1 _ _ _ _ Hrs Ei).
      eapply observes_mono; [apply (observes_call d r (lines c) (partial c ++ data) (has_newline data)); try done; apply Hm|].
      intros a ph Ha. exists call. simpl. by rewrite Nat.sub_0_r. }
  destruct (rg_run later Inv _ _ _ _ _ _ _ sched Hok) as (s' & ph & E & Hok'). exists dw, hw, s'. split; [done|].
  destruct (all_answered _ _ _ _ _ Hturns E 0 _ eq_refl) as [a0 Ha0].
  pose proof (rg_answer later Inv _ _ _ _ _ _ _ 0 a0 Hok' Ha0) as (-> & Edw & Ehw). split_and!; [done..|].
  intros i call Hi. destruct (all_answered _ _ _ _ _ Hturns E (S i) call Hi) as [a Ha]. exists a. split; [done|].
  pose proof (rg_answer later Inv _ _ _ _ _ _ _ (S i) a Hok' Ha) as (call' & Hi' & HQ).
  simpl in Hi'. rewrite Nat.sub_0_r, Hi in Hi'. simplify_eq. destruct (Forall_lookup_1 _ _ _ _ Hrs Hi) as [Hcok _].
  destruct HQ as [HQ|[Hnl HQ]]; [left; by eapply reply_alone|right].
  pose proof (sv_out _ _ _ _ _ _ _ _ (rg_state _ _ _ _ _ _ _ _ _ Hok')) as Hout.
  destruct Hdw as (r' & p' & Hm' & Hlay' & _ & _ & Hh'). rewrite (cm_out _ _ (dm_circ _ _ _ Hm')) in Hout.
  apply Nat2Z.inj in Hout. eapply reply_alone; [done|done|done|done|]. rewrite Hout. unfold spec_write. rewrite Hnl. simpl.
  destruct (Hspace Hnl). by rewrite keep_last_le by (lia_len).
Qed.
End overlap.

(** A writer, a reader, a seek to the end and a seek command in turn, on a
    device just loaded. *)
Definition in_turn : list nat := concat (replicate 90 [0; 1; 2; 3]%nat).

Definition lookers : list driver_call :=
  [DRead (user_bytes []) 10 0; DSeek 0 0 SEEK_END;
   DIoctl AESDCHAR_IOCSEEKTO (user_bytes (seekto_encode (Seekto 0 1))) 0].

Lemma lookers_ok : Forall (fun call => driver_call_ok call /\ looks call = true) lookers.
Proof.
  constructor; [|constructor; [|constructor; [|constructor]]]; (split; [|done]); simpl; unfold pos_ok;
    split_and!; try lia; apply user_bytes_ok.
Qed.

Lemma writes_are_atomic_for_readers_witness :
  exists s', krun_sched (@start kmalloc (DWrite (user_bytes short_line) 3 :: lookers) loaded_dev loaded_heap) in_turn = inl s' /\
    answer_of s' 0 = Some (WriteAnswer 3) /\
    (exists a, answer_of s' 1 = Some a /\ (a = ReadAnswer (0, 0, []) \/ a = ReadAnswer (3, 3, short_line))) /\
    (exists a, answer_of s' 2 = Some a /\ (a = PosAnswer (0, 0) \/ a = PosAnswer (3, 3))) /\
    (exists a, answer_of s' 3 = Some a /\ (a = PosAnswer (- EINVAL, 0) \/ a = PosAnswer (0, 1))).
Proof.
  destruct (@writes_are_atomic_for_readers kmalloc loaded_dev no_contents (user_bytes short_line) short_line
    lookers loaded_heap [] in_turn loaded_holds kmalloc_reliable
    (user_bytes_ok _) (user_bytes_supplies _)) as (d' & h' & s' & Hrun & _ & _ & Hw & Hwr & _ & Hr).
  - vm_compute. congruence.
  - left. simpl. lia.
  - exact lookers_ok.
  - intros [|[|[|[|i]]]] c Hc; [..|done]; injection Hc as <-; vm_compute; lia.
  - exists s'. split; [exact Hrun|]. split; [exact Hw|].
    assert (forall i call before after, lookers !! i = Some call ->
      @call_at_once kmalloc call loaded_dev loaded_heap = Done (before, loaded_dev) loaded_heap ->
      match @call_at_once kmalloc (DWrite (user_bytes short_line) (Z.of_nat (length short_line))) loaded_dev loaded_heap with
      | Done (_, d2) h2 => match @call_at_once kmalloc call d2 h2 with Done (a, _) _ => a = after | Stuck _ => False end
      | Stuck _ => False
      end ->
      exists a, answer_of s' (S i) = Some a /\ (a = before \/ a = after)) as Hone.
    { intros i call before after Hi Hb Ha. destruct (Hr i call Hi) as (a & Ea & Hor). exists a. split; [exact Ea|].
      destruct Hor as [E|E]; [left; congruence|right]. by rewrite Hwr, E in Ha. }
    split_and!; [apply (Hone O _ _ _ eq_refl)|apply (Hone 1%nat _ _ _ eq_refl)|apply (Hone 2%nat _ _ _ eq_refl)]; by vm_compute.
Defined.
