(* ===== verification/DriverTurns.v ===== *)
(** * Calls one after the other, from the accesses to the abstract device

    The calls of any number of processes that do not overlap, each run access
    by access, do what [spec_call] says on the abstract device: they give its
    answers and leave its lines, its partial line and the slot of its oldest
    line behind.  This joins [DriverSteps] to the specification, through the
    operations of [CharDevice]. *)

From S2P Require Import Prelude CInt CMem Footprint Common CircularBuffer TemporaryBuffer.
From S2P Require Import Ring CircularFacts CircularSearch CharDevice DeviceFacts WriteFacts SeekFacts.
From S2P Require Import ModuleFacts DeviceSpec Scenario.
From S2P Require Import DeviceInterface DriverDevice DriverSteps DriverAlone RelyGuarantee DriverRaces DriverReaders DriverWriter.

(** ** The abstract calls *)

(** One call, with the answers that the caller's memory leads to. *)
Definition spec_call (call : driver_call) (x : line_store) : answer * line_store :=
  match call with
  | DRead u count f_pos => (ReadAnswer (read_result u (lines (kept x)) count f_pos), x)
  | DWrite u count =>
      let fetched := user_fetch u count in
      if fetched.2 =? 0 then (WriteAnswer count, store_write fetched.1 x) else (WriteAnswer (- EFAULT), x)
  | DSeek f_pos offset whence => (PosAnswer (llseek_result (total (lines (kept x))) f_pos offset whence), x)
  | DIoctl cmd arg f_pos => (PosAnswer (ioctl_reply (oldest x) (lines (kept x)) cmd arg f_pos), x)
  end.

(** The calls of [order]. *)
Fixpoint spec_calls (cs : list driver_call) (order : list nat) (x : line_store) : list answer * line_store :=
  match order with
  | [] => ([], x)
  | i :: order' =>
      match cs !! i with
      | Some call =>
          let (a, x1) := spec_call call x in
          let (answers, x') := spec_calls cs order' x1 in
          (a :: answers, x')
      | None => spec_calls cs order' x
      end
  end.

Definition call_bytes (call : driver_call) : Z := match call with DWrite _ count => count | _ => 0 end.

(** The bytes that the calls of [order] write. *)
Definition written (cs : list driver_call) (order : list nat) : Z :=
  foldr (fun i n => match cs !! i with Some call => call_bytes call | None => 0 end + n) 0 order.

(** ** The driver's calls against them *)

Section turns.
Context {A : Allocator} (L : list chunk) (Hrel : reliable).
Implicit Types (d : aesd_dev) (h : heap) (x : line_store) (cs : list driver_call) (order : list nat).

(** A write: of all it is given, or, when that cannot be fetched, of nothing. *)
Lemma write_refines d h x u count :
  driver_abs A L (d, h) x -> driver_call_ok (DWrite u count) ->
  Z.of_nat (length (partial (kept x))) + count <= alloc_max ->
  exists d' h', call_at_once (DWrite u count) d h = Done ((spec_call (DWrite u count) x).1, d') h' /\
    driver_abs A L (d', h') (spec_call (DWrite u count) x).2.
Proof.
  intros [Hd Ho] [Hu Hc] Hsz. cbn [fst snd] in *. cbn [spec_call call_at_once].
  pose proof (fetch_length _ Hu count ltac:(lia)) as Hlen. destruct (user_fetch u count) as [data left] eqn:Ef. cbn [fst snd] in *.
  destruct (Z.eqb_spec left 0) as [->|Hleft].
  - assert (count = Z.of_nat (length data)) as -> by lia.
    destruct (wp_done _ _ _ (wp_write_refines d (kept x) u data h L Hd Hrel Hu Ef ltac:(rewrite length_app; lia)))
      as ([ret d'] & h' & E & Hret & Hd'). cbn [fst snd] in *. subst ret.
    exists d', h'. split; [by erewrite bind_done by exact E|]. split; [exact Hd'|]. cbn [fst snd].
    destruct (write_out_offs A d (kept x) u data h L _ d' h' Hd Hu Ef (Nat2Z.is_nonneg _) E) as (o & Ho1 & ->).
    rewrite Ho in Ho1. by apply Nat2Z.inj in Ho1 as <-.
  - destruct Hd as (r & p & Hm & Hlay & Hflag & Hp & Hh).
    destruct (wp_done _ _ _ (wp_aesd_write _ _ _ _ _ _ _ Hm Hu (proj1 Hc) Hh))
      as ([ret d'] & h' & E & r' & p' & Hspec & Hm' & _ & _ & Hh').
    assert (ret = - EFAULT /\ r' = r /\ p' = p) as (-> & -> & ->).
    { cbn [fst] in Hspec. inversion Hspec as [Href| | ? ? Hf| ? ? Hf|? Hf|? Hf]; subst; try (rewrite Ef in Hf; simplify_eq); try done.
      exfalso. apply (reliable_not_refusable count Hrel); [lia|done]. }
    exists d', h'. split; [by erewrite bind_done by exact E|]. split; [by exists r, p|]. cbn [fst snd] in *.
    rewrite (cm_out _ _ (dm_circ _ _ _ Hm')), <- (cm_out _ _ (dm_circ _ _ _ Hm)). exact Ho.
Qed.

(** Any call. *)
Lemma call_refines d h x call :
  driver_abs A L (d, h) x -> driver_call_ok call ->
  Z.of_nat (length (partial (kept x))) + call_bytes call <= alloc_max ->
  exists d' h', call_at_once call d h = Done ((spec_call call x).1, d') h' /\ driver_abs A L (d', h') (spec_call call x).2.
Proof.
  intros Hx Hok Hsz. destruct call as [u count f_pos|u count|f_pos offset whence|cmd arg f_pos].
  2: by apply write_refines.
  all: exists d, h; destruct Hx as [Hd Ho]; split; [|by split];
    destruct Hd as (r & p & Hm & Hlay & _ & _ & Hh); cbn [fst snd] in *;
    rewrite (cm_out _ _ (dm_circ _ _ _ Hm)) in Ho; apply Nat2Z.inj in Ho;
    eapply reply_alone; [done..|cbn [reply spec_call fst]; by rewrite ?Ho].
Qed.

Lemma spec_call_partial call x :
  driver_call_ok call ->
  Z.of_nat (length (partial (kept (spec_call call x).2))) <= Z.of_nat (length (partial (kept x))) + call_bytes call.
Proof.
  intros Hok. destruct call as [u count f_pos|u count|f_pos offset whence|cmd arg f_pos]; cbn [spec_call call_bytes]; try (simpl; lia).
  destruct Hok as [Hu Hc]. pose proof (fetch_length _ Hu count ltac:(lia)) as Hlen. destruct (Z.eqb_spec (user_fetch u count).2 0); cbn [snd]; [|lia].
  pose proof (store_write_hidden (user_fetch u count).1 x). lia.
Qed.

Lemma calls_refine cs order d h x :
  driver_abs A L (d, h) x -> Forall driver_call_ok cs ->
  Z.of_nat (length (partial (kept x))) + written cs order <= alloc_max ->
  exists d' h', calls_at_once cs order d h = Done ((spec_calls cs order x).1, d') h' /\
    driver_abs A L (d', h') (spec_calls cs order x).2.
Proof.
  intros Hx Hcs. revert d h x Hx. induction order as [|i order IH]; intros d h x Hx Hsz; [by exists d, h|].
  cbn [calls_at_once spec_calls written foldr] in *. fold (written cs order) in Hsz.
  assert (0 <= written cs order) as Hpos.
  { clear -Hcs. induction order as [|i order IH]; [done|]. cbn [written foldr]. fold (written cs order).
    destruct (cs !! i) as [call|] eqn:Ei; [|lia]. pose proof (Forall_lookup_1 _ _ _ _ Hcs Ei) as Hok.
    destruct call; simpl in *; lia. }
  destruct (cs !! i) as [call|] eqn:Ei; [|by apply IH]. pose proof (Forall_lookup_1 _ _ _ _ Hcs Ei) as Hok.
  destruct (call_refines d h x call Hx Hok ltac:(lia)) as (d1 & h1 & E1 & Hx1).
  pose proof (spec_call_partial call x Hok). destruct (spec_call call x) as [a x1]. cbn [fst snd] in *.
  destruct (IH d1 h1 x1 Hx1 ltac:(lia)) as (d2 & h2 & E2 & Hx2). destruct (spec_calls cs order x1) as [answers x2].
  exists d2, h2. split; [|exact Hx2]. erewrite bind_done by exact E1. by erewrite bind_done by exact E2.
Qed.

(** C16: while the driver has memory, the calls of any processes, one after
    the other in any order and each run access by access, implement the
    abstract device: each is answered as [spec_call] says, reads with the
    bytes of the lines from their position on, writes that cannot fetch their
    data with [-EFAULT]; and the device ends up with the lines, the partial
    line and the slot of the oldest line that the abstract calls lead to, and
    no other memory. *)
Theorem calls_in_turn_implement_spec cs order d h x :
  driver_abs A L (d, h) x -> Forall driver_call_ok cs ->
  Z.of_nat (length (partial (kept x))) + written cs order <= alloc_max ->
  NoDup order -> Forall (fun i => (i < length cs)%nat) order ->
  let (answers, x') := spec_calls cs order x in
  exists s', krun_sched (start cs d h) (one_by_one cs order) = inl s' /\
    driver_abs A L (kdev s', kheap s') x' /\
    forall k i, order !! k = Some i -> answer_of s' i = answers !! k.
Proof using Hrel.
  intros Hx Hcs Hsz Hnd Hlt. destruct (calls_refine cs order d h x Hx Hcs Hsz) as (d' & h' & E & Hx').
  destruct (spec_calls cs order x) as [answers x']. cbn [fst snd] in *.
  destruct Hx as [(r & p & Hm & _ & _ & _ & Hh) _].
  destruct (calls_without_overlap_are_atomic d r p cs order h L Hm Hh Hcs Hnd Hlt) as (s' & answers' & Hrun & Hat & Hk).
  rewrite E in Hat. injection Hat as <- -> ->. by exists s'.
Qed.
End turns.

(** A write, a read, a seek command and a seek to the end, in this order, on a
    full device whose oldest line is in slot 1. *)
Definition four_calls : list driver_call :=
  [DRead (user_bytes []) 100 24; DWrite (user_bytes line_x) 2; DSeek 0 0 SEEK_END;
   DIoctl AESDCHAR_IOCSEEKTO (user_bytes (seekto_encode (Seekto 9 1))) 0].

Lemma calls_in_turn_implement_spec_witness :
  exists s', krun_sched (full_start four_calls) (one_by_one four_calls [1; 0; 3; 2]%nat) = inl s' /\
    answer_of s' 0 = Some (ReadAnswer (7, 31, long_line)) /\ answer_of s' 1 = Some (WriteAnswer 2) /\
    answer_of s' 2 = Some (PosAnswer (33, 33)) /\ answer_of s' 3 = Some (PosAnswer (0, 32)) /\
    driver_abs kmalloc [] (kdev s', kheap s') (Stored (Contents (replicate 8 short_line ++ [long_line; line_x]) []) 2).
Proof.
  assert (Forall driver_call_ok four_calls) as Hok.
  { unfold four_calls. repeat constructor; simpl; unfold pos_ok; try lia; apply user_bytes_ok. }
  destruct (@calls_in_turn_implement_spec kmalloc [] kmalloc_reliable four_calls [1; 0; 3; 2]%nat wrapped_dev wrapped_heap
    (Stored (Contents wrapped_lines []) 1)) as (s' & Hrun & Habs & Hk).
  - split; [|done]. exists wrapped_ring, None.
    split_and!; [exact wrapped_models|exact wrapped_layout|done|done|exact wrapped_holds].
  - exact Hok.
  - vm_compute. discriminate.
  - apply (bool_decide_unpack _). by vm_compute.
  - repeat constructor; simpl; lia.
  - exists s'. split; [exact Hrun|]. split_and!; [exact (Hk 1%nat 0%nat eq_refl)|exact (Hk 0%nat 1%nat eq_refl)
      |exact (Hk 3%nat 2%nat eq_refl)|exact (Hk 2%nat 3%nat eq_refl)|exact Habs].
Defined.
