(* ===== verification/DriverFull.v ===== *)
(** * A full device needs a lock

    While there is room a write next to other calls is harmless
    ([DriverWriter]).  On a full device a write of a line frees the oldest
    entry, and every call that has its pointer then uses freed memory.  The
    schedules of [DriverRaces] are examples; here they are found for every
    full device, every line and every oldest entry. *)

From S2P Require Import Prelude CInt CMem Footprint Common CircularBuffer TemporaryBuffer.
From S2P Require Import Ring CircularFacts CircularSearch CharDevice DeviceFacts WriteFacts SeekFacts.
From S2P Require Import ModuleFacts DeviceSpec Scenario DriverSteps DriverAlone RelyGuarantee DriverRaces.

(** ** A process up to a point of its program *)

(** Run alone, the program comes to a point where [Q] holds of the rest of
    it, the device and the heap. *)
Inductive leads {A} (Q : kprog A -> aesd_dev -> heap -> Prop) : kprog A -> aesd_dev -> heap -> Prop :=
  | leads_now p d h : Q p d h -> leads Q p d h
  | leads_step X (c : access X) k d h x d1 h1 :
      do_access c d h = Done (x, d1) h1 -> leads Q (k x) d1 h1 -> leads Q (KStep c k) d h.

Section leads.
Context {A B X : Type}.
Implicit Types (d : aesd_dev) (h : heap).

(** A point inside the first part of a program. *)
Lemma leads_within (Q : kprog A -> aesd_dev -> heap -> Prop) (Q' : kprog B -> aesd_dev -> heap -> Prop) p k d h :
  leads Q p d h -> (forall p' d' h', Q p' d' h' -> Q' (p' ≫= k) d' h') -> leads Q' (p ≫= k) d h.
Proof. intros Hp HQ. induction Hp; [apply leads_now; auto|by eapply leads_step]. Qed.

(** Past the first part. *)
Lemma leads_bind (Q : kprog B -> aesd_dev -> heap -> Prop) (p : kprog A) (k : A -> kprog B) d h a d' h' :
  krun p d h = Done (a, d') h' -> leads Q (k a) d' h' -> leads Q (p ≫= k) d h.
Proof.
  unfold mbind, kprog_bind. revert d h. induction p as [b|Y c k' IH]; intros d h E Hk; simpl in E.
  - by injection E as -> -> ->.
  - unfold mbind, M_bind in E. destruct (do_access c d h) as [[x d1] h1|f] eqn:Ex; [|done].
    eapply leads_step; [exact Ex|]. by apply IH.
Qed.

Lemma leads_load (Q : kprog B -> aesd_dev -> heap -> Prop) (f : field X) (k : X -> kprog B) d h x :
  load_field d f = mret x -> leads Q (k x) d h -> leads Q (load f ≫= k) d h.
Proof. intros Hx Hk. eapply leads_step; [|exact Hk]. simpl. by rewrite Hx. Qed.

Lemma leads_memory (Q : kprog B -> aesd_dev -> heap -> Prop) (m : M X) (k : X -> kprog B) d h :
  wp m (fun x h' => leads Q (k x) d h') h -> leads Q (memory m ≫= k) d h.
Proof.
  intros (x & h' & Hx & Hk)%wp_done. eapply leads_step; [|exact Hk].
  simpl. unfold mbind, M_bind. by rewrite Hx.
Qed.
End leads.

(** The turns that take the process there. *)
Lemma leads_turns Q s i p :
  procs s !! i = Some p -> leads Q p (kdev s) (kheap s) ->
  exists n p' d' h', krun_sched s (turns n i) = inl (Kstate (<[i := p']> (procs s)) d' h') /\ Q p' d' h'.
Proof.
  intros Hi Hp. remember (kdev s) as d eqn:Ed. remember (kheap s) as h eqn:Eh. revert s Hi Ed Eh.
  induction Hp as [p d h HQ|X c k d h x d1 h1 Ex Hk IH]; intros s Hi -> ->.
  - exists O, p, (kdev s), (kheap s). split; [|done]. simpl. rewrite list_insert_id by done. by destruct s.
  - destruct (IH (Kstate (<[i := k x]> (procs s)) d1 h1)) as (n & p' & d' & h' & E & HQ); [|done..|].
    { apply list_lookup_insert_eq. by eapply lookup_lt_Some. }
    exists (S n), p', d', h'. split; [|done]. change (turns (S n) i) with (i :: turns n i).
    cbn [krun_sched]. unfold kstep. rewrite Hi, Ex, E. simpl. by rewrite list_insert_insert_eq.
Qed.

(** ** Up to the oldest entry *)

Section full.
Context `{Allocator}.
Implicit Types (d : aesd_dev) (h : heap) (L K : list chunk).

Lemma own_ok_block p (b : block) : own_ok p b -> b <> [] -> exists i, p = Ptr i.
Proof. destruct p as [| |i]; simpl; [done|by intros ->|by eexists]. Qed.

(** The block of the oldest line. *)
Lemma oldest_entry d r p old rest h L :
  dev_models d r p -> layout r (old :: rest) -> holds h (dev_chunks d r p ++ L) -> old <> [] ->
  exists i n, arr_get (entry (circ d)) (out_offs (circ d)) = mret (Entry (Ptr i) n) /\ n = Z.of_nat (length old) /\
    forall h' L', holds h' (dev_chunks d r p ++ L') -> is_Some (blocks h' !! i).
Proof.
  intros Hd Hlay Hh Hold. pose proof (dm_circ _ _ _ Hd) as Hm.
  assert (slots r !! r_out r = Some (Some old)) as Hs.
  { rewrite <- (Nat.mod_small (r_out r) 10) by apply (lay_out _ _ Hlay).
    rewrite <- (Nat.add_0_r (r_out r)). by rewrite (lay_at _ _ Hlay) by lia. }
  destruct (arr_get_models _ _ _ _ (cm_entries _ _ Hm) Hs) as ([q n] & He & [Hsz Hok] & Hget).
  simpl in Hsz, Hok. destruct (own_ok_block _ _ Hok) as [i ->]; [by destruct old|].
  exists i, n. rewrite (cm_out _ _ Hm). split_and!; [done|done|].
  intros h' L' Hh'. unfold dev_chunks, circ_chunks in Hh'. rewrite (circ_chunks_take _ _ _ _ _ He Hs) in Hh'.
  simpl own in Hh'. exists (Some <$> old).
  destruct (holds_split h' _ [(i, Some <$> old)] Hh') as [F HF]; [simpl; solve_submseteq|].
  by eapply holds_lookup.
Qed.

(** A writer of a line about to free the oldest entry. *)
Definition about_to_free d r (p : option (list byte)) (i : positive) {A} (prog : kprog A) d' h' : Prop :=
  d' = d /\ (exists k, prog = memory (my_free (Ptr i)) ≫= k) /\ exists K, holds h' (dev_chunks d r p ++ K).

Lemma free_before d r p i {A B} (k : A -> kprog B) prog d' h' :
  about_to_free d r p i prog d' h' -> about_to_free d r p i (prog ≫= k) d' h'.
Proof. intros (-> & [k' ->] & HK). split; [done|]. split; [|exact HK]. by eexists. Qed.

Lemma writer_leads d r p i n u data h L :
  dev_models d r p -> default [] p = [] -> r_full r = true -> arr_get (entry (circ d)) (out_offs (circ d)) = mret (Entry (Ptr i) n) ->
  holds h (dev_chunks d r p ++ L) -> reliable -> user_ok u -> supplies u data ->
  Z.of_nat (length data) <= alloc_max -> has_newline data = true ->
  leads (about_to_free d r p i) (call_steps (DWrite u (Z.of_nat (length data)))) d h.
Proof.
  intros Hd Hp Hfull He Hh Hrel Hu Hsup Hsz Hnl. unfold supplies in Hsup.
  assert (is_null (bufferCircular d) = false) as Hcn by exact (own_ok_not_null _ _ (dm_cptr _ _ _ Hd)).
  assert (is_null (bufferTemperary d) = false) as Htn by exact (own_ok_not_null _ _ (dm_tptr _ _ _ Hd)).
  eapply leads_within; [|apply free_before]. unfold aesd_write_steps. do 2 (eapply leads_load; [done|]). apply leads_memory.
  eapply wp_mono; [apply (wp_alloc _ _ _ Hh); lia|]. intros kbuf h1 [Hh1 Hk].
  rewrite (alloc_serves_not_null _ _ _ _ Hk). rewrite reliable_serves in Hk |- * by done. cbn [negb].
  apply leads_memory. eapply wp_mono; [eapply wp_fetch; [exact Hu|lia|exact Hh1|exact Hk]|].
  intros _ h2 (b & Hh2 & Hb & Hdata). rewrite Hsup in Hdata |- *. specialize (Hdata eq_refl).
  simpl in Hdata. subst b. cbn [snd Z.eqb negb].
  pose proof (scan_newline_own (Z.to_nat (Z.of_nat (length data))) kbuf data 0 _ _ Hh2 Hb ltac:(lia)) as Hscan.
  rewrite drop_0, Hnl in Hscan. eapply leads_bind; [by apply scan_newline_alone|].
  eapply leads_bind; [by apply tmp_is_empty_alone|]. rewrite (is_empty_spec _ _ (dm_tmp _ _ _ Hd)).
  rewrite bool_decide_eq_true_2 by done. eapply leads_within; [|apply free_before]. unfold add_entry_steps. rewrite Hcn. eapply leads_load; [eval_access|].
  rewrite (cm_full _ _ (dm_circ _ _ _ Hd)), Hfull. eapply leads_within; [|apply free_before]. unfold release_oldest_steps. eapply leads_load; [eval_access|].
  eapply leads_load; [eval_access|]. apply leads_now. split; [done|]. split; [by eexists|].
  eexists. by rewrite Permutation_app_comm in Hh2; rewrite <- app_assoc in Hh2.
Qed.

(** A reader that has found the oldest entry, about to copy from it. *)
Definition about_to_copy d h (i : positive) {A} (prog : kprog A) d' h' : Prop :=
  d' = d /\ h' = h /\ exists off n k, prog = memory (load_init (Ptr i) off n) ≫= k.

Lemma copy_before d h i {A B} (k : A -> kprog B) prog d' h' :
  about_to_copy d h i prog d' h' -> about_to_copy d h i (prog ≫= k) d' h'.
Proof. intros (-> & -> & off & n & k' & ->). split; [done|]. split; [done|]. by do 3 eexists. Qed.

Lemma reader_leads d r p i n old rest u count f_pos h L :
  dev_models d r p -> layout r (old :: rest) -> arr_get (entry (circ d)) (out_offs (circ d)) = mret (Entry (Ptr i) n) ->
  holds h (dev_chunks d r p ++ L) -> 0 <= f_pos < Z.of_nat (length old) ->
  leads (about_to_copy d h i) (call_steps (DRead u count f_pos)) d h.
Proof.
  intros Hd Hlay He Hh Hpos. pose proof (dev_total_bound _ _ _ _ _ Hd Hh) as Htot.
  rewrite (layout_queue_of _ _ Hlay), total_cons in Htot. pose proof (total_nonneg rest).
  assert (is_null (bufferCircular d) = false) as Hcn by exact (own_ok_not_null _ _ (dm_cptr _ _ _ Hd)).
  eapply leads_within; [|apply copy_before]. unfold aesd_read_steps. eapply leads_load; [done|].
  pose proof (find_fpos_spec _ _ _ (dm_circ _ _ _ Hd) (layout_view _ _ Hlay)
    ltac:(rewrite total_cons; lia) f_pos (Some 0) ltac:(lia)) as Hfind.
  pose proof (locate_at (old :: rest) 0 f_pos old eq_refl Hpos) as Hloc. change (total _) with 0 in Hloc.
  rewrite Z.add_0_l in Hloc. rewrite u64_loff by lia. eapply leads_bind.
  { apply (find_fpos_alone _ _ _ _ (Some (Z.of_nat ((r_out r + 0) mod 10)), Some f_pos) h). rewrite Hcn, Hfind.
    by rewrite Hloc. }
  rewrite Nat.add_0_r, Nat.mod_small, <- (cm_out _ _ (dm_circ _ _ _ Hd)) by apply (lay_out _ _ Hlay).
  eapply leads_load; [eval_access|]. eapply leads_load; [eval_access|].
  apply leads_now. split; [done|]. split; [done|]. by do 3 eexists.
Qed.

(** ** The step that frees, and what comes too late *)

Lemma kstep_free s j i (k : () -> kprog answer) :
  procs s !! j = Some (memory (my_free (Ptr i)) ≫= k) -> is_Some (blocks (kheap s) !! i) ->
  exists s', kstep s j = inl s' /\ procs s' = <[j := k ()]> (procs s) /\ blocks (kheap s') !! i = None.
Proof.
  intros Hj [b Hb]. unfold kstep. rewrite Hj. simpl. unfold my_free, free, mbind, M_bind. rewrite Hb.
  eexists. split; [done|]. split; [done|]. apply lookup_delete_eq.
Qed.

Lemma kstep_free_late s j i (k : () -> kprog answer) :
  procs s !! j = Some (memory (my_free (Ptr i)) ≫= k) -> blocks (kheap s) !! i = None -> kstep s j = inr Dangling.
Proof. intros Hj Hb. unfold kstep. rewrite Hj. simpl. unfold my_free, free, mbind, M_bind. by rewrite Hb. Qed.

Lemma kstep_copy_late s j i off n (k : list byte -> kprog answer) :
  procs s !! j = Some (memory (load_init (Ptr i) off n) ≫= k) -> blocks (kheap s) !! i = None -> kstep s j = inr Dangling.
Proof.
  intros Hj Hb. unfold kstep. rewrite Hj. simpl. unfold load_init, load_bytes, get_block, mbind, M_bind. by rewrite Hb.
Qed.

(** The kernel's buffer of a write that supplies a line. *)
Definition supplies_line (u : user_buffer) (data : list byte) : Prop :=
  user_ok u /\ supplies u data /\ Z.of_nat (length data) <= alloc_max /\ has_newline data = true.

(** C37: on a full device, whatever its lines, a write of a line and a call
    that uses the oldest entry need a lock: for every two writes of lines
    there is an order of their accesses in which the oldest entry is freed
    twice, and for every read in the oldest line one in which it copies from
    freed memory. *)
Theorem full_device_needs_lock d c old rest u data h L :
  dev_holds h d c L -> reliable -> lines c = old :: rest -> length (lines c) = 10%nat -> old <> [] -> partial c = [] ->
  supplies_line u data ->
  (forall u2 data2, supplies_line u2 data2 ->
     exists sched, krun_sched (start [DWrite u (Z.of_nat (length data)); DWrite u2 (Z.of_nat (length data2))] d h) sched =
       inr Dangling) /\
  (forall u2 count f_pos, 0 <= f_pos < Z.of_nat (length old) ->
     exists sched, krun_sched (start [DWrite u (Z.of_nat (length data)); DRead u2 count f_pos] d h) sched = inr Dangling).
Proof.
  intros (r & p & Hd & Hlay & Hflag & Hp & Hh) Hrel Hc Hten Hold Hpart (Hu & Hsup & Hsz & Hnl).
  rewrite Hpart in Hp. unfold flag_exact in Hflag. rewrite bool_decide_eq_true_2 in Hflag by done. rewrite Hc in Hlay.
  destruct (oldest_entry d r p old rest h L Hd Hlay Hh Hold) as (i & n & He & _ & Hblk).
  assert (forall call, exists n0 prog0 h0 K, krun_sched (start [DWrite u (Z.of_nat (length data)); call] d h) (turns n0 0) =
      inl (Kstate [prog0; call_steps call] d h0) /\ holds h0 (dev_chunks d r p ++ K) /\
      exists k, prog0 = memory (my_free (Ptr i)) ≫= k) as Hfirst.
  { intros call. destruct (leads_turns (about_to_free d r p i)
      (start [DWrite u (Z.of_nat (length data)); call] d h) 0 _ eq_refl) as (n0 & prog0 & d0 & h0 & E & -> & Hk & K & HK).
    - by eapply writer_leads.
    - by exists n0, prog0, h0, K. }
  split.
  - intros u2 data2 (Hu2 & Hsup2 & Hsz2 & Hnl2).
    destruct (Hfirst (DWrite u2 (Z.of_nat (length data2)))) as (n0 & prog0 & h0 & K & E0 & HK & k0 & ->).
    destruct (leads_turns (about_to_free d r p i)
      (Kstate [memory (my_free (Ptr i)) ≫= k0; call_steps (DWrite u2 (Z.of_nat (length data2)))] d h0) 1 _ eq_refl)
      as (n1 & prog1 & d1 & h1 & E1 & -> & (k1 & ->) & K1 & HK1); [by eapply writer_leads|].
    destruct (kstep_free (Kstate [memory (my_free (Ptr i)) ≫= k0; memory (my_free (Ptr i)) ≫= k1] d h1) 1 i k1 eq_refl
      ltac:(by eapply Hblk)) as (s2 & E2 & Ep2 & Hb2).
    exists (turns n0 0 ++ turns n1 1 ++ [1; 0]%nat). rewrite (krun_sched_app _ _ _ _ E0), (krun_sched_app _ _ _ _ E1).
    transitivity (krun_sched (Kstate [memory (my_free (Ptr i)) ≫= k0; memory (my_free (Ptr i)) ≫= k1] d h1) [1; 0]%nat);
      [done|]. cbn [krun_sched]. rewrite E2.
    by rewrite (kstep_free_late s2 0 i k0) by (by rewrite ?Ep2).
  - intros u2 count f_pos Hpos.
    destruct (Hfirst (DRead u2 count f_pos)) as (n0 & prog0 & h0 & K & E0 & HK & k0 & ->).
    destruct (leads_turns (about_to_copy d h0 i)
      (Kstate [memory (my_free (Ptr i)) ≫= k0; call_steps (DRead u2 count f_pos)] d h0) 1 _ eq_refl)
      as (n1 & prog1 & d1 & h1 & E1 & -> & -> & off & m & k1 & ->); [by eapply reader_leads|].
    destruct (kstep_free (Kstate [memory (my_free (Ptr i)) ≫= k0; memory (load_init (Ptr i) off m) ≫= k1] d h0) 0 i k0 eq_refl
      ltac:(by eapply Hblk)) as (s2 & E2 & Ep2 & Hb2).
    exists (turns n0 0 ++ turns n1 1 ++ [0; 1]%nat). rewrite (krun_sched_app _ _ _ _ E0), (krun_sched_app _ _ _ _ E1).
    transitivity (krun_sched (Kstate [memory (my_free (Ptr i)) ≫= k0; memory (load_init (Ptr i) off m) ≫= k1] d h0) [0; 1]%nat);
      [done|]. cbn [krun_sched]. rewrite E2.
    by rewrite (kstep_copy_late s2 1 i off m k1) by (by rewrite ?Ep2).
Qed.
End full.

Lemma full_device_needs_lock_witness :
  (exists sched, krun_sched (full_start two_writers) sched = inr Dangling) /\
  (exists sched, krun_sched (full_start [DWrite (user_bytes line_x) 2; DRead (user_bytes []) 100 2]) sched = inr Dangling).
Proof.
  assert (forall l, has_newline l = true -> Z.of_nat (length l) <= 100 -> @supplies_line kmalloc (user_bytes l) l) as Hline.
  { intros l Hnl Hl. split_and!; [apply user_bytes_ok|apply user_bytes_supplies|simpl; lia|done]. }
  destruct (@full_device_needs_lock kmalloc wrapped_dev (Contents wrapped_lines []) short_line
    (replicate 8 short_line ++ [long_line]) (user_bytes line_x) line_x wrapped_heap []) as [Hw Hr].
  - exists wrapped_ring, None. split_and!; [exact wrapped_models|exact wrapped_layout|by vm_compute|done|exact wrapped_holds].
  - exact kmalloc_reliable.
  - reflexivity.
  - reflexivity.
  - done.
  - reflexivity.
  - apply Hline; [by vm_compute|simpl; lia].
  - split; [exact (Hw (user_bytes line_y) line_y (Hline line_y ltac:(by vm_compute) ltac:(simpl; lia)))|].
    exact (Hr (user_bytes []) 100 2 ltac:(simpl; lia)).
Defined.
