(* ===== verification/Validate.v ===== *)
(** * [examples/autotest-validate] and the unit test of the user name

    The constants of [autotest-validate.c], what [autotest-validate-main.c]
    prints, and [Test_validate_username.c].  The reader of the configuration
    file and the assertion of the test framework are in submodules: both are
    parameters, with what the test relies on as hypotheses. *)

From Stdlib.Strings Require Import String Ascii.
From S2P Require Import Prelude CInt CMem Footprint Concrete.

#[local] Open Scope string_scope.

Definition this_function_returns_true : bool := true.
Definition this_function_returns_false : bool := false.

Definition my_username : string := "FilipOwsiany".
Definition git_username : string := "akshita-bhasin".

(** The line of [conf/username.txt]. *)
Definition conf_username : string := "FilipOwsiany".

Definition newline : string := String (ascii_of_nat 10) EmptyString.

(** What the program prints. *)
Definition validate_main : list string :=
  ["this_function_returns_true returned " ++ (if this_function_returns_true then "true" else "false") ++ newline;
   "this_function_returns_false returned " ++ (if this_function_returns_false then "true" else "false") ++ newline].

(** [\0] behind the bytes. *)
Definition c_string (s : string) : block := Some <$> (bytes s ++ [ch_nul])%list.

Section test.
(** [malloc_username_from_conf_file] of the [assignment-autotest] submodule, and
    [TEST_ASSERT_EQUAL_STRING_MESSAGE] of Unity: [false] when the assertion
    fails, and the rest of the test is then not run. *)
Context (malloc_username_from_conf_file : M ptr) (assert_equal_string : string -> ptr -> M bool).

Definition test_validate_my_username : M bool :=
  username_from_conf_file ← malloc_username_from_conf_file;
  equal ← assert_equal_string my_username username_from_conf_file;
  if (equal : bool) then
    _ ← free username_from_conf_file;
    mret true
  else mret false.

Context `{Allocator}.

(** The string of the configuration file, in a block of its own. *)
Hypothesis conf_reads : forall h L, holds h L ->
  wp malloc_username_from_conf_file
     (fun p h' => own_ok p (c_string conf_username) /\ holds h' (own p (c_string conf_username) ++ L)) h.
(** The assertion compares the strings. *)
Hypothesis assert_compares : forall h p name expected L, own_ok p (c_string name) -> holds h (own p (c_string name) ++ L) ->
  assert_equal_string expected p h = Done (bool_decide (expected = name)) h.

(** The test passes for the configuration of this repository and gives the
    string back. *)
Lemma username_test_passes h L :
  holds h L -> wp test_validate_my_username (fun ok h' => ok = true /\ holds h' L) h.
Proof.
  intros Hh. unfold test_validate_my_username. apply wp_bind.
  eapply wp_mono; [by apply (conf_reads h L Hh)|]. intros p h1 [Hp Hh1].
  apply wp_bind. unfold wp at 1. rewrite (assert_compares _ _ _ _ _ Hp Hh1).
  apply wp_bind. eapply wp_mono; [by eapply wp_free|]. intros _ h2 [Hh2 _]. by apply wp_ret.
Qed.
End test.

(** Functions that keep both contracts. *)
Definition read_conf : M ptr :=
  p ← @alloc malloc 13; _ ← store_bytes p 0 (c_string conf_username); mret p.
Definition same_string (expected : string) (p : ptr) : M bool :=
  b ← get_block p; mret (bool_decide (b = c_string expected)).

Lemma c_string_inj s t : c_string s = c_string t -> s = t.
Proof.
  intros E%(inj (fmap Some))%app_inv_tail. unfold bytes in E.
  by rewrite <- (string_of_list_byte_of_string s), E, string_of_list_byte_of_string.
Qed.

Lemma username_test_passes_instance :
  @wp bool (test_validate_my_username read_conf same_string) (fun ok h' => ok = true /\ @holds malloc h' []) empty_heap.
Proof.
  apply (@username_test_passes read_conf same_string malloc); [| |apply holds_empty].
  - intros h L Hh. unfold read_conf. apply wp_bind.
    eapply wp_mono; [by apply (@wp_alloc malloc _ _ _ Hh)|]. intros p h1 [Hh1 Hp]. cbn in Hp.
    apply wp_bind. eapply wp_mono; [by eapply (@wp_store_bytes malloc)|]. intros _ h2 [Hh2 _].
    apply wp_ret. split; [by destruct p|exact Hh2].
  - intros h p name expected L Hp Hh. unfold same_string.
    rewrite (bind_done _ _ _ _ _ (@get_block_own malloc _ _ _ _ Hh Hp)). unfold mret, M_ret. f_equal.
    apply bool_decide_ext. split; [by intros ->%c_string_inj|by intros ->].
Qed.

(** The two names of the program differ. *)
Lemma git_username_differs : my_username = conf_username /\ git_username <> my_username.
Proof. done. Qed.

Lemma validate_main_prints :
  validate_main = ["this_function_returns_true returned true" ++ newline;
                   "this_function_returns_false returned false" ++ newline].
Proof. done. Qed.
